(** * exile-ai: the chat orchestration engine, embedded and verified

    A shallow embedding of the LLM services of the repository
    ([app/services/llm/*.py]) together with the properties its design
    document states about them.

    Conventions of the embedding.
    - A Python [str] is a Rocq [string] that holds its UTF-8 encoding, one
      [ascii] for one byte.  Lengths, slices and [strip] work on the
      characters (code points) of the text, as Python's do; substring tests
      and splits at an ASCII separator work on the bytes, where UTF-8 gives
      the same answer.
    - A Python [int] is a [Z].
    - [None] is [None]; a value that the code tests for truthiness is tested
      with [truthy] (the empty string and [None] are falsy).
    - Exceptions are values of [Exc]; a fallible computation returns a
      [Result]. *)

From Stdlib Require Import ZArith List Ascii String Bool Lia.
From Stdlib Require Reals Lra Floats.
From stdpp Require Import base tactics option list strings gmap pretty sorting.

Local Open Scope string_scope.
Local Open Scope list_scope.
Local Open Scope Z_scope.

Set Warnings "-register-all".

(* ===================================================================== *)
(** * Python strings                                                      *)
(* ===================================================================== *)

Module PyStr.

(** The bytes of the UTF-8 encoding of a string. *)
Definition bytes (s : string) : list ascii := list_ascii_of_string s.
Definition str (l : list ascii) : string := string_of_list_ascii l.

(** A character (a code point), as the bytes that encode it. *)
Definition char : Type := list ascii.

(** A continuation byte of UTF-8, [10xxxxxx]. *)
Definition is_continuation (b : ascii) : bool :=
  let n := nat_of_ascii b in (128 <=? n)%nat && (n <=? 191)%nat.

(** The characters of a list of bytes: a character is a byte together with
    the continuation bytes that follow it. *)
Fixpoint group (l : list ascii) : list char :=
  match l with
  | [] => []
  | b :: l' =>
      match group l' with
      | (c :: g) :: gs =>
          if is_continuation c then (b :: c :: g) :: gs
          else [b] :: (c :: g) :: gs
      | gs => [b] :: gs
      end
  end.

(** The characters of a string, in order, and the string of a list of
    characters. *)
Definition chars (s : string) : list char := group (bytes s).
Definition of_chars (l : list char) : string := str (concat l).

(** [len(s)]: the number of characters. *)
Definition len (s : string) : Z := Z.of_nat (length (chars s)).

(** [bool(s)] for a string. *)
Definition truthy (s : string) : bool :=
  match s with EmptyString => false | _ => true end.

(** [bool(x)] for an optional string ([None] and [""] are falsy). *)
Definition otruthy (o : option string) : bool :=
  match o with Some s => truthy s | None => false end.

(** [x or d] where [x] is an optional string. *)
Definition or_else (o : option string) (d : string) : string :=
  match o with
  | Some s => if truthy s then s else d
  | None => d
  end.

(** The UTF-8 encoding of a code point. *)
Definition utf8 (n : N) : char :=
  (if n <? 0x80 then [ascii_of_N n]
   else if n <? 0x800 then
     [ascii_of_N (0xC0 + n / 0x40); ascii_of_N (0x80 + n mod 0x40)]
   else if n <? 0x10000 then
     [ascii_of_N (0xE0 + n / 0x1000); ascii_of_N (0x80 + (n / 0x40) mod 0x40);
      ascii_of_N (0x80 + n mod 0x40)]
   else
     [ascii_of_N (0xF0 + n / 0x40000); ascii_of_N (0x80 + (n / 0x1000) mod 0x40);
      ascii_of_N (0x80 + (n / 0x40) mod 0x40); ascii_of_N (0x80 + n mod 0x40)])%N.

(** The code points for which [str.isspace] holds, which are the ones
    [str.strip()] removes. *)
Definition whitespace_code_points : list N :=
  [0x09; 0x0A; 0x0B; 0x0C; 0x0D; 0x1C; 0x1D; 0x1E; 0x1F; 0x20; 0x85; 0xA0;
   0x1680; 0x2000; 0x2001; 0x2002; 0x2003; 0x2004; 0x2005; 0x2006; 0x2007;
   0x2008; 0x2009; 0x200A; 0x2028; 0x2029; 0x202F; 0x205F; 0x3000]%N.

Definition whitespace : list char := map utf8 whitespace_code_points.

Definition is_space (c : char) : bool := bool_decide (c ∈ whitespace).

Fixpoint lstrip_chars (l : list char) : list char :=
  match l with
  | c :: l' => if is_space c then lstrip_chars l' else l
  | [] => []
  end.

Fixpoint rstrip_chars (l : list char) : list char :=
  match l with
  | [] => []
  | c :: l' =>
      match rstrip_chars l' with
      | [] => if is_space c then [] else [c]
      | r => c :: r
      end
  end.

(** [s.strip()] *)
Definition strip (s : string) : string :=
  of_chars (rstrip_chars (lstrip_chars (chars s))).

Fixpoint drop_while_eq (x : ascii) (l : list ascii) : list ascii :=
  match l with
  | c :: l' => if Ascii.eqb c x then drop_while_eq x l' else l
  | [] => []
  end.

(** [s.rstrip("/")].  The slash is one byte, which is no part of the
    encoding of any other character. *)
Definition rstrip_slash (s : string) : string :=
  str (rev (drop_while_eq "/"%char (rev (bytes s)))).

Definition lower_char (c : ascii) : ascii :=
  let n := nat_of_ascii c in
  if ((65 <=? n)%nat && (n <=? 90)%nat) then ascii_of_nat (n + 32) else c.

(** [s.lower()], on the letters [A] to [Z]; the strings the code lowers
    are names of providers. *)
Definition lower (s : string) : string := str (map lower_char (bytes s)).

(** Python slice bounds: a negative index counts from the end, and both
    ends are clipped to the sequence. *)
Definition slice_index (n i : Z) : Z :=
  if i <? 0 then Z.max 0 (i + n) else Z.min i n.

Definition slice_list {A} (l : list A) (lo hi : Z) : list A :=
  let n := Z.of_nat (length l) in
  let a := slice_index n lo in
  let b := slice_index n hi in
  take (Z.to_nat (b - a)) (drop (Z.to_nat a) l).

(** [l[lo:]] *)
Definition slice_from {A} (l : list A) (lo : Z) : list A :=
  drop (Z.to_nat (slice_index (Z.of_nat (length l)) lo)) l.

(** [s[lo:hi]]: the characters from position [lo] up to position [hi]. *)
Definition slice (s : string) (lo hi : Z) : string :=
  of_chars (slice_list (chars s) lo hi).

(** [s[:n]] *)
Definition prefix (s : string) (n : Z) : string := slice s 0 n.

Fixpoint is_prefix_of (p l : list ascii) : bool :=
  match p, l with
  | [], _ => true
  | a :: p', b :: l' => Ascii.eqb a b && is_prefix_of p' l'
  | _ :: _, [] => false
  end.

Fixpoint contains_bytes (p l : list ascii) : bool :=
  is_prefix_of p l ||
  match l with
  | [] => false
  | _ :: l' => contains_bytes p l'
  end.

(** [sub in s].  In UTF-8 the encoding of a text occurs in the encoding of
    another only where the text occurs in it, so the test is made on the
    bytes. *)
Definition contains (sub s : string) : bool :=
  contains_bytes (bytes sub) (bytes s).

(** [s.split(",")]: the pieces between commas, in order (always at least
    one piece).  The comma is one byte, which is no part of the encoding of
    any other character. *)
Fixpoint split_comma_bytes (cur : list ascii) (l : list ascii) : list (list ascii) :=
  match l with
  | [] => [rev cur]
  | c :: l' =>
      if Ascii.eqb c ","%char
      then rev cur :: split_comma_bytes [] l'
      else split_comma_bytes (c :: cur) l'
  end.

Definition split_comma (s : string) : list string :=
  map str (split_comma_bytes [] (bytes s)).

(** [sep.join(parts)] *)
Fixpoint join (sep : string) (parts : list string) : string :=
  match parts with
  | [] => ""
  | [p] => p
  | p :: rest => p +:+ sep +:+ join sep rest
  end.

(** ** Facts *)

Lemma str_bytes s : str (bytes s) = s.
Proof. apply string_of_list_ascii_of_string. Qed.

Lemma bytes_str l : bytes (str l) = l.
Proof. apply list_ascii_of_string_of_list_ascii. Qed.

Lemma length_bytes s : length (bytes s) = String.length s.
Proof. induction s; simpl; [done | by f_equal]. Qed.

Lemma length_str l : String.length (str l) = length l.
Proof. by rewrite <- length_bytes, bytes_str. Qed.

Lemma truthy_str l : truthy (str l) = match l with [] => false | _ => true end.
Proof. by destruct l. Qed.

Lemma truthy_ne s : truthy s = true <-> s <> "".
Proof. destruct s; simpl; split; [done | done | done | done]. Qed.

Lemma bytes_app s t : bytes (s +:+ t) = bytes s ++ bytes t.
Proof. induction s; simpl; [done | by f_equal]. Qed.

Lemma str_inj l1 l2 : str l1 = str l2 -> l1 = l2.
Proof. intros H. by rewrite <- (bytes_str l1), <- (bytes_str l2), H. Qed.

(** *** Characters *)

(** The characters of a text, put end to end, are the text. *)
Lemma concat_group l : concat (group l) = l.
Proof.
  induction l as [|b l IH]; cbn [group]; [done|].
  destruct (group l) as [|[|c g] gs]; cbn [concat app] in *.
  - by rewrite <- IH.
  - by rewrite <- IH.
  - destruct (is_continuation c); cbn [concat app]; by rewrite <- IH.
Qed.

Lemma of_chars_chars s : of_chars (chars s) = s.
Proof. unfold of_chars, chars. by rewrite concat_group, str_bytes. Qed.

(** A byte followed by continuation bytes only, and such a character that
    does not open with a continuation byte. *)
Definition is_char (g : char) : bool :=
  match g with
  | _ :: cs => forallb is_continuation cs
  | [] => false
  end.

Definition is_lead_char (g : char) : bool :=
  match g with
  | b :: cs => negb (is_continuation b) && forallb is_continuation cs
  | [] => false
  end.

(** A list of characters as [group] makes them: only the first may open
    with a continuation byte (in a text that is not well-formed). *)
Definition grouped (gs : list char) : Prop :=
  match gs with
  | [] => True
  | g :: gs' => is_char g = true /\ Forall (fun g => is_lead_char g = true) gs'
  end.

Lemma is_lead_char_is_char g : is_lead_char g = true -> is_char g = true.
Proof. destruct g as [|b cs]; simpl; [done|]. by intros [_ ?]%andb_true_iff. Qed.

Lemma grouped_tail gs : Forall (fun g => is_lead_char g = true) gs -> grouped gs.
Proof.
  destruct gs as [|g gs]; [done|]. intros [Hg Hgs]%Forall_cons.
  split; [by apply is_lead_char_is_char | done].
Qed.

Lemma group_grouped l : grouped (group l).
Proof.
  induction l as [|b l IH]; cbn [group]; [done|].
  destruct (group l) as [|[|c g] gs] eqn:E.
  - done.
  - destruct IH as [? _]. done.
  - destruct IH as [Hc Hgs]. destruct (is_continuation c) eqn:Ec.
    + split; [|done]. cbn [is_char forallb] in *. by rewrite Ec.
    + split; [done|]. constructor; [|done].
      cbn [is_lead_char is_char] in *. by rewrite Ec.
Qed.

Lemma group_continuation cs l :
  forallb is_continuation cs = true ->
  Forall (fun g => is_lead_char g = true) (group l) ->
  group (cs ++ l) = match cs with [] => group l | _ => cs :: group l end.
Proof.
  intros Hcs Hl. induction cs as [|c cs IH]; [done|].
  cbn [forallb] in Hcs. apply andb_true_iff in Hcs as [Hc Hcs].
  specialize (IH Hcs). cbn [app group]. rewrite IH.
  destruct cs as [|c' cs].
  - destruct (group l) as [|[|d g] gs] eqn:E; [done | |].
    + apply Forall_cons in Hl as [? _]. done.
    + apply Forall_cons in Hl as [Hd _]. cbn [is_lead_char] in Hd.
      apply andb_true_iff in Hd as [Hd _]. apply negb_true_iff in Hd.
      by rewrite Hd.
  - cbn [forallb] in Hcs. apply andb_true_iff in Hcs as [Hc' _]. by rewrite Hc'.
Qed.

(** Grouping the bytes of a list of characters gives the characters
    back. *)
Lemma group_concat gs : grouped gs -> group (concat gs) = gs.
Proof.
  assert (Htail : forall gs, Forall (fun g => is_lead_char g = true) gs ->
                             group (concat gs) = gs).
  { clear gs. induction 1 as [|g gs Hg Hgs IH]; [done|].
    destruct g as [|b cs]; [done|]. cbn [is_lead_char] in Hg.
    apply andb_true_iff in Hg as [Hb Hcs]. apply negb_true_iff in Hb.
    cbn [concat app group].
    rewrite (group_continuation cs (concat gs) Hcs) by (by rewrite IH).
    rewrite IH. destruct cs as [|c cs].
    - destruct gs as [|[|d g] gs']; [done | |].
      + apply Forall_cons in Hgs as [? _]. done.
      + apply Forall_cons in Hgs as [Hd _]. cbn [is_lead_char] in Hd.
        apply andb_true_iff in Hd as [Hd _]. apply negb_true_iff in Hd.
        by rewrite Hd.
    - cbn [forallb] in Hcs. apply andb_true_iff in Hcs as [Hc _]. by rewrite Hc. }
  destruct gs as [|g gs]; [done|]. intros [Hg Hgs].
  destruct g as [|b cs]; [done|]. cbn [is_char] in Hg.
  cbn [concat app group].
  rewrite (group_continuation cs (concat gs) Hg) by (by rewrite Htail).
  rewrite (Htail gs Hgs). destruct cs as [|c cs].
  - destruct gs as [|[|d g] gs']; [done | |].
    + apply Forall_cons in Hgs as [? _]. done.
    + apply Forall_cons in Hgs as [Hd _]. cbn [is_lead_char] in Hd.
      apply andb_true_iff in Hd as [Hd _]. apply negb_true_iff in Hd.
      by rewrite Hd.
  - cbn [forallb] in Hg. apply andb_true_iff in Hg as [Hc _]. by rewrite Hc.
Qed.

Lemma chars_of_chars gs : grouped gs -> chars (of_chars gs) = gs.
Proof. intros H. unfold chars, of_chars. rewrite bytes_str. by apply group_concat. Qed.

Lemma grouped_chars s : grouped (chars s).
Proof. apply group_grouped. Qed.

Lemma grouped_drop n gs : grouped gs -> grouped (drop n gs).
Proof.
  intros H. destruct n as [|n]; [done|]. destruct gs as [|g gs]; [done|].
  destruct H as [_ H]. cbn [drop]. apply grouped_tail. by apply Forall_drop.
Qed.

Lemma grouped_take n gs : grouped gs -> grouped (take n gs).
Proof.
  intros H. destruct n as [|n]; [done|]. destruct gs as [|g gs]; [done|].
  destruct H as [Hg H]. cbn [take]. split; [done | by apply Forall_take].
Qed.

Lemma grouped_slice_list gs lo hi : grouped gs -> grouped (slice_list gs lo hi).
Proof. intros H. unfold slice_list. by apply grouped_take, grouped_drop. Qed.

Lemma lstrip_chars_suffix l : exists n, lstrip_chars l = drop n l.
Proof.
  induction l as [|c l [n IH]]; [by exists 0%nat|]. cbn [lstrip_chars].
  destruct (is_space c); [by exists (S n) | by exists 0%nat].
Qed.

Lemma rstrip_chars_prefix l : exists n, rstrip_chars l = take n l.
Proof.
  induction l as [|c l [n IH]]; [by exists 0%nat|]. cbn [rstrip_chars].
  rewrite IH. destruct (take n l) eqn:E.
  - destruct (is_space c); [by exists 0%nat | exists 1%nat; by destruct l].
  - exists (S n). cbn [take]. by rewrite E.
Qed.

Lemma grouped_strip gs : grouped gs -> grouped (rstrip_chars (lstrip_chars gs)).
Proof.
  intros H. destruct (lstrip_chars_suffix gs) as [n ->].
  destruct (rstrip_chars_prefix (drop n gs)) as [m ->].
  by apply grouped_take, grouped_drop.
Qed.

Lemma chars_strip s : chars (strip s) = rstrip_chars (lstrip_chars (chars s)).
Proof. unfold strip. apply chars_of_chars, grouped_strip, grouped_chars. Qed.

Lemma chars_slice s lo hi : chars (slice s lo hi) = slice_list (chars s) lo hi.
Proof. unfold slice. apply chars_of_chars, grouped_slice_list, grouped_chars. Qed.

Lemma chars_nil s : chars s = [] <-> s = "".
Proof.
  split; [|by intros ->]. intros H.
  rewrite <- (of_chars_chars s), H. done.
Qed.

(** Lengths and positions count characters, and [strip] removes the
    blanks of Unicode: the text below, six characters of three bytes each;
    an ideographic space (U+3000) and a no-break space (U+00A0) around a
    name. *)
Example characters_not_bytes :
  len "工具调用缺少" = 6 /\ String.length "工具调用缺少" = 18%nat /\
  slice "工具调用缺少" 1 3 = "具调" /\ prefix "工具调用缺少" 2 = "工具" /\
  slice "工具调用缺少" (-2) 6 = "缺少" /\
  strip "　 名称 " = "名称".
Proof. by vm_compute. Qed.

(** *** Lengths *)

Lemma len_nonneg s : 0 <= len s.
Proof. unfold len. lia. Qed.

Lemma length_group l : (length (group l) <= length l)%nat.
Proof.
  induction l as [|b l IH]; cbn [group length]; [lia|].
  destruct (group l) as [|[|c g] gs]; cbn [length] in *; [lia | lia |].
  destruct (is_continuation c); cbn [length]; lia.
Qed.

(** A text has no more characters than bytes. *)
Lemma len_le_length s : len s <= Z.of_nat (String.length s).
Proof.
  unfold len, chars. pose proof (length_group (bytes s)).
  rewrite length_bytes in *. lia.
Qed.

Lemma len_pos s : s <> "" -> 0 < len s.
Proof.
  intros Hs. unfold len. destruct (chars s) eqn:E; [|simpl; lia].
  by apply chars_nil in E.
Qed.

Lemma lstrip_chars_length l : (length (lstrip_chars l) <= length l)%nat.
Proof.
  induction l as [|c l IH]; simpl; [lia|].
  destruct (is_space c); simpl; lia.
Qed.

Lemma rstrip_chars_length l : (length (rstrip_chars l) <= length l)%nat.
Proof.
  induction l as [|c l IH]; simpl; [lia|].
  destruct (rstrip_chars l); [destruct (is_space c)|]; simpl in *; lia.
Qed.

Lemma strip_length s : len (strip s) <= len s.
Proof.
  unfold len. rewrite chars_strip.
  pose proof (rstrip_chars_length (lstrip_chars (chars s))).
  pose proof (lstrip_chars_length (chars s)). lia.
Qed.

Lemma slice_length s lo hi :
  0 <= lo -> 0 <= hi -> len (slice s lo hi) <= Z.max 0 (hi - lo).
Proof.
  intros Hlo Hhi. unfold len. rewrite chars_slice. unfold slice_list.
  rewrite length_take, length_drop.
  unfold slice_index.
  destruct (Z.ltb_spec lo 0); [lia|].
  destruct (Z.ltb_spec hi 0); lia.
Qed.

(** The whole of a text is a slice of it. *)
Lemma slice_whole s : slice s 0 (len s) = s.
Proof.
  unfold slice, slice_list, slice_index, len.
  change (0 <? 0) with false. cbv iota.
  destruct (Z.ltb_spec (Z.of_nat (length (chars s))) 0); [lia|].
  replace (Z.min 0 (Z.of_nat (length (chars s)))) with 0 by lia.
  rewrite Z.min_id, Z.sub_0_r, Nat2Z.id. change (Z.to_nat 0) with 0%nat.
  rewrite drop_0, firstn_all. apply of_chars_chars.
Qed.

(** A slice from the start of a text that is not empty is not empty. *)
Lemma prefix_truthy s n : 0 < n -> truthy s = true -> truthy (prefix s n) = true.
Proof.
  intros Hn Hs. apply truthy_ne in Hs. apply truthy_ne. intros H.
  apply chars_nil in H. unfold prefix in H. rewrite chars_slice in H.
  pose proof (len_pos s Hs) as Hl. unfold len in Hl.
  apply (f_equal length) in H. unfold slice_list, slice_index in H.
  rewrite length_take, length_drop in H.
  change (0 <? 0) with false in H. cbv iota in H.
  destruct (Z.ltb_spec n 0); [lia|]. simpl in H. lia.
Qed.

(** *** [strip] and [lower] are idempotent and commute *)

Lemma lstrip_chars_head l :
  match lstrip_chars l with [] => True | c :: _ => is_space c = false end.
Proof.
  induction l as [|c l IH]; simpl; [done|].
  destruct (is_space c) eqn:E; [done|]. done.
Qed.

Lemma lstrip_chars_fixed c l : is_space c = false -> lstrip_chars (c :: l) = c :: l.
Proof. intros H. simpl. by rewrite H. Qed.

Lemma rstrip_chars_cons_keep c l :
  is_space c = false -> exists r, rstrip_chars (c :: l) = c :: r.
Proof.
  intros H. simpl. destruct (rstrip_chars l); [rewrite H|]; eauto.
Qed.

Lemma rstrip_chars_idem l : rstrip_chars (rstrip_chars l) = rstrip_chars l.
Proof.
  induction l as [|c l IH]; simpl; [done|].
  destruct (rstrip_chars l) as [|d r] eqn:E.
  - destruct (is_space c) eqn:Ec; simpl; [done|]. by rewrite Ec.
  - simpl in *. rewrite IH. done.
Qed.

Lemma strip_chars_fixed l :
  let t := rstrip_chars (lstrip_chars l) in
  lstrip_chars t = t /\ rstrip_chars t = t.
Proof.
  simpl. split; [|apply rstrip_chars_idem].
  pose proof (lstrip_chars_head l) as H.
  destruct (lstrip_chars l) as [|c u]; [done|].
  destruct (rstrip_chars_cons_keep c u H) as [r ->].
  by apply lstrip_chars_fixed.
Qed.

Lemma strip_idem s : strip (strip s) = strip s.
Proof.
  unfold strip at 1. rewrite chars_strip.
  destruct (strip_chars_fixed (chars s)) as [-> ->]. done.
Qed.

Lemma lower_char_idem c : lower_char (lower_char c) = lower_char c.
Proof. by destruct c as [[] [] [] [] [] [] [] []]; vm_compute. Qed.

Lemma is_continuation_lower_char c :
  is_continuation (lower_char c) = is_continuation c.
Proof. by destruct c as [[] [] [] [] [] [] [] []]; vm_compute. Qed.

Lemma lower_idem s : lower (lower s) = lower s.
Proof.
  unfold lower. rewrite bytes_str, map_map. f_equal.
  apply map_ext. intros c. apply lower_char_idem.
Qed.

(** A byte that [lower] changes becomes a lower-case letter, and no
    character that [strip] removes holds a letter. *)
Definition is_letter (c : ascii) : bool :=
  let n := nat_of_ascii c in
  ((65 <=? n)%nat && (n <=? 90)%nat) || ((97 <=? n)%nat && (n <=? 122)%nat).

Lemma lower_char_letter c : is_letter c = false -> lower_char c = c.
Proof. by destruct c as [[] [] [] [] [] [] [] []]; vm_compute. Qed.

Lemma lower_char_no_letter c : is_letter (lower_char c) = false -> lower_char c = c.
Proof. by destruct c as [[] [] [] [] [] [] [] []]; vm_compute. Qed.

Lemma whitespace_no_letter :
  Forall (fun w => forallb (fun c => negb (is_letter c)) w = true) whitespace.
Proof. vm_compute. repeat constructor. Qed.

Lemma map_lower_no_letter g :
  forallb (fun c => negb (is_letter c)) g = true -> map lower_char g = g.
Proof.
  induction g as [|c g IH]; [done|]. cbn [forallb map].
  intros [Hc Hg]%andb_true_iff. apply negb_true_iff in Hc.
  by rewrite (lower_char_letter c Hc), IH.
Qed.

Lemma map_lower_to_no_letter g w :
  forallb (fun c => negb (is_letter c)) w = true -> map lower_char g = w -> g = w.
Proof.
  revert w. induction g as [|c g IH]; intros [|d w]; cbn [forallb map]; try done.
  intros [Hd Hw]%andb_true_iff [= Hc Hg]. apply negb_true_iff in Hd.
  rewrite <- Hc in Hd. rewrite (lower_char_no_letter c Hd) in Hc.
  f_equal; [done | by apply IH].
Qed.

Lemma is_space_lower g : is_space (map lower_char g) = is_space g.
Proof.
  unfold is_space. pose proof whitespace_no_letter as Hw.
  rewrite Forall_forall in Hw.
  apply bool_decide_ext. split; intros Hin.
  - by rewrite (map_lower_to_no_letter g _ (Hw _ Hin) eq_refl).
  - by rewrite (map_lower_no_letter g (Hw _ Hin)).
Qed.

Lemma group_map_lower l :
  group (map lower_char l) = map (map lower_char) (group l).
Proof.
  induction l as [|b l IH]; cbn [map group]; [done|]. rewrite IH.
  destruct (group l) as [|[|c g] gs]; cbn [map]; [done | done |].
  rewrite is_continuation_lower_char. by destruct (is_continuation c).
Qed.

Lemma concat_map_lower gs :
  concat (map (map lower_char) gs) = map lower_char (concat gs).
Proof.
  induction gs as [|g gs IH]; cbn [map concat]; [done|].
  by rewrite map_app, IH.
Qed.

Lemma lstrip_chars_map_lower l :
  lstrip_chars (map (map lower_char) l) = map (map lower_char) (lstrip_chars l).
Proof.
  induction l as [|c l IH]; simpl; [done|].
  rewrite is_space_lower. by destruct (is_space c).
Qed.

Lemma rstrip_chars_map_lower l :
  rstrip_chars (map (map lower_char) l) = map (map lower_char) (rstrip_chars l).
Proof.
  induction l as [|c l IH]; simpl; [done|].
  rewrite IH, is_space_lower.
  destruct (rstrip_chars l); simpl; [by destruct (is_space c)|done].
Qed.

Lemma strip_lower s : strip (lower s) = lower (strip s).
Proof.
  unfold strip, lower, of_chars, chars. rewrite !bytes_str.
  rewrite group_map_lower, lstrip_chars_map_lower, rstrip_chars_map_lower.
  by rewrite concat_map_lower.
Qed.

(** A name that has been through [.strip().lower()] is left alone by a
    second pass. *)
Lemma normalize_idem s : lower (strip (lower (strip s))) = lower (strip s).
Proof. by rewrite strip_lower, strip_idem, lower_idem. Qed.

(** *** Substrings *)

Lemma is_prefix_of_app p l : is_prefix_of p (p ++ l) = true.
Proof.
  induction p as [|a p IH]; simpl; [done|].
  by rewrite Ascii.eqb_refl, IH.
Qed.

Lemma contains_bytes_app a p b : contains_bytes p (a ++ p ++ b) = true.
Proof.
  induction a as [|c a IH]; simpl.
  - destruct (p ++ b) eqn:E; simpl; rewrite <- ?E, is_prefix_of_app; done.
  - rewrite IH. apply orb_true_r.
Qed.

Lemma is_prefix_of_weaken p l b :
  is_prefix_of p l = true -> is_prefix_of p (l ++ b) = true.
Proof.
  revert l. induction p as [|x p IH]; intros [|y l]; simpl; try done.
  intros [-> H]%andb_true_iff. by rewrite IH.
Qed.

Lemma contains_bytes_weaken a p l b :
  contains_bytes p l = true -> contains_bytes p (a ++ l ++ b) = true.
Proof.
  intros H. induction a as [|c a IH]; simpl.
  - induction l as [|y l IHl]; simpl in *.
    + apply orb_true_iff in H as [H|H]; [|done].
      destruct p; [|done]. by destruct b.
    + apply orb_true_iff in H as [H|H].
      * apply orb_true_iff. left. apply (is_prefix_of_weaken p (y :: l) b H).
      * rewrite (IHl H). apply orb_true_r.
  - rewrite IH. apply orb_true_r.
Qed.

(** A substring of the middle is a substring of the whole. *)
Lemma contains_weaken a sub s b :
  contains sub s = true -> contains sub (a +:+ s +:+ b) = true.
Proof. unfold contains. rewrite !bytes_app. apply contains_bytes_weaken. Qed.

Lemma contains_weaken_l a sub s :
  contains sub s = true -> contains sub (a +:+ s) = true.
Proof.
  intros H. unfold contains. rewrite bytes_app.
  rewrite <- (app_nil_r (bytes s)). by apply contains_bytes_weaken.
Qed.

Lemma contains_weaken_r sub s b :
  contains sub s = true -> contains sub (s +:+ b) = true.
Proof. intros H. by apply (contains_weaken "" sub s b). Qed.

Lemma contains_infix a sub b : contains sub (a +:+ sub +:+ b) = true.
Proof. unfold contains. rewrite !bytes_app. apply contains_bytes_app. Qed.

Lemma contains_prefix sub b : contains sub (sub +:+ b) = true.
Proof. apply (contains_infix "" sub b). Qed.

Lemma contains_suffix a sub : contains sub (a +:+ sub) = true.
Proof.
  unfold contains. rewrite bytes_app.
  rewrite <- (app_nil_r (bytes sub)) at 2. apply contains_bytes_app.
Qed.

End PyStr.

(* ===================================================================== *)
(** * RAG ingestion: splitting a text into overlapping windows
      ([rag_service.py], [RAGService._split_text])                         *)
(* ===================================================================== *)

Module RagSplit.
Import PyStr.

(** The clamps [ingest_document] applies before splitting. *)
Definition clamp_chunk_size (chunk_size : Z) : Z :=
  Z.max 200 (Z.min chunk_size 4000).

Definition clamp_chunk_overlap (chunk_size chunk_overlap : Z) : Z :=
  Z.max 0 (Z.min chunk_overlap (chunk_size - 1)).

(** One iteration of the [while start < length] loop, entered with
    [start < length]: the chunk list after the iteration, and the next
    window start ([None] when the loop [break]s). *)
Definition _split_text_step (text : string) (chunk_size chunk_overlap : Z)
    (start : Z) (chunks : list string) : list string * option Z :=
  let length := len text in
  let end_ := Z.min (start + chunk_size) length in
  let chunk := strip (slice text start end_) in
  let chunks := if truthy chunk then chunks ++ [chunk] else chunks in
  if length <=? end_ then (chunks, None)
  else (chunks, Some (end_ - chunk_overlap)).

(** The loop.  [fuel] bounds the number of iterations; [None] is the
    model of a loop that has not finished within that bound. *)
Fixpoint _split_text_loop (fuel : nat) (text : string)
    (chunk_size chunk_overlap : Z) (start : Z) (chunks : list string)
    : option (list string) :=
  match fuel with
  | O => None
  | S fuel' =>
      if start <? len text then
        match _split_text_step text chunk_size chunk_overlap start chunks with
        | (chunks', None) => Some chunks'
        | (chunks', Some start') =>
            _split_text_loop fuel' text chunk_size chunk_overlap start' chunks'
        end
      else Some chunks
  end.

Definition _split_text (fuel : nat) (text : string)
    (chunk_size chunk_overlap : Z) : option (list string) :=
  _split_text_loop fuel text chunk_size chunk_overlap 0 [].

(** What a chunk has to satisfy. *)
Definition chunk_ok (chunk_size : Z) (c : string) : Prop :=
  c <> "" /\ len c <= chunk_size.

Lemma step_chunks_ok text size ov start chunks :
  0 <= start -> 0 < size ->
  Forall (chunk_ok size) chunks ->
  Forall (chunk_ok size) (_split_text_step text size ov start chunks).1.
Proof.
  intros Hs Hsz Hall. unfold _split_text_step.
  set (e := Z.min (start + size) (len text)).
  set (c := strip (slice text start e)).
  assert (Hc : truthy c = true -> chunk_ok size c).
  { intros Ht. split; [by apply truthy_ne|].
    pose proof (strip_length (slice text start e)) as H1.
    assert (0 <= e) as He by (subst e; unfold len; lia).
    pose proof (slice_length text start e Hs He) as H2.
    unfold len in *. subst c e. lia. }
  destruct (truthy c) eqn:Ht; destruct (len text <=? e); simpl; auto;
    apply Forall_app; split; auto.
Qed.

Lemma step_progress text size ov start chunks start' :
  0 <= ov <= size - 1 ->
  (_split_text_step text size ov start chunks).2 = Some start' ->
  start' = start + (size - ov) /\ 1 <= size - ov /\ start' <= len text.
Proof.
  intros Hov. unfold _split_text_step.
  destruct (len text <=? Z.min (start + size) (len text)) eqn:E; simpl; [done|].
  intros [= <-]. apply Z.leb_gt in E. lia.
Qed.

Lemma loop_terminates fuel text size ov start chunks :
  0 <= ov <= size - 1 -> 0 <= start ->
  Forall (chunk_ok size) chunks ->
  (Z.to_nat (len text - start) < fuel)%nat ->
  exists out, _split_text_loop fuel text size ov start chunks = Some out
              /\ Forall (chunk_ok size) out.
Proof.
  intros Hov. revert start chunks.
  induction fuel as [|fuel IH]; intros start chunks Hs Hall Hf; [lia|].
  simpl. destruct (start <? len text) eqn:E; [|eauto].
  apply Z.ltb_lt in E.
  pose proof (step_chunks_ok text size ov start chunks Hs ltac:(lia) Hall) as Hok.
  pose proof (step_progress text size ov start chunks) as Hpr.
  destruct (_split_text_step text size ov start chunks) as [chunks' [start'|]];
    simpl in *; [|eauto].
  destruct (Hpr start' Hov eq_refl) as (-> & ? & ?).
  apply IH; [lia | done | lia].
Qed.

End RagSplit.

(** C10. With the parameters clamped as [ingest_document] clamps them,
    splitting any text terminates (a number of iterations bounded by the
    length of the text suffices); every iteration that does not reach the end
    of the text moves the window start forward by
    [chunk_size - chunk_overlap >= 1]; and every chunk returned is non-empty
    and at most [chunk_size] characters long. *)
Theorem C10_split_text_terminates_and_bounds :
  forall (text : string) (chunk_size chunk_overlap : Z),
    let size := RagSplit.clamp_chunk_size chunk_size in
    let ov := RagSplit.clamp_chunk_overlap size chunk_overlap in
    (200 <= size <= 4000 /\ 0 <= ov <= size - 1) /\
    (forall start chunks start',
        (RagSplit._split_text_step text size ov start chunks).2 = Some start' ->
        start' = start + (size - ov) /\ 1 <= size - ov) /\
    (exists chunks,
        RagSplit._split_text (S (Z.to_nat (PyStr.len text))) text size ov = Some chunks /\
        Forall (fun c => c <> "" /\ PyStr.len c <= size) chunks).
Proof.
  intros text chunk_size chunk_overlap size ov.
  assert (Hsz : 200 <= size <= 4000)
    by (subst size; unfold RagSplit.clamp_chunk_size; lia).
  assert (Hov : 0 <= ov <= size - 1)
    by (subst ov; unfold RagSplit.clamp_chunk_overlap; lia).
  split; [done|]. split.
  - intros start chunks start' H.
    destruct (RagSplit.step_progress text size ov start chunks start' Hov H)
      as (? & ? & _). done.
  - apply RagSplit.loop_terminates; [done | lia | constructor |].
    pose proof (PyStr.len_nonneg text). lia.
Qed.

(* ===================================================================== *)
(** * The data model shared by the services                               *)
(* ===================================================================== *)

(** Exceptions.  [CustomException] is the application's own exception class
    ([app.core.exceptions]); every other exception class is kept by name. *)
Inductive Exc :=
| CustomException (status_code : option Z) (detail : string) (custom_code : Z)
| OtherException (cls : string) (message : string).

Inductive Result (A : Type) :=
| Ok (a : A)
| Raise (e : Exc).
Arguments Ok {A} a.
Arguments Raise {A} e.

Definition is_ok {A} (r : Result A) : bool :=
  match r with Ok _ => true | Raise _ => false end.

(** A value of a usage dictionary: the code only tells numbers from the
    rest. *)
Inductive UsageVal :=
| UNum (n : Z)
| UOther (repr : string).

Abbreviation Usage := (gmap string UsageVal).

(** The [arguments] of a tool call: a text, as the providers send it, or
    another value of the decoded response (a number, a list, an object), of
    which the code uses the truth value and [json.loads] names the type in
    the [TypeError] it raises for it. *)
Inductive ArgumentsValue :=
| ArgText (text : string)
| ArgOther (type_name : string) (is_truthy : bool).

(** A tool call as returned by a provider:
    [{"id": .., "function": {"name": .., "arguments": ..}}]. *)
Record ToolCall := mkToolCall {
  tc_id : option string;
  tc_name : option string;
  tc_arguments : option ArgumentsValue;
}.

(** The [content] of a provider message: absent, a string, or some other
    JSON value, kept as the text [json.dumps] gives for it. *)
Inductive Content :=
| CNone
| CStr (s : string)
| CJson (dumped : string).

(** [_to_text] of [chat_service.py] and [memory_service.py]. *)
Definition _to_text (value : Content) : string :=
  match value with
  | CNone => ""
  | CStr s => s
  | CJson dumped => dumped
  end.

(** JSON values, as [json.loads] produces them and [json.dumps] takes
    them. *)
Inductive Json :=
| JNull
| JBool (b : bool)
| JNum (n : Z)
| JStr (s : string)
| JList (items : list Json)
| JDict (entries : list (string * Json)).

(** What [json.loads] does on a text: it returns a value or raises an
    exception of the standard library, kept by the name of its class and its
    message ([JSONDecodeError] on a text that is not JSON, [RecursionError]
    on one that nests too deep). *)
Inductive Loads :=
| Loaded (value : Json)
| LoadsRaises (cls message : string).

(** What a tool executor hands back: a value [json.dumps] can render, or an
    object it cannot (kept by the name of its type). *)
Inductive ToolValue :=
| Serializable (value : Json)
| Unserializable (type_name : string).

(** The result record of [execute_tool_call]. *)
Record ToolResult := mkToolResult {
  tr_ok : bool;
  tr_tool_call_id : string;
  tr_tool_name : string;
  tr_arguments : Json;
  tr_content : string;
}.

(** A tool definition in the form sent to a provider. *)
Record OpenAITool := mkOpenAITool {
  ot_name : option string;
  ot_description : string;
  ot_parameters : Json;
}.

(** A message of the turn context sent to a provider. *)
Record ChatMsg := mkChatMsg {
  cm_role : string;
  cm_content : string;
  cm_tool_calls : option (list ToolCall);
  cm_tool_call_id : option string;
}.

(** What [UnifiedLLMClient.chat_completion] returns. *)
Record Completion := mkCompletion {
  c_provider : string;
  c_model : string;
  c_content : Content;
  c_tool_calls : list ToolCall;
  c_finish_reason : option string;
  c_usage : Usage;
}.

(** A row of [exile_llm_message] ([LLMMessage]). *)
Record LLMMessage := mkLLMMessage {
  m_role : string;
  m_content : option string;
  m_tool_name : option string;
  m_tool_call_id : option string;
  m_tool_calls : option (list ToolCall);
  m_provider : option string;
  m_model : option string;
  m_token_usage : option Usage;
  m_extra : list (string * Json);
}.

(** The memory fields the engine keeps in [LLMConversation.extra_config]. *)
Record ExtraConfig := mkExtraConfig {
  memory_summary : option string;
  memory_message_count : option Z;
  memory_updated_at : option Z;
}.

(** A row of [exile_llm_conversation] ([LLMConversation]). *)
Record LLMConversation := mkLLMConversation {
  conversation_id : string;
  cv_title : option string;
  cv_provider : string;
  cv_model : string;
  cv_system_prompt : option string;
  cv_skill_name : option string;
  extra_config : ExtraConfig;
  update_time : Z;
}.

(** [conversation.touch()] at clock reading [now]. *)
Definition touch (now : Z) (c : LLMConversation) : LLMConversation :=
  mkLLMConversation (conversation_id c) (cv_title c) (cv_provider c)
    (cv_model c) (cv_system_prompt c) (cv_skill_name c) (extra_config c) now.

Definition set_extra_config (e : ExtraConfig) (c : LLMConversation) : LLMConversation :=
  mkLLMConversation (conversation_id c) (cv_title c) (cv_provider c)
    (cv_model c) (cv_system_prompt c) (cv_skill_name c) e (update_time c).

(** The settings of [project_config] the services read. *)
Record Config := mkConfig {
  default_llm_provider : string;
  default_llm_model : string;
  DEEPSEEK_API_KEY : string;
  DEEPSEEK_BASE_URL : string;
  DEEPSEEK_MODEL : string;
  OPENAI_API_KEY : string;
  OPENAI_BASE_URL : string;
  OPENAI_MODEL : string;
  GEMINI_API_KEY : string;
  GEMINI_BASE_URL : string;
  GEMINI_MODEL : string;
  LLM_AUTO_FALLBACK_ENABLE : bool;
  LLM_FALLBACK_PROVIDERS : string;
  LLM_MAX_TOOL_STEPS : Z;
  LLM_MAX_HISTORY_MESSAGES : Z;
  LLM_MEMORY_ENABLE : bool;
  LLM_MEMORY_SUMMARY_TRIGGER_MESSAGES : Z;
  LLM_MEMORY_KEEP_RECENT_MESSAGES : Z;
  LLM_MEMORY_SUMMARY_MAX_CHARS : Z;
  LLM_RATE_LIMIT_ENABLE : bool;
  LLM_RATE_LIMIT_REQUESTS_PER_MINUTE : Z;
  LLM_RATE_LIMIT_REQUESTS_PER_DAY : Z;
  LLM_TOKEN_QUOTA_PER_DAY : Z;
}.

Definition nl : string := String "010"%char "".

(** The four roles a message row may carry into a prompt. *)
Definition known_role (role : string) : bool :=
  bool_decide (role = "user") || bool_decide (role = "assistant")
  || bool_decide (role = "tool") || bool_decide (role = "system").

(* ===================================================================== *)
(** * Conversation memory ([memory_service.py])                           *)
(* ===================================================================== *)

Module Memory.
Import PyStr.

(** [ConversationMemoryService.get_memory_state] *)
Definition get_memory_state (conversation : LLMConversation) : option string * Z :=
  let extra := extra_config conversation in
  let text := strip (or_else (memory_summary extra) "") in
  let summary_text := if truthy text then Some text else None in
  let summarized_count := default 0 (memory_message_count extra) in
  (summary_text, Z.max 0 summarized_count).

(** [ConversationMemoryService.trim_history_rows] *)
Definition trim_history_rows {A} (history_rows : list A) (summarized_count : Z) : list A :=
  if summarized_count <=? 0 then history_rows
  else
    let index := Z.max 0 (Z.min summarized_count (Z.of_nat (length history_rows))) in
    slice_from history_rows index.

(** [ConversationMemoryService.apply_memory] *)
Definition apply_memory (messages : list ChatMsg) (summary_text : option string)
    : list ChatMsg :=
  if otruthy summary_text then
    messages ++
    [mkChatMsg "system"
       ("以下是该会话的长期记忆摘要，请优先保持一致性并在必要时引用：" +:+ nl
          +:+ or_else summary_text "")
       None None]
  else messages.

(** The transcript lines of [_build_summary_prompt]. *)
Fixpoint transcript_lines (rows : list LLMMessage) : list string :=
  match rows with
  | [] => []
  | row :: rows' =>
      let role := lower (strip (m_role row)) in
      if negb (known_role role) then transcript_lines rows'
      else
        let content := strip (or_else (m_content row) "") in
        if negb (truthy content) && negb (bool_decide (role = "assistant"))
        then transcript_lines rows'
        else
          let content :=
            if 1000 <? len content then prefix content 1000 else content in
          (role +:+ ": " +:+ content) :: transcript_lines rows'
  end.

Definition summary_requirements : string :=
  "1) 保留用户偏好/约束/术语约定" +:+ nl +:+
  "2) 保留已确定事实与未完成事项" +:+ nl +:+
  "3) 删除冗余闲聊" +:+ nl +:+
  "4) 输出结构: 偏好、上下文事实、待办、风险" +:+ nl +:+ nl.

(** [ConversationMemoryService._build_summary_prompt] *)
Definition _build_summary_prompt (existing_summary : option string)
    (rows : list LLMMessage) : list ChatMsg :=
  let rows := slice_from rows (-80) in
  let transcript := join nl (transcript_lines rows) in
  let user_prompt :=
    match existing_summary with
    | Some existing =>
        "请将【已有摘要】与【新增对话】融合为新的长期记忆，输出中文，要求：" +:+ nl +:+
        summary_requirements +:+
        "【已有摘要】" +:+ nl +:+ existing +:+ nl +:+ nl +:+
        "【新增对话】" +:+ nl +:+ transcript
    | None =>
        "请将下面对话整理成长期记忆摘要，输出中文，要求：" +:+ nl +:+
        summary_requirements +:+
        "【对话内容】" +:+ nl +:+ transcript
    end in
  [ mkChatMsg "system"
      "你是会话记忆压缩器，只输出可复用的结构化摘要，不输出多余解释。" None None;
    mkChatMsg "user" user_prompt None None ].

Section Refresh.
(** The world outside the process (provider endpoints, database,
    clock), and the services the compressor calls into it. *)
Context {W Temperature : Type}.
Variable project_config : Config.
Variable chat_completion :
  list ChatMsg -> string -> string -> option Temperature ->
  W -> Result Completion * W.
Variable summary_temperature : Temperature.     (* 0.1 *)
Variable now_timestamp : W -> Z.
Variable db_flush : W -> Result unit * W.

(** [ConversationMemoryService.maybe_refresh_summary].  The conversation
    object is mutated in place by the source; here the conversation as it
    is after the call is returned next to the result. *)
Definition maybe_refresh_summary (conversation : LLMConversation)
    (history_rows : list LLMMessage) (provider model : string) (w : W)
    : (Result (option string * Z) * LLMConversation) * W :=
  let '(summary_text, summarized_count) := get_memory_state conversation in
  if negb (LLM_MEMORY_ENABLE project_config) then
    ((Ok (summary_text, summarized_count), conversation), w)
  else if bool_decide (history_rows = []) then
    ((Ok (summary_text, summarized_count), conversation), w)
  else
    let history_size := Z.of_nat (length history_rows) in
    let summarized_count := Z.max 0 (Z.min summarized_count history_size) in
    let trigger := Z.max 6 (LLM_MEMORY_SUMMARY_TRIGGER_MESSAGES project_config) in
    let keep_recent :=
      Z.max 4 (Z.min (LLM_MEMORY_KEEP_RECENT_MESSAGES project_config) 100) in
    let cutoff := Z.max 0 (history_size - keep_recent) in
    let unsummarized := Z.max 0 (cutoff - summarized_count) in
    if unsummarized <? trigger then
      ((Ok (summary_text, summarized_count), conversation), w)
    else
      let rows_to_summarize := slice_list history_rows summarized_count cutoff in
      if bool_decide (rows_to_summarize = []) then
        ((Ok (summary_text, summarized_count), conversation), w)
      else
        let prompt_messages := _build_summary_prompt summary_text rows_to_summarize in
        match chat_completion prompt_messages provider model
                (Some summary_temperature) w with
        | (Raise _, w1) =>
            ((Ok (summary_text, summarized_count), conversation), w1)
        | (Ok completion, w1) =>
            let content := strip (_to_text (c_content completion)) in
            if negb (truthy content) then
              ((Ok (summary_text, summarized_count), conversation), w1)
            else
              let max_chars :=
                Z.max 500 (LLM_MEMORY_SUMMARY_MAX_CHARS project_config) in
              let content :=
                if max_chars <? len content then prefix content max_chars
                else content in
              let extra :=
                mkExtraConfig (Some content) (Some cutoff)
                  (Some (now_timestamp w1)) in
              let conversation :=
                touch (now_timestamp w1) (set_extra_config extra conversation) in
              match db_flush w1 with
              | (Raise e, w2) => ((Raise e, conversation), w2)
              | (Ok _, w2) => ((Ok (Some content, cutoff), conversation), w2)
              end
        end.

(** The count the next refresh will read back from the conversation. *)
Definition stored_count (conversation : LLMConversation) : Z :=
  (get_memory_state conversation).2.

(** Either the conversation is untouched and the count returned is the
    stored one clipped to the history, or a summary was written and both
    the stored and the returned count are the new cutoff, which lies
    beyond the old count. *)
Lemma maybe_refresh_summary_cases conversation rows provider model w :
  let out := maybe_refresh_summary conversation rows provider model w in
  let conversation' := out.1.2 in
  (conversation' = conversation /\
   forall summary n, out.1.1 = Ok (summary, n) ->
     n = stored_count conversation \/
     n = Z.min (stored_count conversation) (Z.of_nat (length rows)))
  \/
  (stored_count conversation < stored_count conversation' /\
   stored_count conversation' <= Z.of_nat (length rows) /\
   forall summary n, out.1.1 = Ok (summary, n) -> n = stored_count conversation').
Proof.
  unfold maybe_refresh_summary, stored_count.
  destruct (get_memory_state conversation) as [summary_text count] eqn:Hst.
  assert (Hc : 0 <= count).
  { unfold get_memory_state in Hst. injection Hst as _ <-. lia. }
  simpl.
  set (hs := Z.of_nat (length rows)).
  assert (Hclip : forall (s : option string) (n : Z),
             Ok (summary_text, Z.max 0 (Z.min count hs)) = Ok (s, n) ->
             n = count \/ n = Z.min count hs).
  { intros s n [= _ <-]. right. lia. }
  destruct (negb (LLM_MEMORY_ENABLE project_config)); simpl.
  { left. split; [done|]. intros s n [= _ <-]. by left. }
  destruct (bool_decide (rows = [])); simpl.
  { left. split; [done|]. intros s n [= _ <-]. by left. }
  destruct (Z.ltb_spec
              (Z.max 0 (Z.max 0 (hs - Z.max 4
                  (Z.min (LLM_MEMORY_KEEP_RECENT_MESSAGES project_config) 100))
                - Z.max 0 (Z.min count hs)))
              (Z.max 6 (LLM_MEMORY_SUMMARY_TRIGGER_MESSAGES project_config)))
    as [Hlt|Hge]; simpl.
  { left. split; [done|]. apply Hclip. }
  destruct (bool_decide (_ = [])); simpl.
  { left. split; [done|]. apply Hclip. }
  destruct (chat_completion _ _ _ _ w) as [[completion|e] w1]; simpl;
    [|left; split; [done|]; apply Hclip].
  destruct (negb (truthy (strip (_to_text (c_content completion))))); simpl.
  { left. split; [done|]. apply Hclip. }
  right.
  assert (0 <= hs) by (subst hs; lia).
  destruct (db_flush w1) as [[[]|e] w2]; simpl;
    (split; [lia|]); (split; [lia|]); intros s n Heq; simplify_eq; lia.
Qed.

End Refresh.

(** The rows of a history tagged with their positions. *)
Definition indexed {A} (rows : list A) : list (nat * A) :=
  imap (fun i row => (i, row)) rows.

Lemma indexed_lookup {A} (rows : list A) i j row :
  indexed rows !! j = Some (i, row) -> i = j /\ rows !! i = Some row.
Proof.
  unfold indexed. rewrite list_lookup_imap.
  destruct (rows !! j) eqn:E; simpl; [|done]. intros [= <- <-]. done.
Qed.

Lemma indexed_snd {A} (rows : list A) : (indexed rows).*2 = rows.
Proof.
  unfold indexed. apply list_eq. intros i.
  rewrite list_lookup_fmap, list_lookup_imap.
  by destruct (rows !! i).
Qed.

Lemma indexed_length {A} (rows : list A) : length (indexed rows) = length rows.
Proof. unfold indexed. by rewrite length_imap. Qed.

Lemma trim_history_rows_indexed {A} (rows : list A) n :
  (trim_history_rows (indexed rows) n).*2 = trim_history_rows rows n.
Proof.
  unfold trim_history_rows. destruct (n <=? 0); [apply indexed_snd|].
  unfold slice_from. rewrite indexed_length, fmap_drop. by rewrite indexed_snd.
Qed.

(** No row that survives trimming sits below the clipped count. *)
Lemma trim_history_rows_index {A} (rows : list A) n i row :
  (i, row) ∈ trim_history_rows (indexed rows) n ->
  rows !! i = Some row /\
  Z.min n (Z.of_nat (length rows)) <= Z.of_nat i.
Proof.
  unfold trim_history_rows. intros Hin.
  destruct (Z.leb_spec n 0) as [Hn|Hn].
  - apply list_elem_of_lookup in Hin as [j Hj].
    apply indexed_lookup in Hj as [-> Hj]. split; [done|]. lia.
  - unfold slice_from in Hin. rewrite indexed_length in Hin.
    apply list_elem_of_lookup in Hin as [j Hj].
    rewrite lookup_drop in Hj. apply indexed_lookup in Hj as [-> Hj].
    split; [done|]. unfold slice_index.
    destruct (Z.ltb_spec
                (Z.max 0 (Z.min n (Z.of_nat (length rows)))) 0); lia.
Qed.

End Memory.

(** C4. Whatever the provider, the clock and the database do, a refresh
    never lowers the stored summarized-message count; and the history that
    [chat] trims with the count returned by the refresh (the rows it then
    turns into the prompt) holds no row whose index in the history is below
    the stored count. *)
Theorem C4_memory_count_monotone_and_trim_excludes_summarized :
  forall (W Temperature : Type) (project_config : Config)
         (chat_completion : list ChatMsg -> string -> string ->
                            option Temperature -> W -> Result Completion * W)
         (summary_temperature : Temperature)
         (now_timestamp : W -> Z) (db_flush : W -> Result unit * W)
         (conversation : LLMConversation) (history_rows : list LLMMessage)
         (provider model : string) (w : W),
    let out :=
      Memory.maybe_refresh_summary project_config chat_completion
        summary_temperature now_timestamp db_flush
        conversation history_rows provider model w in
    let conversation' := out.1.2 in
    Memory.stored_count conversation <= Memory.stored_count conversation' /\
    forall summary_text summarized_count,
      out.1.1 = Ok (summary_text, summarized_count) ->
      (Memory.trim_history_rows (Memory.indexed history_rows) summarized_count).*2
        = Memory.trim_history_rows history_rows summarized_count /\
      forall i row,
        (i, row) ∈ Memory.trim_history_rows (Memory.indexed history_rows)
                     summarized_count ->
        history_rows !! i = Some row /\
        Memory.stored_count conversation' <= Z.of_nat i.
Proof.
  intros.
  pose proof (Memory.maybe_refresh_summary_cases project_config chat_completion
                summary_temperature now_timestamp db_flush
                conversation history_rows provider model w) as Hcases.
  simpl in Hcases. fold out in Hcases. fold conversation' in Hcases.
  split.
  - destruct Hcases as [[-> _]|[Hlt _]]; lia.
  - intros summary_text summarized_count Hout.
    split; [apply Memory.trim_history_rows_indexed|].
    intros i row Hin.
    apply Memory.trim_history_rows_index in Hin as [Hrow Hidx].
    split; [done|].
    destruct Hcases as [[Heq Hn]|(Hadv & Hle & Hn)].
    + (* the stored count may exceed the history: then nothing survives *)
      pose proof (lookup_lt_Some _ _ _ Hrow) as Hlt.
      rewrite Heq. destruct (Hn _ _ Hout) as [->| ->]; lia.
    + rewrite (Hn _ _ Hout) in Hidx. lia.
Qed.


(* ===================================================================== *)
(** * The quota gate ([quota_service.py])                                  *)
(* ===================================================================== *)

Module Quota.
Import PyStr.

(** The counter store: integer counters with a time to live, by key. *)
Record Redis := mkRedis {
  counters : gmap string Z;
  ttl : gmap string Z;
}.

(** [redis.incr(key)]: the counter after adding one (a missing key counts
    from zero), and the store holding it. *)
Definition incr (key : string) (r : Redis) : Z * Redis :=
  let n := default 0 (counters r !! key) + 1 in
  (n, mkRedis (<[key := n]> (counters r)) (ttl r)).

(** [redis.expire(key, seconds)] *)
Definition expire (key : string) (seconds : Z) (r : Redis) : Redis :=
  mkRedis (counters r) (<[key := seconds]> (ttl r)).

(** [redis.get(key)] *)
Definition get (key : string) (r : Redis) : option Z := counters r !! key.

(** [LLMQuotaService._to_int] on what [get] returns. *)
Definition _to_int (value : option Z) : Z := default 0 value.

(** [(provider or "unknown").strip().lower() or "unknown"] *)
Definition norm_provider (provider : string) : string :=
  let p := lower (strip (if truthy provider then provider else "unknown")) in
  if truthy p then p else "unknown".

(** [(model or "unknown").strip() or "unknown"] *)
Definition norm_model (model : string) : string :=
  let m := strip (if truthy model then model else "unknown") in
  if truthy m then m else "unknown".

(** [_minute_key]; [now] is the clock reading in seconds. *)
Definition _minute_key (now owner_id : Z) (provider model : string) : string :=
  "llm:rate:minute:" +:+ pretty owner_id +:+ ":" +:+ provider +:+ ":" +:+ model
    +:+ ":" +:+ pretty (now `div` 60).

(** [_day_request_key] *)
Definition _day_request_key (owner_id : Z) (provider model day_str : string) : string :=
  "llm:rate:day:req:" +:+ day_str +:+ ":" +:+ pretty owner_id +:+ ":" +:+ provider
    +:+ ":" +:+ model.

(** [_day_token_key] *)
Definition _day_token_key (owner_id : Z) (provider model day_str : string) : string :=
  "llm:rate:day:tok:" +:+ day_str +:+ ":" +:+ pretty owner_id +:+ ":" +:+ provider
    +:+ ":" +:+ model.

(** The three errors of the gate. *)
Definition minute_limit_error (provider model : string) (minute_limit : Z) : Exc :=
  CustomException (Some 429)
    ("触发限流：" +:+ provider +:+ "/" +:+ model +:+ " 每分钟最多 "
       +:+ pretty minute_limit +:+ " 次请求")
    10005.

Definition day_limit_error (provider model : string) (day_limit : Z) : Exc :=
  CustomException (Some 429)
    ("触发限流：" +:+ provider +:+ "/" +:+ model +:+ " 每日最多 "
       +:+ pretty day_limit +:+ " 次请求")
    10005.

Definition token_quota_error (provider model : string) (token_limit : Z) : Exc :=
  CustomException (Some 429)
    ("触发配额：" +:+ provider +:+ "/" +:+ model +:+ " 每日 token 配额 "
       +:+ pretty token_limit +:+ " 已用尽")
    10005.

(** The ceilings the gate works with. *)
Definition minute_limit_of (cfg : Config) : Z :=
  Z.max 1 (LLM_RATE_LIMIT_REQUESTS_PER_MINUTE cfg).
Definition day_limit_of (cfg : Config) : Z :=
  Z.max 0 (LLM_RATE_LIMIT_REQUESTS_PER_DAY cfg).
Definition token_limit_of (cfg : Config) : Z :=
  Z.max 0 (LLM_TOKEN_QUOTA_PER_DAY cfg).

(** [LLMQuotaService.enforce_before_request].  [redis] is what
    [_get_redis_or_none] returns ([None] when the store cannot be reached);
    [now] and [day_str] are the two readings of the clock.  The result is
    paired with the store as the call leaves it. *)
Definition enforce_before_request (project_config : Config)
    (redis : option Redis) (now : Z) (day_str : string)
    (owner_id : Z) (provider model : string) : Result unit * option Redis :=
  if negb (LLM_RATE_LIMIT_ENABLE project_config) then (Ok tt, redis)
  else
    match redis with
    | None => (Ok tt, None)
    | Some r =>
        let provider := norm_provider provider in
        let model := norm_model model in
        let minute_key := _minute_key now owner_id provider model in
        let day_req_key := _day_request_key owner_id provider model day_str in
        let day_tok_key := _day_token_key owner_id provider model day_str in
        let minute_limit := minute_limit_of project_config in
        let '(minute_count, r) := incr minute_key r in
        let r := if minute_count =? 1 then expire minute_key 70 r else r in
        if minute_limit <? minute_count then
          (Raise (minute_limit_error provider model minute_limit), Some r)
        else
          let day_limit := day_limit_of project_config in
          let '(day_failed, r) :=
            if 0 <? day_limit then
              let '(day_count, r) := incr day_req_key r in
              let r := if day_count =? 1 then expire day_req_key 172800 r else r in
              (day_limit <? day_count, r)
            else (false, r) in
          if day_failed then
            (Raise (day_limit_error provider model day_limit), Some r)
          else
            let token_limit := token_limit_of project_config in
            if (0 <? token_limit)
               && (token_limit <=? _to_int (get day_tok_key r)) then
              (Raise (token_quota_error provider model token_limit), Some r)
            else (Ok tt, Some r)
    end.

(** ** The three keys never collide *)

Lemma minute_key_ne_day_req now owner p m d :
  _minute_key now owner p m <> _day_request_key owner p m d.
Proof. unfold _minute_key, _day_request_key. discriminate. Qed.

Lemma minute_key_ne_day_tok now owner p m d :
  _minute_key now owner p m <> _day_token_key owner p m d.
Proof. unfold _minute_key, _day_token_key. discriminate. Qed.

Lemma day_req_ne_day_tok owner p m d :
  _day_request_key owner p m d <> _day_token_key owner p m d.
Proof.
  unfold _day_request_key, _day_token_key. discriminate.
Qed.

End Quota.

(** A configuration used by the concrete scenarios below: fallback from
    the primary provider to [openai] and [gemini], limits switched on. *)
Definition scenario_config : Config :=
  {| default_llm_provider := "deepseek";
     default_llm_model := "deepseek-chat";
     DEEPSEEK_API_KEY := "";
     DEEPSEEK_BASE_URL := "https://api.deepseek.com";
     DEEPSEEK_MODEL := "deepseek-chat";
     OPENAI_API_KEY := "sk-openai";
     OPENAI_BASE_URL := "https://api.openai.com/v1/";
     OPENAI_MODEL := "gpt-4o-mini";
     GEMINI_API_KEY := "sk-gemini";
     GEMINI_BASE_URL := "https://gemini.example/v1";
     GEMINI_MODEL := "gemini-pro";
     LLM_AUTO_FALLBACK_ENABLE := true;
     LLM_FALLBACK_PROVIDERS := "OpenAI, gemini,openai";
     LLM_MAX_TOOL_STEPS := 9;
     LLM_MAX_HISTORY_MESSAGES := 200;
     LLM_MEMORY_ENABLE := true;
     LLM_MEMORY_SUMMARY_TRIGGER_MESSAGES := 6;
     LLM_MEMORY_KEEP_RECENT_MESSAGES := 4;
     LLM_MEMORY_SUMMARY_MAX_CHARS := 500;
     LLM_RATE_LIMIT_ENABLE := true;
     LLM_RATE_LIMIT_REQUESTS_PER_MINUTE := 60;
     LLM_RATE_LIMIT_REQUESTS_PER_DAY := 0;
     LLM_TOKEN_QUOTA_PER_DAY := 0 |}.

(** C7 as the design document words its last clause: with the gate switched
    on and the store reachable, a call that finds the used tokens at or above
    the configured token ceiling fails. *)
Definition C7_token_clause_as_stated : Prop :=
  forall (project_config : Config) (r : Quota.Redis) (now : Z) (day_str : string)
         (owner_id : Z) (provider model : string),
    LLM_RATE_LIMIT_ENABLE project_config = true ->
    LLM_TOKEN_QUOTA_PER_DAY project_config <=
      Quota._to_int
        (Quota.get
           (Quota._day_token_key owner_id (Quota.norm_provider provider)
              (Quota.norm_model model) day_str) r) ->
    is_ok (Quota.enforce_before_request project_config (Some r) now day_str
             owner_id provider model).1 = false.

(** C7, counterexample.  A token ceiling of 0 switches the token check off:
    with 5 tokens used against a configured ceiling of 0 the call returns
    normally. *)
Lemma C7_counterexample_zero_token_ceiling : ~ C7_token_clause_as_stated.
Proof.
  intros H.
  specialize (H scenario_config
                (Quota.mkRedis
                   {[ Quota._day_token_key 7 "openai" "gpt-4o-mini" "20260216" := 5 ]} ∅)
                1771243200 "20260216" 7 "openai" "gpt-4o-mini").
  vm_compute in H. by specialize (H eq_refl ltac:(discriminate)).
Qed.

(** C7 (amended).  The check is a no-op, leaving the store as it is, when
    rate limiting is switched off or the store cannot be reached.  Otherwise
    it adds one to the minute counter and fails with the rate-limit error when
    the new count exceeds the per-minute ceiling (the configured value, at
    least 1); only if that passes and a day ceiling > 0 is configured it adds
    one to the day request counter and fails with the rate-limit error when
    the new count exceeds it; and only if that passes and a token ceiling > 0
    is configured it compares the day token counter, which it never changes,
    with that ceiling and fails with the quota error when the tokens used are
    at or above it.  In every other case it returns normally. *)
Theorem C7_enforce_before_request_behaviour :
  forall (project_config : Config) (redis : option Quota.Redis)
         (now : Z) (day_str : string) (owner_id : Z) (provider model : string),
    let out := Quota.enforce_before_request project_config redis now day_str
                 owner_id provider model in
    let p := Quota.norm_provider provider in
    let m := Quota.norm_model model in
    let minute_key := Quota._minute_key now owner_id p m in
    let day_req_key := Quota._day_request_key owner_id p m day_str in
    let day_tok_key := Quota._day_token_key owner_id p m day_str in
    let minute_limit := Quota.minute_limit_of project_config in
    let day_limit := Quota.day_limit_of project_config in
    let token_limit := Quota.token_limit_of project_config in
    (LLM_RATE_LIMIT_ENABLE project_config = false \/ redis = None ->
       out = (Ok tt, redis)) /\
    (forall r, LLM_RATE_LIMIT_ENABLE project_config = true -> redis = Some r ->
       exists r',
         out.2 = Some r' /\
         let minute_count := default 0 (Quota.counters r !! minute_key) + 1 in
         let day_count := default 0 (Quota.counters r !! day_req_key) + 1 in
         let used_tokens := default 0 (Quota.counters r !! day_tok_key) in
         Quota.counters r' !! minute_key = Some minute_count /\
         Quota.counters r' !! day_tok_key = Quota.counters r !! day_tok_key /\
         if minute_limit <? minute_count then
           out.1 = Raise (Quota.minute_limit_error p m minute_limit) /\
           Quota.counters r' !! day_req_key = Quota.counters r !! day_req_key
         else
           (if 0 <? day_limit
            then Quota.counters r' !! day_req_key = Some day_count
            else Quota.counters r' !! day_req_key = Quota.counters r !! day_req_key) /\
           if (0 <? day_limit) && (day_limit <? day_count) then
             out.1 = Raise (Quota.day_limit_error p m day_limit)
           else if (0 <? token_limit) && (token_limit <=? used_tokens) then
             out.1 = Raise (Quota.token_quota_error p m token_limit)
           else out.1 = Ok tt).
Proof.
  intros. split.
  - intros [Hoff| ->]; subst out; unfold Quota.enforce_before_request.
    + by rewrite Hoff.
    + by destruct (negb _).
  - intros r Hon ->. subst out. unfold Quota.enforce_before_request.
    rewrite Hon. simpl negb. cbv iota.
    fold p m. fold minute_key day_req_key day_tok_key.
    fold minute_limit day_limit token_limit.
    pose proof (Quota.minute_key_ne_day_req now owner_id p m day_str) as Hmd.
    pose proof (Quota.minute_key_ne_day_tok now owner_id p m day_str) as Hmt.
    pose proof (Quota.day_req_ne_day_tok owner_id p m day_str) as Hdt.
    fold minute_key day_req_key day_tok_key in Hmd, Hmt, Hdt.
    unfold Quota.incr, Quota.get, Quota._to_int, Quota.expire.
    set (mc := default 0 (Quota.counters r !! minute_key) + 1).
    destruct (mc =? 1); cbn [Quota.counters Quota.ttl];
      rewrite !lookup_insert_ne by done;
      (destruct (minute_limit <? mc) eqn:Emin;
       [ eexists; split; [reflexivity|]; cbn;
         rewrite lookup_insert_eq, !lookup_insert_ne by done; done |]);
      (destruct (0 <? day_limit) eqn:Eday; cbn [andb];
       [ set (dc := default 0 (Quota.counters r !! day_req_key) + 1);
         destruct (dc =? 1); cbn [Quota.counters Quota.ttl];
         rewrite !lookup_insert_ne by done;
         destruct (day_limit <? dc) eqn:Edc
       | ]);
      cbn [Quota.counters Quota.ttl]; rewrite ?lookup_insert_ne by done;
      try (destruct (_ && _) eqn:Etok);
      (eexists; split; [reflexivity|]; cbn;
       rewrite ?lookup_insert_eq, ?lookup_insert_ne by done;
       rewrite ?lookup_insert_eq, ?lookup_insert_ne by done;
       rewrite ?Etok; done).
Qed.

(* ===================================================================== *)
(** * The provider directory ([providers.py]) and the fallback chain       *)
(* ===================================================================== *)

Module Providers.
Import PyStr.

Record ProviderConfig := mkProviderConfig {
  pc_provider : string;
  pc_api_key : string;
  pc_base_url : string;
  pc_default_model : string;
}.

(** [self._provider_attr_map.get(name)], with the three attributes already
    read off the configuration (a missing attribute reads as [""]). *)
Definition provider_attrs (cfg : Config) (name : string)
    : option (string * string * string) :=
  if bool_decide (name = "deepseek") then
    Some (DEEPSEEK_API_KEY cfg, DEEPSEEK_BASE_URL cfg, DEEPSEEK_MODEL cfg)
  else if bool_decide (name = "openai") then
    Some (OPENAI_API_KEY cfg, OPENAI_BASE_URL cfg, OPENAI_MODEL cfg)
  else if bool_decide (name = "gemini") then
    Some (GEMINI_API_KEY cfg, GEMINI_BASE_URL cfg, GEMINI_MODEL cfg)
  else None.

Definition unsupported_provider_error (name : string) : Exc :=
  CustomException None ("不支持的模型厂商: " +:+ name) 10005.
Definition missing_base_url_error (name : string) : Exc :=
  CustomException None (name +:+ " base_url 未配置") 10005.
Definition missing_api_key_error (name : string) : Exc :=
  CustomException None (name +:+ " API key 未配置") 10005.

(** [UnifiedLLMClient.resolve_provider] *)
Definition resolve_provider (project_config : Config)
    (provider model : option string) (require_api_key : bool)
    : Result (ProviderConfig * string) :=
  let resolved_provider :=
    lower (strip (or_else provider (default_llm_provider project_config))) in
  match provider_attrs project_config resolved_provider with
  | None => Raise (unsupported_provider_error resolved_provider)
  | Some (api_key_attr, base_url_attr, default_model_attr) =>
      let api_key := strip api_key_attr in
      let base_url := rstrip_slash (strip base_url_attr) in
      let default_model := strip default_model_attr in
      if negb (truthy base_url) then
        Raise (missing_base_url_error resolved_provider)
      else if require_api_key && negb (truthy api_key) then
        Raise (missing_api_key_error resolved_provider)
      else
        let provider_config :=
          mkProviderConfig resolved_provider api_key base_url default_model in
        let resolved_model :=
          strip (or_else model
                   (if truthy default_model then default_model
                    else default_llm_model project_config)) in
        Ok (provider_config, resolved_model)
  end.

(** The markers of [ChatService._is_fallback_candidate_error]. *)
Definition fallback_markers : list string :=
  [ "模型请求失败"; "模型流式请求失败"; "模型返回为空";
    "API key 未配置"; "base_url 未配置"; "不支持的模型厂商" ].

(** [ChatService._is_fallback_candidate_error] *)
Definition _is_fallback_candidate_error (exc : Exc) : bool :=
  match exc with
  | OtherException _ _ => true
  | CustomException _ detail _ =>
      existsb (fun marker => contains marker detail) fallback_markers
  end.

(** The loop of [_provider_candidates]: [candidates] is the list built so
    far. *)
Fixpoint collect_candidates (names candidates : list string) : list string :=
  match names with
  | [] => candidates
  | name :: names' =>
      if negb (truthy name) || bool_decide (name ∈ candidates)
      then collect_candidates names' candidates
      else collect_candidates names' (candidates ++ [name])
  end.

(** The list comprehension over [LLM_FALLBACK_PROVIDERS.split(",")]. *)
Definition fallback_list (project_config : Config) : list string :=
  map (fun x => lower (strip x))
    (filter (fun x => truthy (strip x) = true)
       (split_comma (LLM_FALLBACK_PROVIDERS project_config))).

(** [ChatService._provider_candidates] *)
Definition _provider_candidates (project_config : Config)
    (primary_provider : string) : list string :=
  let primary :=
    lower (strip (if truthy primary_provider then primary_provider
                  else default_llm_provider project_config)) in
  if negb (LLM_AUTO_FALLBACK_ENABLE project_config) then [primary]
  else
    let candidates :=
      collect_candidates (primary :: fallback_list project_config) [] in
    match candidates with
    | [] => [primary]
    | _ => candidates
    end.

(** ** The chain: primary first, no repetition, names in normal form *)

Definition normalized (name : string) : Prop := lower (strip name) = name.

Lemma collect_candidates_spec names acc :
  NoDup acc ->
  exists more,
    collect_candidates names acc = acc ++ more /\
    NoDup (acc ++ more) /\
    Forall (fun c => c <> "" /\ c ∈ names) more.
Proof.
  revert acc. induction names as [|name names IH]; intros acc Hnd; simpl.
  - exists []. rewrite app_nil_r. by repeat split.
  - destruct (negb (truthy name) || bool_decide (name ∈ acc)) eqn:E.
    + destruct (IH acc Hnd) as (more & -> & Hnd' & Hall).
      exists more. repeat split; [done|].
      eapply Forall_impl; [exact Hall|]. intros c [? ?]. split; [done|].
      by apply list_elem_of_further.
    + apply orb_false_iff in E as [Ht Hin].
      apply negb_false_iff, truthy_ne in Ht.
      apply bool_decide_eq_false in Hin.
      assert (Hnd1 : NoDup (acc ++ [name])).
      { apply NoDup_app. repeat split; [done| |apply NoDup_singleton].
        intros x Hx ->%list_elem_of_singleton. done. }
      destruct (IH _ Hnd1) as (more & -> & Hnd' & Hall).
      exists (name :: more). rewrite <- app_assoc in *. simpl in *.
      repeat split; [done|].
      constructor; [split; [done | apply list_elem_of_here]|].
      eapply Forall_impl; [exact Hall|]. intros c [? ?]. split; [done|].
      by apply list_elem_of_further.
Qed.

Lemma fallback_list_normalized cfg : Forall normalized (fallback_list cfg).
Proof.
  unfold fallback_list. apply Forall_forall. intros c Hc.
  apply list_elem_of_In, in_map_iff in Hc as (x & <- & _). apply normalize_idem.
Qed.

(** The chain is never empty and never repeats a name; every name in it is
    in normal form; and a primary provider whose name is not blank heads it. *)
Lemma provider_candidates_spec cfg primary_provider :
  let primary :=
    lower (strip (if truthy primary_provider then primary_provider
                  else default_llm_provider cfg)) in
  let chain := _provider_candidates cfg primary_provider in
  chain <> [] /\ NoDup chain /\ Forall normalized chain /\
  (primary <> "" -> exists rest, chain = primary :: rest) /\
  (Forall (fun c => c <> "") chain \/ chain = [primary]).
Proof.
  intros primary chain. subst chain. unfold _provider_candidates. fold primary.
  assert (Hp : normalized primary) by apply normalize_idem.
  destruct (negb (LLM_AUTO_FALLBACK_ENABLE cfg)).
  { repeat split; [done | apply NoDup_singleton | by constructor | eauto | by right]. }
  destruct (collect_candidates_spec (primary :: fallback_list cfg) [] (NoDup_nil_2))
    as (more & Heq & Hnd & Hall).
  simpl app in *. rewrite Heq.
  destruct more as [|c more].
  { repeat split; [done | apply NoDup_singleton | by constructor | eauto | by right]. }
  repeat split; [done | done | | | ].
  - eapply Forall_impl; [exact Hall|]. intros x [_ Hx].
    apply elem_of_cons in Hx as [->|Hx]; [done|].
    pose proof (fallback_list_normalized cfg) as Hf.
    rewrite Forall_forall in Hf. by apply Hf.
  - intros Hne. revert Heq. simpl.
    destruct primary eqn:Eprim; [done|]. simpl.
    intros Heq.
    destruct (collect_candidates_spec (fallback_list cfg) [String a s]
                ltac:(apply NoDup_singleton)) as (more' & Heq' & _).
    rewrite Heq' in Heq. simpl in Heq. injection Heq as -> ->. eauto.
  - left. eapply Forall_impl; [exact Hall|]. by intros x [? _].
Qed.

(** ** Resolution *)

(** A name in normal form resolves to a binding of that very name. *)
Lemma resolve_provider_name cfg name model require pc resolved_model :
  name <> "" -> normalized name ->
  resolve_provider cfg (Some name) model require = Ok (pc, resolved_model) ->
  pc_provider pc = name.
Proof.
  intros Hne Hnorm. unfold resolve_provider.
  assert (Hor : or_else (Some name) (default_llm_provider cfg) = name).
  { simpl. apply truthy_ne in Hne. by rewrite Hne. }
  rewrite Hor, Hnorm.
  destruct (provider_attrs cfg name) as [[[k u] dm]|]; [|done].
  destruct (negb (truthy _)); [done|].
  destruct (require && negb _); [done|]. by intros [= <- _].
Qed.

Lemma is_fallback_of_marker marker status detail code :
  In marker fallback_markers -> contains marker detail = true ->
  _is_fallback_candidate_error (CustomException status detail code) = true.
Proof.
  intros Hin Hc. unfold _is_fallback_candidate_error.
  apply existsb_exists. eauto.
Qed.

(** Every failure of the directory is one the fallback loop moves past. *)
Lemma resolve_provider_error_is_fallback cfg provider model require e :
  resolve_provider cfg provider model require = Raise e ->
  _is_fallback_candidate_error e = true.
Proof.
  unfold resolve_provider.
  set (name := lower (strip _)).
  destruct (provider_attrs cfg name) as [[[k u] dm]|].
  - destruct (negb (truthy _)).
    { intros [= <-]. apply (is_fallback_of_marker "base_url 未配置").
      - unfold fallback_markers. simpl. tauto.
      - by apply (contains_weaken_l name "base_url 未配置" " base_url 未配置"). }
    destruct (require && negb _); [|done].
    intros [= <-]. apply (is_fallback_of_marker "API key 未配置").
    + unfold fallback_markers. simpl. tauto.
    + by apply (contains_weaken_l name "API key 未配置" " API key 未配置").
  - intros [= <-]. apply (is_fallback_of_marker "不支持的模型厂商").
    + unfold fallback_markers. simpl. tauto.
    + by apply (contains_weaken_r "不支持的模型厂商" "不支持的模型厂商: " name).
Qed.

End Providers.

(* ===================================================================== *)
(** * Python dictionaries, listed in the order of insertion               *)
(* ===================================================================== *)

Module PyDict.

(** A dictionary with text keys whose order matters: its entries, in the
    order in which the keys were first set, which is the order in which
    Python lists them. *)
Definition t (V : Type) : Type := list (string * V).

(** [d.get(key)] *)
Fixpoint get {V} (d : t V) (key : string) : option V :=
  match d with
  | [] => None
  | (k, v) :: rest => if bool_decide (k = key) then Some v else get rest key
  end.

(** [list(d.keys())] and [list(d.values())] *)
Definition keys {V} (d : t V) : list string := d.*1.
Definition values {V} (d : t V) : list V := d.*2.

(** [d[key] = v] for a key that [d] does not hold. *)
Definition add {V} (key : string) (v : V) (d : t V) : t V := d ++ [(key, v)].

(** [{key: f(v) for key, v in d.items()}] *)
Definition map_values {V V'} (f : V -> V') (d : t V) : t V' :=
  (fun kv => (kv.1, f kv.2)) <$> d.

Lemma get_map_values {V V'} (f : V -> V') (d : t V) key :
  get (map_values f d) key = f <$> get d key.
Proof.
  induction d as [|[k v] d IH]; [done|]. cbn [map_values fmap list_fmap get fst snd].
  case_bool_decide; [done | exact IH].
Qed.

Lemma get_app {V} (d1 d2 : t V) key :
  get (d1 ++ d2) key = match get d1 key with Some v => Some v | None => get d2 key end.
Proof.
  induction d1 as [|[k v] d1 IH]; [done|]. cbn [app get].
  case_bool_decide; [done | exact IH].
Qed.

Lemma get_add_eq {V} key (v : V) d : get d key = None -> get (add key v d) key = Some v.
Proof. intros H. unfold add. rewrite get_app, H. cbn. by rewrite bool_decide_eq_true_2. Qed.

Lemma get_add_ne {V} key (v : V) d key' :
  key' <> key -> get (add key v d) key' = get d key'.
Proof.
  intros H. unfold add. rewrite get_app. destruct (get d key'); [done|].
  cbn. by rewrite bool_decide_eq_false_2.
Qed.

(** A key that is listed has a value. *)
Lemma get_is_Some {V} (d : t V) key : is_Some (get d key) <-> key ∈ keys d.
Proof.
  unfold keys. induction d as [|[k v] d IH]; cbn [get fmap list_fmap fst].
  - split; [by intros [? ?] | set_solver].
  - case_bool_decide as Hk.
    + subst. split; [set_solver | by eexists].
    + rewrite IH. set_solver.
Qed.

End PyDict.

(* ===================================================================== *)
(** * Tools: the local registry ([tool_registry.py]) and the remote
      adapter ([mcp_service.py])                                           *)
(* ===================================================================== *)

Module Tools.
Import PyStr.

Section Tools.
(** [S] is the state of the world the tools run in.  [json_loads] is
    [json.loads] on a text; [exc_str] is [str(exc)]. *)
Context {S : Type}.
Variable json_loads : string -> Loads.
Variable json_dumps : Json -> string.
Variable exc_str : Exc -> string.
Variable uuid4_hex : S -> string * S.

(** [ToolDefinition] *)
Record ToolDefinition := mkToolDefinition {
  td_name : string;
  td_description : string;
  td_parameters : Json;
  td_executor : Json -> S -> Result ToolValue * S;
}.

(** [ToolRegistry.register] *)
Definition register (tool : ToolDefinition)
    (_tools : PyDict.t ToolDefinition) : Result (PyDict.t ToolDefinition) :=
  match PyDict.get _tools (td_name tool) with
  | Some _ =>
      Raise (CustomException None ("工具 " +:+ td_name tool +:+ " 已存在") 10005)
  | None => Ok (PyDict.add (td_name tool) tool _tools)
  end.

(** [function_block.get("arguments") or "{}"] *)
Definition arguments_text_of (tool_call : ToolCall) : ArgumentsValue :=
  match tc_arguments tool_call with
  | Some (ArgText text) => if truthy text then ArgText text else ArgText "{}"
  | Some (ArgOther type_name true) => ArgOther type_name true
  | Some (ArgOther _ false) | None => ArgText "{}"
  end.

(** What [json.loads] raises for a value that is no text. *)
Definition loads_type_error (type_name : string) : Exc :=
  OtherException "TypeError"
    ("the JSON object must be str, bytes or bytearray, not " +:+ type_name).

(** The argument parsing both adapters share:
    [try: json.loads(text) except json.JSONDecodeError: {"raw": text}].
    Any other exception of [json.loads] leaves the [try]. *)
Definition parse_arguments (arguments_text : ArgumentsValue) : Result Json :=
  match arguments_text with
  | ArgText text =>
      match json_loads text with
      | Loaded arguments => Ok arguments
      | LoadsRaises cls message =>
          if bool_decide (cls = "JSONDecodeError")
          then Ok (JDict [("raw", JStr text)])
          else Raise (OtherException cls message)
      end
  | ArgOther type_name _ => Raise (loads_type_error type_name)
  end.

(** The parse raises no exception of the application's own class. *)
Lemma parse_arguments_raises arguments_text e :
  parse_arguments arguments_text = Raise e ->
  exists cls message, e = OtherException cls message.
Proof.
  unfold parse_arguments, loads_type_error.
  destruct arguments_text as [text|type_name t]; [|intros [= <-]; eauto].
  destruct (json_loads text) as [arguments|cls message]; [done|].
  case_bool_decide; [done|]. intros [= <-]. eauto.
Qed.

(** [tool_call.get("id") or f"{prefix}{uuid.uuid4().hex}"]: the generator is
    only consulted when the call carries no id. *)
Definition call_id_of (prefix : string) (tool_call : ToolCall) (s : S) : string * S :=
  if otruthy (tc_id tool_call) then (or_else (tc_id tool_call) "", s)
  else let '(hex, s') := uuid4_hex s in (prefix +:+ hex, s').

(** [json.dumps({"ok": True, "result": result})] *)
Definition dumps_ok (result : Json) : string :=
  json_dumps (JDict [("ok", JBool true); ("result", result)]).

(** [json.dumps({"ok": False, "error": str(exc)})] *)
Definition dumps_error (exc : Exc) : string :=
  json_dumps (JDict [("ok", JBool false); ("error", JStr (exc_str exc))]).

Definition not_serializable (type_name : string) : Exc :=
  OtherException "TypeError"
    ("Object of type " +:+ type_name +:+ " is not JSON serializable").

Definition missing_name_error : Exc :=
  CustomException None "工具调用缺少 name" 10005.
Definition unregistered_tool_error (tool_name : string) : Exc :=
  CustomException None ("工具 " +:+ tool_name +:+ " 未注册") 10002.

(** [ToolRegistry.execute_tool_call] *)
Definition execute_tool_call (_tools : PyDict.t ToolDefinition)
    (tool_call : ToolCall) (s : S) : Result ToolResult * S :=
  let '(call_id, s) := call_id_of "toolcall_" tool_call s in
  let arguments_text := arguments_text_of tool_call in
  if negb (otruthy (tc_name tool_call)) then (Raise missing_name_error, s)
  else
    let tool_name := or_else (tc_name tool_call) "" in
    match PyDict.get _tools tool_name with
    | None => (Raise (unregistered_tool_error tool_name), s)
    | Some tool =>
        match parse_arguments arguments_text with
        | Raise exc => (Raise exc, s)
        | Ok arguments =>
            let '(outcome, s) :=
              match td_executor tool arguments s with
              | (Ok (Serializable result), s') => ((dumps_ok result, true), s')
              | (Ok (Unserializable ty), s') =>
                  ((dumps_error (not_serializable ty), false), s')
              | (Raise exc, s') => ((dumps_error exc, false), s')
              end in
            (Ok (mkToolResult outcome.2 call_id tool_name arguments outcome.1), s)
        end
    end.

(** [ToolRegistry.list_openai_tools]; without names ([None] or an empty
    list) every registered tool is selected, in the order of registration. *)
Fixpoint openai_tools_of (_tools : PyDict.t ToolDefinition)
    (selected_names : list string) : Result (list OpenAITool) :=
  match selected_names with
  | [] => Ok []
  | name :: names =>
      match PyDict.get _tools name with
      | None => Raise (unregistered_tool_error name)
      | Some tool =>
          match openai_tools_of _tools names with
          | Ok tools =>
              Ok (mkOpenAITool (Some (td_name tool)) (td_description tool)
                    (td_parameters tool) :: tools)
          | Raise e => Raise e
          end
      end
  end.

Definition list_openai_tools (_tools : PyDict.t ToolDefinition)
    (tool_names : option (list string)) : Result (list OpenAITool) :=
  let selected_names :=
    match tool_names with
    | Some (n :: ns) => n :: ns
    | _ => PyDict.keys _tools
    end in
  openai_tools_of _tools selected_names.

(** ** The remote adapter *)

(** The columns of [MCPServer] the adapter reads. *)
Record MCPServer := mkMCPServer {
  server_id : string;
  ms_transport : string;
  ms_endpoint : option string;
  ms_timeout_seconds : Z;
  ms_enabled : bool;
}.

Record HttpResponse := mkHttpResponse {
  status_code : Z;
  resp_text : string;
  resp_json : Result Json;
}.

(** The database query of [_find_server_by_tool_name] and the HTTP POST of
    the [http] transport. *)
Variable _find_server_by_tool_name :
  Z -> string -> S -> Result (option MCPServer) * S.
Variable http_post : string -> Z -> Json -> S -> Result HttpResponse * S.

(** [MCPService._tool_call_result] *)
Definition _tool_call_result (call_id tool_name : string) (arguments result : Json)
    (ok : bool) : ToolResult :=
  mkToolResult ok call_id tool_name arguments
    (json_dumps (JDict [("ok", JBool ok); ("result", result)])).

(** [MCPService.execute_tool_call], called with a database session. *)
Definition mcp_execute_tool_call (owner_id : Z) (tool_call : ToolCall) (s : S)
    : Result ToolResult * S :=
  let '(call_id, s) := call_id_of "mcp_toolcall_" tool_call s in
  let tool_name := strip (or_else (tc_name tool_call) "") in
  if negb (truthy tool_name) then (Raise missing_name_error, s)
  else
    match parse_arguments (arguments_text_of tool_call) with
    | Raise exc => (Raise exc, s)
    | Ok arguments =>
      match _find_server_by_tool_name owner_id tool_name s with
      | (Raise e, s) => (Raise e, s)
      | (Ok None, s) =>
          (Raise (CustomException None ("MCP 工具 " +:+ tool_name +:+ " 未注册") 10002), s)
      | (Ok (Some server_row), s) =>
          if negb (ms_enabled server_row) then
            (Raise (CustomException None
                      ("MCP 服务器 " +:+ server_id server_row +:+ " 已禁用") 10005), s)
          else
            let transport :=
              lower (if truthy (ms_transport server_row)
                     then ms_transport server_row else "http") in
            if bool_decide (transport = "mock") then
              let result :=
                JDict [("server_id", JStr (server_id server_row));
                       ("tool_name", JStr tool_name);
                       ("arguments", arguments);
                       ("transport", JStr "mock")] in
              (Ok (_tool_call_result call_id tool_name arguments result true), s)
            else if bool_decide (transport = "http") then
              let endpoint := strip (or_else (ms_endpoint server_row) "") in
              if negb (truthy endpoint) then
                (Raise (CustomException None
                          ("MCP 服务器 " +:+ server_id server_row
                             +:+ " endpoint 未配置") 10005), s)
              else
                let timeout :=
                  Z.max 1 (if ms_timeout_seconds server_row =? 0 then 30
                           else ms_timeout_seconds server_row) in
                let payload :=
                  JDict [("tool_name", JStr tool_name);
                         ("arguments", arguments);
                         ("server_id", JStr (server_id server_row))] in
                match http_post endpoint timeout payload s with
                | (Raise exc, s) =>
                    (Ok (_tool_call_result call_id tool_name arguments
                           (JDict [("error", JStr (exc_str exc))]) false), s)
                | (Ok resp, s) =>
                    if 400 <=? status_code resp then
                      (Ok (_tool_call_result call_id tool_name arguments
                             (JDict [("error",
                                      JStr ("MCP HTTP 调用失败("
                                              +:+ pretty (status_code resp) +:+ ")"));
                                     ("body", JStr (prefix (resp_text resp) 800))])
                             false), s)
                    else
                      match resp_json resp with
                      | Ok result =>
                          (Ok (_tool_call_result call_id tool_name arguments result true), s)
                      | Raise exc =>
                          (Ok (_tool_call_result call_id tool_name arguments
                                 (JDict [("error", JStr (exc_str exc))]) false), s)
                      end
                end
            else
              (Raise (CustomException None
                        ("暂不支持的 MCP transport: " +:+ transport) 10005), s)
      end
    end.

(** ** What the two adapters guarantee about the id they answer with *)

Lemma call_id_of_given prefix tool_call s :
  otruthy (tc_id tool_call) = true ->
  call_id_of prefix tool_call s = (or_else (tc_id tool_call) "", s) /\
  tc_id tool_call = Some (or_else (tc_id tool_call) "").
Proof.
  intros H. unfold call_id_of. rewrite H. split; [done|].
  destruct (tc_id tool_call) as [i|]; [|done]. simpl in *. by rewrite H.
Qed.

Lemma execute_tool_call_id _tools tool_call s result s' :
  execute_tool_call _tools tool_call s = (Ok result, s') ->
  tr_tool_call_id result = (call_id_of "toolcall_" tool_call s).1.
Proof.
  unfold execute_tool_call.
  destruct (call_id_of "toolcall_" tool_call s) as [call_id s1]. simpl.
  destruct (negb (otruthy (tc_name tool_call))); [done|].
  destruct (PyDict.get _tools _) as [tool|]; [|done].
  destruct (parse_arguments _) as [arguments|exc]; [|done].
  destruct (td_executor tool arguments s1) as [[[v|ty]|e] s2]; by intros [= <- _].
Qed.

Lemma mcp_execute_tool_call_id owner_id tool_call s result s' :
  mcp_execute_tool_call owner_id tool_call s = (Ok result, s') ->
  tr_tool_call_id result = (call_id_of "mcp_toolcall_" tool_call s).1.
Proof.
  unfold mcp_execute_tool_call.
  destruct (call_id_of "mcp_toolcall_" tool_call s) as [call_id s1]. simpl.
  destruct (negb (truthy _)); [done|].
  destruct (parse_arguments _) as [arguments|exc]; [|done].
  destruct (_find_server_by_tool_name _ _ s1) as [[[row|]|e] s2]; [|done..].
  destruct (negb (ms_enabled row)); [done|].
  destruct (bool_decide (_ = "mock")); [by intros [= <- _]|].
  destruct (bool_decide (_ = "http")); [|done].
  destruct (negb (truthy _)); [done|].
  destruct (http_post _ _ _ s2) as [[resp|e] s3]; [|by intros [= <- _]].
  destruct (400 <=? status_code resp); [by intros [= <- _]|].
  destruct (resp_json resp); by intros [= <- _].
Qed.

End Tools.
End Tools.


(** C9. For a tool call that names a registered tool, [execute_tool_call]
    returns a result record unless [json.loads] raises something other than
    [JSONDecodeError].  Argument text that [json.loads] rejects with
    [JSONDecodeError] is wrapped as [{"raw": text}], and the executor is run
    on the wrapped value all the same (the world after the call is the one
    the executor leaves).  An executor that raises yields a result with
    [ok = false] whose content carries the error string; so does one whose
    value cannot be rendered as JSON.  In each of these cases the result
    record holds the call id, the tool name, the arguments the executor was
    given, and the content.  Any other exception of [json.loads] (for
    arguments that are no text, the [TypeError] it raises for them) leaves
    [execute_tool_call], and the executor is not run. *)
Theorem C9_execute_tool_call_returns_unless_json_loads_raises :
  forall (S : Type) (json_loads : string -> Loads)
         (json_dumps : Json -> string) (exc_str : Exc -> string)
         (uuid4_hex : S -> string * S)
         (_tools : PyDict.t (Tools.ToolDefinition (S := S)))
         (tool_call : ToolCall) (tool : Tools.ToolDefinition) (s : S),
    PyStr.otruthy (tc_name tool_call) = true ->
    PyDict.get _tools (PyStr.or_else (tc_name tool_call) "") = Some tool ->
    let id_step := Tools.call_id_of uuid4_hex "toolcall_" tool_call s in
    let outcome :=
      Tools.execute_tool_call json_loads json_dumps exc_str uuid4_hex
        _tools tool_call s in
    let returns (arguments : Json) :=
      let run := Tools.td_executor tool arguments id_step.2 in
      exists result,
        outcome = (Ok result, run.2) /\
        tr_tool_call_id result = id_step.1 /\
        tr_tool_name result = PyStr.or_else (tc_name tool_call) "" /\
        tr_arguments result = arguments /\
        match run.1 with
        | Ok (Serializable value) =>
            tr_ok result = true /\
            tr_content result = Tools.dumps_ok json_dumps value
        | Ok (Unserializable type_name) =>
            tr_ok result = false /\
            tr_content result =
              Tools.dumps_error json_dumps exc_str (Tools.not_serializable type_name)
        | Raise exc =>
            tr_ok result = false /\
            tr_content result = Tools.dumps_error json_dumps exc_str exc
        end in
    match Tools.arguments_text_of tool_call with
    | ArgText text =>
        match json_loads text with
        | Loaded arguments => returns arguments
        | LoadsRaises cls message =>
            if bool_decide (cls = "JSONDecodeError")
            then returns (JDict [("raw", JStr text)])
            else outcome = (Raise (OtherException cls message), id_step.2)
        end
    | ArgOther type_name _ =>
        outcome = (Raise (Tools.loads_type_error type_name), id_step.2)
    end.
Proof.
  intros S json_loads json_dumps exc_str uuid4_hex _tools tool_call tool s
         Hname Htool id_step outcome returns.
  assert (Hreturns : forall arguments,
            Tools.parse_arguments json_loads (Tools.arguments_text_of tool_call)
              = Ok arguments -> returns arguments).
  { intros arguments Hparse. subst returns outcome. cbv beta.
    unfold Tools.execute_tool_call. fold id_step.
    destruct id_step as [call_id s1]. cbn [fst snd].
    rewrite Hname. simpl negb. cbv iota. rewrite Htool, Hparse.
    destruct (Tools.td_executor tool arguments s1) as [[[value|type_name]|exc] s2];
      cbn [fst snd]; eexists; (split; [reflexivity|]); simpl; done. }
  assert (Hraises : forall exc,
            Tools.parse_arguments json_loads (Tools.arguments_text_of tool_call)
              = Raise exc -> outcome = (Raise exc, id_step.2)).
  { intros exc Hparse. subst outcome.
    unfold Tools.execute_tool_call. fold id_step.
    destruct id_step as [call_id s1]. cbn [fst snd].
    rewrite Hname. simpl negb. cbv iota. by rewrite Htool, Hparse. }
  destruct (Tools.arguments_text_of tool_call) as [text|type_name t];
    cbn [Tools.parse_arguments] in Hreturns, Hraises.
  - destruct (json_loads text) as [arguments|cls message]; [by apply Hreturns|].
    case_bool_decide; [by apply Hreturns | by apply Hraises].
  - by apply Hraises.
Qed.

(** The world of the scenario: a counter of executor runs. *)
Definition failing_tool : Tools.ToolDefinition (S := nat) :=
  Tools.mkToolDefinition "calculate" "执行基础数学表达式计算" (JDict [])
    (fun _ n => (Raise (OtherException "ValueError" "expression 不能为空"), Datatypes.S n)).

Definition scenario_exc_str (e : Exc) : string :=
  match e with
  | CustomException _ detail _ => detail
  | OtherException _ message => message
  end.

Definition scenario_dumps (j : Json) : string :=
  match j with
  | JDict [("ok", JBool false); ("error", JStr m)] => "{ok: false, error: " +:+ m +:+ "}"
  | JDict (("ok", JBool true) :: _) => "{ok: true}"
  | _ => "{}"
  end.

(** [json.loads] on the texts of the scenarios: [{}] is the empty object;
    five thousand opening brackets nest deeper than the decoder recurses;
    the other texts are not JSON. *)
Definition deeply_nested : string := PyStr.str (repeat "["%char 5000).

Definition recursion_error : Exc :=
  OtherException "RecursionError"
    "maximum recursion depth exceeded while decoding a JSON array from a unicode string".

Definition scenario_loads (text : string) : Loads :=
  if bool_decide (text = "{}") then Loaded (JDict [])
  else if bool_decide (text = deeply_nested) then
    LoadsRaises "RecursionError"
      "maximum recursion depth exceeded while decoding a JSON array from a unicode string"
  else LoadsRaises "JSONDecodeError" "Expecting value: line 1 column 1 (char 0)".

(** C9, witness: the arguments [not json] do not parse and the executor
    raises; the call still returns a record, with [ok = false]. *)
Lemma C9_witness_unparsable_arguments_and_failing_executor :
  exists result,
    Tools.execute_tool_call scenario_loads scenario_dumps scenario_exc_str
      (fun n : nat => ("0f", n))
      [("calculate", failing_tool)]
      (mkToolCall (Some "call_1") (Some "calculate") (Some (ArgText "not json")))
      0%nat
    = (Ok result, 1%nat) /\
    tr_ok result = false /\
    tr_tool_call_id result = "call_1" /\
    tr_arguments result = JDict [("raw", JStr "not json")] /\
    tr_content result = "{ok: false, error: expression 不能为空}".
Proof.
  destruct (C9_execute_tool_call_returns_unless_json_loads_raises nat
              scenario_loads scenario_dumps scenario_exc_str
              (fun n : nat => ("0f", n))
              [("calculate", failing_tool)]
              (mkToolCall (Some "call_1") (Some "calculate")
                 (Some (ArgText "not json")))
              failing_tool 0%nat eq_refl eq_refl)
    as (result & Hrun & Hid & _ & Hargs & Hok & Hcontent).
  exists result. split; [exact Hrun|]. split; [exact Hok|].
  split; [exact Hid|]. split; [exact Hargs|]. exact Hcontent.
Defined.

(** C9, counterexample: a call of the registered tool [calculate] that
    returns no result record.  With five thousand opening brackets as
    arguments, a text that is not valid JSON, [json.loads] raises
    [RecursionError], which leaves [execute_tool_call]; with a dictionary as
    arguments it raises [TypeError].  In both cases the executor is not run
    (the counter stays at 0). *)
Lemma C9_counterexample_parse_error_leaves_execute_tool_call :
  Tools.execute_tool_call scenario_loads scenario_dumps scenario_exc_str
    (fun n : nat => ("0f", n))
    [("calculate", failing_tool)]
    (mkToolCall (Some "call_1") (Some "calculate") (Some (ArgText deeply_nested)))
    0%nat
  = (Raise recursion_error, 0%nat) /\
  Tools.execute_tool_call scenario_loads scenario_dumps scenario_exc_str
    (fun n : nat => ("0f", n))
    [("calculate", failing_tool)]
    (mkToolCall (Some "call_1") (Some "calculate") (Some (ArgOther "dict" true)))
    0%nat
  = (Raise (Tools.loads_type_error "dict"), 0%nat).
Proof. split; by vm_compute. Qed.

(* ===================================================================== *)
(** * The chat orchestration engine ([chat_service.py])                    *)
(* ===================================================================== *)

Module Engine.
Import PyStr Providers.

(** The events of the streaming edge protocol. *)
Inductive SSEvent :=
| MetaEvent (conversation_id provider model : string) (warning : option string)
| DeltaEvent (conversation_id delta : string)
| DoneEvent (conversation_id provider model assistant_message : string)
    (usage : Usage) (finish_reason : option string)
    (fallback : option (string * string * list string))
| ErrorEvent (conversation_id : option string) (message : string).

(** The keyword arguments of [LLMObservabilityService.record]. *)
Record Metric := mkMetric {
  mt_request_id : string;
  mt_owner_id : Z;
  mt_conversation_id : option string;
  mt_provider : string;
  mt_model : string;
  mt_is_stream : bool;
  mt_success : bool;
  mt_latency_ms : Z;
  mt_usage : Usage;
  mt_error_code : option string;
  mt_error_message : option string;
  mt_fallback_from : option string;
  mt_fallback_chain : list string;
  mt_entry : string;
}.

(** What a run does that an observer outside can see, in order. *)
Inductive Event :=
| EvCompletion (messages : list ChatMsg) (provider model : string)
| EvStream (messages : list ChatMsg) (provider model : string)
| EvToolCall (tool_call : ToolCall)
| EvYield (event : SSEvent)
| EvDbAdd (conversation_id : string) (owner_id : Z) (row : LLMMessage)
| EvDbAddConversation (conversation : LLMConversation)
| EvDbCommit
| EvMetric (metric : Metric).

(** A chunk of [chat_completion_stream]. *)
Inductive DeltaPart :=
| DPStr (s : string)
| DPText (text : option string)
| DPOther.

Inductive DeltaContent :=
| DCAbsent
| DCStr (s : string)
| DCDict (text content : option string) (parts : option (list DeltaPart))
| DCList (items : list DeltaPart)
| DCOther.

Record StreamChunk := mkStreamChunk {
  ch_type : string;
  ch_provider : option string;
  ch_model : option string;
  ch_delta : DeltaContent;
  ch_finish_reason : option string;
  ch_usage : Usage;
}.

(** The services outside the engine: the provider endpoints, the JSON
    codec, the id generator, the local tools, the tool-server lookup and
    transport, all acting on a world [W]. *)
Record Services {W Temperature : Type} := mkServices {
  llm_chat_completion :
    list ChatMsg -> string -> string -> option Temperature -> list OpenAITool ->
    W -> Result Completion * W;
  llm_chat_completion_stream :
    list ChatMsg -> string -> string -> option Temperature ->
    W -> (list StreamChunk * option Exc) * W;
  json_loads : string -> Loads;
  json_dumps : Json -> string;
  exc_str : Exc -> string;
  uuid4_hex : W -> string * W;
  tool_registry : PyDict.t (Tools.ToolDefinition (S := W));
  find_server_by_tool_name : Z -> string -> W -> Result (option Tools.MCPServer) * W;
  http_post : string -> Z -> Json -> W -> Result Tools.HttpResponse * W;
}.
Arguments Services : clear implicits.

(** [ChatService._merge_usage] *)
Definition merge_usage_entry (current new_value : option UsageVal) : option UsageVal :=
  match current, new_value with
  | Some (UNum a), Some (UNum b) => Some (UNum (a + b))
  | Some c, _ => Some c
  | None, v => v
  end.

Definition _merge_usage (current new_usage : Usage) : Usage :=
  merge merge_usage_entry current new_usage.

(** The local variables of [_run_completion_with_tools]. *)
Record LoopState := mkLoopState {
  working_messages : list ChatMsg;
  generated_records : list LLMMessage;
  tool_runs : list ToolResult;
  usage_total : Usage;
  assistant_text : option string;
  actual_provider : string;
  actual_model : string;
  tool_call_pending : bool;
}.

(** What [_run_completion_with_tools] returns. *)
Record ToolsRun := mkToolsRun {
  run_assistant_message : option string;
  run_generated_records : list LLMMessage;
  run_tool_runs : list ToolResult;
  run_usage_total : Usage;
  run_actual_provider : string;
  run_actual_model : string;
}.

(** What [_run_completion_with_fallback] returns. *)
Record FallbackRun := mkFallbackRun {
  fr_run : ToolsRun;
  fr_fallback_from : option string;
  fr_fallback_chain : list string;
}.

(** [LLMChatReq] ([schemas/llm.py]). *)
Record LLMChatReq {Temperature : Type} := mkLLMChatReq {
  rq_conversation_id : option string;
  rq_message : string;
  rq_provider : option string;
  rq_model : option string;
  rq_temperature : option Temperature;
  rq_tool_names : list string;
  rq_use_tools : bool;
  rq_max_tool_steps : option Z;
  rq_system_prompt : option string;
  rq_skill_name : option string;
  rq_use_rag : bool;
  rq_rag_top_k : Z;
}.
Arguments LLMChatReq : clear implicits.
Arguments mkLLMChatReq {Temperature}.

(** The bounds the schema puts on a request:
    [max_tool_steps: Field(default=None, ge=1, le=8)],
    [rag_top_k: Field(default=3, ge=1, le=20)],
    [message: Field(min_length=1, max_length=20000)]. *)
Definition valid_request {Temperature} (rq : LLMChatReq Temperature) : bool :=
  match rq_max_tool_steps rq with
  | Some k => (1 <=? k) && (k <=? 8)
  | None => true
  end
  && (1 <=? rq_rag_top_k rq) && (rq_rag_top_k rq <=? 20)
  && (1 <=? len (rq_message rq)) && (len (rq_message rq) <=? 20000).

(** [request_data.max_tool_steps or project_config.LLM_MAX_TOOL_STEPS] *)
Definition effective_max_tool_steps {Temperature} (project_config : Config)
    (rq : LLMChatReq Temperature) : Z :=
  match rq_max_tool_steps rq with
  | Some k => if k =? 0 then LLM_MAX_TOOL_STEPS project_config else k
  | None => LLM_MAX_TOOL_STEPS project_config
  end.

Definition step_limit_text : string := "工具调用达到上限，请缩小问题范围后重试。".

Definition no_provider_error : Exc :=
  CustomException None "模型调用失败，且无可用回退厂商" 10005.

Section Engine.
Context {W Temperature : Type}.
Variable project_config : Config.
Variable svc : Services W Temperature.

(** The state a run threads: the world outside and the trace of what the
    run has done so far. *)
Record State := mkState {
  ext : W;
  trace : list Event;
}.

Definition M (A : Type) : Type := State -> Result A * State.

Definition ret {A} (a : A) : M A := fun st => (Ok a, st).
Definition raise {A} (e : Exc) : M A := fun st => (Raise e, st).
Definition bind {A B} (m : M A) (k : A -> M B) : M B :=
  fun st =>
    match m st with
    | (Ok a, st') => k a st'
    | (Raise e, st') => (Raise e, st')
    end.

(** An external call, and the same for a call that cannot fail. *)
Definition call {A} (f : W -> Result A * W) : M A :=
  fun st => let '(r, w) := f (ext st) in (r, mkState w (trace st)).
Definition call_total {A} (f : W -> A * W) : State -> A * State :=
  fun st => let '(a, w) := f (ext st) in (a, mkState w (trace st)).

Definition log (e : Event) (st : State) : State :=
  mkState (ext st) (trace st ++ [e]).
Definition emit (e : Event) : M unit := fun st => (Ok tt, log e st).

(** [try: m except Exception as exc: h exc] *)
Definition try_except {A} (m : M A) (h : Exc -> M A) : M A :=
  fun st =>
    match m st with
    | (Ok a, st') => (Ok a, st')
    | (Raise e, st') => h e st'
    end.

(** [try: m finally: fin] *)
Definition try_finally {A} (m : M A) (fin : M unit) : M A :=
  fun st =>
    let '(r, st') := m st in
    match fin st' with
    | (Ok _, st'') => (r, st'')
    | (Raise e, st'') => (Raise e, st'')
    end.

(** [self.llm_client.chat_completion(...)] *)
Definition chat_completion (messages : list ChatMsg) (provider model : string)
    (temperature : option Temperature) (tools : list OpenAITool) : M Completion :=
  fun st =>
    call (llm_chat_completion svc messages provider model temperature tools)
      (log (EvCompletion messages provider model) st).

(** The local tools, run from within the engine. *)
Definition lift_tool (tool : Tools.ToolDefinition (S := W))
    : Tools.ToolDefinition (S := State) :=
  Tools.mkToolDefinition (Tools.td_name tool) (Tools.td_description tool)
    (Tools.td_parameters tool)
    (fun arguments => call (Tools.td_executor tool arguments)).

Definition registry_execute_tool_call (tool_call : ToolCall) : M ToolResult :=
  Tools.execute_tool_call (json_loads svc) (json_dumps svc) (exc_str svc)
    (call_total (uuid4_hex svc)) (PyDict.map_values lift_tool (tool_registry svc))
    tool_call.

Definition mcp_execute_tool_call (owner_id : Z) (tool_call : ToolCall) : M ToolResult :=
  Tools.mcp_execute_tool_call (json_loads svc) (json_dumps svc) (exc_str svc)
    (call_total (uuid4_hex svc))
    (fun owner name => call (find_server_by_tool_name svc owner name))
    (fun endpoint timeout payload => call (http_post svc endpoint timeout payload))
    owner_id tool_call.

(** The [try]/[except CustomException] around the registry: a tool the
    registry does not know (code 10002) is retried on the remote adapter;
    anything else is raised again. *)
Definition dispatch_tool_call (owner_id : Z) (tool_call : ToolCall) : M ToolResult :=
  fun st =>
    match registry_execute_tool_call tool_call (log (EvToolCall tool_call) st) with
    | (Raise (CustomException status detail custom_code), st') =>
        if custom_code =? 10002 then mcp_execute_tool_call owner_id tool_call st'
        else (Raise (CustomException status detail custom_code), st')
    | other => other
    end.

Definition tool_message (tool_result : ToolResult) : ChatMsg :=
  mkChatMsg "tool" (tr_content tool_result) None (Some (tr_tool_call_id tool_result)).

Definition tool_record (tool_result : ToolResult) : LLMMessage :=
  mkLLMMessage "tool" (Some (tr_content tool_result))
    (Some (tr_tool_name tool_result)) (Some (tr_tool_call_id tool_result))
    None None None None
    [("ok", JBool (tr_ok tool_result)); ("arguments", tr_arguments tool_result)].

(** The body of [for tool_call in tool_calls], once the call has a
    result. *)
Definition record_tool_result (tool_result : ToolResult) (ls : LoopState) : LoopState :=
  mkLoopState
    (working_messages ls ++ [tool_message tool_result])
    (generated_records ls ++ [tool_record tool_result])
    (tool_runs ls ++ [tool_result])
    (usage_total ls) (assistant_text ls) (actual_provider ls) (actual_model ls)
    (tool_call_pending ls).

(** [for tool_call in tool_calls: ...].  The locals are returned in every
    case, next to the exception that ended the loop, if one did. *)
Fixpoint run_tool_calls (owner_id : Z) (tool_calls : list ToolCall)
    (ls : LoopState) (st : State) : (option Exc * LoopState) * State :=
  match tool_calls with
  | [] => ((None, ls), st)
  | tool_call :: rest =>
      match dispatch_tool_call owner_id tool_call st with
      | (Raise e, st') => ((Some e, ls), st')
      | (Ok tool_result, st') =>
          run_tool_calls owner_id rest (record_tool_result tool_result ls) st'
      end
  end.

Definition assistant_message (text : string) (tool_calls : list ToolCall) : ChatMsg :=
  mkChatMsg "assistant" text
    (match tool_calls with [] => None | _ => Some tool_calls end) None.

(** The first half of the body of the step loop: the completion has
    arrived. *)
Definition record_completion (completion : Completion) (ls : LoopState) : LoopState :=
  let tool_calls := c_tool_calls completion in
  let text := _to_text (c_content completion) in
  mkLoopState
    (working_messages ls ++ [assistant_message text tool_calls])
    (generated_records ls ++
       [mkLLMMessage "assistant" (Some text) None None
          (match tool_calls with [] => None | _ => Some tool_calls end)
          (Some (c_provider completion)) (Some (c_model completion))
          (Some (c_usage completion)) []])
    (tool_runs ls)
    (_merge_usage (usage_total ls) (c_usage completion))
    (Some text) (c_provider completion) (c_model completion)
    (tool_call_pending ls).

Definition set_pending (b : bool) (ls : LoopState) : LoopState :=
  mkLoopState (working_messages ls) (generated_records ls) (tool_runs ls)
    (usage_total ls) (assistant_text ls) (actual_provider ls) (actual_model ls) b.

(** [for _ in range(n): ...] of [_run_completion_with_tools]. *)
Fixpoint completion_loop (n : nat) (temperature : option Temperature)
    (tools : list OpenAITool) (owner_id : Z) (ls : LoopState) (st : State)
    : (option Exc * LoopState) * State :=
  match n with
  | O => ((None, ls), st)
  | Datatypes.S n' =>
      match chat_completion (working_messages ls) (actual_provider ls)
              (actual_model ls) temperature tools st with
      | (Raise e, st1) => ((Some e, ls), st1)
      | (Ok completion, st1) =>
          let ls := record_completion completion ls in
          match c_tool_calls completion with
          | [] => ((None, set_pending false ls), st1)
          | tool_calls =>
              match run_tool_calls owner_id tool_calls (set_pending true ls) st1 with
              | ((Some e, ls2), st2) => ((Some e, ls2), st2)
              | ((None, ls2), st2) =>
                  completion_loop n' temperature tools owner_id ls2 st2
              end
          end
      end
  end.

Definition initial_loop_state (llm_messages : list ChatMsg) (provider model : string)
    : LoopState :=
  mkLoopState llm_messages [] [] ∅ None provider model false.

(** [range(max(1, max_tool_steps))] *)
Definition step_budget (max_tool_steps : Z) : nat := Z.to_nat (Z.max 1 max_tool_steps).

(** The code after the step loop. *)
Definition finish_run (ls : LoopState) : ToolsRun :=
  if tool_call_pending ls then
    mkToolsRun (Some step_limit_text)
      (generated_records ls ++
         [mkLLMMessage "assistant" (Some step_limit_text) None None None
            (Some (actual_provider ls)) (Some (actual_model ls)) None
            [("reason", JStr "max_tool_steps_exceeded")]])
      (tool_runs ls) (usage_total ls) (actual_provider ls) (actual_model ls)
  else
    mkToolsRun (assistant_text ls) (generated_records ls) (tool_runs ls)
      (usage_total ls) (actual_provider ls) (actual_model ls).

(** [ChatService._run_completion_with_tools] *)
Definition _run_completion_with_tools (llm_messages : list ChatMsg)
    (provider model : string) (temperature : option Temperature)
    (tools : list OpenAITool) (max_tool_steps : Z) (owner_id : Z) : M ToolsRun :=
  fun st =>
    match completion_loop (step_budget max_tool_steps) temperature tools owner_id
            (initial_loop_state llm_messages provider model) st with
    | ((Some e, _), st') => (Raise e, st')
    | ((None, ls), st') => (Ok (finish_run ls), st')
    end.

(** [for idx, candidate_provider in enumerate(candidates): ...] of
    [_run_completion_with_fallback], with the code that follows the loop. *)
Fixpoint fallback_loop (llm_messages : list ChatMsg)
    (primary_provider primary_model : string) (temperature : option Temperature)
    (tools : list OpenAITool) (max_tool_steps owner_id : Z)
    (idx : nat) (candidates : list string)
    (fallback_chain : list string) (last_error : option Exc) : M FallbackRun :=
  match candidates with
  | [] =>
      match last_error with
      | Some e => raise e
      | None => raise no_provider_error
      end
  | candidate_provider :: rest =>
      let model_for_candidate :=
        if bool_decide (candidate_provider = primary_provider)
        then Some primary_model else None in
      match resolve_provider project_config (Some candidate_provider)
              model_for_candidate true with
      | Raise exc =>
          let fallback_chain := fallback_chain ++ [candidate_provider] in
          if negb (_is_fallback_candidate_error exc) then raise exc
          else
            fallback_loop llm_messages primary_provider primary_model temperature
              tools max_tool_steps owner_id (Datatypes.S idx) rest fallback_chain (Some exc)
      | Ok (candidate_config, candidate_model) =>
          let fallback_chain := fallback_chain ++ [pc_provider candidate_config] in
          fun st =>
            match _run_completion_with_tools llm_messages
                    (pc_provider candidate_config) candidate_model temperature
                    tools max_tool_steps owner_id st with
            | (Ok run, st') =>
                (Ok (mkFallbackRun run
                       (if (0 <? idx)%nat then Some primary_provider else None)
                       fallback_chain), st')
            | (Raise exc, st') =>
                if negb (_is_fallback_candidate_error exc) then (Raise exc, st')
                else
                  fallback_loop llm_messages primary_provider primary_model
                    temperature tools max_tool_steps owner_id (Datatypes.S idx) rest
                    fallback_chain (Some exc) st'
            end
      end
  end.

(** [ChatService._run_completion_with_fallback] *)
Definition _run_completion_with_fallback (llm_messages : list ChatMsg)
    (primary_provider primary_model : string) (temperature : option Temperature)
    (tools : list OpenAITool) (max_tool_steps owner_id : Z) : M FallbackRun :=
  fallback_loop llm_messages primary_provider primary_model temperature tools
    max_tool_steps owner_id 0 (_provider_candidates project_config primary_provider)
    [] None.

(** ** Reading a trace *)

Definition completion_calls (events : list Event) : list (list ChatMsg) :=
  flat_map (fun e => match e with EvCompletion msgs _ _ => [msgs] | _ => [] end) events.

Definition dispatched_calls (events : list Event) : list ToolCall :=
  flat_map (fun e => match e with EvToolCall tc => [tc] | _ => [] end) events.

(** ** Reading a turn context *)

(** The tool calls a stretch of context carries, and the tool-role messages
    in it, both in order. *)
Definition issued_calls (messages : list ChatMsg) : list ToolCall :=
  flat_map (fun m => if bool_decide (cm_role m = "assistant")
                     then default [] (cm_tool_calls m) else []) messages.

Definition tool_replies (messages : list ChatMsg) : list ChatMsg :=
  List.filter (fun m => bool_decide (cm_role m = "tool")) messages.

(** A tool-role message answers a call: it carries an id, and that id is the
    call's own whenever the call has one. *)
Definition answers (tool_call : ToolCall) (m : ChatMsg) : Prop :=
  cm_role m = "tool" /\ cm_tool_calls m = None /\
  exists id, cm_tool_call_id m = Some id /\
             (otruthy (tc_id tool_call) = true -> tc_id tool_call = Some id).

(** A stretch of context in which every assistant message is followed at
    once by one answer per tool call it carries, in the order of the calls. *)
Inductive Answered : list ChatMsg -> Prop :=
| Answered_nil : Answered []
| Answered_round text tool_calls replies rest :
    Forall2 answers tool_calls replies ->
    Answered rest ->
    Answered (assistant_message text tool_calls :: replies ++ rest).

Lemma Answered_app l1 l2 : Answered l1 -> Answered l2 -> Answered (l1 ++ l2).
Proof.
  induction 1 as [|text tcs replies rest Hf _ IH]; intros H2; simpl; [done|].
  rewrite <- app_assoc. constructor; auto.
Qed.

Lemma Answered_snoc_round pre text tool_calls replies :
  Answered pre -> Forall2 answers tool_calls replies ->
  Answered (pre ++ assistant_message text tool_calls :: replies).
Proof.
  intros Hpre Hf. apply Answered_app; [done|].
  rewrite <- (app_nil_r replies). constructor; [done | constructor].
Qed.

Lemma issued_calls_app l1 l2 : issued_calls (l1 ++ l2) = issued_calls l1 ++ issued_calls l2.
Proof. unfold issued_calls. apply flat_map_app. Qed.

Lemma tool_replies_app l1 l2 : tool_replies (l1 ++ l2) = tool_replies l1 ++ tool_replies l2.
Proof. unfold tool_replies. apply List.filter_app. Qed.

Lemma replies_are_tool_messages tool_calls replies :
  Forall2 answers tool_calls replies ->
  issued_calls replies = [] /\ tool_replies replies = replies.
Proof.
  induction 1 as [|tc m tcs ms (Hrole & _ & _) _ [IH1 IH2]]; [done|].
  unfold issued_calls, tool_replies in *. simpl.
  rewrite Hrole. simpl. rewrite IH1, IH2. done.
Qed.

Lemma issued_calls_assistant text tool_calls :
  issued_calls [assistant_message text tool_calls] = tool_calls.
Proof.
  unfold issued_calls. simpl. rewrite app_nil_r. by destruct tool_calls.
Qed.

(** In an answered stretch the tool-role messages, in order, answer the
    calls issued, in order, one message per call. *)
Lemma Answered_pairs messages :
  Answered messages ->
  Forall2 answers (issued_calls messages) (tool_replies messages).
Proof.
  induction 1 as [|text tcs replies rest Hf _ IH]; [constructor|].
  destruct (replies_are_tool_messages _ _ Hf) as [Hi Hr].
  change (assistant_message text tcs :: replies ++ rest)
    with ([assistant_message text tcs] ++ replies ++ rest).
  rewrite !issued_calls_app, !tool_replies_app, issued_calls_assistant, Hi, Hr.
  simpl. by apply Forall2_app.
Qed.

(** ** The trace only grows, and only the engine writes to it *)

Lemma call_trace {A} (f : W -> Result A * W) st :
  trace (call f st).2 = trace st.
Proof. unfold call. by destruct (f (ext st)). Qed.

Lemma call_total_trace {A} (f : W -> A * W) st :
  trace (call_total f st).2 = trace st.
Proof. unfold call_total. by destruct (f (ext st)). Qed.

Lemma call_id_of_trace prefix tool_call st :
  trace (Tools.call_id_of (call_total (uuid4_hex svc)) prefix tool_call st).2 = trace st.
Proof.
  unfold Tools.call_id_of. destruct (otruthy _); [done|].
  pose proof (call_total_trace (uuid4_hex svc) st) as H.
  by destruct (call_total (uuid4_hex svc) st).
Qed.

Lemma registry_execute_tool_call_trace tool_call st :
  trace (registry_execute_tool_call tool_call st).2 = trace st.
Proof.
  unfold registry_execute_tool_call, Tools.execute_tool_call.
  pose proof (call_id_of_trace "toolcall_" tool_call st) as H.
  destruct (Tools.call_id_of _ _ _ st) as [call_id s1]. simpl in *.
  destruct (negb (otruthy (tc_name tool_call))); [done|].
  rewrite PyDict.get_map_values.
  destruct (PyDict.get (tool_registry svc) _) as [tool|]; [|done]. simpl.
  destruct (Tools.parse_arguments _ _) as [arguments|exc]; [|done].
  pose proof (call_trace (Tools.td_executor tool arguments) s1) as H1.
  destruct (call _ s1) as [[[v|ty]|e] s2]; simpl in *; congruence.
Qed.

Lemma mcp_execute_tool_call_trace owner_id tool_call st :
  trace (mcp_execute_tool_call owner_id tool_call st).2 = trace st.
Proof.
  unfold mcp_execute_tool_call, Tools.mcp_execute_tool_call.
  pose proof (call_id_of_trace "mcp_toolcall_" tool_call st) as H.
  destruct (Tools.call_id_of _ _ _ st) as [call_id s1]. simpl in *.
  destruct (negb (truthy _)); [done|].
  destruct (Tools.parse_arguments _ _) as [arguments|exc]; [|done].
  set (name := strip _).
  pose proof (call_trace (find_server_by_tool_name svc owner_id name) s1) as H1.
  destruct (call _ s1) as [[[row|]|e] s2]; simpl in *; [|congruence..].
  destruct (negb (Tools.ms_enabled row)); [simpl; congruence|].
  destruct (bool_decide (_ = "mock")); [simpl; congruence|].
  destruct (bool_decide (_ = "http")); [|simpl; congruence].
  destruct (negb (truthy _)); [simpl; congruence|].
  match goal with |- context [call ?f s2] =>
    pose proof (call_trace f s2) as H2; destruct (call f s2) as [[resp|e] s3] end;
    simpl in *; [|congruence].
  destruct (400 <=? Tools.status_code resp); [simpl; congruence|].
  destruct (Tools.resp_json resp); simpl; congruence.
Qed.

(** One dispatch leaves exactly one mark in the trace, and a result it
    returns answers the call. *)
Lemma dispatch_tool_call_spec owner_id tool_call st r st' :
  dispatch_tool_call owner_id tool_call st = (r, st') ->
  trace st' = trace st ++ [EvToolCall tool_call] /\
  forall tool_result, r = Ok tool_result -> answers tool_call (tool_message tool_result).
Proof.
  unfold dispatch_tool_call. intros Hd.
  set (st0 := log (EvToolCall tool_call) st) in *.
  assert (Hid : forall prefix tool_result s,
            tr_tool_call_id tool_result
              = (Tools.call_id_of (call_total (uuid4_hex svc)) prefix tool_call s).1 ->
            answers tool_call (tool_message tool_result)).
  { intros prefix tool_result s Heq. repeat split.
    exists (tr_tool_call_id tool_result). split; [done|]. intros Hgiven.
    destruct (Tools.call_id_of_given (call_total (uuid4_hex svc)) prefix tool_call s Hgiven)
      as [Hc Hs].
    rewrite Heq, Hc. exact Hs. }
  pose proof (registry_execute_tool_call_trace tool_call st0) as Ht.
  destruct (registry_execute_tool_call tool_call st0) as [r1 st1] eqn:Er.
  simpl in Ht.
  destruct r1 as [tool_result|[status detail code|cls msg]].
  - injection Hd as <- <-. split; [done|].
    intros ? [= <-]. eapply Hid.
    eapply Tools.execute_tool_call_id. exact Er.
  - destruct (code =? 10002).
    + pose proof (mcp_execute_tool_call_trace owner_id tool_call st1) as Hm.
      rewrite Hd in Hm. simpl in Hm. split; [congruence|].
      intros tool_result ->. eapply Hid.
      eapply Tools.mcp_execute_tool_call_id. exact Hd.
    + injection Hd as <- <-. split; [done|]. done.
  - injection Hd as <- <-. split; [done|]. done.
Qed.

Lemma chat_completion_trace messages provider model temperature tools st r st' :
  chat_completion messages provider model temperature tools st = (r, st') ->
  trace st' = trace st ++ [EvCompletion messages provider model].
Proof.
  unfold chat_completion. intros H.
  pose proof (call_trace (llm_chat_completion svc messages provider model temperature tools)
                (log (EvCompletion messages provider model) st)) as Ht.
  rewrite H in Ht. exact Ht.
Qed.

Lemma completion_calls_app e1 e2 :
  completion_calls (e1 ++ e2) = completion_calls e1 ++ completion_calls e2.
Proof. apply flat_map_app. Qed.

Lemma dispatched_calls_app e1 e2 :
  dispatched_calls (e1 ++ e2) = dispatched_calls e1 ++ dispatched_calls e2.
Proof. apply flat_map_app. Qed.

(** ** The inner loop: one answer per call, in order *)

Lemma run_tool_calls_spec owner_id tool_calls ls st err ls' st' :
  run_tool_calls owner_id tool_calls ls st = ((err, ls'), st') ->
  exists replies events,
    working_messages ls' = working_messages ls ++ replies /\
    tool_call_pending ls' = tool_call_pending ls /\
    trace st' = trace st ++ events /\
    completion_calls events = [] /\
    (err = None ->
       Forall2 answers tool_calls replies /\ dispatched_calls events = tool_calls).
Proof.
  revert ls st. induction tool_calls as [|tc rest IH]; intros ls st; simpl.
  - intros [= <- <- <-]. exists [], []. rewrite !app_nil_r.
    split_and!; [done..|]. intros _. split; [constructor | done].
  - destruct (dispatch_tool_call owner_id tc st) as [[tool_result|e] st1] eqn:Ed.
    + destruct (dispatch_tool_call_spec _ _ _ _ _ Ed) as [Ht Hans].
      intros Hrest. destruct (IH _ _ Hrest) as (replies & events & Hw & Hp & Hte & Hc & Hok).
      exists (tool_message tool_result :: replies), (EvToolCall tc :: events).
      simpl in Hw. rewrite <- app_assoc in Hw. simpl in Hw.
      rewrite Hte, Ht, <- app_assoc. simpl.
      split_and!; [done..|].
      intros Herr. destruct (Hok Herr) as [Hf Hd]. split.
      * constructor; auto.
      * by rewrite Hd.
    + destruct (dispatch_tool_call_spec _ _ _ _ _ Ed) as [Ht _].
      intros [= <- <- <-]. exists [], [EvToolCall tc]. rewrite app_nil_r.
      split_and!; done.
Qed.

(** ** The step loop *)

Section Loop.
Variable base : list ChatMsg.
Variable temperature : option Temperature.
Variable tools : list OpenAITool.
Variable owner_id : Z.

Lemma completion_loop_spec n ls st pre err ls' st' :
  working_messages ls = base ++ pre ->
  Answered pre ->
  completion_loop n temperature tools owner_id ls st = ((err, ls'), st') ->
  exists events,
    trace st' = trace st ++ events /\
    Forall (fun msgs => exists p, msgs = base ++ p /\ Answered p)
      (completion_calls events) /\
    (length (completion_calls events) <= n)%nat /\
    (err = None ->
       exists appended,
         working_messages ls' = base ++ pre ++ appended /\
         Answered appended /\
         dispatched_calls events = issued_calls appended) /\
    (err = None -> tool_call_pending ls' = true -> (0 < n)%nat ->
       length (completion_calls events) = n).
Proof.
  revert ls st pre. induction n as [|n IH]; intros ls st pre Hw Hpre;
    cbn [completion_loop].
  { intros [= <- <- <-]. exists []. rewrite !app_nil_r. simpl.
    split_and!; [done | constructor | lia | | lia].
    intros _. exists []. rewrite app_nil_r. split_and!; [done | constructor | done]. }
  destruct (chat_completion (working_messages ls) (actual_provider ls)
              (actual_model ls) temperature tools st)
    as [[completion|e] st1] eqn:Ec;
    pose proof (chat_completion_trace _ _ _ _ _ _ _ _ Ec) as Ht1.
  2:{ intros [= <- <- <-]. eexists. split; [exact Ht1|]. simpl.
      split_and!; [|lia|done|done].
      constructor; [eauto | constructor]. }
  destruct (c_tool_calls completion) as [|tc tcs] eqn:Etc.
  { intros [= <- <- <-]. eexists. split; [exact Ht1|]. simpl.
    split_and!; [|lia| |done].
    - constructor; [eauto | constructor].
    - intros _. exists [assistant_message (_to_text (c_content completion)) []].
      rewrite Etc, Hw, <- app_assoc. split_and!; [done| |done].
      apply (Answered_round _ [] [] []); constructor. }
  set (calls := tc :: tcs) in *.
  set (asst := assistant_message (_to_text (c_content completion)) calls).
  destruct (run_tool_calls owner_id calls
              (set_pending true (record_completion completion ls)) st1)
    as [[err2 ls2] st2] eqn:Er.
  destruct (run_tool_calls_spec _ _ _ _ _ _ _ Er)
    as (replies & events2 & Hw2 & Hp2 & Ht2 & Hc2 & Hok2).
  simpl in Hw2, Hp2. rewrite Etc in Hw2. fold calls asst in Hw2.
  destruct err2 as [e|].
  { intros [= <- <- <-]. exists (EvCompletion (working_messages ls)
                                    (actual_provider ls) (actual_model ls) :: events2).
    rewrite Ht2, Ht1, <- app_assoc. split; [done|].
    change (EvCompletion ?a ?b ?c :: events2)
      with ([EvCompletion a b c] ++ events2).
    rewrite completion_calls_app, Hc2. simpl.
    split_and!; [|lia|done|done].
    constructor; [eauto | constructor]. }
  destruct (Hok2 eq_refl) as [Hf Hd2].
  assert (Hw2' : working_messages ls2 = base ++ (pre ++ asst :: replies)).
  { rewrite Hw2, Hw, <- !app_assoc. done. }
  intros Hloop.
  destruct (IH ls2 st2 _ Hw2' (Answered_snoc_round _ _ _ _ Hpre Hf) Hloop)
    as (events3 & Ht3 & Hall3 & Hlen3 & Hok3 & Hpend3).
  exists (EvCompletion (working_messages ls) (actual_provider ls) (actual_model ls)
            :: events2 ++ events3).
  rewrite Ht3, Ht2, Ht1, <- !app_assoc. split; [done|].
  change (EvCompletion ?a ?b ?c :: events2 ++ events3)
    with ([EvCompletion a b c] ++ events2 ++ events3).
  rewrite !completion_calls_app, !dispatched_calls_app, Hc2, Hd2. simpl.
  split_and!.
  - constructor; [eauto | done].
  - lia.
  - intros Herr. destruct (Hok3 Herr) as (app3 & Hw3 & Ha3 & Hd3).
    exists (asst :: replies ++ app3). split_and!.
    + rewrite Hw3, <- !app_assoc. done.
    + by constructor.
    + destruct (replies_are_tool_messages _ _ Hf) as [Hi _].
      change (asst :: replies ++ app3) with ([asst] ++ replies ++ app3).
      rewrite !issued_calls_app, Hi. unfold asst.
      rewrite issued_calls_assistant, Hd3. done.
  - intros Herr Hpend _. destruct n as [|n']; [|rewrite Hpend3; [done..|lia]].
    assert (length (completion_calls events3) = 0)%nat as -> by lia. done.
Qed.

End Loop.

(** ** The fallback loop *)

Section Fallback.
Variable llm_messages : list ChatMsg.
Variable primary_provider primary_model : string.
Variable temperature : option Temperature.
Variable tools : list OpenAITool.
Variable max_tool_steps owner_id : Z.

Definition model_for_candidate (candidate_provider : string) : option string :=
  if bool_decide (candidate_provider = primary_provider)
  then Some primary_model else None.

(** The attempt on one candidate, started in [st], fails with [e], an error
    classified as transient, and leaves [st']: either the directory cannot
    resolve the candidate (all its errors are so classified), or the tool loop
    run on the resolved binding raises [e]. *)
Definition attempt_fails (candidate_provider : string) (st : State) (e : Exc)
    (st' : State) : Prop :=
  _is_fallback_candidate_error e = true /\
  match resolve_provider project_config (Some candidate_provider)
          (model_for_candidate candidate_provider) true with
  | Raise exc => e = exc /\ st' = st
  | Ok (candidate_config, candidate_model) =>
      _run_completion_with_tools llm_messages (pc_provider candidate_config)
        candidate_model temperature tools max_tool_steps owner_id st = (Raise e, st')
  end.

(** The candidates of a list fail one after the other, each starting in the
    state the one before it left; [last] is the last error met. *)
Inductive fail_in_turn : list string -> State -> option Exc -> State -> option Exc -> Prop :=
| fail_in_turn_nil st last : fail_in_turn [] st last st last
| fail_in_turn_cons c cs st e st1 last st' last' :
    attempt_fails c st e st1 ->
    fail_in_turn cs st1 (Some e) st' last' ->
    fail_in_turn (c :: cs) st last st' last'.

Definition good_name (c : string) : Prop := c <> "" /\ normalized c.

Lemma fallback_loop_skip pre rest idx chain last st st' last' :
  Forall good_name pre ->
  fail_in_turn pre st last st' last' ->
  fallback_loop llm_messages primary_provider primary_model temperature tools
    max_tool_steps owner_id idx (pre ++ rest) chain last st
  = fallback_loop llm_messages primary_provider primary_model temperature tools
      max_tool_steps owner_id (idx + length pre) rest (chain ++ pre) last' st'.
Proof.
  intros Hgood Hfail. revert idx chain Hgood.
  induction Hfail as [st last|c cs st e st1 last st' last' [Hcls Hatt] _ IH];
    intros idx chain Hgood; simpl.
  { by rewrite Nat.add_0_r, app_nil_r. }
  apply Forall_cons in Hgood as [[Hne Hnorm] Hgood].
  unfold model_for_candidate in Hatt.
  destruct (resolve_provider project_config (Some c) _ true)
    as [[candidate_config candidate_model]|exc] eqn:Eres.
  - rewrite (resolve_provider_name _ _ _ _ _ _ Hne Hnorm Eres) in *.
    rewrite Hatt, Hcls. simpl.
    rewrite (IH (Datatypes.S idx) (chain ++ [c]) Hgood), <- app_assoc. simpl.
    f_equal. lia.
  - destruct Hatt as [-> ->]. rewrite Hcls. simpl.
    rewrite (IH (Datatypes.S idx) (chain ++ [c]) Hgood), <- app_assoc. simpl.
    f_equal. lia.
Qed.

Lemma fallback_loop_success c rest idx chain last st candidate_config candidate_model run st' :
  good_name c ->
  resolve_provider project_config (Some c) (model_for_candidate c) true
    = Ok (candidate_config, candidate_model) ->
  _run_completion_with_tools llm_messages (pc_provider candidate_config)
    candidate_model temperature tools max_tool_steps owner_id st = (Ok run, st') ->
  pc_provider candidate_config = c /\
  fallback_loop llm_messages primary_provider primary_model temperature tools
    max_tool_steps owner_id idx (c :: rest) chain last st
  = (Ok (mkFallbackRun run (if (0 <? idx)%nat then Some primary_provider else None)
           (chain ++ [c])), st').
Proof.
  intros [Hne Hnorm] Hres Hrun. unfold model_for_candidate in Hres.
  pose proof (resolve_provider_name _ _ _ _ _ _ Hne Hnorm Hres) as Hname.
  split; [done|]. simpl. rewrite Hres, Hrun, Hname. done.
Qed.

Lemma fail_in_turn_last cs st last st' last' :
  fail_in_turn cs st last st' last' ->
  cs <> [] \/ is_Some last -> is_Some last'.
Proof.
  induction 1 as [st last|c cs st e st1 last st' last' _ _ IH].
  - by intros [?|?].
  - intros _. apply IH. right. eauto.
Qed.

Lemma fallback_loop_exhausted idx chain last st :
  fallback_loop llm_messages primary_provider primary_model temperature tools
    max_tool_steps owner_id idx [] chain last st
  = (Raise (default no_provider_error last), st).
Proof. simpl. by destruct last. Qed.

End Fallback.

End Engine.

(** ** The two entry points: [chat] and [chat_stream] *)

(** [SkillProfile] ([skill_service.py]). *)
Record SkillProfile := mkSkillProfile {
  sk_name : string;
  sk_system_prompt : string;
  sk_tool_names : list string;
  sk_rag_enabled : bool;
}.

(** A retrieved passage, as far as the engine reads it. *)
Record RagContext := mkRagContext {
  rc_doc_id : string;
  rc_title : option string;
  rc_chunk_index : Z;
  rc_content : string;
}.

(** What [chat] returns. *)
Record ChatResult := mkChatResult {
  res_conversation_id : string;
  res_provider : string;
  res_model : string;
  res_assistant_message : option string;
  res_tool_runs : list ToolResult;
  res_usage : Usage;
  res_rag_contexts : list RagContext;
  res_fallback : option (string * string * list string);
}.

(** The collaborators of the engine besides the provider client and the
    tools: the record store, the skill, quota, retrieval and observability
    services, and the clock. *)
Record Backend {W Temperature : Type} := mkBackend {
  db_get_conversation : Z -> string -> W -> Result (option LLMConversation) * W;
  db_list_messages : Z -> string -> Z -> W -> Result (list LLMMessage) * W;
  db_commit : W -> Result unit * W;
  db_refresh : W -> Result unit * W;
  db_flush : W -> Result unit * W;
  get_skill : option string -> Z -> W -> Result (option SkillProfile) * W;
  enforce_before_request : Z -> string -> string -> W -> Result unit * W;
  commit_token_usage : Z -> string -> string -> Usage -> W -> Result unit * W;
  retrieve_context : string -> Z -> Z -> W -> Result (list RagContext) * W;
  mcp_list_openai_tools : Z -> option (list string) -> W -> Result (list OpenAITool) * W;
  metric_record : Metric -> W -> Result unit * W;
  perf_counter_ms : W -> Z;
  now_timestamp : W -> Z;
  summary_temperature : Temperature;
}.
Arguments Backend : clear implicits.

(** A backend with another writer of metrics in the place of
    [LLMObservabilityService.record]. *)
Definition with_metric_record {W Temperature : Type}
    (writer : Metric -> W -> Result unit * W)
    (backend : Backend W Temperature) : Backend W Temperature :=
  mkBackend W Temperature
    (db_get_conversation backend) (db_list_messages backend) (db_commit backend)
    (db_refresh backend) (db_flush backend) (get_skill backend)
    (enforce_before_request backend) (commit_token_usage backend)
    (retrieve_context backend) (mcp_list_openai_tools backend) writer
    (perf_counter_ms backend) (now_timestamp backend) (summary_temperature backend).

(** [ChatService._extract_error_code] *)
Definition _extract_error_code (exc : Exc) : string :=
  match exc with
  | CustomException _ _ custom_code => pretty custom_code
  | OtherException cls _ => cls
  end.

Definition delta_part_text (item : DeltaPart) : string :=
  match item with
  | DPStr s => s
  | DPText (Some t) => t
  | _ => ""
  end.

(** [ChatService._extract_delta_text] *)
Definition _extract_delta_text (value : DeltaContent) : string :=
  match value with
  | DCStr s => s
  | DCDict text content parts =>
      match (if otruthy text then text else content) with
      | Some t => t
      | None =>
          match parts with
          | Some items => String.concat "" (map delta_part_text items)
          | None => ""
          end
      end
  | DCList items => String.concat "" (map delta_part_text items)
  | _ => ""
  end.

(** [s.strip() or None] *)
Definition strip_or_none (s : string) : option string :=
  let t := strip s in if truthy t then Some t else None.

(** [ChatService._build_llm_messages] *)
Definition history_message (row : LLMMessage) : list ChatMsg :=
  if negb (known_role (m_role row)) then []
  else
    [mkChatMsg (m_role row) (or_else (m_content row) "")
       (if bool_decide (m_role row = "assistant") then
          match m_tool_calls row with
          | Some (tc :: tcs) => Some (tc :: tcs)
          | _ => None
          end
        else None)
       (if bool_decide (m_role row = "tool") && otruthy (m_tool_call_id row)
        then m_tool_call_id row else None)].

Definition _build_llm_messages (history_rows : list LLMMessage)
    (system_prompt summary_text : option string) : list ChatMsg :=
  let messages :=
    if otruthy system_prompt
    then [mkChatMsg "system" (or_else system_prompt "") None None] else [] in
  let messages :=
    if otruthy summary_text then Memory.apply_memory messages summary_text
    else messages in
  messages ++ flat_map history_message history_rows.

(** [ChatService._format_rag_contexts] *)
Fixpoint rag_lines (idx : Z) (items : list RagContext) : list string :=
  match items with
  | [] => []
  | item :: rest =>
      let text := strip (rc_content item) in
      if negb (truthy text) then rag_lines (idx + 1) rest
      else ("[" +:+ pretty idx +:+ "] " +:+ text) :: rag_lines (idx + 1) rest
  end.

Definition _format_rag_contexts (items : list RagContext) : string :=
  join nl ("以下是检索到的上下文，请在回答中优先参考：" :: rag_lines 1 items).

(** [ChatService._merge_tool_definitions] *)
Fixpoint merge_tools (items : list OpenAITool) (seen : list string) : list OpenAITool :=
  match items with
  | [] => []
  | item :: rest =>
      let name := or_else (ot_name item) "" in
      if negb (truthy name) || bool_decide (name ∈ seen) then merge_tools rest seen
      else item :: merge_tools rest (name :: seen)
  end.

Definition _merge_tool_definitions (local_tools mcp_tools : list OpenAITool)
    : list OpenAITool :=
  merge_tools (local_tools ++ mcp_tools) [].

Definition user_row (conversation_id : string) (content provider model : string)
    (extra : list (string * Json)) : LLMMessage :=
  mkLLMMessage "user" (Some content) None None None (Some provider) (Some model)
    None extra.

Definition set_title_provider_model (title : option string)
    (provider model : string) (system_prompt skill_name : option string)
    (c : LLMConversation) : LLMConversation :=
  mkLLMConversation (conversation_id c) title provider model system_prompt
    skill_name (extra_config c) (update_time c).

Section Chat.
Context {W Temperature : Type}.
Variable project_config : Config.
Variable svc : Services W Temperature.
Variable backend : Backend W Temperature.

Abbreviation State := (State (W := W)).
Abbreviation M := (M (W := W)).

(** Computations that also read and write the local variables [L] of the
    function they belong to; the locals survive an exception, as the
    [except] and [finally] blocks of the source read them. *)
Definition LM (L A : Type) : Type := L -> State -> (Result A * L) * State.

Definition lret {L A} (a : A) : LM L A := fun l st => ((Ok a, l), st).
Definition lraise {L A} (e : Exc) : LM L A := fun l st => ((Raise e, l), st).
Definition lbind {L A B} (m : LM L A) (k : A -> LM L B) : LM L B :=
  fun l st =>
    match m l st with
    | ((Ok a, l'), st') => k a l' st'
    | ((Raise e, l'), st') => ((Raise e, l'), st')
    end.
Definition lift {L A} (m : M A) : LM L A :=
  fun l st => let '(r, st') := m st in ((r, l), st').
Definition lget {L} : LM L L := fun l st => ((Ok l, l), st).
Definition lmodify {L} (f : L -> L) : LM L unit := fun l st => ((Ok tt, f l), st).

Notation "'let!' x ':=' m 'in' k" := (lbind m (fun x => k))
  (at level 10, x name, m at level 100, k at level 200).

(** [LLMObservabilityService.safe_record] *)
Definition safe_record (metric : Metric) : M unit :=
  fun st =>
    match call (metric_record backend metric) (log (EvMetric metric) st) with
    | (_, st') => (Ok tt, st')
    end.

(** [ChatService.get_conversation_or_raise] *)
Definition get_conversation_or_raise (owner_id : Z) (conversation_id : string)
    : M LLMConversation :=
  bind (call (db_get_conversation backend owner_id conversation_id))
    (fun found =>
       match found with
       | Some conversation => ret conversation
       | None =>
           raise (CustomException None ("会话 " +:+ conversation_id +:+ " 不存在") 10002)
       end).

(** [ChatService.create_conversation], as [chat] calls it. *)
Definition create_conversation (owner_id : Z) (title provider model
    system_prompt skill_name : option string) : M LLMConversation :=
  match resolve_provider project_config provider model false with
  | Raise e => raise e
  | Ok (provider_config, resolved_model) =>
      fun st =>
        let '(hex, st) := call_total (uuid4_hex svc) st in
        let conversation :=
          mkLLMConversation ("conv_" +:+ hex)
            (strip_or_none (or_else title ""))
            (pc_provider provider_config) resolved_model
            (strip_or_none (or_else system_prompt ""))
            (strip_or_none (or_else skill_name ""))
            (mkExtraConfig None None None) (now_timestamp backend (ext st)) in
        bind (emit (EvDbAddConversation conversation))
          (fun _ => bind (call (db_commit backend))
             (fun _ => bind (call (db_refresh backend))
                (fun _ => ret conversation))) st
  end.

(** [ChatService.list_messages] *)
Definition list_messages (owner_id : Z) (conversation_id : string) (limit : Z)
    : M (list LLMMessage) :=
  call (db_list_messages backend owner_id conversation_id (Z.max 1 (Z.min limit 500))).

(** [self.memory_service.maybe_refresh_summary], run from within the
    engine. *)
Definition maybe_refresh_summary (conversation : LLMConversation)
    (history_rows : list LLMMessage) (provider model : string) (st : State)
    : (Result (option string * Z) * LLMConversation) * State :=
  Memory.maybe_refresh_summary project_config
    (fun messages p m t => chat_completion svc messages p m t [])
    (summary_temperature backend)
    (fun st => now_timestamp backend (ext st))
    (call (db_flush backend))
    conversation history_rows provider model st.

(** What the first part of a run works out. *)
Record Turn := mkTurn {
  tn_conversation : LLMConversation;
  tn_skill : option SkillProfile;
  tn_primary_provider : string;
  tn_primary_model : string;
  tn_llm_messages : list ChatMsg;
  tn_rag_contexts : list RagContext;
  tn_user_text : string;
}.

(** The part [chat] and [chat_stream] have in common, word for word: from
    loading the conversation to appending the user message to the context.
    [on_conversation] and [on_primary] are the assignments to the local
    variables that the [except] and [finally] blocks read.  This is its
    second half, from the choice of the system prompt on. *)
Definition prepare_context {L} (on_conversation : LLMConversation -> L -> L)
    (on_primary : string -> string -> L -> L)
    (owner_id : Z) (rq : LLMChatReq Temperature)
    (conversation : LLMConversation) (skill : option SkillProfile) : LM L Turn :=
  let system_prompt :=
    let a := strip (or_else (rq_system_prompt rq) "") in
    let b := strip (or_else (cv_system_prompt conversation) "") in
    let c := match skill with Some sk => sk_system_prompt sk | None => "" end in
    if truthy a then Some a else if truthy b then Some b
    else if truthy c then Some c else None in
  let provider :=
    let a := lower (strip (or_else (rq_provider rq) "")) in
    let b := lower (strip (cv_provider conversation)) in
    if truthy a then a else if truthy b then b
    else default_llm_provider project_config in
  let model :=
    let a := strip (or_else (rq_model rq) "") in
    let b := strip (cv_model conversation) in
    if truthy a then Some a else if truthy b then Some b else None in
  match resolve_provider project_config (Some provider) model true with
  | Raise e => lraise e
  | Ok (provider_config, resolved_model) =>
      let primary_provider := pc_provider provider_config in
      let primary_model := resolved_model in
      let! _ := lmodify (on_primary primary_provider primary_model) in
      let! _ :=
        lift (call (enforce_before_request backend owner_id primary_provider
                      primary_model)) in
      let! history_rows :=
        lift (list_messages owner_id (conversation_id conversation)
                (LLM_MAX_HISTORY_MESSAGES project_config)) in
      let! memory :=
        (fun l st =>
           let '((r, conversation'), st') :=
             maybe_refresh_summary conversation history_rows primary_provider
               primary_model st in
           ((match r with
             | Ok state => Ok (state, conversation')
             | Raise e => Raise e
             end, on_conversation conversation' l), st')) in
      let '((summary_text, summarized_count), conversation) := memory in
      let trimmed_rows := Memory.trim_history_rows history_rows summarized_count in
      let llm_messages := _build_llm_messages trimmed_rows system_prompt summary_text in
      let enable_rag :=
        rq_use_rag rq
        || match skill with Some sk => sk_rag_enabled sk | None => false end in
      let! rag_contexts :=
        (if enable_rag then
           lift (call (retrieve_context backend (rq_message rq) owner_id
                         (rq_rag_top_k rq)))
         else lret []) in
      let llm_messages :=
        match rag_contexts with
        | [] => llm_messages
        | _ => llm_messages
                 ++ [mkChatMsg "system" (_format_rag_contexts rag_contexts) None None]
        end in
      let user_text := strip (rq_message rq) in
      let llm_messages := llm_messages ++ [mkChatMsg "user" user_text None None] in
      lret (mkTurn conversation skill primary_provider primary_model llm_messages
              rag_contexts user_text)
  end.

(** Its first half: the conversation and the skill. *)
Definition prepare_turn {L} (on_conversation : LLMConversation -> L -> L)
    (on_primary : string -> string -> L -> L)
    (owner_id : Z) (rq : LLMChatReq Temperature) : LM L Turn :=
  let! conversation :=
    lift (match rq_conversation_id rq with
          | Some cid =>
              if truthy cid then get_conversation_or_raise owner_id cid
              else create_conversation owner_id
                     (if truthy (rq_message rq) then Some (prefix (rq_message rq) 30)
                      else None)
                     (rq_provider rq) (rq_model rq) (rq_system_prompt rq)
                     (rq_skill_name rq)
          | None =>
              create_conversation owner_id
                (if truthy (rq_message rq) then Some (prefix (rq_message rq) 30)
                 else None)
                (rq_provider rq) (rq_model rq) (rq_system_prompt rq)
                (rq_skill_name rq)
          end) in
  let! _ := lmodify (on_conversation conversation) in
  let skill_name :=
    strip_or_none
      (if otruthy (rq_skill_name rq) then or_else (rq_skill_name rq) ""
       else or_else (cv_skill_name conversation) "") in
  let! skill := lift (call (get_skill backend skill_name owner_id)) in
  match skill_name, skill with
  | Some name, None =>
      lraise (CustomException None ("Skill " +:+ name +:+ " 不存在") 10002)
  | _, _ =>
      prepare_context on_conversation on_primary owner_id rq conversation skill
  end.

(** [a or b or c] on strings. *)
Definition first_truthy (a b c : string) : string :=
  if truthy a then a else if truthy b then b else c.

(** The assignments to a conversation that precede a commit. *)
Definition update_conversation (user_text provider model : string)
    (rq : LLMChatReq Temperature) (now : Z) (c : LLMConversation) : LLMConversation :=
  touch now
    (set_title_provider_model
       (if otruthy (cv_title c) then cv_title c else Some (prefix user_text 30))
       provider model
       (if otruthy (rq_system_prompt rq) then rq_system_prompt rq else cv_system_prompt c)
       (if otruthy (rq_skill_name rq) then rq_skill_name rq else cv_skill_name c)
       c).

(** *** [chat] *)

(** The local variables of [chat] that its [finally] block reads. *)
Record ChatLocals := mkChatLocals {
  cl_conversation : option LLMConversation;
  cl_primary_provider : string;
  cl_primary_model : string;
  cl_metric_provider : string;
  cl_metric_model : string;
  cl_metric_usage : Usage;
  cl_metric_success : bool;
  cl_fallback_from : option string;
  cl_fallback_chain : list string;
}.

Definition chat_locals_init : ChatLocals :=
  mkChatLocals None "" "" "" "" ∅ false None [].

Definition cl_set_conversation (c : LLMConversation) (l : ChatLocals) : ChatLocals :=
  mkChatLocals (Some c) (cl_primary_provider l) (cl_primary_model l)
    (cl_metric_provider l) (cl_metric_model l) (cl_metric_usage l)
    (cl_metric_success l) (cl_fallback_from l) (cl_fallback_chain l).

Definition cl_set_primary (provider model : string) (l : ChatLocals) : ChatLocals :=
  mkChatLocals (cl_conversation l) provider model provider model (cl_metric_usage l)
    (cl_metric_success l) (cl_fallback_from l) (cl_fallback_chain l).

Definition cl_set_run (run : FallbackRun) (l : ChatLocals) : ChatLocals :=
  mkChatLocals (cl_conversation l) (cl_primary_provider l) (cl_primary_model l)
    (run_actual_provider (fr_run run)) (run_actual_model (fr_run run))
    (run_usage_total (fr_run run)) (cl_metric_success l)
    (fr_fallback_from run) (fr_fallback_chain run).

Definition cl_set_success (l : ChatLocals) : ChatLocals :=
  mkChatLocals (cl_conversation l) (cl_primary_provider l) (cl_primary_model l)
    (cl_metric_provider l) (cl_metric_model l) (cl_metric_usage l)
    true (cl_fallback_from l) (cl_fallback_chain l).

(** [for item in generated_records: db.add(LLMMessage(...))] *)
Fixpoint add_rows (conversation_id : string) (owner_id : Z) (rows : list LLMMessage)
    : M unit :=
  match rows with
  | [] => ret tt
  | row :: rest =>
      bind (emit (EvDbAdd conversation_id owner_id row))
        (fun _ => add_rows conversation_id owner_id rest)
  end.

(** The tool definitions offered to the model. *)
Definition select_tools (owner_id : Z) (rq : LLMChatReq Temperature)
    (skill : option SkillProfile) : M (list OpenAITool) :=
  if negb (rq_use_tools rq) then ret []
  else
    let selected_tool_names :=
      match rq_tool_names rq with
      | _ :: _ => rq_tool_names rq
      | [] => match skill with Some sk => sk_tool_names sk | None => [] end
      end in
    let filter :=
      match selected_tool_names with [] => None | _ => Some selected_tool_names end in
    match Tools.list_openai_tools (tool_registry svc) filter with
    | Raise e => raise e
    | Ok local_tools =>
        bind (call (mcp_list_openai_tools backend owner_id filter))
          (fun mcp_tools => ret (_merge_tool_definitions local_tools mcp_tools))
    end.

(** The [try] block of [chat]. *)
Definition chat_body (owner_id : Z) (rq : LLMChatReq Temperature)
    : LM ChatLocals ChatResult :=
  let! turn := prepare_turn cl_set_conversation cl_set_primary owner_id rq in
  let conversation := tn_conversation turn in
  let! tools := lift (select_tools owner_id rq (tn_skill turn)) in
  let! run :=
    lift (_run_completion_with_fallback project_config svc (tn_llm_messages turn)
            (tn_primary_provider turn) (tn_primary_model turn) (rq_temperature rq)
            tools (effective_max_tool_steps project_config rq) owner_id) in
  let! _ := lmodify (cl_set_run run) in
  let actual_provider := run_actual_provider (fr_run run) in
  let actual_model := run_actual_model (fr_run run) in
  let usage_total := run_usage_total (fr_run run) in
  let! _ :=
    lift (emit (EvDbAdd (conversation_id conversation) owner_id
                  (user_row (conversation_id conversation) (tn_user_text turn)
                     actual_provider actual_model []))) in
  let! _ :=
    lift (add_rows (conversation_id conversation) owner_id
            (run_generated_records (fr_run run))) in
  let! _ :=
    (fun l st =>
       let conversation :=
         update_conversation (tn_user_text turn) actual_provider actual_model rq
           (now_timestamp backend (ext st)) conversation in
       ((Ok tt, cl_set_conversation conversation l), st)) in
  let! _ := lift (bind (emit EvDbCommit) (fun _ => call (db_commit backend))) in
  let! _ :=
    lift (call (commit_token_usage backend owner_id actual_provider actual_model
                  usage_total)) in
  let! _ := lmodify cl_set_success in
  lret (mkChatResult (conversation_id conversation) actual_provider actual_model
          (run_assistant_message (fr_run run)) (run_tool_runs (fr_run run))
          usage_total (tn_rag_contexts turn)
          (match fr_fallback_from run with
           | Some from =>
               if truthy from
               then Some (from, actual_provider, fr_fallback_chain run) else None
           | None => None
           end)).

(** The metric the [finally] block of [chat] records. *)
Definition chat_metric (request_id : string) (owner_id : Z)
    (rq : LLMChatReq Temperature) (latency_ms : Z) (error : option Exc)
    (l : ChatLocals) : Metric :=
  mkMetric request_id owner_id
    (match cl_conversation l with
     | Some c => Some (conversation_id c)
     | None => rq_conversation_id rq
     end)
    (first_truthy (cl_metric_provider l) (cl_primary_provider l)
       (default_llm_provider project_config))
    (first_truthy (cl_metric_model l) (cl_primary_model l)
       (default_llm_model project_config))
    false (cl_metric_success l) latency_ms (cl_metric_usage l)
    (_extract_error_code <$> error) (exc_str svc <$> error)
    (cl_fallback_from l) (cl_fallback_chain l) "chat".

(** [ChatService.chat]: the [try] block, the [except] block that notes the
    error and raises it again, and the [finally] block. *)
Definition chat (owner_id : Z) (rq : LLMChatReq Temperature) : M ChatResult :=
  fun st =>
    let '(hex, st) := call_total (uuid4_hex svc) st in
    let request_id := "llmreq_" +:+ hex in
    let started := perf_counter_ms backend (ext st) in
    let '((r, l), st) := chat_body owner_id rq chat_locals_init st in
    let error := match r with Raise exc => Some exc | Ok _ => None end in
    let latency_ms := perf_counter_ms backend (ext st) - started in
    match safe_record (chat_metric request_id owner_id rq latency_ms error l) st with
    | (Ok _, st') => (r, st')
    | (Raise e, st') => (Raise e, st')
    end.

(** *** [chat_stream] *)

(** The local variables of [chat_stream] that its [except] and [finally]
    blocks read. *)
Record StreamLocals := mkStreamLocals {
  sl_conversation : option LLMConversation;
  sl_primary_provider : string;
  sl_primary_model : string;
  sl_selected_provider : string;
  sl_selected_model : string;
  sl_metric_usage : Usage;
  sl_metric_success : bool;
  sl_fallback_from : option string;
  sl_fallback_chain : list string;
  sl_assistant_parts : list string;
  sl_usage_total : Usage;
  sl_finish_reason : option string;
}.

Definition stream_locals_init : StreamLocals :=
  mkStreamLocals None "" "" "" "" ∅ false None [] [] ∅ None.

Definition sl_set_conversation (c : LLMConversation) (l : StreamLocals) : StreamLocals :=
  mkStreamLocals (Some c) (sl_primary_provider l) (sl_primary_model l)
    (sl_selected_provider l) (sl_selected_model l) (sl_metric_usage l)
    (sl_metric_success l) (sl_fallback_from l) (sl_fallback_chain l)
    (sl_assistant_parts l) (sl_usage_total l) (sl_finish_reason l).

Definition sl_set_primary (provider model : string) (l : StreamLocals) : StreamLocals :=
  mkStreamLocals (sl_conversation l) provider model provider model (sl_metric_usage l)
    (sl_metric_success l) (sl_fallback_from l) (sl_fallback_chain l)
    (sl_assistant_parts l) (sl_usage_total l) (sl_finish_reason l).

Definition sl_append_chain (name : string) (l : StreamLocals) : StreamLocals :=
  mkStreamLocals (sl_conversation l) (sl_primary_provider l) (sl_primary_model l)
    (sl_selected_provider l) (sl_selected_model l) (sl_metric_usage l)
    (sl_metric_success l) (sl_fallback_from l) (sl_fallback_chain l ++ [name])
    (sl_assistant_parts l) (sl_usage_total l) (sl_finish_reason l).

(** The assignments made when a candidate is settled on: at its first chunk,
    or at the end of a stream that brought none. *)
Definition sl_select (provider model : string) (idx : nat) (primary_provider : string)
    (l : StreamLocals) : StreamLocals :=
  mkStreamLocals (sl_conversation l) (sl_primary_provider l) (sl_primary_model l)
    provider model (sl_metric_usage l) (sl_metric_success l)
    (if (0 <? idx)%nat then Some primary_provider else sl_fallback_from l)
    (sl_fallback_chain l) (sl_assistant_parts l) (sl_usage_total l)
    (sl_finish_reason l).

Definition sl_absorb (chunk : StreamChunk) (delta_text : string) (l : StreamLocals)
    : StreamLocals :=
  mkStreamLocals (sl_conversation l) (sl_primary_provider l) (sl_primary_model l)
    (sl_selected_provider l) (sl_selected_model l) (sl_metric_usage l)
    (sl_metric_success l) (sl_fallback_from l) (sl_fallback_chain l)
    (if truthy delta_text then sl_assistant_parts l ++ [delta_text]
     else sl_assistant_parts l)
    (_merge_usage (sl_usage_total l) (ch_usage chunk))
    (if otruthy (ch_finish_reason chunk) then ch_finish_reason chunk
     else sl_finish_reason l).

Definition sl_set_done (l : StreamLocals) : StreamLocals :=
  mkStreamLocals (sl_conversation l) (sl_primary_provider l) (sl_primary_model l)
    (sl_selected_provider l) (sl_selected_model l) (sl_usage_total l)
    true (sl_fallback_from l) (sl_fallback_chain l)
    (sl_assistant_parts l) (sl_usage_total l) (sl_finish_reason l).

(** [async for chunk in ...]: the chunks a stream delivered, in order.
    [got_chunk] is the flag of the source. *)
Fixpoint process_chunks (conversation_id candidate_provider candidate_model : string)
    (idx : nat) (primary_provider : string) (chunks : list StreamChunk)
    (got_chunk : bool) (l : StreamLocals) (st : State) : (bool * StreamLocals) * State :=
  match chunks with
  | [] => ((got_chunk, l), st)
  | chunk :: rest =>
      if negb (bool_decide (ch_type chunk = "chunk")) then
        process_chunks conversation_id candidate_provider candidate_model idx
          primary_provider rest got_chunk l st
      else
        let l :=
          if got_chunk then l
          else sl_select (or_else (ch_provider chunk) candidate_provider)
                 (or_else (ch_model chunk) candidate_model) idx primary_provider l in
        let delta_text := _extract_delta_text (ch_delta chunk) in
        let l := sl_absorb chunk delta_text l in
        let st :=
          if truthy delta_text
          then log (EvYield (DeltaEvent conversation_id delta_text)) st else st in
        process_chunks conversation_id candidate_provider candidate_model idx
          primary_provider rest true l st
  end.

Definition switch_warning (primary_provider primary_model provider model : string)
    : string :=
  "主模型 " +:+ primary_provider +:+ "/" +:+ primary_model +:+ " 调用失败，已切换到 "
    +:+ provider +:+ "/" +:+ model.

(** One stream opened on a resolved candidate and read to its end: the
    flag [got_chunk] and the exception that ended the stream, if one did. *)
Definition consume_stream (conversation_id : string) (llm_messages : list ChatMsg)
    (candidate_provider candidate_model : string) (temperature : option Temperature)
    (idx : nat) (primary_provider : string)
    : LM StreamLocals (bool * option Exc) :=
  fun l st =>
    let st := log (EvStream llm_messages candidate_provider candidate_model) st in
    let '((chunks, stream_exc), w) :=
      llm_chat_completion_stream svc llm_messages candidate_provider candidate_model
        temperature (ext st) in
    let '((got_chunk, l), st) :=
      process_chunks conversation_id candidate_provider candidate_model idx
        primary_provider chunks false l (mkState w (trace st)) in
    ((Ok (got_chunk, stream_exc), l), st).

(** [for idx, candidate_provider in enumerate(provider_candidates): ...]
    of [chat_stream], with the [if stream_error: raise stream_error] that
    follows it. *)
Fixpoint stream_candidates (conversation_id : string) (llm_messages : list ChatMsg)
    (primary_provider primary_model : string) (temperature : option Temperature)
    (warning : option string) (idx : nat) (candidates : list string)
    (yielded_meta : bool) (stream_error : option Exc) : LM StreamLocals unit :=
  match candidates with
  | [] =>
      match stream_error with
      | Some e => lraise e
      | None => lret tt
      end
  | candidate_provider :: rest =>
      let model_for_candidate :=
        if bool_decide (candidate_provider = primary_provider)
        then Some primary_model else None in
      match resolve_provider project_config (Some candidate_provider)
              model_for_candidate true with
      | Raise exc =>
          let! _ := lmodify (sl_append_chain candidate_provider) in
          if negb (_is_fallback_candidate_error exc) then lraise exc
          else
            stream_candidates conversation_id llm_messages primary_provider
              primary_model temperature warning (Datatypes.S idx) rest yielded_meta
              (Some exc)
      | Ok (candidate_cfg, candidate_model) =>
          let! _ := lmodify (sl_append_chain (pc_provider candidate_cfg)) in
          let candidate_warning :=
            if (0 <? idx)%nat then
              Some (switch_warning primary_provider primary_model
                      (pc_provider candidate_cfg) candidate_model)
            else warning in
          let! _ :=
            (if negb yielded_meta || (0 <? idx)%nat then
               lift (emit (EvYield (MetaEvent conversation_id
                                      (pc_provider candidate_cfg) candidate_model
                                      candidate_warning)))
             else lret tt) in
          let! outcome :=
            consume_stream conversation_id llm_messages (pc_provider candidate_cfg)
              candidate_model temperature idx primary_provider in
          match outcome with
          | (got_chunk, Some exc) =>
              if got_chunk then lraise exc
              else if negb (_is_fallback_candidate_error exc) then lraise exc
              else
                stream_candidates conversation_id llm_messages primary_provider
                  primary_model temperature warning (Datatypes.S idx) rest true
                  (Some exc)
          | (got_chunk, None) =>
              if got_chunk then lret tt
              else
                lmodify (sl_select (pc_provider candidate_cfg) candidate_model idx
                           primary_provider)
          end
      end
  end.

Definition tools_disabled_warning : string :=
  "流式模式暂不支持 Function Calling，已自动关闭工具调用。".

Definition assistant_row (content provider model : string) (usage : Usage)
    (extra : list (string * Json)) : LLMMessage :=
  mkLLMMessage "assistant" (Some content) None None None (Some provider) (Some model)
    (Some usage) extra.

Definition json_of_option (o : option string) : Json :=
  match o with Some s => JStr s | None => JNull end.

(** The text streamed so far: ["".join(assistant_parts).strip()]. *)
Definition streamed_text (l : StreamLocals) : string :=
  strip (String.concat "" (sl_assistant_parts l)).

(** The [try] block of [chat_stream]. *)
Definition stream_body (owner_id : Z) (rq : LLMChatReq Temperature)
    : LM StreamLocals unit :=
  let! turn := prepare_turn sl_set_conversation sl_set_primary owner_id rq in
  let conversation := tn_conversation turn in
  let cid := conversation_id conversation in
  let primary_provider := tn_primary_provider turn in
  let primary_model := tn_primary_model turn in
  let warning := if rq_use_tools rq then Some tools_disabled_warning else None in
  let! _ :=
    lift (emit (EvDbAdd cid owner_id
                  (user_row cid (tn_user_text turn) primary_provider primary_model
                     [("stream", JBool true)]))) in
  let! conversation :=
    (fun l st =>
       let conversation :=
         update_conversation (tn_user_text turn) primary_provider primary_model rq
           (now_timestamp backend (ext st)) conversation in
       ((Ok conversation, sl_set_conversation conversation l), st)) in
  let! _ := lift (bind (emit EvDbCommit) (fun _ => call (db_commit backend))) in
  let! _ :=
    stream_candidates cid (tn_llm_messages turn) primary_provider primary_model
      (rq_temperature rq) warning 0
      (_provider_candidates project_config primary_provider) false None in
  let! l := lget in
  let assistant_text := streamed_text l in
  let! _ :=
    lift (emit (EvDbAdd cid owner_id
                  (assistant_row assistant_text (sl_selected_provider l)
                     (sl_selected_model l) (sl_usage_total l)
                     [("stream", JBool true);
                      ("finish_reason", json_of_option (sl_finish_reason l))]))) in
  let! _ :=
    (fun l st =>
       let conversation :=
         touch (now_timestamp backend (ext st))
           (set_title_provider_model (cv_title conversation)
              (sl_selected_provider l) (sl_selected_model l)
              (cv_system_prompt conversation) (cv_skill_name conversation)
              conversation) in
       ((Ok tt, sl_set_conversation conversation l), st)) in
  let! _ := lift (bind (emit EvDbCommit) (fun _ => call (db_commit backend))) in
  let! _ :=
    lift (call (commit_token_usage backend owner_id (sl_selected_provider l)
                  (sl_selected_model l) (sl_usage_total l))) in
  let! _ := lmodify sl_set_done in
  lift (emit (EvYield
                (DoneEvent cid (sl_selected_provider l) (sl_selected_model l)
                   assistant_text (sl_usage_total l) (sl_finish_reason l)
                   (match sl_fallback_from l with
                    | Some from =>
                        if truthy from
                        then Some (from, sl_selected_provider l, sl_fallback_chain l)
                        else None
                    | None => None
                    end)))).

(** The row the [except] block writes for what had been streamed. *)
Definition partial_row (exc : Exc) (l : StreamLocals) : LLMMessage :=
  assistant_row (streamed_text l)
    (if truthy (sl_selected_provider l) then sl_selected_provider l
     else sl_primary_provider l)
    (if truthy (sl_selected_model l) then sl_selected_model l
     else sl_primary_model l)
    (sl_usage_total l)
    [("stream", JBool true); ("partial", JBool true);
     ("error", JStr (exc_str svc exc))].

(** The [except Exception as exc] block of [chat_stream]: if a conversation
    is at hand and some text was streamed, that text is written as a partial
    assistant message (a failure of the write is logged and dropped); then the
    [error] event is emitted. *)
Definition stream_except (owner_id : Z) (rq : LLMChatReq Temperature) (exc : Exc)
    (l : StreamLocals) (st : State) : State :=
  let st :=
    match sl_conversation l with
    | Some conversation =>
        if truthy (streamed_text l) then
          let st :=
            log EvDbCommit
              (log (EvDbAdd (conversation_id conversation) owner_id (partial_row exc l))
                 st) in
          (call (db_commit backend) st).2
        else st
    | None => st
    end in
  log (EvYield
         (ErrorEvent
            (match sl_conversation l with
             | Some c => Some (conversation_id c)
             | None => rq_conversation_id rq
             end)
            (exc_str svc exc))) st.

(** The metric the [finally] block of [chat_stream] records. *)
Definition stream_metric (request_id : string) (owner_id : Z)
    (rq : LLMChatReq Temperature) (latency_ms : Z) (error : option Exc)
    (l : StreamLocals) : Metric :=
  mkMetric request_id owner_id
    (match sl_conversation l with
     | Some c => Some (conversation_id c)
     | None => rq_conversation_id rq
     end)
    (first_truthy (sl_selected_provider l) (sl_primary_provider l)
       (default_llm_provider project_config))
    (first_truthy (sl_selected_model l) (sl_primary_model l)
       (default_llm_model project_config))
    true (sl_metric_success l) latency_ms
    (if bool_decide (sl_metric_usage l = ∅) then sl_usage_total l else sl_metric_usage l)
    (_extract_error_code <$> error) (exc_str svc <$> error)
    (sl_fallback_from l) (sl_fallback_chain l) "chat_stream".

(** [ChatService.chat_stream], read to its end by the caller.  The events
    it yields appear in the trace as [EvYield]. *)
Definition chat_stream (owner_id : Z) (rq : LLMChatReq Temperature) : M unit :=
  fun st =>
    let '(hex, st) := call_total (uuid4_hex svc) st in
    let request_id := "llmreq_" +:+ hex in
    let started := perf_counter_ms backend (ext st) in
    let '((r, l), st) := stream_body owner_id rq stream_locals_init st in
    let error := match r with Raise exc => Some exc | Ok _ => None end in
    let st :=
      match r with
      | Raise exc => stream_except owner_id rq exc l st
      | Ok _ => st
      end in
    let latency_ms := perf_counter_ms backend (ext st) - started in
    safe_record (stream_metric request_id owner_id rq latency_ms error l) st.

(** ** What a run adds to the trace *)

Definition yields_of (events : list Event) : list SSEvent :=
  flat_map (fun e => match e with EvYield y => [y] | _ => [] end) events.

Definition metrics_of (events : list Event) : list Metric :=
  flat_map (fun e => match e with EvMetric m => [m] | _ => [] end) events.

(** An event of the inside of a run: not a metric record, not a terminal
    event of the stream. *)
Definition quiet_event (e : Event) : Prop :=
  match e with
  | EvMetric _ => False
  | EvYield (DoneEvent _ _ _ _ _ _ _) => False
  | EvYield (ErrorEvent _ _) => False
  | _ => True
  end.

Definition is_progress (y : SSEvent) : Prop :=
  match y with
  | MetaEvent _ _ _ _ | DeltaEvent _ _ => True
  | _ => False
  end.

(** [st'] continues [st] with inside events only. *)
Definition extends (st st' : State) : Prop :=
  exists events, trace st' = trace st ++ events /\ Forall quiet_event events.

Lemma extends_refl st : extends st st.
Proof. exists []. by rewrite app_nil_r. Qed.

Lemma extends_trans st1 st2 st3 : extends st1 st2 -> extends st2 st3 -> extends st1 st3.
Proof.
  intros (e1 & H1 & Q1) (e2 & H2 & Q2). exists (e1 ++ e2).
  rewrite H2, H1, app_assoc. split; [done | by apply Forall_app].
Qed.

Lemma extends_same_trace st st' : trace st' = trace st -> extends st st'.
Proof. intros H. exists []. by rewrite app_nil_r. Qed.

Lemma extends_log e st : quiet_event e -> extends st (log e st).
Proof. intros H. exists [e]. split; [done | by constructor]. Qed.

Lemma quiet_events_yields events :
  Forall quiet_event events ->
  metrics_of events = [] /\ Forall is_progress (yields_of events).
Proof.
  induction 1 as [|e events He _ [IH1 IH2]]; [by split|].
  unfold metrics_of, yields_of in *. simpl. rewrite IH1.
  destruct e as [| | |y| | | |]; simpl in *; try done.
  split; [done|]. constructor; [|done]. by destruct y.
Qed.

(** A computation all of whose events are inside events. *)
Definition mquiet {A} (m : M A) : Prop := forall st, extends st (m st).2.

(** The same for a computation with locals, which in addition maintains
    [I]. *)
Definition lkeeps {L A} (I : L -> Prop) (m : LM L A) : Prop :=
  forall l st, I l -> extends st (m l st).2 /\ I (m l st).1.2.

Lemma mquiet_ret {A} (a : A) : mquiet (ret a).
Proof. intros st. apply extends_refl. Qed.

Lemma mquiet_raise {A} (e : Exc) : mquiet (raise (A := A) e).
Proof. intros st. apply extends_refl. Qed.

Lemma mquiet_call {A} (f : W -> Result A * W) : mquiet (call f).
Proof. intros st. apply extends_same_trace, call_trace. Qed.

Lemma mquiet_emit e : quiet_event e -> mquiet (emit e).
Proof. intros H st. by apply extends_log. Qed.

Lemma mquiet_bind {A B} (m : M A) (k : A -> M B) :
  mquiet m -> (forall a, mquiet (k a)) -> mquiet (bind m k).
Proof.
  intros Hm Hk st. unfold bind. specialize (Hm st).
  destruct (m st) as [[a|e] st1]; simpl in *; [|done].
  eapply extends_trans; [exact Hm | apply Hk].
Qed.

Lemma lkeeps_ret {L A} I (a : A) : lkeeps (L := L) I (lret a).
Proof. intros l st Hl. split; [apply extends_refl | done]. Qed.

Lemma lkeeps_raise {L A} I (e : Exc) : lkeeps (L := L) I (lraise (A := A) e).
Proof. intros l st Hl. split; [apply extends_refl | done]. Qed.

Lemma lkeeps_get {L} (I : L -> Prop) : lkeeps I lget.
Proof. intros l st Hl. split; [apply extends_refl | done]. Qed.

Lemma lkeeps_modify {L} (I : L -> Prop) f :
  (forall l, I l -> I (f l)) -> lkeeps I (lmodify f).
Proof. intros Hf l st Hl. split; [apply extends_refl | by apply Hf]. Qed.

Lemma lkeeps_lift {L A} (I : L -> Prop) (m : M A) : mquiet m -> lkeeps I (lift m).
Proof.
  intros Hm l st Hl. unfold lift. specialize (Hm st).
  destruct (m st) as [r st1]. done.
Qed.

Lemma lkeeps_bind {L A B} (I : L -> Prop) (m : LM L A) (k : A -> LM L B) :
  lkeeps I m -> (forall a, lkeeps I (k a)) -> lkeeps I (lbind m k).
Proof.
  intros Hm Hk l st Hl. unfold lbind. destruct (Hm l st Hl) as [He Hi].
  destruct (m l st) as [[[a|e] l1] st1]; simpl in *; [|done].
  destruct (Hk a l1 st1 Hi) as [He' Hi']. split; [|done].
  eapply extends_trans; eauto.
Qed.

Create HintDb quiet.
#[local] Hint Resolve mquiet_ret mquiet_raise mquiet_call mquiet_bind
  lkeeps_ret lkeeps_raise lkeeps_get lkeeps_lift lkeeps_bind : quiet.

(** Splits a goal about a composite computation along its structure. *)
Ltac quiet_steps :=
  repeat first
    [ progress intros
    | apply mquiet_bind | apply lkeeps_bind | apply lkeeps_lift
    | apply mquiet_ret | apply mquiet_raise | apply mquiet_call
    | apply lkeeps_ret | apply lkeeps_raise | apply lkeeps_get
    | apply mquiet_emit; exact I
    | match goal with
      | |- mquiet (match ?x with _ => _ end) => destruct x
      | |- lkeeps _ (match ?x with _ => _ end) => destruct x
      | |- mquiet (if ?x then _ else _) => destruct x
      | |- lkeeps _ (if ?x then _ else _) => destruct x
      end ].

(** *** The parts of a run are quiet *)

Lemma mquiet_chat_completion messages provider model temperature tools :
  mquiet (chat_completion svc messages provider model temperature tools).
Proof.
  intros st. exists [EvCompletion messages provider model].
  split; [|by constructor].
  destruct (chat_completion svc messages provider model temperature tools st)
    as [r st'] eqn:E.
  exact (chat_completion_trace _ _ _ _ _ _ _ _ _ E).
Qed.

Lemma mquiet_dispatch owner_id tool_call :
  mquiet (dispatch_tool_call svc owner_id tool_call).
Proof.
  intros st. exists [EvToolCall tool_call]. split; [|by constructor].
  destruct (dispatch_tool_call svc owner_id tool_call st) as [r st'] eqn:E.
  by destruct (dispatch_tool_call_spec _ _ _ _ _ _ E).
Qed.

Lemma run_tool_calls_quiet owner_id tool_calls ls st :
  extends st (run_tool_calls svc owner_id tool_calls ls st).2.
Proof.
  revert ls st. induction tool_calls as [|tc rest IH]; intros ls st; simpl.
  - apply extends_refl.
  - pose proof (mquiet_dispatch owner_id tc st) as Hd.
    destruct (dispatch_tool_call svc owner_id tc st) as [[tool_result|e] st1];
      simpl in *; [|done].
    eapply extends_trans; [exact Hd | apply IH].
Qed.

Lemma completion_loop_quiet n temperature tools owner_id ls st :
  extends st (completion_loop svc n temperature tools owner_id ls st).2.
Proof.
  revert ls st. induction n as [|n IH]; intros ls st; cbn [completion_loop].
  - apply extends_refl.
  - pose proof (mquiet_chat_completion (working_messages ls) (actual_provider ls)
                  (actual_model ls) temperature tools st) as Hc.
    destruct (chat_completion svc _ _ _ temperature tools st)
      as [[completion|e] st1]; simpl in Hc; [|done].
    destruct (c_tool_calls completion) as [|tc tcs]; [done|].
    pose proof (run_tool_calls_quiet owner_id (tc :: tcs)
                  (set_pending true (record_completion completion ls)) st1) as Hr.
    destruct (run_tool_calls svc owner_id (tc :: tcs) _ st1) as [[[e|] ls2] st2];
      simpl in Hr.
    + eapply extends_trans; [exact Hc | exact Hr].
    + eapply extends_trans; [exact Hc|]. eapply extends_trans; [exact Hr | apply IH].
Qed.

Lemma mquiet_run_completion_with_tools llm_messages provider model temperature tools
    max_tool_steps owner_id :
  mquiet (_run_completion_with_tools svc llm_messages provider model temperature tools
            max_tool_steps owner_id).
Proof.
  intros st. unfold _run_completion_with_tools.
  pose proof (completion_loop_quiet (step_budget max_tool_steps) temperature tools
                owner_id (initial_loop_state llm_messages provider model) st) as H.
  by destruct (completion_loop svc _ _ _ _ _ st) as [[[e|] ls] st'].
Qed.

Lemma mquiet_fallback_loop llm_messages primary_provider primary_model temperature
    tools max_tool_steps owner_id idx candidates chain last :
  mquiet (fallback_loop project_config svc llm_messages primary_provider primary_model
            temperature tools max_tool_steps owner_id idx candidates chain last).
Proof.
  revert idx chain last.
  induction candidates as [|c rest IH]; intros idx chain last; simpl.
  - destruct last; apply mquiet_raise.
  - destruct (resolve_provider _ _ _ _) as [[candidate_config candidate_model]|exc].
    + intros st.
      pose proof (mquiet_run_completion_with_tools llm_messages
                    (pc_provider candidate_config) candidate_model temperature tools
                    max_tool_steps owner_id st) as Hr.
      destruct (_run_completion_with_tools svc _ _ _ _ _ _ _ st) as [[run|e] st1];
        simpl in *; [done|].
      destruct (negb _); [done|].
      eapply extends_trans; [exact Hr | apply IH].
    + destruct (negb _); [apply mquiet_raise | apply IH].
Qed.

Lemma mquiet_add_rows cid owner_id rows : mquiet (add_rows cid owner_id rows).
Proof. induction rows; simpl; quiet_steps. done. Qed.

Lemma mquiet_select_tools owner_id rq skill : mquiet (select_tools owner_id rq skill).
Proof. unfold select_tools. quiet_steps. Qed.

Lemma mquiet_get_conversation_or_raise owner_id cid :
  mquiet (get_conversation_or_raise owner_id cid).
Proof. unfold get_conversation_or_raise. quiet_steps. Qed.

Lemma mquiet_create_conversation owner_id title provider model system_prompt skill_name :
  mquiet (create_conversation owner_id title provider model system_prompt skill_name).
Proof.
  unfold create_conversation.
  destruct (resolve_provider _ _ _ _) as [[pc rm]|e]; [|apply mquiet_raise].
  intros st.
  pose proof (call_total_trace (uuid4_hex svc) st) as Hu.
  destruct (call_total (uuid4_hex svc) st) as [hex st1]. simpl in Hu.
  eapply extends_trans; [apply extends_same_trace; exact Hu|].
  revert st1 Hu. intros st1 _.
  match goal with |- extends st1 (?m st1).2 => assert (mquiet m) as Hm end.
  { quiet_steps. }
  apply Hm.
Qed.

Lemma maybe_refresh_summary_quiet conversation history_rows provider model st :
  extends st (maybe_refresh_summary conversation history_rows provider model st).2.
Proof.
  unfold maybe_refresh_summary, Memory.maybe_refresh_summary.
  destruct (Memory.get_memory_state conversation) as [summary_text count].
  repeat match goal with
         | |- extends _ (if ?b then _ else _).2 => destruct b; [apply extends_refl|]
         end.
  match goal with
  | |- context [chat_completion svc ?msgs ?p ?m ?t [] st] =>
      pose proof (mquiet_chat_completion msgs p m t [] st) as Hc;
      destruct (chat_completion svc msgs p m t [] st) as [[completion|e] st1]
  end; simpl in *; [|done].
  destruct (negb _); [done|].
  pose proof (mquiet_call (db_flush backend) st1) as Hf.
  destruct (call (db_flush backend) st1) as [[[]|e] st2]; simpl in *;
    eapply extends_trans; eauto.
Qed.

Lemma lkeeps_prepare_context {L} (I : L -> Prop)
    (on_conversation : LLMConversation -> L -> L)
    (on_primary : string -> string -> L -> L) owner_id rq conversation skill :
  (forall c l, I l -> I (on_conversation c l)) ->
  (forall p m l, I l -> I (on_primary p m l)) ->
  lkeeps I (prepare_context on_conversation on_primary owner_id rq conversation skill).
Proof.
  intros Hc Hp. unfold prepare_context.
  destruct (resolve_provider _ _ _ _) as [[pc rm]|e]; [|apply lkeeps_raise].
  apply lkeeps_bind; [by apply lkeeps_modify; auto|]. intros _.
  apply lkeeps_bind; [quiet_steps|]. intros _.
  apply lkeeps_bind; [apply lkeeps_lift; unfold list_messages; quiet_steps|].
  intros history_rows. apply lkeeps_bind.
  { intros l st Hl.
    pose proof (maybe_refresh_summary_quiet conversation history_rows
                  (pc_provider pc) rm st) as Hm.
    destruct (maybe_refresh_summary conversation history_rows (pc_provider pc) rm st)
      as [[r c'] st']. simpl in *. split; [done | by apply Hc]. }
  intros [[summary_text summarized_count] conversation'].
  apply lkeeps_bind; [quiet_steps|]. intros rag_contexts. apply lkeeps_ret.
Qed.

Lemma lkeeps_prepare_turn {L} (I : L -> Prop)
    (on_conversation : LLMConversation -> L -> L)
    (on_primary : string -> string -> L -> L) owner_id rq :
  (forall c l, I l -> I (on_conversation c l)) ->
  (forall p m l, I l -> I (on_primary p m l)) ->
  lkeeps I (prepare_turn on_conversation on_primary owner_id rq).
Proof.
  intros Hc Hp. unfold prepare_turn.
  apply lkeeps_bind.
  { apply lkeeps_lift. destruct (rq_conversation_id rq) as [cid|];
      [destruct (truthy cid)|];
      auto using mquiet_get_conversation_or_raise, mquiet_create_conversation. }
  intros conversation. apply lkeeps_bind; [by apply lkeeps_modify; auto|].
  intros _. apply lkeeps_bind; [quiet_steps|]. intros skill.
  destruct (strip_or_none _) as [name|]; [destruct skill|];
    try apply lkeeps_raise; by apply lkeeps_prepare_context.
Qed.

(** A computation with locals that maintains [I] while it has not
    returned, and whose events, once it has returned, satisfy [Good] together
    with the locals it leaves. *)
Definition lresult {L A} (I : L -> Prop) (Good : L -> list Event -> Prop)
    (m : LM L A) : Prop :=
  forall l st, I l ->
    match (m l st).1.1 with
    | Raise _ => extends st (m l st).2 /\ I (m l st).1.2
    | Ok _ => exists events, trace (m l st).2 = trace st ++ events /\
                             Good (m l st).1.2 events
    end.

Definition prefix_closed {L} (Good : L -> list Event -> Prop) : Prop :=
  forall l e1 e2, Forall quiet_event e1 -> Good l e2 -> Good l (e1 ++ e2).

Lemma lresult_bind {L A B} (I : L -> Prop) Good (m : LM L A) (k : A -> LM L B) :
  prefix_closed Good ->
  lkeeps I m -> (forall a, lresult I Good (k a)) -> lresult I Good (lbind m k).
Proof.
  intros Hclosed Hm Hk l st Hl. unfold lbind.
  destruct (Hm l st Hl) as [He Hi].
  destruct (m l st) as [[[a|e] l1] st1]; simpl in *; [|done].
  specialize (Hk a l1 st1 Hi).
  destruct (k a l1 st1) as [[[b|e] l2] st2]; simpl in *.
  - destruct Hk as (e2 & Ht2 & Hg). destruct He as (e1 & Ht1 & Hq).
    exists (e1 ++ e2). rewrite Ht2, Ht1, app_assoc. split; [done|]. by apply Hclosed.
  - destruct Hk as [He2 Hi2]. split; [|done]. eapply extends_trans; eauto.
Qed.

(** *** [chat] adds one metric, last *)

Lemma safe_record_spec metric st :
  exists st', safe_record metric st = (Ok tt, st') /\
              trace st' = trace st ++ [EvMetric metric].
Proof.
  unfold safe_record.
  pose proof (call_trace (metric_record backend metric) (log (EvMetric metric) st)) as H.
  destruct (call _ _) as [r st']. eauto.
Qed.

(** [safe_record]: the writer is applied once, to the world as it stands,
    and the world it leaves is kept; what it returns or raises is not. *)
Lemma safe_record_run metric st :
  safe_record metric st
  = (Ok tt, mkState (metric_record backend metric (ext st)).2
              (trace st ++ [EvMetric metric])).
Proof.
  unfold safe_record, call, log. cbn [ext trace].
  by destruct (metric_record backend metric (ext st)) as [r w].
Qed.

Definition chat_good (l : ChatLocals) (events : list Event) : Prop :=
  Forall quiet_event events /\ cl_metric_success l = true.

Lemma chat_good_closed : prefix_closed chat_good.
Proof. intros l e1 e2 H1 [H2 H3]. split; [by apply Forall_app | done]. Qed.

Lemma chat_body_spec owner_id rq :
  lresult (fun l => cl_metric_success l = false) chat_good (chat_body owner_id rq).
Proof.
  unfold chat_body.
  apply lresult_bind; [apply chat_good_closed | by apply lkeeps_prepare_turn |].
  intros turn. cbv zeta.
  apply lresult_bind;
    [apply chat_good_closed | apply lkeeps_lift, mquiet_select_tools |].
  intros tools.
  apply lresult_bind;
    [apply chat_good_closed
    | apply lkeeps_lift; unfold _run_completion_with_fallback; apply mquiet_fallback_loop |].
  intros run.
  apply lresult_bind; [apply chat_good_closed | by apply lkeeps_modify |]. intros _.
  apply lresult_bind; [apply chat_good_closed | quiet_steps |]. intros _.
  apply lresult_bind;
    [apply chat_good_closed | apply lkeeps_lift, mquiet_add_rows |]. intros _.
  apply lresult_bind; [apply chat_good_closed | |].
  { intros l st Hl. split; [apply extends_refl | done]. }
  intros _.
  apply lresult_bind; [apply chat_good_closed | quiet_steps |]. intros _.
  apply lresult_bind; [apply chat_good_closed | quiet_steps |]. intros _.
  intros l st Hl. simpl. exists []. rewrite app_nil_r. by repeat split.
Qed.

Lemma chat_spec owner_id rq st :
  exists events metric,
    trace (chat owner_id rq st).2 = trace st ++ events ++ [EvMetric metric] /\
    Forall quiet_event events /\
    mt_is_stream metric = false /\
    mt_success metric = is_ok (chat owner_id rq st).1 /\
    forall e, (chat owner_id rq st).1 = Raise e ->
      mt_error_code metric = Some (_extract_error_code e) /\
      mt_error_message metric = Some (exc_str svc e).
Proof.
  unfold chat.
  pose proof (call_total_trace (uuid4_hex svc) st) as Hu.
  destruct (call_total (uuid4_hex svc) st) as [hex st0]. simpl in Hu.
  pose proof (chat_body_spec owner_id rq chat_locals_init st0 eq_refl) as Hb.
  destruct (chat_body owner_id rq chat_locals_init st0) as [[r l] st1]. simpl in Hb.
  match goal with |- context [safe_record ?m st1] =>
    destruct (safe_record_spec m st1) as (st2 & -> & Ht2); set (metric := m) in *
  end.
  simpl.
  assert (Hev : exists events, trace st1 = trace st ++ events /\
                               Forall quiet_event events /\
                               cl_metric_success l = is_ok r).
  { destruct r as [res|e]; simpl in *.
    - destruct Hb as (events & Ht & Hq & Hs). exists events. by rewrite Ht, Hu.
    - destruct Hb as ((events & Ht & Hq) & Hs). exists events. by rewrite Ht, Hu. }
  destruct Hev as (events & Ht & Hq & Hs).
  exists events, metric. rewrite Ht2, Ht, <- app_assoc.
  split_and!; [done | done | done | exact Hs |].
  intros e ->. done.
Qed.

(** *** [chat_stream] ends with one terminal event and one metric *)

Definition sl_quiet (l : StreamLocals) : Prop := sl_metric_success l = false.

(** A property of the locals that the assignments of the stream loop
    maintain. *)
Definition loop_invariant (I : StreamLocals -> Prop) : Prop :=
  (forall p m i pp l, I l -> I (sl_select p m i pp l)) /\
  (forall chunk d l, I l -> I (sl_absorb chunk d l)) /\
  (forall name l, I l -> I (sl_append_chain name l)).

Lemma sl_quiet_invariant : loop_invariant sl_quiet.
Proof. by split_and!. Qed.

Lemma True_invariant : loop_invariant (fun _ => True).
Proof. by split_and!. Qed.

Lemma process_chunks_spec I cid provider model idx primary chunks got l st :
  loop_invariant I -> I l ->
  extends st (process_chunks cid provider model idx primary chunks got l st).2 /\
  I (process_chunks cid provider model idx primary chunks got l st).1.2.
Proof.
  intros (Hsel & Habs & Happ).
  revert got l st. induction chunks as [|chunk rest IH]; intros got l st Hl; simpl.
  - split; [apply extends_refl | done].
  - destruct (negb _); [by apply IH|].
    match goal with |- context [process_chunks _ _ _ _ _ rest true ?l' ?st'] =>
      destruct (IH true l' st') as [He Hq];
      [apply Habs; destruct got; [done | by apply Hsel]|];
      split; [|exact Hq]; eapply extends_trans; [|exact He]
    end.
    destruct (truthy _); [by apply extends_log | apply extends_refl].
Qed.

Lemma lkeeps_consume_stream I cid llm_messages provider model temperature idx primary :
  loop_invariant I ->
  lkeeps I (consume_stream cid llm_messages provider model temperature idx primary).
Proof.
  intros HI l st Hl. unfold consume_stream.
  destruct (llm_chat_completion_stream svc _ _ _ _ _) as [[chunks stream_exc] w].
  match goal with |- context [process_chunks ?a ?b ?c ?d ?e ?f ?g ?h ?i] =>
    destruct (process_chunks_spec I a b c d e f g h i HI Hl) as [He Hq];
    destruct (process_chunks a b c d e f g h i) as [[got l'] st']
  end.
  simpl in *. split; [|done].
  eapply extends_trans; [|exact He].
  exists [EvStream llm_messages provider model]. split; [done | by constructor].
Qed.

Lemma lkeeps_stream_candidates I cid llm_messages primary_provider primary_model
    temperature warning idx candidates yielded_meta stream_error :
  loop_invariant I ->
  lkeeps I
    (stream_candidates cid llm_messages primary_provider primary_model temperature
       warning idx candidates yielded_meta stream_error).
Proof.
  intros HI. pose proof HI as (Hsel & Habs & Happ).
  revert idx yielded_meta stream_error.
  induction candidates as [|c rest IH]; intros idx yielded_meta stream_error; simpl.
  - destruct stream_error; [apply lkeeps_raise | apply lkeeps_ret].
  - destruct (resolve_provider _ _ _ _) as [[candidate_cfg candidate_model]|exc].
    + apply lkeeps_bind; [by apply lkeeps_modify; auto|]. intros _.
      apply lkeeps_bind; [quiet_steps|]. intros _.
      apply lkeeps_bind; [by apply lkeeps_consume_stream|].
      intros [got [exc|]].
      * destruct got; [apply lkeeps_raise|].
        destruct (negb _); [apply lkeeps_raise | apply IH].
      * destruct got; [apply lkeeps_ret | by apply lkeeps_modify; auto].
    + apply lkeeps_bind; [by apply lkeeps_modify; auto|]. intros _.
      destruct (negb _); [apply lkeeps_raise | apply IH].
Qed.

Definition is_done (y : SSEvent) : bool :=
  match y with DoneEvent _ _ _ _ _ _ _ => true | _ => false end.

Definition is_error (y : SSEvent) : bool :=
  match y with ErrorEvent _ _ => true | _ => false end.

Definition stream_good (l : StreamLocals) (events : list Event) : Prop :=
  exists inside done,
    events = inside ++ [EvYield done] /\ Forall quiet_event inside /\
    is_done done = true /\ sl_metric_success l = true.

Lemma stream_good_closed : prefix_closed stream_good.
Proof.
  intros l e1 e2 H1 (inside & done & -> & Hq & Hd & Hs).
  exists (e1 ++ inside), done. rewrite app_assoc.
  split_and!; [done | by apply Forall_app | done | done].
Qed.

Lemma stream_body_spec owner_id rq :
  lresult sl_quiet stream_good (stream_body owner_id rq).
Proof.
  unfold stream_body.
  apply lresult_bind; [apply stream_good_closed | by apply lkeeps_prepare_turn |].
  intros turn. cbv zeta.
  apply lresult_bind; [apply stream_good_closed | quiet_steps |]. intros _.
  apply lresult_bind; [apply stream_good_closed | |].
  { intros l st Hl. split; [apply extends_refl | done]. }
  intros conversation.
  apply lresult_bind; [apply stream_good_closed | quiet_steps |]. intros _.
  apply lresult_bind;
    [apply stream_good_closed
    | apply lkeeps_stream_candidates, sl_quiet_invariant |]. intros _.
  apply lresult_bind; [apply stream_good_closed | apply lkeeps_get |]. intros l0.
  apply lresult_bind; [apply stream_good_closed | quiet_steps |]. intros _.
  apply lresult_bind; [apply stream_good_closed | |].
  { intros l st Hl. split; [apply extends_refl | done]. }
  intros _.
  apply lresult_bind; [apply stream_good_closed | quiet_steps |]. intros _.
  apply lresult_bind; [apply stream_good_closed | quiet_steps |]. intros _.
  intros l st Hl. simpl.
  eexists. split; [reflexivity|]. eexists [], _. by split_and!.
Qed.

Lemma stream_except_spec owner_id rq exc l st :
  exists inside,
    trace (stream_except owner_id rq exc l st)
      = trace st ++ inside ++
        [EvYield (ErrorEvent
                    (match sl_conversation l with
                     | Some c => Some (conversation_id c)
                     | None => rq_conversation_id rq
                     end) (exc_str svc exc))] /\
    inside =
      match sl_conversation l with
      | Some conversation =>
          if truthy (streamed_text l)
          then [EvDbAdd (conversation_id conversation) owner_id (partial_row exc l);
                EvDbCommit]
          else []
      | None => []
      end.
Proof.
  unfold stream_except. eexists. split; [|reflexivity].
  destruct (sl_conversation l) as [conversation|]; simpl; [|done].
  destruct (truthy (streamed_text l)); simpl; [|done].
  rewrite call_trace. simpl. by rewrite <- !app_assoc.
Qed.

Lemma chat_stream_spec owner_id rq st :
  exists inside terminal metric,
    (chat_stream owner_id rq st).1 = Ok tt /\
    trace (chat_stream owner_id rq st).2
      = trace st ++ inside ++ [EvYield terminal; EvMetric metric] /\
    Forall quiet_event inside /\
    mt_is_stream metric = true /\
    (is_done terminal = true /\ mt_success metric = true /\ mt_error_code metric = None
     \/ is_error terminal = true /\ mt_success metric = false /\
        mt_error_code metric <> None).
Proof.
  unfold chat_stream.
  pose proof (call_total_trace (uuid4_hex svc) st) as Hu.
  destruct (call_total (uuid4_hex svc) st) as [hex st0]. simpl in Hu.
  pose proof (stream_body_spec owner_id rq stream_locals_init st0 eq_refl) as Hb.
  destruct (stream_body owner_id rq stream_locals_init st0) as [[r l] st1].
  simpl in Hb.
  match goal with |- context [safe_record ?m ?s] =>
    destruct (safe_record_spec m s) as (st2 & -> & Ht2); set (metric := m) in *
  end.
  simpl. destruct r as [[]|exc].
  - destruct Hb as (events & Ht & inside & done & -> & Hq & Hd & Hs).
    exists inside, done, metric. rewrite Ht2, Ht, Hu, <- !app_assoc. simpl.
    split_and!; [done..|]. left. by split_and!.
  - destruct Hb as ((events & Ht & Hq) & Hs).
    destruct (stream_except_spec owner_id rq exc l st1) as (extra & Hx & Hextra).
    eexists (events ++ extra), _, metric.
    rewrite Ht2, Hx, Ht, Hu, <- !app_assoc. simpl.
    split_and!; [done | done | | done |].
    + apply Forall_app. split; [done|]. subst extra.
      destruct (sl_conversation l); [destruct (truthy _)|]; repeat constructor.
    + right. by split_and!.
Qed.

(** *** The stream loop, one candidate at a time *)

Lemma metrics_of_app e1 e2 : metrics_of (e1 ++ e2) = metrics_of e1 ++ metrics_of e2.
Proof. apply flat_map_app. Qed.

Lemma yields_of_app e1 e2 : yields_of (e1 ++ e2) = yields_of e1 ++ yields_of e2.
Proof. apply flat_map_app. Qed.

(** The flag [got_chunk] after a stream: raised by the first chunk of type
    ["chunk"], whatever text it carries. *)
Definition has_chunk (chunks : list StreamChunk) : bool :=
  existsb (fun chunk => bool_decide (ch_type chunk = "chunk")) chunks.

Lemma process_chunks_flag cid provider model idx primary chunks got l st :
  (process_chunks cid provider model idx primary chunks got l st).1.1
    = got || has_chunk chunks.
Proof.
  revert got l st. induction chunks as [|chunk rest IH]; intros got l st; simpl.
  - by rewrite orb_false_r.
  - destruct (bool_decide (ch_type chunk = "chunk")); simpl.
    + rewrite IH. by rewrite orb_true_r.
    + apply IH.
Qed.

Lemma process_chunks_none cid provider model idx primary chunks got l st :
  has_chunk chunks = false ->
  process_chunks cid provider model idx primary chunks got l st = ((got, l), st).
Proof.
  revert got l st. induction chunks as [|chunk rest IH]; intros got l st; simpl; [done|].
  intros [Hc Hrest]%orb_false_iff. rewrite Hc. simpl. by apply IH.
Qed.

Lemma consume_stream_eq cid llm_messages provider model temperature idx primary
    l st chunks stream_exc w :
  llm_chat_completion_stream svc llm_messages provider model temperature (ext st)
    = ((chunks, stream_exc), w) ->
  let read :=
    process_chunks cid provider model idx primary chunks false l
      (mkState w (trace st ++ [EvStream llm_messages provider model])) in
  consume_stream cid llm_messages provider model temperature idx primary l st
  = ((Ok (has_chunk chunks, stream_exc), read.1.2), read.2).
Proof.
  intros Hstream read. unfold consume_stream. cbn [log ext trace]. rewrite Hstream.
  pose proof (process_chunks_flag cid provider model idx primary chunks false l
                (mkState w (trace st ++ [EvStream llm_messages provider model]))) as Hf.
  fold read in Hf. subst read.
  destruct (process_chunks _ _ _ _ _ _ _ _ _) as [[got l'] st']. simpl in *.
  by rewrite Hf.
Qed.

(** The [meta] event of an attempt, when one is due. *)
Definition announce (cid : string) (primary_provider primary_model : string)
    (warning : option string) (idx : nat) (yielded_meta : bool)
    (provider model : string) (st : State) : State :=
  if negb yielded_meta || (0 <? idx)%nat then
    log (EvYield (MetaEvent cid provider model
                    (if (0 <? idx)%nat
                     then Some (switch_warning primary_provider primary_model
                                  provider model)
                     else warning))) st
  else st.

(** What one attempt on a resolved candidate whose stream ends with an
    exception comes to. *)
Lemma stream_candidates_attempt cid llm_messages primary_provider primary_model
    temperature warning idx c rest yielded_meta stream_error l st
    candidate_cfg candidate_model chunks exc w :
  resolve_provider project_config (Some c)
    (model_for_candidate primary_provider primary_model c) true
    = Ok (candidate_cfg, candidate_model) ->
  llm_chat_completion_stream svc llm_messages (pc_provider candidate_cfg)
    candidate_model temperature (ext st) = ((chunks, Some exc), w) ->
  let announced :=
    announce cid primary_provider primary_model warning idx yielded_meta
      (pc_provider candidate_cfg) candidate_model st in
  let read :=
    process_chunks cid (pc_provider candidate_cfg) candidate_model idx
      primary_provider chunks false
      (sl_append_chain (pc_provider candidate_cfg) l)
      (mkState w (trace announced
                    ++ [EvStream llm_messages (pc_provider candidate_cfg)
                          candidate_model])) in
  stream_candidates cid llm_messages primary_provider primary_model temperature
    warning idx (c :: rest) yielded_meta stream_error l st
  = if has_chunk chunks then ((Raise exc, read.1.2), read.2)
    else if negb (_is_fallback_candidate_error exc)
         then ((Raise exc, read.1.2), read.2)
         else stream_candidates cid llm_messages primary_provider primary_model
                temperature warning (Datatypes.S idx) rest true (Some exc)
                read.1.2 read.2.
Proof.
  intros Hres Hstream announced read. unfold model_for_candidate in Hres.
  cbn [stream_candidates]. rewrite Hres.
  assert (Hext : ext announced = ext st).
  { unfold announced, announce.
    destruct (negb yielded_meta || (0 <? idx)%nat); reflexivity. }
  rewrite <- Hext in Hstream.
  pose proof (consume_stream_eq cid llm_messages (pc_provider candidate_cfg)
                candidate_model temperature idx primary_provider
                (sl_append_chain (pc_provider candidate_cfg) l) announced
                chunks (Some exc) w Hstream) as Hc.
  cbv zeta in Hc. fold read in Hc.
  unfold lbind at 1. unfold lmodify at 1. cbn [fst snd].
  unfold lbind at 1.
  assert (Hmeta :
    (if negb yielded_meta || (0 <? idx)%nat
     then lift (emit (EvYield (MetaEvent cid (pc_provider candidate_cfg) candidate_model
                                 (if (0 <? idx)%nat
                                  then Some (switch_warning primary_provider
                                               primary_model
                                               (pc_provider candidate_cfg)
                                               candidate_model)
                                  else warning))))
     else lret tt) (sl_append_chain (pc_provider candidate_cfg) l) st
    = ((Ok tt, sl_append_chain (pc_provider candidate_cfg) l), announced)).
  { unfold announced, announce.
    destruct (negb yielded_meta || (0 <? idx)%nat); reflexivity. }
  rewrite Hmeta. unfold lbind at 1. rewrite Hc.
  clear Hc. destruct (has_chunk chunks); [reflexivity|].
  destruct (negb (_is_fallback_candidate_error exc)); reflexivity.
Qed.

(** A candidate reached after the first one announces itself with a fresh
    [meta] event, which names the switch. *)
Lemma stream_candidates_fresh_meta cid llm_messages primary_provider primary_model
    temperature warning idx c rest yielded_meta stream_error l st
    candidate_cfg candidate_model :
  resolve_provider project_config (Some c)
    (model_for_candidate primary_provider primary_model c) true
    = Ok (candidate_cfg, candidate_model) ->
  exists more,
    trace (stream_candidates cid llm_messages primary_provider primary_model
             temperature warning (Datatypes.S idx) (c :: rest) yielded_meta
             stream_error l st).2
    = trace st ++
      EvYield (MetaEvent cid (pc_provider candidate_cfg) candidate_model
                 (Some (switch_warning primary_provider primary_model
                          (pc_provider candidate_cfg) candidate_model)))
      :: more.
Proof.
  intros Hres. unfold model_for_candidate in Hres.
  cbn [stream_candidates]. rewrite Hres. rewrite orb_true_r.
  unfold lbind at 1. unfold lmodify at 1. cbn [fst snd].
  unfold lbind at 1. unfold lift at 1, emit at 1.
  match goal with |- context [lbind ?m ?k ?l0 ?s0] =>
    assert (Hk : lkeeps (fun _ => True) (lbind m k));
    [| destruct (Hk l0 s0 I) as [(more & Ht & _) _]; exists more; rewrite Ht;
       simpl; by rewrite <- app_assoc ]
  end.
  apply lkeeps_bind; [apply lkeeps_consume_stream, True_invariant|].
  intros [got [exc|]].
  - destruct got; [apply lkeeps_raise|].
    destruct (negb _); [apply lkeeps_raise|].
    apply lkeeps_stream_candidates, True_invariant.
  - destruct got; [apply lkeeps_ret | by apply lkeeps_modify].
Qed.

(** The texts a stream delivered: the non-empty delta texts of its chunks
    of type ["chunk"], in order. *)
Definition delta_texts (chunks : list StreamChunk) : list string :=
  flat_map
    (fun chunk =>
       if bool_decide (ch_type chunk = "chunk")
          && truthy (_extract_delta_text (ch_delta chunk))
       then [_extract_delta_text (ch_delta chunk)] else [])
    chunks.

(** Reading a stream emits one [delta] event for each of these texts and
    appends each of them to [assistant_parts]; it does nothing else that can
    be seen from outside. *)
Lemma process_chunks_deltas cid provider model idx primary chunks got l st :
  let read := process_chunks cid provider model idx primary chunks got l st in
  sl_assistant_parts read.1.2 = sl_assistant_parts l ++ delta_texts chunks /\
  trace read.2
    = trace st ++ map (fun d => EvYield (DeltaEvent cid d)) (delta_texts chunks) /\
  ext read.2 = ext st /\
  sl_conversation read.1.2 = sl_conversation l.
Proof.
  cbv zeta. revert got l st.
  induction chunks as [|chunk rest IH]; intros got l st; simpl.
  - by rewrite !app_nil_r.
  - destruct (bool_decide (ch_type chunk = "chunk")); simpl; [|apply IH].
    match goal with |- context [process_chunks _ _ _ _ _ rest true ?l' ?st'] =>
      destruct (IH true l' st') as (Hp & Ht & He & Hc)
    end.
    rewrite Hp, Ht, He, Hc. clear IH Hp Ht He Hc.
    destruct got; simpl;
      destruct (truthy (_extract_delta_text (ch_delta chunk))); simpl;
      rewrite <- ?app_assoc; done.
Qed.

(** No chunk, no delta. *)
Lemma delta_texts_none chunks : has_chunk chunks = false -> delta_texts chunks = [].
Proof.
  induction chunks as [|chunk rest IH]; simpl; [done|].
  intros [-> Hrest]%orb_false_iff. simpl. by apply IH.
Qed.

Lemma quiet_events_metrics events :
  Forall quiet_event events -> metrics_of events = [].
Proof. intros H. by destruct (quiet_events_yields events H). Qed.

(** What [chat] returns or raises is what its [try] block returned or
    raised: the [finally] block adds nothing to it. *)
Lemma chat_result owner_id rq st :
  (chat owner_id rq st).1
  = (chat_body owner_id rq chat_locals_init (call_total (uuid4_hex svc) st).2).1.1.
Proof.
  unfold chat. destruct (call_total (uuid4_hex svc) st) as [hex st0]. simpl.
  destruct (chat_body owner_id rq chat_locals_init st0) as [[r l] st1]. simpl.
  match goal with |- context [safe_record ?m ?s] =>
    destruct (safe_record_spec m s) as (st2 & -> & _)
  end.
  done.
Qed.

End Chat.

End Engine.

(* ===================================================================== *)
(** * Scenarios                                                           *)
(* ===================================================================== *)

Module Scenario.
Import Engine.

Definition echo_tool : Tools.ToolDefinition (S := nat) :=
  Tools.mkToolDefinition "echo" "回显输入文本" (JDict [])
    (fun arguments w => (Ok (Serializable arguments), w)).

Definition no_stream (_ : list ChatMsg) (_ _ : string) (_ : option unit) (w : nat)
    : (list StreamChunk * option Exc) * nat := (([], None), w).

Definition plain_completion (provider model text : string)
    (tool_calls : list ToolCall) : Completion :=
  mkCompletion provider model (CStr text) tool_calls (Some "stop") ∅.

(** A model that asks for the [echo] tool on every call.  The world counts
    the completion calls made. *)
Definition svc_echo_forever : Services nat unit :=
  {| llm_chat_completion := fun _ provider model _ _ (w : nat) =>
       (Ok (plain_completion provider model ""
              [mkToolCall (Some ("call_" +:+ pretty (Z.of_nat w))) (Some "echo")
                 (Some (ArgText "not json"))]),
        Datatypes.S w);
     llm_chat_completion_stream := no_stream;
     json_loads := scenario_loads;
     json_dumps := scenario_dumps;
     exc_str := scenario_exc_str;
     uuid4_hex := fun w => ("0f", w);
     tool_registry := [("echo", echo_tool)];
     find_server_by_tool_name := fun _ _ w => (Ok None, w);
     http_post := fun _ _ _ w => (Raise (OtherException "ConnectError" "refused"), w) |}.

(** A model that asks for two tools on its first call, the second of which
    nobody has registered (first world), or both of which are [echo] (second
    world), and answers in plain text afterwards. *)
Definition two_calls (second : string) : list ToolCall :=
  [ mkToolCall (Some "call_a") (Some "echo") (Some (ArgText "{}"));
    mkToolCall (Some "call_b") (Some second) (Some (ArgText "{}")) ].

Definition svc_two_calls (second : string) : Services nat unit :=
  {| llm_chat_completion := fun _ provider model _ _ (w : nat) =>
       (Ok (plain_completion provider model
              (match w with O => "" | _ => "done" end)
              (match w with O => two_calls second | _ => [] end)),
        Datatypes.S w);
     llm_chat_completion_stream := no_stream;
     json_loads := scenario_loads;
     json_dumps := scenario_dumps;
     exc_str := scenario_exc_str;
     uuid4_hex := fun w => ("0f", w);
     tool_registry := [("echo", echo_tool)];
     find_server_by_tool_name := fun _ _ w => (Ok None, w);
     http_post := fun _ _ _ w => (Raise (OtherException "ConnectError" "refused"), w) |}.

Definition hello : list ChatMsg := [mkChatMsg "user" "hello" None None].

Definition start : State (W := nat) := mkState 0%nat [].

(** A streaming endpoint whose first stream delivers [first] and then breaks;
    every later stream delivers one text and ends.  The world counts the
    streams opened. *)
Definition text_chunk (text : string) : StreamChunk :=
  mkStreamChunk "chunk" None None (DCDict None (Some text) None) None ∅.

Definition connection_lost : Exc := OtherException "ReadError" "connection lost".

Definition svc_stream (first : list StreamChunk) : Services nat unit :=
  {| llm_chat_completion := fun _ provider model _ _ (w : nat) =>
       (Ok (plain_completion provider model "summary" []), w);
     llm_chat_completion_stream := fun _ _ _ _ (w : nat) =>
       match w with
       | O => ((first, Some connection_lost), 1%nat)
       | _ => (([text_chunk "Hi"], None), Datatypes.S w)
       end;
     json_loads := scenario_loads;
     json_dumps := scenario_dumps;
     exc_str := scenario_exc_str;
     uuid4_hex := fun w => ("0f", w);
     tool_registry := [];
     find_server_by_tool_name := fun _ _ w => (Ok None, w);
     http_post := fun _ _ _ w => (Raise (OtherException "ConnectError" "refused"), w) |}.

(** A record store with nothing in it, no skill, no quota in force, and a
    metrics writer that works or, if [metrics_fail], raises on every write. *)
Definition backend_empty (metrics_fail : bool) : Backend nat unit :=
  {| db_get_conversation := fun _ _ w => (Ok None, w);
     db_list_messages := fun _ _ _ w => (Ok [], w);
     db_commit := fun w => (Ok tt, w);
     db_refresh := fun w => (Ok tt, w);
     db_flush := fun w => (Ok tt, w);
     get_skill := fun _ _ w => (Ok None, w);
     enforce_before_request := fun _ _ _ w => (Ok tt, w);
     commit_token_usage := fun _ _ _ _ w => (Ok tt, w);
     retrieve_context := fun _ _ _ w => (Ok [], w);
     mcp_list_openai_tools := fun _ _ w => (Ok [], w);
     metric_record := fun _ w =>
       (if metrics_fail
        then Raise (OtherException "OperationalError" "database is locked")
        else Ok tt, w);
     perf_counter_ms := fun _ => 0;
     now_timestamp := fun _ => 0;
     summary_temperature := tt |}.

Definition stream_request : LLMChatReq unit :=
  mkLLMChatReq None "hello" (Some "openai") None None [] false None None None false 3.

End Scenario.

(* ===================================================================== *)
(** * The tool loop: answers (C2) and the step budget (C5)                 *)
(* ===================================================================== *)

(** C2 as the design document words it: in every run of the tool loop the
    number of tool-role messages appended to the working context equals the
    number of tool calls the completions of the run carried. *)
Definition C2_as_stated : Prop :=
  forall (W Temperature : Type) (svc : Engine.Services W Temperature)
         (llm_messages : list ChatMsg) (provider model : string)
         (temperature : option Temperature) (tools : list OpenAITool)
         (max_tool_steps owner_id : Z) (st : Engine.State),
    let out :=
      Engine.completion_loop svc (Engine.step_budget max_tool_steps) temperature
        tools owner_id (Engine.initial_loop_state llm_messages provider model) st in
    exists appended,
      Engine.working_messages out.1.2 = llm_messages ++ appended /\
      length (Engine.tool_replies appended) = length (Engine.issued_calls appended).

(** C2, counterexample.  The model asks for [echo] and for a tool registered
    nowhere.  The first call is answered; the second makes the remote adapter
    raise "not registered", which ends the run with one tool-role message for
    two tool calls. *)
Lemma C2_counterexample_unregistered_tool_aborts_run : ~ C2_as_stated.
Proof.
  intros H.
  destruct (H nat unit (Scenario.svc_two_calls "get_weather") [] "openai" "gpt-4o-mini"
              None [] 4 7 Scenario.start) as (appended & Hw & Hlen).
  vm_compute in Hw. subst appended. vm_compute in Hlen. discriminate.
Qed.

(** C2 (amended).  In every run of the tool loop, each completion call is
    issued with the context the run started from followed by a stretch in
    which every earlier assistant message is followed at once by exactly one
    tool-role message per tool call it carries, in the order of the calls and
    with the id of the call.  A tool call that cannot be dispatched (no name,
    unknown to both the registry and the remote adapter, a disabled or
    misconfigured server) raises and ends the run; in a run that is not ended
    by an exception the tool calls are dispatched in the order the completions
    returned them, the tool-role messages appended answer them one for one in
    that order, and so their numbers are equal. *)
Theorem C2_tool_calls_answered_one_for_one :
  forall (W Temperature : Type) (svc : Engine.Services W Temperature)
         (llm_messages : list ChatMsg) (provider model : string)
         (temperature : option Temperature) (tools : list OpenAITool)
         (max_tool_steps owner_id : Z) (st : Engine.State),
    let out :=
      Engine.completion_loop svc (Engine.step_budget max_tool_steps) temperature
        tools owner_id (Engine.initial_loop_state llm_messages provider model) st in
    exists events,
      Engine.trace out.2 = Engine.trace st ++ events /\
      Forall (fun messages =>
                exists answered,
                  messages = llm_messages ++ answered /\
                  Engine.Answered answered /\
                  Forall2 Engine.answers (Engine.issued_calls answered)
                    (Engine.tool_replies answered))
        (Engine.completion_calls events) /\
      (out.1.1 = None ->
       exists appended,
         Engine.working_messages out.1.2 = llm_messages ++ appended /\
         Engine.Answered appended /\
         Engine.dispatched_calls events = Engine.issued_calls appended /\
         Forall2 Engine.answers (Engine.issued_calls appended)
           (Engine.tool_replies appended) /\
         length (Engine.tool_replies appended)
           = length (Engine.issued_calls appended)).
Proof.
  intros. subst out.
  destruct (Engine.completion_loop _ _ _ _ _ _ _) as [[err ls] st'] eqn:Eout. simpl.
  destruct (Engine.completion_loop_spec svc llm_messages temperature tools owner_id
              _ (Engine.initial_loop_state llm_messages provider model) _ [] _ _ _
              (eq_sym (app_nil_r llm_messages)) Engine.Answered_nil Eout)
    as (events & Ht & Hall & _ & Hok & _).
  exists events. split_and!; [done | |].
  - eapply Forall_impl; [exact Hall|]. intros messages (p & -> & Hp).
    exists p. split_and!; [done | done |]. by apply Engine.Answered_pairs.
  - intros Herr. destruct (Hok Herr) as (appended & Hw & Ha & Hd).
    exists appended. pose proof (Engine.Answered_pairs _ Ha) as Hpairs.
    split_and!; [done..|]. symmetry. by eapply Forall2_length.
Qed.

(** C2, a run: two calls to a registered tool are answered in order before
    the second completion call, which ends the run. *)
Example C2_scenario_two_calls_answered :
  let out :=
    Engine.completion_loop (Scenario.svc_two_calls "echo") (Engine.step_budget 4)
      None [] 7 (Engine.initial_loop_state Scenario.hello "openai" "gpt-4o-mini")
      Scenario.start in
  out.1.1 = None /\
  map cm_role (Engine.working_messages out.1.2)
    = ["user"; "assistant"; "tool"; "tool"; "assistant"] /\
  map cm_tool_call_id (Engine.working_messages out.1.2)
    = [None; None; Some "call_a"; Some "call_b"; None] /\
  Engine.dispatched_calls (Engine.trace out.2) = Scenario.two_calls "echo" /\
  length (Engine.completion_calls (Engine.trace out.2)) = 2%nat.
Proof. vm_compute. done. Qed.

(** A request that leaves [max_tool_steps] to the configuration. *)
Definition plain_request : Engine.LLMChatReq unit :=
  Engine.mkLLMChatReq None "hello" None None None [] true None None None false 3.

(** C5 as the design document words it: for a request the schema accepts,
    no run of the tool loop makes more than 8 completion calls. *)
Definition C5_as_stated : Prop :=
  forall (W Temperature : Type) (svc : Engine.Services W Temperature)
         (project_config : Config) (rq : Engine.LLMChatReq Temperature)
         (llm_messages : list ChatMsg) (provider model : string)
         (tools : list OpenAITool) (owner_id : Z) (st : Engine.State),
    Engine.valid_request rq = true ->
    let out :=
      Engine.completion_loop svc
        (Engine.step_budget (Engine.effective_max_tool_steps project_config rq))
        (Engine.rq_temperature rq) tools owner_id
        (Engine.initial_loop_state llm_messages provider model) st in
    (length (Engine.completion_calls (Engine.trace out.2))
       <= length (Engine.completion_calls (Engine.trace st)) + 8)%nat.

(** C5, counterexample.  The ceiling of 8 is a bound of the request schema
    only.  A request that gives no [max_tool_steps] runs with the configured
    default as it is: with a default of 9 and a model that keeps asking for a
    tool, the loop makes 9 completion calls. *)
Lemma C5_counterexample_configured_default_above_8 : ~ C5_as_stated.
Proof.
  intros H.
  specialize (H nat unit Scenario.svc_echo_forever scenario_config plain_request
                Scenario.hello "openai" "gpt-4o-mini" [] 7 Scenario.start eq_refl).
  vm_compute in H. lia.
Qed.

(** C5 (amended).  The tool loop makes at most [max(1, maxToolSteps)]
    completion calls, where [maxToolSteps] is the value of the request when it
    gives one (the schema keeps that value between 1 and 8, so the bound is
    then at most 8) and the configured default, taken as it is, otherwise.  If
    the loop runs out of steps while the last completion still carried tool
    calls, every step was used, no exception is raised, and the run returns
    the step-limit text as the assistant message, with a last record tagged
    [max_tool_steps_exceeded]. *)
Theorem C5_step_budget_and_step_limit_reply :
  forall (W Temperature : Type) (svc : Engine.Services W Temperature)
         (project_config : Config) (rq : Engine.LLMChatReq Temperature)
         (llm_messages : list ChatMsg) (provider model : string)
         (tools : list OpenAITool) (owner_id : Z) (st : Engine.State),
    let steps := Engine.effective_max_tool_steps project_config rq in
    let out :=
      Engine.completion_loop svc (Engine.step_budget steps)
        (Engine.rq_temperature rq) tools owner_id
        (Engine.initial_loop_state llm_messages provider model) st in
    let result :=
      Engine._run_completion_with_tools svc llm_messages provider model
        (Engine.rq_temperature rq) tools steps owner_id st in
    (Engine.valid_request rq = true ->
     forall k, Engine.rq_max_tool_steps rq = Some k ->
       steps = k /\ (Engine.step_budget steps <= 8)%nat) /\
    (Engine.rq_max_tool_steps rq = None ->
     Engine.step_budget steps = Z.to_nat (Z.max 1 (LLM_MAX_TOOL_STEPS project_config))) /\
    exists events,
      Engine.trace out.2 = Engine.trace st ++ events /\
      (length (Engine.completion_calls events) <= Engine.step_budget steps)%nat /\
      (out.1.1 = None -> Engine.tool_call_pending out.1.2 = true ->
       length (Engine.completion_calls events) = Engine.step_budget steps /\
       exists run,
         result = (Ok run, out.2) /\
         Engine.run_assistant_message run = Some Engine.step_limit_text /\
         Engine.run_generated_records run
           = Engine.generated_records out.1.2 ++
             [mkLLMMessage "assistant" (Some Engine.step_limit_text) None None None
                (Some (Engine.run_actual_provider run))
                (Some (Engine.run_actual_model run)) None
                [("reason", JStr "max_tool_steps_exceeded")]]).
Proof.
  intros. split_and!.
  - intros Hvalid k Hk. subst steps.
    unfold Engine.effective_max_tool_steps, Engine.valid_request in *.
    rewrite Hk in *. unfold Engine.step_budget.
    destruct (Z.leb_spec 1 k); [|done]. destruct (Z.leb_spec k 8); [|done].
    destruct (Z.eqb_spec k 0); lia.
  - intros Hnone. subst steps. unfold Engine.effective_max_tool_steps.
    by rewrite Hnone.
  - subst result. unfold Engine._run_completion_with_tools. fold out.
    destruct out as [[err ls] st'] eqn:Eout. subst out. simpl.
    destruct (Engine.completion_loop_spec svc llm_messages (Engine.rq_temperature rq)
                tools owner_id _ (Engine.initial_loop_state llm_messages provider model)
                _ [] _ _ _ (eq_sym (app_nil_r llm_messages)) Engine.Answered_nil Eout)
      as (events & Ht & _ & Hlen & _ & Hpend).
    exists events. split_and!; [done | done |].
    intros -> Hp. split.
    + apply Hpend; [done | done |]. unfold Engine.step_budget. lia.
    + eexists. split; [reflexivity|]. unfold Engine.finish_run. rewrite Hp. done.
Qed.

(** C5, a run: with [max_tool_steps = 2] and a model that always asks for a
    tool, two completion calls are made and the run returns the step-limit
    text without raising. *)
Example C5_scenario_two_steps_exhausted :
  let out :=
    Engine._run_completion_with_tools Scenario.svc_echo_forever Scenario.hello
      "openai" "gpt-4o-mini" None [] 2 7 Scenario.start in
  (exists run, out.1 = Ok run /\
     Engine.run_assistant_message run = Some Engine.step_limit_text /\
     length (Engine.run_tool_runs run) = 2%nat /\
     map m_extra (drop 4 (Engine.run_generated_records run))
       = [[("reason", JStr "max_tool_steps_exceeded")]]) /\
  length (Engine.completion_calls (Engine.trace out.2)) = 2%nat.
Proof. vm_compute. split; [|done]. eexists. split_and!; reflexivity. Qed.

(* ===================================================================== *)
(** * Provider fallback (C1)                                              *)
(* ===================================================================== *)



(* ===================================================================== *)
(** * C3: a stream that breaks before or after its first chunk            *)
(* ===================================================================== *)

(** C3 as the design document words it, read in its favour (the error is
    one the engine classifies as transient, and the next candidate is
    configured): if the stream of the first candidate breaks before any delta
    was emitted, the loop goes on to the next candidate, which announces
    itself with a [meta] event. *)
Definition C3_as_stated : Prop :=
  forall (W Temperature : Type) (project_config : Config)
         (svc : Engine.Services W Temperature)
         (cid : string) (llm_messages : list ChatMsg)
         (primary_provider primary_model : string)
         (temperature : option Temperature) (warning : option string)
         (c c' : string) (rest : list string)
         (l : Engine.StreamLocals) (st : Engine.State)
         (cfg1 cfg2 : Providers.ProviderConfig) (model1 model2 : string)
         (chunks : list Engine.StreamChunk) (exc : Exc) (w : W),
    Providers.resolve_provider project_config (Some c)
      (Engine.model_for_candidate primary_provider primary_model c) true
      = Ok (cfg1, model1) ->
    Providers.resolve_provider project_config (Some c')
      (Engine.model_for_candidate primary_provider primary_model c') true
      = Ok (cfg2, model2) ->
    Engine.llm_chat_completion_stream svc llm_messages (Providers.pc_provider cfg1)
      model1 temperature (Engine.ext st) = ((chunks, Some exc), w) ->
    Providers._is_fallback_candidate_error exc = true ->
    Engine.delta_texts chunks = [] ->
    exists warning',
      Engine.MetaEvent cid (Providers.pc_provider cfg2) model2 warning'
      ∈ Engine.yields_of
          (drop (length (Engine.trace st))
             (Engine.trace
                (Engine.stream_candidates project_config svc cid llm_messages
                   primary_provider primary_model temperature warning 0
                   (c :: c' :: rest) false None l st).2)).

(** C3, counterexample.  The first stream delivers one chunk that carries
    no text (as the opening chunk of a stream is, which names the role only)
    and then breaks.  No delta was emitted, yet the chunk has raised
    [got_chunk]: the error is raised, the second candidate is never tried and
    no [meta] event names it. *)
Lemma C3_counterexample_empty_chunk_then_failure_is_fatal : ~ C3_as_stated.
Proof.
  intros H.
  edestruct (H nat unit scenario_config
               (Scenario.svc_stream [Scenario.text_chunk ""])
               "conv_0f" Scenario.hello "openai" "gpt-4o-mini" None None
               "openai" "gemini" [] Engine.stream_locals_init Scenario.start)
    as [warning' Hin];
    [vm_compute; reflexivity | vm_compute; reflexivity | vm_compute; reflexivity
    | reflexivity | reflexivity |].
  vm_compute in Hin.
  apply elem_of_cons in Hin as [Hin|Hin]; [discriminate|].
  by apply elem_of_nil in Hin.
Qed.

Section StreamRun.
Context {W Temperature : Type}.
Variable project_config : Config.
Variable svc : Engine.Services W Temperature.
Variable backend : Engine.Backend W Temperature.

Lemma conversation_invariant (c : LLMConversation) :
  Engine.loop_invariant (fun l => Engine.sl_conversation l = Some c).
Proof. by split_and!. Qed.

(** A run of [chat_stream] whose loop over the candidates raises: the
    handler is given the exception and the local variables as the loop left
    them. *)
Lemma chat_stream_loop_raises owner_id rq st turn l0 st1 st2 exc l3 st3 :
  let started := (Engine.call_total (Engine.uuid4_hex svc) st).2 in
  let cid := conversation_id (Engine.tn_conversation turn) in
  let primary_provider := Engine.tn_primary_provider turn in
  let primary_model := Engine.tn_primary_model turn in
  let warning :=
    if Engine.rq_use_tools rq then Some Engine.tools_disabled_warning else None in
  let user :=
    Engine.user_row cid (Engine.tn_user_text turn) primary_provider primary_model
      [("stream", JBool true)] in
  let conversation :=
    Engine.update_conversation (Engine.tn_user_text turn) primary_provider
      primary_model rq (Engine.now_timestamp backend (Engine.ext st1))
      (Engine.tn_conversation turn) in
  Engine.prepare_turn project_config svc backend Engine.sl_set_conversation
    Engine.sl_set_primary owner_id rq Engine.stream_locals_init started
    = ((Ok turn, l0), st1) ->
  Engine.call (Engine.db_commit backend)
    (Engine.log Engine.EvDbCommit (Engine.log (Engine.EvDbAdd cid owner_id user) st1))
    = (Ok tt, st2) ->
  Engine.stream_candidates project_config svc cid (Engine.tn_llm_messages turn)
    primary_provider primary_model (Engine.rq_temperature rq) warning 0
    (Providers._provider_candidates project_config primary_provider) false None
    (Engine.sl_set_conversation conversation l0) st2
    = ((Raise exc, l3), st3) ->
  exists metric,
    Engine.trace (Engine.chat_stream project_config svc backend owner_id rq st).2
      = Engine.trace st3
        ++ (if PyStr.truthy (Engine.streamed_text l3)
            then [Engine.EvDbAdd cid owner_id (Engine.partial_row svc exc l3);
                  Engine.EvDbCommit]
            else [])
        ++ [Engine.EvYield (Engine.ErrorEvent (Some cid) (Engine.exc_str svc exc));
            Engine.EvMetric metric] /\
    Engine.mt_success metric = false.
Proof.
  intros started cid primary_provider primary_model warning user conversation
    Hturn Hcommit Hloop.
  assert (Hconv : Engine.sl_conversation l3 = Some conversation).
  { pose proof (Engine.lkeeps_stream_candidates project_config svc
                  (fun l => Engine.sl_conversation l = Some conversation)
                  cid (Engine.tn_llm_messages turn) primary_provider primary_model
                  (Engine.rq_temperature rq) warning 0
                  (Providers._provider_candidates project_config primary_provider)
                  false None (conversation_invariant conversation)
                  (Engine.sl_set_conversation conversation l0) st2 eq_refl) as [_ H].
    by rewrite Hloop in H. }
  assert (Hbody : Engine.stream_body project_config svc backend owner_id rq
                    Engine.stream_locals_init started = ((Raise exc, l3), st3)).
  { unfold Engine.stream_body.
    unfold Engine.lbind at 1. rewrite Hturn. cbv beta iota zeta.
    unfold Engine.lbind at 1. cbn [Engine.lift Engine.emit].
    unfold Engine.lbind at 1. cbv beta iota zeta.
    unfold Engine.lbind at 1. unfold Engine.lift at 1. unfold Engine.bind at 1.
    cbn [Engine.emit]. fold cid primary_provider primary_model user.
    cbn [Engine.ext Engine.log].
    rewrite Hcommit.
    unfold Engine.lbind at 1. fold warning conversation. rewrite Hloop. done. }
  destruct (Engine.chat_stream_spec project_config svc backend owner_id rq st)
    as (inside & terminal & metric & _ & Ht & _ & _ & Hterm).
  exists metric. revert Ht Hterm. unfold Engine.chat_stream.
  destruct (Engine.call_total (Engine.uuid4_hex svc) st) as [hex started'] eqn:E0.
  subst started. cbn [snd] in Hbody. rewrite Hbody.
  rewrite Engine.safe_record_run. cbn [snd Engine.trace].
  destruct (Engine.stream_except_spec svc backend owner_id rq exc l3 st3)
    as (persist & -> & ->).
  rewrite Hconv.
  change (conversation_id conversation) with cid.
  intros Ht Hterm.
  assert (Hlast : terminal = Engine.ErrorEvent (Some cid) (Engine.exc_str svc exc)
                  /\ True).
  { change (Engine.trace st ++ inside
              ++ [Engine.EvYield terminal; Engine.EvMetric metric])
      with (Engine.trace st ++ inside
              ++ [Engine.EvYield terminal] ++ [Engine.EvMetric metric]) in Ht.
    rewrite !app_assoc in Ht. apply app_inj_tail in Ht as [Ht _].
    apply app_inj_tail in Ht as [_ [= <-]]. done. }
  destruct Hlast as [-> _].
  split.
  - rewrite <- !app_assoc. cbn [app].
    change (Engine.trace st ++ inside
              ++ [Engine.EvYield (Engine.ErrorEvent (Some cid) (Engine.exc_str svc exc));
                  Engine.EvMetric metric])
      with (Engine.trace st ++ inside
              ++ [Engine.EvYield (Engine.ErrorEvent (Some cid) (Engine.exc_str svc exc))]
              ++ [Engine.EvMetric metric]) in Ht.
    rewrite !app_assoc in Ht. apply app_inj_tail in Ht as [_ [= <-]].
    reflexivity.
  - by destruct Hterm as [(? & _)|(_ & ? & _)].
Qed.
End StreamRun.

(** C3, amended.  Take an attempt of the stream loop on a candidate that is
    configured and whose stream breaks with [exc] after delivering [chunks].
    What decides is whether a chunk of type ["chunk"] arrived, not whether a
    delta was emitted:
    - if none arrived, the attempt has emitted nothing but the [meta] event
      that was due; if moreover [exc] is classified as transient the loop goes
      on with the remaining candidates, and a next candidate that is
      configured announces itself first of all with a [meta] event naming the
      switch; if [exc] is not so classified it is raised;
    - if one arrived, [exc] is raised at once and no later candidate is tried,
      and the attempt has emitted one delta for each non-empty text delivered
      and holds these texts as the text accumulated so far.
    The handler of errors writes the accumulated text, stripped, as an
    assistant message tagged [partial: true] exactly when a conversation is
    at hand and the stripped text is not empty, and then emits the [error]
    event.  A run of [chat_stream] whose loop raises hands the handler the
    exception and the local variables as the loop left them; so a run whose
    loop comes to the attempt above, with a chunk delivered, ends with the
    events of the attempt, then the partial message holding the text
    accumulated up to the failure (if it is not blank), then the [error]
    event, and its record tells a failure.  In every run the events emitted
    are [meta] and [delta] events followed by one terminal event, [done] or
    [error]. *)
Theorem C3_stream_failure_before_and_after_first_chunk :
  forall (W Temperature : Type) (project_config : Config)
         (svc : Engine.Services W Temperature)
         (backend : Engine.Backend W Temperature)
         (cid : string) (llm_messages : list ChatMsg)
         (primary_provider primary_model : string)
         (temperature : option Temperature) (warning : option string)
         (idx : nat) (c : string) (rest : list string) (yielded_meta : bool)
         (stream_error : option Exc)
         (l : Engine.StreamLocals) (st : Engine.State)
         (candidate_cfg : Providers.ProviderConfig) (candidate_model : string)
         (chunks : list Engine.StreamChunk) (exc : Exc) (w : W),
    let provider := Providers.pc_provider candidate_cfg in
    let loop :=
      Engine.stream_candidates project_config svc cid llm_messages primary_provider
        primary_model temperature warning in
    let opened :=
      Engine.mkState w
        (Engine.trace
           (Engine.announce cid primary_provider primary_model warning idx
              yielded_meta provider candidate_model st)
         ++ [Engine.EvStream llm_messages provider candidate_model]) in
    let tried := Engine.sl_append_chain provider l in
    let read :=
      Engine.process_chunks cid provider candidate_model idx primary_provider
        chunks false tried opened in
    Providers.resolve_provider project_config (Some c)
      (Engine.model_for_candidate primary_provider primary_model c) true
      = Ok (candidate_cfg, candidate_model) ->
    Engine.llm_chat_completion_stream svc llm_messages provider candidate_model
      temperature (Engine.ext st) = ((chunks, Some exc), w) ->
    (Engine.has_chunk chunks = false ->
       Engine.delta_texts chunks = [] /\
       (Providers._is_fallback_candidate_error exc = true ->
          loop idx (c :: rest) yielded_meta stream_error l st
            = loop (Datatypes.S idx) rest true (Some exc) tried opened /\
          forall c' rest' cfg' model',
            rest = c' :: rest' ->
            Providers.resolve_provider project_config (Some c')
              (Engine.model_for_candidate primary_provider primary_model c') true
              = Ok (cfg', model') ->
            exists more,
              Engine.trace (loop idx (c :: rest) yielded_meta stream_error l st).2
              = Engine.trace opened ++
                Engine.EvYield
                  (Engine.MetaEvent cid (Providers.pc_provider cfg') model'
                     (Some (Engine.switch_warning primary_provider primary_model
                              (Providers.pc_provider cfg') model')))
                :: more) /\
       (Providers._is_fallback_candidate_error exc = false ->
          loop idx (c :: rest) yielded_meta stream_error l st
            = ((Raise exc, tried), opened))) /\
    (Engine.has_chunk chunks = true ->
       loop idx (c :: rest) yielded_meta stream_error l st
         = ((Raise exc, read.1.2), read.2) /\
       Engine.sl_assistant_parts read.1.2
         = Engine.sl_assistant_parts l ++ Engine.delta_texts chunks /\
       Engine.streamed_text read.1.2
         = PyStr.strip
             (String.concat "" (Engine.sl_assistant_parts l ++ Engine.delta_texts chunks)) /\
       Engine.trace read.2
         = Engine.trace opened
           ++ map (fun d => Engine.EvYield (Engine.DeltaEvent cid d))
                (Engine.delta_texts chunks)) /\
    (forall owner_id rq exc' l' st',
       let row := Engine.partial_row svc exc' l' in
       Engine.trace (Engine.stream_except svc backend owner_id rq exc' l' st')
         = Engine.trace st' ++
           match Engine.sl_conversation l' with
           | Some conversation =>
               if PyStr.truthy (Engine.streamed_text l')
               then [Engine.EvDbAdd (conversation_id conversation) owner_id row;
                     Engine.EvDbCommit]
               else []
           | None => []
           end ++
           [Engine.EvYield
              (Engine.ErrorEvent
                 (match Engine.sl_conversation l' with
                  | Some conversation => Some (conversation_id conversation)
                  | None => Engine.rq_conversation_id rq
                  end)
                 (Engine.exc_str svc exc'))] /\
       m_role row = "assistant" /\
       m_content row = Some (Engine.streamed_text l') /\
       ("partial", JBool true) ∈ m_extra row) /\
    (forall owner_id rq st0 turn l0 st1 st2,
       let run_cid := conversation_id (Engine.tn_conversation turn) in
       let run_provider := Engine.tn_primary_provider turn in
       let run_model := Engine.tn_primary_model turn in
       let user :=
         Engine.user_row run_cid (Engine.tn_user_text turn) run_provider run_model
           [("stream", JBool true)] in
       let conversation :=
         Engine.update_conversation (Engine.tn_user_text turn) run_provider
           run_model rq (Engine.now_timestamp backend (Engine.ext st1))
           (Engine.tn_conversation turn) in
       let run_loop :=
         Engine.stream_candidates project_config svc run_cid
           (Engine.tn_llm_messages turn) run_provider run_model
           (Engine.rq_temperature rq)
           (if Engine.rq_use_tools rq then Some Engine.tools_disabled_warning else None)
           0 (Providers._provider_candidates project_config run_provider) false None
           (Engine.sl_set_conversation conversation l0) st2 in
       let run := Engine.chat_stream project_config svc backend owner_id rq st0 in
       let handled (exc' : Exc) (l' : Engine.StreamLocals) (st' : Engine.State) :=
         exists metric,
           Engine.trace run.2
             = Engine.trace st'
               ++ (if PyStr.truthy (Engine.streamed_text l')
                   then [Engine.EvDbAdd run_cid owner_id (Engine.partial_row svc exc' l');
                         Engine.EvDbCommit]
                   else [])
               ++ [Engine.EvYield
                     (Engine.ErrorEvent (Some run_cid) (Engine.exc_str svc exc'));
                   Engine.EvMetric metric] /\
           Engine.mt_success metric = false in
       Engine.prepare_turn project_config svc backend Engine.sl_set_conversation
         Engine.sl_set_primary owner_id rq Engine.stream_locals_init
         (Engine.call_total (Engine.uuid4_hex svc) st0).2
         = ((Ok turn, l0), st1) ->
       Engine.call (Engine.db_commit backend)
         (Engine.log Engine.EvDbCommit
            (Engine.log (Engine.EvDbAdd run_cid owner_id user) st1))
         = (Ok tt, st2) ->
       (forall exc' l' st', run_loop = ((Raise exc', l'), st') -> handled exc' l' st') /\
       (run_loop = loop idx (c :: rest) yielded_meta stream_error l st ->
        Engine.has_chunk chunks = true ->
        handled exc read.1.2 read.2)) /\
    (forall owner_id rq st',
       exists progress terminal,
         Engine.yields_of
           (drop (length (Engine.trace st'))
              (Engine.trace
                 (Engine.chat_stream project_config svc backend owner_id rq st').2))
           = progress ++ [terminal] /\
         Forall Engine.is_progress progress /\
         (Engine.is_done terminal || Engine.is_error terminal = true)).
Proof.
  intros W Temperature project_config svc backend cid llm_messages primary_provider
    primary_model temperature warning idx c rest yielded_meta stream_error l st
    candidate_cfg candidate_model chunks exc w provider loop opened tried read
    Hres Hstream.
  pose proof (Engine.stream_candidates_attempt project_config svc cid llm_messages
                primary_provider primary_model temperature warning idx c rest
                yielded_meta stream_error l st candidate_cfg candidate_model
                chunks exc w Hres Hstream) as Hattempt.
  cbv zeta in Hattempt. fold provider opened tried read loop in Hattempt.
  split_and!.
  - intros Hnone.
    assert (Hread : read = ((false, tried), opened))
      by (by apply Engine.process_chunks_none).
    rewrite Hnone, Hread in Hattempt. simpl in Hattempt.
    split_and!.
    + by apply Engine.delta_texts_none.
    + intros Hfb. rewrite Hfb in Hattempt. simpl in Hattempt.
      split; [exact Hattempt|].
      intros c' rest' cfg' model' -> Hres'. rewrite Hattempt.
      apply (Engine.stream_candidates_fresh_meta project_config svc cid llm_messages
               primary_provider primary_model temperature warning idx c' rest'
               true (Some exc) tried opened cfg' model' Hres').
    + intros Hfb. rewrite Hfb in Hattempt. exact Hattempt.
  - intros Hsome. rewrite Hsome in Hattempt.
    pose proof (Engine.process_chunks_deltas cid provider candidate_model idx
                  primary_provider chunks false tried opened) as (Hp & Ht & _).
    fold read in Hp, Ht. split_and!; [exact Hattempt | exact Hp | | exact Ht].
    unfold Engine.streamed_text. by rewrite Hp.
  - intros owner_id rq exc' l' st' row.
    destruct (Engine.stream_except_spec svc backend owner_id rq exc' l' st')
      as (inside & Ht & ->).
    split_and!; [exact Ht | reflexivity | reflexivity |].
    subst row. unfold Engine.partial_row, Engine.assistant_row. simpl.
    apply list_elem_of_In. simpl. tauto.
  - intros owner_id rq st0 turn l0 st1 st2 run_cid run_provider run_model user
      conversation run_loop run handled Hturn Hcommit.
    assert (Hany : forall exc' l' st',
              run_loop = ((Raise exc', l'), st') -> handled exc' l' st').
    { intros exc' l' st' Hloop.
      exact (chat_stream_loop_raises project_config svc backend owner_id rq st0
               turn l0 st1 st2 exc' l' st' Hturn Hcommit Hloop). }
    split; [exact Hany|]. intros Hreach Hsome. apply Hany.
    rewrite Hreach. rewrite Hsome in Hattempt. exact Hattempt.
  - intros owner_id rq st'.
    destruct (Engine.chat_stream_spec project_config svc backend owner_id rq st')
      as (inside & terminal & metric & _ & Ht & Hq & _ & Hterm).
    exists (Engine.yields_of inside), terminal.
    rewrite Ht, drop_app_length, Engine.yields_of_app.
    split_and!; [done | by apply Engine.quiet_events_yields |].
    destruct Hterm as [(-> & _)|(-> & _)]; [done | by rewrite orb_true_r].
Qed.

(** The local variables and the state with which the run of the scenario
    enters the loop over the candidates. *)
Definition scenario_stream_entry : Engine.StreamLocals * Engine.State (W := nat) :=
  Eval vm_compute in
  let svc := Scenario.svc_stream [Scenario.text_chunk "Hel"] in
  let backend := Scenario.backend_empty false in
  match Engine.prepare_turn scenario_config svc backend Engine.sl_set_conversation
          Engine.sl_set_primary 7 Scenario.stream_request Engine.stream_locals_init
          (Engine.call_total (Engine.uuid4_hex svc) Scenario.start).2 with
  | ((Ok turn, l0), st1) =>
      let cid := conversation_id (Engine.tn_conversation turn) in
      let user :=
        Engine.user_row cid (Engine.tn_user_text turn)
          (Engine.tn_primary_provider turn) (Engine.tn_primary_model turn)
          [("stream", JBool true)] in
      (Engine.sl_set_conversation
         (Engine.update_conversation (Engine.tn_user_text turn)
            (Engine.tn_primary_provider turn) (Engine.tn_primary_model turn)
            Scenario.stream_request
            (Engine.now_timestamp backend (Engine.ext st1))
            (Engine.tn_conversation turn)) l0,
       (Engine.call (Engine.db_commit backend)
          (Engine.log Engine.EvDbCommit
             (Engine.log (Engine.EvDbAdd cid 7 user) st1))).2)
  | _ => (Engine.stream_locals_init, Scenario.start)
  end.
(** C3, witness: the scenario of the design document.  The stream of the
    first candidate delivers one text and breaks.  At the loop, the error is
    raised, the second candidate is not tried, and the text is held; the run
    emits [meta], [delta], [error] and writes the text as a partial assistant
    message. *)
Lemma C3_witness_stream_breaks_after_one_delta :
  let run :=
    Engine.chat_stream scenario_config
      (Scenario.svc_stream [Scenario.text_chunk "Hel"])
      (Scenario.backend_empty false) 7 Scenario.stream_request Scenario.start in
  (exists l' st',
     Engine.stream_candidates scenario_config
       (Scenario.svc_stream [Scenario.text_chunk "Hel"]) "conv_0f" Scenario.hello
       "openai" "gpt-4o-mini" None None 0 ["openai"; "gemini"] false None
       scenario_stream_entry.1 scenario_stream_entry.2
     = ((Raise Scenario.connection_lost, l'), st') /\
     Engine.sl_assistant_parts l' = ["Hel"] /\
     Engine.sl_fallback_chain l' = ["openai"] /\
     Engine.yields_of (Engine.trace st')
       = [Engine.MetaEvent "conv_0f" "openai" "gpt-4o-mini" None;
          Engine.DeltaEvent "conv_0f" "Hel"]) /\
  Engine.yields_of (Engine.trace run.2)
    = [Engine.MetaEvent "conv_0f" "openai" "gpt-4o-mini" None;
       Engine.DeltaEvent "conv_0f" "Hel";
       Engine.ErrorEvent (Some "conv_0f") "connection lost"] /\
  exists row,
    Engine.EvDbAdd "conv_0f" 7 row ∈ Engine.trace run.2 /\
    m_role row = "assistant" /\ m_content row = Some "Hel" /\
    ("partial", JBool true) ∈ m_extra row.
Proof.
  pose proof (C3_stream_failure_before_and_after_first_chunk nat unit
                scenario_config (Scenario.svc_stream [Scenario.text_chunk "Hel"])
                (Scenario.backend_empty false) "conv_0f" Scenario.hello
                "openai" "gpt-4o-mini" None None 0%nat "openai" ["gemini"] false None
                scenario_stream_entry.1 scenario_stream_entry.2
                (Providers.mkProviderConfig "openai" "sk-openai"
                   "https://api.openai.com/v1" "gpt-4o-mini")
                "gpt-4o-mini" [Scenario.text_chunk "Hel"] Scenario.connection_lost
                1%nat) as H.
  cbv zeta in H.
  destruct H as (_ & Hfatal & _ & Hrun & _);
    [vm_compute; reflexivity | vm_compute; reflexivity |].
  cbv zeta. split.
  - destruct Hfatal as (Hloop & _); [vm_compute; reflexivity|].
    eexists _, _. split; [exact Hloop|].
    split_and!; vm_compute; reflexivity.
  - edestruct (Hrun 7 Scenario.stream_request Scenario.start) as [_ Hthis];
      [vm_compute; reflexivity | vm_compute; reflexivity |].
    destruct Hthis as (metric & Htrace & _);
      [vm_compute; reflexivity | vm_compute; reflexivity |].
    rewrite Htrace. split; [vm_compute; reflexivity|].
    eexists. split.
    + apply list_elem_of_In. vm_compute. do 6 right. left. reflexivity.
    + split_and!; [reflexivity | reflexivity |].
      apply list_elem_of_In. vm_compute. tauto.
Defined.

(** The same scenario, the whole run: the events are [meta], [delta],
    [error], and the text of the one delta is written as a partial assistant
    message. *)
Example C3_scenario_meta_delta_error :
  let run :=
    Engine.chat_stream scenario_config
      (Scenario.svc_stream [Scenario.text_chunk "Hel"])
      (Scenario.backend_empty false) 7 Scenario.stream_request Scenario.start in
  run.1 = Ok tt /\
  Engine.yields_of (Engine.trace run.2)
    = [Engine.MetaEvent "conv_0f" "openai" "gpt-4o-mini" None;
       Engine.DeltaEvent "conv_0f" "Hel";
       Engine.ErrorEvent (Some "conv_0f") "connection lost"] /\
  exists row,
    Engine.EvDbAdd "conv_0f" 7 row ∈ Engine.trace run.2 /\
    m_role row = "assistant" /\ m_content row = Some "Hel" /\
    m_extra row = [("stream", JBool true); ("partial", JBool true);
                   ("error", JStr "connection lost")].
Proof.
  cbv zeta. split_and!; [vm_compute; reflexivity | vm_compute; reflexivity |].
  eexists. split.
  - apply list_elem_of_In. vm_compute. do 6 right. left. reflexivity.
  - split_and!; reflexivity.
Qed.

(** A stream that breaks before any chunk: the loop goes on to the second
    candidate, which announces the switch, and the run ends with [done]. *)
Example C3_scenario_silent_switch :
  let run :=
    Engine.chat_stream scenario_config (Scenario.svc_stream [])
      (Scenario.backend_empty false) 7 Scenario.stream_request Scenario.start in
  Engine.yields_of (Engine.trace run.2)
    = [Engine.MetaEvent "conv_0f" "openai" "gpt-4o-mini" None;
       Engine.MetaEvent "conv_0f" "gemini" "gemini-pro"
         (Some (Engine.switch_warning "openai" "gpt-4o-mini" "gemini" "gemini-pro"));
       Engine.DeltaEvent "conv_0f" "Hi";
       Engine.DoneEvent "conv_0f" "gemini" "gemini-pro" "Hi" ∅ None
         (Some ("openai", "gemini", ["openai"; "gemini"]))].
Proof. vm_compute. reflexivity. Qed.

(** The rows a run has added to a conversation. *)
Definition rows_added (events : list Engine.Event) : list LLMMessage :=
  flat_map (fun e => match e with Engine.EvDbAdd _ _ row => [row] | _ => [] end)
    events.

(** A stream that breaks after a delta of blanks only: the failure is
    fatal, and nothing is written besides the message of the user, since the
    text accumulated is empty once stripped. *)
Example C3_scenario_blank_delta_not_persisted :
  let run :=
    Engine.chat_stream scenario_config
      (Scenario.svc_stream [Scenario.text_chunk " "])
      (Scenario.backend_empty false) 7 Scenario.stream_request Scenario.start in
  Engine.yields_of (Engine.trace run.2)
    = [Engine.MetaEvent "conv_0f" "openai" "gpt-4o-mini" None;
       Engine.DeltaEvent "conv_0f" " ";
       Engine.ErrorEvent (Some "conv_0f") "connection lost"] /\
  map m_role (rows_added (Engine.trace run.2)) = ["user"].
Proof. cbv zeta. split; vm_compute; reflexivity. Qed.

(* ===================================================================== *)
(** * C6: one observability record per run                                *)
(* ===================================================================== *)

Section Writer.
Context {W Temperature : Type}.
Variable project_config : Config.
Variable svc : Engine.Services W Temperature.

Lemma with_metric_record_same (backend : Engine.Backend W Temperature) :
  Engine.with_metric_record (Engine.metric_record backend) backend = backend.
Proof. by destruct backend. Qed.

Variable backend : Engine.Backend W Temperature.

(** The writer of metrics is used by nothing but the last step of a run:
    with another writer in its place the run returns the same, and ends in
    the world that writer leaves when applied, once, to one record and one
    world that do not depend on it. *)
Lemma chat_with_writer owner_id rq st :
  exists before metric,
    forall writer,
      Engine.chat project_config svc (Engine.with_metric_record writer backend)
        owner_id rq st
      = ((Engine.chat_body project_config svc backend owner_id rq
            Engine.chat_locals_init
            (Engine.call_total (Engine.uuid4_hex svc) st).2).1.1,
         Engine.mkState (writer metric (Engine.ext before)).2
           (Engine.trace before ++ [Engine.EvMetric metric])).
Proof.
  destruct (Engine.call_total (Engine.uuid4_hex svc) st) as [hex st0] eqn:E0.
  destruct (Engine.chat_body project_config svc backend owner_id rq
              Engine.chat_locals_init st0) as [[r l] st1] eqn:E1.
  eexists st1, _. intros writer. unfold Engine.chat. rewrite E0.
  change (Engine.chat_body project_config svc
            (Engine.with_metric_record writer backend))
    with (Engine.chat_body project_config svc backend).
  cbn [snd]. rewrite E1. rewrite Engine.safe_record_run.
  cbn [Engine.metric_record Engine.perf_counter_ms Engine.with_metric_record fst].
  reflexivity.
Qed.

Lemma chat_stream_with_writer owner_id rq st :
  exists before metric,
    forall writer,
      Engine.chat_stream project_config svc (Engine.with_metric_record writer backend)
        owner_id rq st
      = (Ok tt,
         Engine.mkState (writer metric (Engine.ext before)).2
           (Engine.trace before ++ [Engine.EvMetric metric])).
Proof.
  destruct (Engine.call_total (Engine.uuid4_hex svc) st) as [hex st0] eqn:E0.
  destruct (Engine.stream_body project_config svc backend owner_id rq
              Engine.stream_locals_init st0) as [[r l] st1] eqn:E1.
  eexists (match r with
           | Raise exc => Engine.stream_except svc backend owner_id rq exc l st1
           | Ok _ => st1
           end), _.
  intros writer. unfold Engine.chat_stream. rewrite E0.
  change (Engine.stream_body project_config svc
            (Engine.with_metric_record writer backend))
    with (Engine.stream_body project_config svc backend).
  rewrite E1. rewrite Engine.safe_record_run.
  change (Engine.stream_except svc (Engine.with_metric_record writer backend))
    with (Engine.stream_except svc backend).
  cbn [Engine.metric_record Engine.perf_counter_ms Engine.with_metric_record].
  reflexivity.
Qed.

End Writer.

(** C6. [safe_record] applies the writer once, to the record it is given
    and the world as it stands, keeps the world the writer leaves, and
    returns normally whatever the writer returns or raises.  A run of [chat]
    and a run of [chat_stream] read to its end each call it exactly once, as
    their last step, whether the run succeeded or failed, and use the writer
    nowhere else: with any writer in the place of the backend's, the run
    returns the same and ends in the world that writer leaves when applied
    to the one record of the run.  The record of [chat] tells a success
    exactly when [chat] returns, and what [chat] returns or raises is what
    its body returned or raised; [chat_stream] always ends normally, and its
    record tells a success exactly when the last event emitted is [done]. *)
Theorem C6_one_observability_record_per_run :
  forall (W Temperature : Type) (project_config : Config)
         (svc : Engine.Services W Temperature)
         (backend : Engine.Backend W Temperature)
         (owner_id : Z) (rq : Engine.LLMChatReq Temperature) (st : Engine.State),
    (forall metric st0,
       Engine.safe_record backend metric st0
       = (Ok tt,
          Engine.mkState (Engine.metric_record backend metric (Engine.ext st0)).2
            (Engine.trace st0 ++ [Engine.EvMetric metric]))) /\
    (let run := Engine.chat project_config svc backend owner_id rq st in
     exists events metric world,
       Engine.trace run.2 = Engine.trace st ++ events ++ [Engine.EvMetric metric] /\
       Engine.metrics_of events = [] /\
       Engine.metrics_of (drop (length (Engine.trace st)) (Engine.trace run.2))
         = [metric] /\
       Engine.mt_is_stream metric = false /\
       Engine.mt_success metric = is_ok run.1 /\
       run.1 = (Engine.chat_body project_config svc backend owner_id rq
                  Engine.chat_locals_init
                  (Engine.call_total (Engine.uuid4_hex svc) st).2).1.1 /\
       Engine.ext run.2 = (Engine.metric_record backend metric world).2 /\
       forall writer,
         Engine.chat project_config svc (Engine.with_metric_record writer backend)
           owner_id rq st
         = (run.1,
            Engine.mkState (writer metric world).2
              (Engine.trace st ++ events ++ [Engine.EvMetric metric]))) /\
    (let run := Engine.chat_stream project_config svc backend owner_id rq st in
     exists events terminal metric world,
       run.1 = Ok tt /\
       Engine.trace run.2
         = Engine.trace st ++ events
           ++ [Engine.EvYield terminal; Engine.EvMetric metric] /\
       Engine.metrics_of events = [] /\
       Engine.metrics_of (drop (length (Engine.trace st)) (Engine.trace run.2))
         = [metric] /\
       Engine.mt_is_stream metric = true /\
       Engine.mt_success metric = Engine.is_done terminal /\
       Engine.ext run.2 = (Engine.metric_record backend metric world).2 /\
       forall writer,
         Engine.chat_stream project_config svc
           (Engine.with_metric_record writer backend) owner_id rq st
         = (Ok tt,
            Engine.mkState (writer metric world).2
              (Engine.trace st ++ events
                 ++ [Engine.EvYield terminal; Engine.EvMetric metric]))).
Proof.
  intros W Temperature project_config svc backend owner_id rq st. split_and!.
  - intros metric st0. apply Engine.safe_record_run.
  - cbv zeta.
    destruct (Engine.chat_spec project_config svc backend owner_id rq st)
      as (events & metric & Ht & Hq & Hs & Hok & _).
    destruct (chat_with_writer project_config svc backend owner_id rq st)
      as (before & metric' & Hw).
    pose proof (Hw (Engine.metric_record backend)) as Hrun.
    rewrite with_metric_record_same in Hrun.
    rewrite Hrun in Ht. cbn [snd Engine.trace] in Ht.
    rewrite app_assoc in Ht. apply app_inj_tail in Ht as [Hbefore [= ->]].
    exists events, metric, (Engine.ext before).
    pose proof (Engine.quiet_events_metrics events Hq) as Hm.
    rewrite Hrun in Hok |- *. cbn [fst snd Engine.trace Engine.ext] in Hok |- *.
    rewrite Hbefore, <- app_assoc, drop_app_length, Engine.metrics_of_app, Hm.
    split_and!; [done..|]. intros writer. by rewrite Hw, Hbefore, <- app_assoc.
  - cbv zeta.
    destruct (Engine.chat_stream_spec project_config svc backend owner_id rq st)
      as (events & terminal & metric & Hr & Ht & Hq & Hs & Hterm).
    destruct (chat_stream_with_writer project_config svc backend owner_id rq st)
      as (before & metric' & Hw).
    pose proof (Hw (Engine.metric_record backend)) as Hrun.
    rewrite with_metric_record_same in Hrun.
    rewrite Hrun in Ht. cbn [snd Engine.trace] in Ht.
    change (Engine.trace st ++ events
              ++ [Engine.EvYield terminal; Engine.EvMetric metric])
      with (Engine.trace st ++ events
              ++ [Engine.EvYield terminal] ++ [Engine.EvMetric metric]) in Ht.
    rewrite !app_assoc in Ht. apply app_inj_tail in Ht as [Hbefore [= ->]].
    exists events, terminal, metric, (Engine.ext before).
    pose proof (Engine.quiet_events_metrics events Hq) as Hm.
    assert (Htrace : Engine.trace before ++ [Engine.EvMetric metric]
                     = Engine.trace st ++ events
                       ++ [Engine.EvYield terminal; Engine.EvMetric metric]).
    { rewrite Hbefore, <- !app_assoc. done. }
    rewrite Hrun. cbn [fst snd Engine.trace Engine.ext].
    rewrite Htrace, drop_app_length, Engine.metrics_of_app, Hm.
    split_and!; [done | done | done | done | done | | done |].
    + destruct Hterm as [(Hd & -> & _)|(He & -> & _)]; [done|].
      by destruct terminal.
    + intros writer. by rewrite Hw, Htrace.
Qed.

(** A metrics writer that raises on every write: the streaming run ends
    normally all the same, the single-shot run returns its answer, and each
    has handed one record to the writer. *)
Example C6_scenario_record_failure_swallowed :
  let stream :=
    Engine.chat_stream scenario_config
      (Scenario.svc_stream [Scenario.text_chunk "Hel"])
      (Scenario.backend_empty true) 7 Scenario.stream_request Scenario.start in
  let single :=
    Engine.chat scenario_config (Scenario.svc_stream [])
      (Scenario.backend_empty true) 7 Scenario.stream_request Scenario.start in
  Engine.metric_record (Scenario.backend_empty true)
    = (fun _ w => (Raise (OtherException "OperationalError" "database is locked"), w)) /\
  stream.1 = Ok tt /\
  length (Engine.metrics_of (Engine.trace stream.2)) = 1%nat /\
  is_ok single.1 = true /\
  length (Engine.metrics_of (Engine.trace single.2)) = 1%nat.
Proof. cbv zeta. split_and!; vm_compute; reflexivity. Qed.

(* ===================================================================== *)
(** * Retrieval ([rag_service.py])                                        *)
(* ===================================================================== *)

Module Rag.
Import PyStr.

(** The arithmetic of Python's [float] that retrieval uses.  The code runs
    on binary64 numbers ([float_arith] below), for which the properties of
    the ranking are stated; the real numbers ([real_arith]) give the value of
    the similarity in exact arithmetic. *)
Record Arith (F : Type) := mkArith {
  f_zero : F;                    (* [0], [0.0] *)
  f_add : F -> F -> F;           (* [x + y] *)
  f_mul : F -> F -> F;           (* [x * y] *)
  f_div : F -> F -> F;           (* [x / y] *)
  f_sqrt : F -> F;               (* [math.sqrt(x)] *)
  f_is_zero : F -> bool;         (* [x == 0] *)
  f_non_positive : F -> bool;    (* [x <= 0] *)
  f_lt : F -> F -> bool;         (* [x < y], the comparison [list.sort] makes *)
}.
Arguments mkArith {F}.
Arguments f_zero {F}.
Arguments f_add {F}.
Arguments f_mul {F}.
Arguments f_div {F}.
Arguments f_sqrt {F}.
Arguments f_is_zero {F}.
Arguments f_non_positive {F}.
Arguments f_lt {F}.

(** A row of [RAGChunk], as far as retrieval reads it. *)
Record RAGChunk {F : Type} := mkRAGChunk {
  ck_doc_id : string;
  ck_chunk_index : Z;
  ck_content : string;
  ck_embedding : option (list F);
  ck_meta_info : option (list (string * Json));
}.
Arguments RAGChunk : clear implicits.
Arguments mkRAGChunk {F}.

(** A row of [RAGDocument], as far as retrieval reads it. *)
Record RAGDocument := mkRAGDocument {
  dc_doc_id : string;
  dc_title : string;
}.

(** The record store as retrieval queries it: the chunks of an owner that
    are not deleted, 5000 at most, in the order the store hands them out, and
    the documents of an owner among given ids. *)
Record Store {F : Type} := mkStore {
  rag_chunks : Z -> list (RAGChunk F);
  rag_documents : Z -> list string -> list RAGDocument;
}.
Arguments Store : clear implicits.
Arguments mkStore {F}.

(** An entry of the list [retrieve_context] returns. *)
Record Passage {F : Type} := mkPassage {
  ps_doc_id : string;
  ps_title : option string;
  ps_chunk_index : Z;
  ps_content : string;
  ps_score : F;
  ps_metadata : list (string * Json);
}.
Arguments Passage : clear implicits.
Arguments mkPassage {F}.

Section Retrieval.
Context {F : Type} (A : Arith F).

(** [round(score, 6)] *)
Variable round6 : F -> F.

(** [self.llm_client.embedding(text=..., provider=..., model=...)] *)
Variable embedding : string -> string -> string -> Result (list F).

(** [project_config.EMBEDDING_PROVIDER], [project_config.EMBEDDING_MODEL] *)
Variables EMBEDDING_PROVIDER EMBEDDING_MODEL : string.

(** [sum(...)]: from [0], left to right. *)
Definition sum (xs : list F) : F := fold_left (f_add A) xs (f_zero A).

(** [RAGService._cosine_similarity] *)
Definition _cosine_similarity (vec1 vec2 : list F) : F :=
  match vec1, vec2 with
  | [], _ | _, [] => f_zero A
  | _, _ =>
      let size := Nat.min (length vec1) (length vec2) in
      if (size <=? 0)%nat then f_zero A
      else
        let a := take size vec1 in
        let b := take size vec2 in
        let dot := sum (zip_with (f_mul A) a b) in
        let norm_a := f_sqrt A (sum (map (fun x => f_mul A x x) a)) in
        let norm_b := f_sqrt A (sum (map (fun y => f_mul A y y) b)) in
        if f_is_zero A norm_a || f_is_zero A norm_b then f_zero A
        else f_div A dot (f_mul A norm_a norm_b)
  end.

(** The loop that fills [scored]. *)
Fixpoint score_chunks (query_embedding : list F) (chunks : list (RAGChunk F))
    : list (F * RAGChunk F) :=
  match chunks with
  | [] => []
  | chunk :: rest =>
      let score :=
        _cosine_similarity query_embedding (default [] (ck_embedding chunk)) in
      if f_non_positive A score then score_chunks query_embedding rest
      else (score, chunk) :: score_chunks query_embedding rest
  end.

(** [list.sort(key=lambda x: x[0])]: a stable sort into ascending order of
    the keys, which compares keys by [<] only.  (On keys that [<] orders
    consistently every stable sort gives this list; [nan] keys are not so
    ordered.) *)
Fixpoint insert_by_key {B} (x : F * B) (sorted : list (F * B)) : list (F * B) :=
  match sorted with
  | [] => [x]
  | y :: rest =>
      if f_lt A y.1 x.1 then y :: insert_by_key x rest else x :: y :: rest
  end.

Definition sort_by_key {B} (items : list (F * B)) : list (F * B) :=
  foldr insert_by_key [] items.

(** [list.sort(key=lambda x: x[0], reverse=True)]: the list is reversed,
    sorted, and reversed again, so that items of equal key keep their
    order. *)
Definition sort_by_key_reverse {B} (items : list (F * B)) : list (F * B) :=
  rev (sort_by_key (rev items)).

(** [max(1, min(top_k, 20))] *)
Definition clamp_top_k (top_k : Z) : Z := Z.max 1 (Z.min top_k 20).

(** [selected]: the chunks scored, sorted and cut. *)
Definition select_chunks (query_embedding : list F) (chunks : list (RAGChunk F))
    (top_k : Z) : list (F * RAGChunk F) :=
  let scored := score_chunks query_embedding chunks in
  let scored := sort_by_key_reverse scored in
  take (Z.to_nat (clamp_top_k top_k)) scored.

(** [doc_map = {doc.doc_id: doc.title for doc in docs}] *)
Definition doc_map_of (docs : list RAGDocument) : gmap string string :=
  foldl (fun m doc => <[dc_doc_id doc := dc_title doc]> m) ∅ docs.

(** [RAGService.retrieve_context] *)
Definition retrieve_context (query : string) (db : option (Store F))
    (owner_id : option Z) (top_k : Z)
    (embedding_provider embedding_model : option string)
    : Result (list (Passage F)) :=
  if negb (truthy (strip query)) then Ok []
  else
    match db, owner_id with
    | Some db, Some owner_id =>
        match embedding (strip query)
                (or_else embedding_provider EMBEDDING_PROVIDER)
                (or_else embedding_model EMBEDDING_MODEL) with
        | Raise exc => Raise exc
        | Ok query_embedding =>
            match rag_chunks db owner_id with
            | [] => Ok []
            | chunks =>
                let selected := select_chunks query_embedding chunks top_k in
                let doc_ids := map (fun item => ck_doc_id item.2) selected in
                let doc_map :=
                  match doc_ids with
                  | [] => ∅
                  | _ => doc_map_of (rag_documents db owner_id doc_ids)
                  end in
                Ok (map (fun item =>
                           let chunk := item.2 in
                           mkPassage (ck_doc_id chunk)
                             (doc_map !! ck_doc_id chunk)
                             (ck_chunk_index chunk) (ck_content chunk)
                             (round6 item.1)
                             (default [] (ck_meta_info chunk)))
                        selected)
            end
        end
    | _, _ => Ok []
    end.

End Retrieval.

(** ** The two arithmetics *)

(** Binary64 numbers, on which the code runs. *)
Definition float_arith : Arith PrimFloat.float :=
  mkArith PrimFloat.zero PrimFloat.add PrimFloat.mul PrimFloat.div PrimFloat.sqrt
    (fun x => PrimFloat.eqb x PrimFloat.zero)
    (fun x => PrimFloat.leb x PrimFloat.zero)
    PrimFloat.ltb.

Import Stdlib.Reals.Reals Stdlib.micromega.Lra.
Local Open Scope list_scope.

(** The real numbers. *)
Definition real_arith : Arith R :=
  mkArith 0%R Rplus Rmult Rdiv sqrt
    (fun x => if Req_dec_T x 0 then true else false)
    (fun x => if Rle_dec x 0 then true else false)
    (fun x y => if Rlt_dec x y then true else false).

(** ** The similarity in exact arithmetic *)

Section Real.

Abbreviation cosine := (_cosine_similarity real_arith).

Ltac real_ops := cbn [f_zero f_add f_mul f_div f_sqrt real_arith] in *.

Lemma fold_left_Rplus (xs : list R) (a : R) :
  fold_left Rplus xs a = (a + fold_left Rplus xs 0)%R.
Proof.
  revert a. induction xs as [|x xs IH]; intros a; simpl; [lra|].
  rewrite (IH (a + x)%R), (IH (0 + x)%R). lra.
Qed.

Lemma sum_cons (x : R) (xs : list R) :
  sum real_arith (x :: xs) = (x + sum real_arith xs)%R.
Proof.
  unfold sum. simpl. rewrite fold_left_Rplus. lra.
Qed.

Lemma sum_squares_nonneg (v : list R) :
  (0 <= sum real_arith (map (fun x => x * x)%R v))%R.
Proof.
  induction v as [|x v IH]; [unfold sum; simpl; lra|].
  simpl map. rewrite sum_cons.
  simpl in *. pose proof (Rle_0_sqr x) as Hx. unfold Rsqr in Hx. lra.
Qed.

Lemma sum_squares_pos (v : list R) :
  Exists (fun x => x <> 0%R) v ->
  (0 < sum real_arith (map (fun x => x * x)%R v))%R.
Proof.
  induction 1 as [x v Hx|x v _ IH]; simpl map; rewrite sum_cons;
    pose proof (sum_squares_nonneg v); simpl in *.
  - pose proof (Rsqr_pos_lt x Hx) as Hsq. unfold Rsqr in Hsq. lra.
  - pose proof (Rle_0_sqr x) as Hsq. unfold Rsqr in Hsq. lra.
Qed.

Lemma zip_with_self (v : list R) :
  zip_with Rmult v v = map (fun x => x * x)%R v.
Proof. induction v as [|x v IH]; simpl; [done | by rewrite IH]. Qed.

Lemma is_zero_real (x : R) : f_is_zero real_arith x = true <-> x = 0%R.
Proof. simpl. destruct (Req_dec_T x 0); split; done. Qed.

(** A vector with a component that is not zero is at similarity 1 from
    itself. *)
Lemma cosine_self (v : list R) :
  Exists (fun x => x <> 0%R) v -> cosine v v = 1%R.
Proof.
  intros Hv. pose proof (sum_squares_pos v Hv) as Hpos.
  destruct v as [|x xs]; [by apply Exists_nil in Hv|].
  unfold _cosine_similarity. rewrite Nat.min_id.
  change (length (x :: xs) <=? 0)%nat with false. cbv iota.
  rewrite firstn_all. cbv zeta. real_ops. rewrite zip_with_self.
  set (s := sum real_arith (map (fun x0 => x0 * x0)%R (x :: xs))) in *.
  clearbody s.
  assert (Hroot : (0 < sqrt s)%R) by (by apply sqrt_lt_R0).
  destruct (f_is_zero real_arith (sqrt s)) eqn:Hz.
  { apply is_zero_real in Hz. lra. }
  simpl. rewrite sqrt_sqrt by lra. field. lra.
Qed.

Lemma StronglySorted_lookup {B} (R0 : relation B) (l : list B) i j x y :
  StronglySorted R0 l -> (i < j)%nat -> l !! i = Some x -> l !! j = Some y -> R0 x y.
Proof.
  intros Hl. revert i j. induction Hl as [|z l Hl IH Hall]; intros i j Hij Hi Hj.
  - done.
  - destruct j as [|j]; [lia|]. destruct i as [|i]; simpl in *.
    + injection Hi as ->. rewrite Forall_forall in Hall.
      apply Hall. by eapply list_elem_of_lookup_2.
    + apply (IH i j); [lia | done | done].
Qed.

End Real.

End Rag.

(* ===================================================================== *)
(** * Token accounting ([observability_service.py], [quota_service.py])   *)
(* ===================================================================== *)

Module Observability.
Import PyStr.

Section Tokens.
(** [int(float(text))] on a text that is not blank: [None] where the
    conversion raises.  Numbers are kept as integers, as in [UsageVal]. *)
Variable int_of_text : string -> option Z.

(** [LLMObservabilityService._to_int].  A value that is not a number is
    kept as the text [str(value)]. *)
Definition _to_int (value : UsageVal) : Z :=
  match value with
  | UNum n => n
  | UOther repr =>
      let text := strip repr in
      if negb (truthy text) then 0 else default 0 (int_of_text text)
  end.

(** [LLMObservabilityService.extract_token_usage] *)
Definition extract_token_usage (usage : Usage) : Z * Z * Z :=
  let prompt_tokens :=
    _to_int (default (default (UNum 0) (usage !! "input_tokens"))
               (usage !! "prompt_tokens")) in
  let completion_tokens :=
    _to_int (default (default (UNum 0) (usage !! "output_tokens"))
               (usage !! "completion_tokens")) in
  let total_tokens := _to_int (default (UNum 0) (usage !! "total_tokens")) in
  let total_tokens :=
    if total_tokens <=? 0 then Z.max 0 (prompt_tokens + completion_tokens)
    else total_tokens in
  (prompt_tokens, completion_tokens, total_tokens).

(** The row [LLMObservabilityService.record] adds. *)
Record LLMRequestMetric := mkLLMRequestMetric {
  rm_request_id : string;
  rm_conversation_id : option string;
  rm_owner_id : Z;
  rm_provider : string;
  rm_model : string;
  rm_is_stream : Z;
  rm_success : Z;
  rm_latency_ms : Z;
  rm_error_code : option string;
  rm_error_message : option string;
  rm_fallback_from : option string;
  rm_fallback_chain : list string;
  rm_usage_prompt_tokens : Z;
  rm_usage_completion_tokens : Z;
  rm_usage_total_tokens : Z;
  rm_usage_raw : Usage;
  rm_entry : string;
  rm_status : Z;
}.

(** [(error_message or "")[:2000] or None] *)
Definition clip_error_message (error_message : option string) : option string :=
  let text := prefix (or_else error_message "") 2000 in
  if truthy text then Some text else None.

(** The row built by [LLMObservabilityService.record] from its keyword
    arguments. *)
Definition record_row (m : Engine.Metric) : LLMRequestMetric :=
  let usage := Engine.mt_usage m in
  let '(prompt_tokens, completion_tokens, total_tokens) := extract_token_usage usage in
  mkLLMRequestMetric (Engine.mt_request_id m) (Engine.mt_conversation_id m)
    (Engine.mt_owner_id m) (Engine.mt_provider m) (Engine.mt_model m)
    (if Engine.mt_is_stream m then 1 else 0)
    (if Engine.mt_success m then 1 else 0)
    (Z.max 0 (Engine.mt_latency_ms m))
    (Engine.mt_error_code m)
    (clip_error_message (Engine.mt_error_message m))
    (Engine.mt_fallback_from m) (Engine.mt_fallback_chain m)
    prompt_tokens completion_tokens total_tokens usage (Engine.mt_entry m) 1.

(** The total is never negative. *)
Lemma extract_token_usage_nonneg usage : 0 <= (extract_token_usage usage).2.
Proof.
  unfold extract_token_usage. cbn [snd].
  destruct (Z.leb_spec (_to_int (default (UNum 0) (usage !! "total_tokens"))) 0); lia.
Qed.

End Tokens.

End Observability.

Module QuotaUsage.
Import PyStr Quota.

(** [redis.incrby(key, amount)] *)
Definition incrby (key : string) (amount : Z) (r : Redis) : Z * Redis :=
  let n := default 0 (counters r !! key) + amount in
  (n, mkRedis (<[key := n]> (counters r)) (ttl r)).

(** [LLMQuotaService.commit_token_usage]: the store as the call leaves it.
    [redis] is what [_get_redis_or_none] returns and [day_str] the reading of
    the clock. *)
Definition commit_token_usage (project_config : Config)
    (int_of_text : string -> option Z)
    (redis : option Redis) (day_str : string)
    (owner_id : Z) (provider model : string) (usage : option Usage)
    : option Redis :=
  if negb (LLM_RATE_LIMIT_ENABLE project_config) then redis
  else
    match redis with
    | None => None
    | Some r =>
        let usage := default ∅ usage in
        let total_tokens := (Observability.extract_token_usage int_of_text usage).2 in
        if total_tokens <=? 0 then Some r
        else
          let provider := norm_provider provider in
          let model := norm_model model in
          let day_tok_key := _day_token_key owner_id provider model day_str in
          let '(new_value, r) := incrby day_tok_key total_tokens r in
          Some (if new_value <=? total_tokens then expire day_tok_key 172800 r
                else r)
    end.

(** With the tokens used at or above a configured ceiling, the check before
    a request never returns normally. *)
Lemma enforce_refuses_at_ceiling project_config r now day_str owner_id provider model :
  let p := norm_provider provider in
  let m := norm_model model in
  LLM_RATE_LIMIT_ENABLE project_config = true ->
  0 < LLM_TOKEN_QUOTA_PER_DAY project_config ->
  LLM_TOKEN_QUOTA_PER_DAY project_config
    <= default 0 (counters r !! _day_token_key owner_id p m day_str) ->
  exists e,
    (enforce_before_request project_config (Some r) now day_str owner_id provider
       model).1 = Raise e /\
    (e = minute_limit_error p m (minute_limit_of project_config) \/
     e = day_limit_error p m (day_limit_of project_config) \/
     e = token_quota_error p m (token_limit_of project_config)).
Proof.
  intros p m Hon Hlimit Hused. unfold enforce_before_request.
  rewrite Hon. cbn [negb]. fold p m.
  pose proof (minute_key_ne_day_tok now owner_id p m day_str) as Hmt.
  pose proof (day_req_ne_day_tok owner_id p m day_str) as Hdt.
  set (minute_key := _minute_key now owner_id p m) in *.
  set (day_req_key := _day_request_key owner_id p m day_str) in *.
  set (day_tok_key := _day_token_key owner_id p m day_str) in *.
  assert (Htl : token_limit_of project_config = LLM_TOKEN_QUOTA_PER_DAY project_config)
    by (unfold token_limit_of; lia).
  unfold incr, get, _to_int, expire.
  repeat match goal with
         | |- context [if ?b then _ else _] => destruct b eqn:?; cbn [counters ttl]
         end;
    cbn [fst]; eauto 6; exfalso;
    match goal with
    | H : (_ && _) = false |- _ =>
        cbn [counters] in H; rewrite ?lookup_insert_ne in H by done;
        apply andb_false_iff in H as [H|H]; lia
    end.
Qed.

End QuotaUsage.

(** X1. The row written for a request: the latency is never negative (a
    negative reading is stored as 0, any other reading as it is), the error
    message is absent or holds the first characters of the message given,
    between 1 and 2000 of them, the two flags are 0 or 1, and the total
    token count is never negative. *)
Theorem X1_record_row_is_clamped :
  forall (int_of_text : string -> option Z) (m : Engine.Metric),
    let row := Observability.record_row int_of_text m in
    0 <= Observability.rm_latency_ms row /\
    (Engine.mt_latency_ms m < 0 -> Observability.rm_latency_ms row = 0) /\
    (0 <= Engine.mt_latency_ms m ->
       Observability.rm_latency_ms row = Engine.mt_latency_ms m) /\
    match Observability.rm_error_message row with
    | None => True
    | Some text =>
        text <> "" /\ PyStr.len text <= 2000 /\
        text = PyStr.prefix (PyStr.or_else (Engine.mt_error_message m) "") 2000
    end /\
    (Observability.rm_error_message row = None <->
       PyStr.or_else (Engine.mt_error_message m) "" = "") /\
    Observability.rm_is_stream row = (if Engine.mt_is_stream m then 1 else 0) /\
    Observability.rm_success row = (if Engine.mt_success m then 1 else 0) /\
    0 <= Observability.rm_usage_total_tokens row.
Proof.
  intros int_of_text m row. subst row. unfold Observability.record_row.
  pose proof (Observability.extract_token_usage_nonneg int_of_text
                (Engine.mt_usage m)) as Htot.
  destruct (Observability.extract_token_usage int_of_text (Engine.mt_usage m))
    as [[p c] t].
  cbn [Observability.rm_latency_ms Observability.rm_error_message
       Observability.rm_is_stream Observability.rm_success
       Observability.rm_usage_total_tokens].
  unfold Observability.clip_error_message.
  set (msg := PyStr.or_else (Engine.mt_error_message m) "").
  split_and!; [lia | lia | lia | | | done | done | done].
  - destruct (PyStr.truthy (PyStr.prefix msg 2000)) eqn:Ht; [|done].
    split_and!; [by apply PyStr.truthy_ne | | done].
    pose proof (PyStr.slice_length msg 0 2000 ltac:(lia) ltac:(lia)) as Hl.
    unfold PyStr.prefix. lia.
  - destruct (PyStr.truthy (PyStr.prefix msg 2000)) eqn:Ht.
    + split; [done|]. intros Hmsg. rewrite Hmsg in Ht. done.
    + split; [|done]. intros _.
      destruct (PyStr.truthy msg) eqn:Hm; [|by destruct msg].
      rewrite (PyStr.prefix_truthy msg 2000) in Ht by (lia || done).
      done.
Qed.

(** X2. Committing the usage of a request is a no-op when rate limiting is
    switched off, the store cannot be reached, or the total token count is 0.
    Otherwise it adds exactly that total to the day token counter of the
    owner, provider and model and touches no other counter and no other
    expiry; the counter is given an expiry of two days exactly when it held
    nothing (or nothing positive) before. *)
Theorem X2_commit_token_usage_adds_total :
  forall (project_config : Config) (int_of_text : string -> option Z)
         (redis : option Quota.Redis) (day_str : string) (owner_id : Z)
         (provider model : string) (usage : option Usage),
    let total :=
      (Observability.extract_token_usage int_of_text (default ∅ usage)).2 in
    let key :=
      Quota._day_token_key owner_id (Quota.norm_provider provider)
        (Quota.norm_model model) day_str in
    let out :=
      QuotaUsage.commit_token_usage project_config int_of_text redis day_str
        owner_id provider model usage in
    (LLM_RATE_LIMIT_ENABLE project_config = false \/ redis = None \/ total = 0 ->
       out = redis) /\
    (forall r,
       LLM_RATE_LIMIT_ENABLE project_config = true -> redis = Some r -> 0 < total ->
       exists r',
         out = Some r' /\
         Quota.counters r' !! key
           = Some (default 0 (Quota.counters r !! key) + total) /\
         (forall k, k <> key ->
            Quota.counters r' !! k = Quota.counters r !! k /\
            Quota.ttl r' !! k = Quota.ttl r !! k) /\
         Quota.ttl r' !! key
           = if default 0 (Quota.counters r !! key) <=? 0 then Some 172800
             else Quota.ttl r !! key).
Proof.
  intros project_config int_of_text redis day_str owner_id provider model usage
    total key out.
  subst out. unfold QuotaUsage.commit_token_usage. fold total. fold key.
  split.
  - intros [Hoff|[-> | Hz]].
    + by rewrite Hoff.
    + by destruct (negb _).
    + destruct (negb _); [done|]. destruct redis as [r|]; [|done].
      by rewrite Hz.
  - intros r Hon -> Hpos. rewrite Hon. cbn [negb].
    destruct (Z.leb_spec total 0) as [|_]; [lia|].
    unfold QuotaUsage.incrby.
    set (old := default 0 (Quota.counters r !! key)).
    destruct (Z.leb_spec (old + total) total) as [Hnew|Hnew];
      destruct (Z.leb_spec old 0) as [Hold|Hold]; try lia;
      eexists; (split; [reflexivity|]); unfold Quota.expire;
      cbn [Quota.counters Quota.ttl];
      rewrite ?lookup_insert_eq; (split_and!; [done | | done]);
      intros k Hk; by rewrite ?lookup_insert_ne by done.
Qed.

(** X3. Once the tokens committed for the day have reached a configured
    ceiling, the next before-request check for the same owner, provider,
    model and day is refused: it raises the rate-limit error of the minute or
    of the day if one of those ceilings is hit first, and the quota error
    otherwise. *)
Theorem X3_request_refused_once_tokens_reach_ceiling :
  forall (project_config : Config) (int_of_text : string -> option Z)
         (r : Quota.Redis) (now : Z) (day_str : string) (owner_id : Z)
         (provider model : string) (usage : option Usage),
    let total :=
      (Observability.extract_token_usage int_of_text (default ∅ usage)).2 in
    let p := Quota.norm_provider provider in
    let m := Quota.norm_model model in
    let key := Quota._day_token_key owner_id p m day_str in
    let committed :=
      QuotaUsage.commit_token_usage project_config int_of_text (Some r) day_str
        owner_id provider model usage in
    LLM_RATE_LIMIT_ENABLE project_config = true ->
    0 < LLM_TOKEN_QUOTA_PER_DAY project_config ->
    LLM_TOKEN_QUOTA_PER_DAY project_config
      <= default 0 (Quota.counters r !! key) + total ->
    exists e,
      (Quota.enforce_before_request project_config committed now day_str owner_id
         provider model).1 = Raise e /\
      (e = Quota.minute_limit_error p m (Quota.minute_limit_of project_config) \/
       e = Quota.day_limit_error p m (Quota.day_limit_of project_config) \/
       e = Quota.token_quota_error p m (Quota.token_limit_of project_config)).
Proof.
  intros project_config int_of_text r now day_str owner_id provider model usage
    total p m key committed Hon Hlimit Hused.
  pose proof (Observability.extract_token_usage_nonneg int_of_text (default ∅ usage))
    as Htot. fold total in Htot.
  assert (Hc : exists r', committed = Some r' /\
                 LLM_TOKEN_QUOTA_PER_DAY project_config
                   <= default 0 (Quota.counters r' !! key)).
  { subst committed. unfold QuotaUsage.commit_token_usage. fold total p m key.
    rewrite Hon. cbn [negb].
    destruct (Z.leb_spec total 0) as [Hz|Hz].
    - exists r. split; [done|]. lia.
    - unfold QuotaUsage.incrby.
      destruct (_ <=? total); eexists; (split; [reflexivity|]);
        unfold Quota.expire; cbn [Quota.counters];
        rewrite lookup_insert_eq; simpl; lia. }
  destruct Hc as (r' & -> & Hr').
  eapply QuotaUsage.enforce_refuses_at_ceiling; [done | done |].
  fold p m key. exact Hr'.
Qed.

(** A configuration with a daily token ceiling of 100. *)
Definition metered_config : Config :=
  {| default_llm_provider := "deepseek";
     default_llm_model := "deepseek-chat";
     DEEPSEEK_API_KEY := "";
     DEEPSEEK_BASE_URL := "https://api.deepseek.com";
     DEEPSEEK_MODEL := "deepseek-chat";
     OPENAI_API_KEY := "sk-openai";
     OPENAI_BASE_URL := "https://api.openai.com/v1/";
     OPENAI_MODEL := "gpt-4o-mini";
     GEMINI_API_KEY := "sk-gemini";
     GEMINI_BASE_URL := "https://gemini.example/v1";
     GEMINI_MODEL := "gemini-pro";
     LLM_AUTO_FALLBACK_ENABLE := true;
     LLM_FALLBACK_PROVIDERS := "OpenAI, gemini,openai";
     LLM_MAX_TOOL_STEPS := 9;
     LLM_MAX_HISTORY_MESSAGES := 200;
     LLM_MEMORY_ENABLE := true;
     LLM_MEMORY_SUMMARY_TRIGGER_MESSAGES := 6;
     LLM_MEMORY_KEEP_RECENT_MESSAGES := 4;
     LLM_MEMORY_SUMMARY_MAX_CHARS := 500;
     LLM_RATE_LIMIT_ENABLE := true;
     LLM_RATE_LIMIT_REQUESTS_PER_MINUTE := 60;
     LLM_RATE_LIMIT_REQUESTS_PER_DAY := 0;
     LLM_TOKEN_QUOTA_PER_DAY := 100 |}.

(** X3, witness: with a ceiling of 100 tokens and an empty store, a request
    that reports 150 tokens is committed, and the next check is refused. *)
Lemma X3_witness_spent_quota_refuses_next_request :
  exists e,
    (Quota.enforce_before_request metered_config
       (QuotaUsage.commit_token_usage metered_config (fun _ => None)
          (Some (Quota.mkRedis ∅ ∅)) "20240501" 7 "openai" "gpt-4o-mini"
          (Some {[ "total_tokens" := UNum 150 ]}))
       100 "20240501" 7 "openai" "gpt-4o-mini").1 = Raise e.
Proof.
  destruct (X3_request_refused_once_tokens_reach_ceiling metered_config
              (fun _ => None) (Quota.mkRedis ∅ ∅) 100 "20240501" 7 "openai"
              "gpt-4o-mini" (Some {[ "total_tokens" := UNum 150 ]}))
    as (e & He & _).
  - reflexivity.
  - reflexivity.
  - vm_compute. discriminate.
  - exists e. exact He.
Defined.

(* ===================================================================== *)
(** * The rate limiter over a sequence of requests ([quota_service.py])   *)
(* ===================================================================== *)

Module RateLimit.
Import PyStr Quota.

(** Successive calls of [enforce_before_request] for one owner, provider
    and model, each on the store the call before it left.  A call is given by
    the two readings of the clock it makes. *)
Fixpoint enforce_all (project_config : Config) (redis : option Redis)
    (calls : list (Z * string)) (owner_id : Z) (provider model : string)
    : list (Result unit) * option Redis :=
  match calls with
  | [] => ([], redis)
  | (now, day_str) :: rest =>
      let '(result, redis) :=
        enforce_before_request project_config redis now day_str owner_id
          provider model in
      let '(results, redis) :=
        enforce_all project_config redis rest owner_id provider model in
      (result :: results, redis)
  end.

(** The number of calls that returned normally. *)
Definition accepted (results : list (Result unit)) : Z :=
  Z.of_nat (length (List.filter is_ok results)).

Definition used (key : string) (r : Redis) : Z := default 0 (counters r !! key).

(** One call on a reachable store with the gate switched on: the minute
    counter goes up by one and the call is accepted only if it stays within
    the ceiling; the day counter never goes down, and with a day ceiling
    configured an accepted call has moved it up by one and stays within
    it. *)
Lemma enforce_step project_config r now day_str owner_id provider model :
  LLM_RATE_LIMIT_ENABLE project_config = true ->
  let out := enforce_before_request project_config (Some r) now day_str owner_id
               provider model in
  let p := norm_provider provider in
  let m := norm_model model in
  let minute_key := _minute_key now owner_id p m in
  let day_req_key := _day_request_key owner_id p m day_str in
  exists r',
    out.2 = Some r' /\
    used minute_key r' = used minute_key r + 1 /\
    (forall key, key <> minute_key -> key <> day_req_key ->
       counters r' !! key = counters r !! key) /\
    used day_req_key r <= used day_req_key r' /\
    (is_ok out.1 = true ->
       used minute_key r' <= minute_limit_of project_config /\
       (0 < day_limit_of project_config ->
          used day_req_key r' = used day_req_key r + 1 /\
          used day_req_key r' <= day_limit_of project_config)).
Proof.
  intros Hon out p m minute_key day_req_key. subst out.
  unfold enforce_before_request. rewrite Hon. cbn [negb].
  fold p m. fold minute_key day_req_key.
  pose proof (minute_key_ne_day_req now owner_id p m day_str) as Hmd.
  fold minute_key day_req_key in Hmd.
  unfold incr, get, _to_int.
  set (mc := default 0 (counters r !! minute_key) + 1).
  set (r1 := if mc =? 1
             then expire minute_key 70
                    (mkRedis (<[minute_key := mc]> (counters r)) (ttl r))
             else mkRedis (<[minute_key := mc]> (counters r)) (ttl r)).
  assert (Hr1 : counters r1 = <[minute_key := mc]> (counters r))
    by (subst r1; by destruct (mc =? 1)).
  assert (Hm1 : used minute_key r1 = used minute_key r + 1).
  { unfold used. by rewrite Hr1, lookup_insert_eq. }
  assert (Hd1 : used day_req_key r1 = used day_req_key r).
  { unfold used. by rewrite Hr1, lookup_insert_ne. }
  assert (Ho1 : forall key, key <> minute_key -> counters r1 !! key = counters r !! key).
  { intros key Hk. by rewrite Hr1, lookup_insert_ne. }
  destruct (Z.ltb_spec (minute_limit_of project_config) mc) as [Hover|Hin].
  { exists r1. cbn [fst snd]. split_and!; [done | done | auto | lia | done]. }
  assert (Hmin : used minute_key r1 <= minute_limit_of project_config).
  { rewrite Hm1. unfold used. fold mc. lia. }
  destruct (Z.ltb_spec 0 (day_limit_of project_config)) as [Hday|Hnoday].
  - set (dc := default 0 (counters r1 !! day_req_key) + 1).
    set (r2 := if dc =? 1
               then expire day_req_key 172800
                      (mkRedis (<[day_req_key := dc]> (counters r1)) (ttl r1))
               else mkRedis (<[day_req_key := dc]> (counters r1)) (ttl r1)).
    assert (Hr2 : counters r2 = <[day_req_key := dc]> (counters r1))
      by (subst r2; by destruct (dc =? 1)).
    assert (Hm2 : used minute_key r2 = used minute_key r + 1).
    { unfold used in *. by rewrite Hr2, lookup_insert_ne. }
    assert (Hd2 : used day_req_key r2 = used day_req_key r + 1).
    { unfold used in *. rewrite Hr2, lookup_insert_eq. cbn. subst dc. lia. }
    assert (Ho2 : forall key, key <> minute_key -> key <> day_req_key ->
                    counters r2 !! key = counters r !! key).
    { intros key Hk1 Hk2. rewrite Hr2, lookup_insert_ne by done. auto. }
    destruct (Z.ltb_spec (day_limit_of project_config) dc) as [Hdover|Hdin].
    { exists r2. cbn [fst snd]. split_and!; [done | done | done | lia | done]. }
    assert (Hdmax : used day_req_key r2 <= day_limit_of project_config).
    { rewrite Hd2, <- Hd1. unfold used. fold dc. lia. }
    destruct (_ && _); exists r2; cbn [fst snd];
      (split_and!; [done | done | done | lia | try done]).
    intros _. split; [lia|]. intros _. split; [done | lia].
  - destruct (_ && _); exists r1; cbn [fst snd];
      (split_and!; [done | done | auto | lia | try done]).
    intros _. split; [lia|]. intros ?. lia.
Qed.

Lemma accepted_cons result results :
  accepted (result :: results) = (if is_ok result then 1 else 0) + accepted results.
Proof. unfold accepted. cbn [List.filter]. destruct (is_ok result); cbn [length]; lia. Qed.

Lemma minute_key_bucket now now0 owner_id p m :
  now `div` 60 = now0 `div` 60 ->
  _minute_key now owner_id p m = _minute_key now0 owner_id p m.
Proof. unfold _minute_key. by intros ->. Qed.

(** However many calls fall into one minute bucket, no more of them are
    accepted than the bucket has room for. *)
Lemma enforce_all_minute project_config calls owner_id provider model now0 r :
  LLM_RATE_LIMIT_ENABLE project_config = true ->
  Forall (fun call => call.1 `div` 60 = now0 `div` 60) calls ->
  accepted (enforce_all project_config (Some r) calls owner_id provider model).1
  <= Z.max 0 (minute_limit_of project_config
              - used (_minute_key now0 owner_id (norm_provider provider)
                        (norm_model model)) r).
Proof.
  intros Hon Hall. revert r.
  induction Hall as [|[now day_str] rest Hnow _ IH]; intros r;
    cbn [enforce_all fst].
  { unfold accepted. simpl. lia. }
  destruct (enforce_step project_config r now day_str owner_id provider model Hon)
    as (r' & Hout & Hminute & _ & _ & Hok).
  cbn [fst] in Hnow. rewrite (minute_key_bucket _ _ _ _ _ Hnow) in Hminute, Hok.
  destruct (enforce_before_request project_config (Some r) now day_str owner_id
              provider model) as [result redis]. cbn [fst snd] in *. subst redis.
  specialize (IH r').
  destruct (enforce_all project_config (Some r') rest owner_id provider model)
    as [results redis'].
  cbn [fst] in *. rewrite accepted_cons.
  destruct result as [[]|e]; cbn [is_ok] in *.
  - destruct (Hok eq_refl) as [Hle _]. lia.
  - lia.
Qed.

(** The same for the calls of one day, when a day ceiling is configured. *)
Lemma enforce_all_day project_config calls owner_id provider model day_str r :
  LLM_RATE_LIMIT_ENABLE project_config = true ->
  0 < day_limit_of project_config ->
  Forall (fun call => call.2 = day_str) calls ->
  accepted (enforce_all project_config (Some r) calls owner_id provider model).1
  <= Z.max 0 (day_limit_of project_config
              - used (_day_request_key owner_id (norm_provider provider)
                        (norm_model model) day_str) r).
Proof.
  intros Hon Hday Hall. revert r.
  induction Hall as [|[now day] rest Hd _ IH]; intros r; cbn [enforce_all fst].
  { unfold accepted. simpl. lia. }
  cbn [snd] in Hd. subst day.
  destruct (enforce_step project_config r now day_str owner_id provider model Hon)
    as (r' & Hout & _ & _ & Hmono & Hok).
  destruct (enforce_before_request project_config (Some r) now day_str owner_id
              provider model) as [result redis]. cbn [fst snd] in *. subst redis.
  specialize (IH r').
  destruct (enforce_all project_config (Some r') rest owner_id provider model)
    as [results redis'].
  cbn [fst] in *. rewrite accepted_cons.
  destruct result as [[]|e]; cbn [is_ok] in *.
  - destruct (Hok eq_refl) as [_ Hd]. destruct (Hd Hday) as [Hinc Hle]. lia.
  - lia.
Qed.

End RateLimit.

(** X4. The rate limiter over a sequence of requests.  With the gate
    switched on and the store reachable, of any number of successive checks
    for one owner, provider and model that fall into the same minute bucket,
    no more are accepted than the per-minute ceiling leaves room for, given
    what the bucket held before; and with a day ceiling configured the same
    holds for the checks of one day.  Every check of the sequence is
    answered. *)
Theorem X4_rate_limiter_never_accepts_more_than_the_ceiling :
  forall (project_config : Config) (r : Quota.Redis) (calls : list (Z * string))
         (owner_id : Z) (provider model : string),
    let results :=
      (RateLimit.enforce_all project_config (Some r) calls owner_id provider
         model).1 in
    let p := Quota.norm_provider provider in
    let m := Quota.norm_model model in
    LLM_RATE_LIMIT_ENABLE project_config = true ->
    (forall now0,
       Forall (fun call => call.1 `div` 60 = now0 `div` 60) calls ->
       RateLimit.accepted results
       <= Z.max 0 (Quota.minute_limit_of project_config
                   - RateLimit.used (Quota._minute_key now0 owner_id p m) r)) /\
    (forall day_str,
       0 < Quota.day_limit_of project_config ->
       Forall (fun call => call.2 = day_str) calls ->
       RateLimit.accepted results
       <= Z.max 0 (Quota.day_limit_of project_config
                   - RateLimit.used (Quota._day_request_key owner_id p m day_str) r)) /\
    length results = length calls.
Proof.
  intros project_config r calls owner_id provider model results p m Hon.
  split_and!.
  - intros now0 Hall. by apply RateLimit.enforce_all_minute.
  - intros day_str Hday Hall. by apply RateLimit.enforce_all_day.
  - subst results. generalize (Some r). clear.
    induction calls as [|[now day_str] rest IH]; intros redis;
      cbn [RateLimit.enforce_all]; [done|].
    destruct (Quota.enforce_before_request _ _ _ _ _ _ _) as [result redis'].
    specialize (IH redis').
    destruct (RateLimit.enforce_all _ redis' rest _ _ _) as [results redis''].
    cbn [fst length] in *. by rewrite IH.
Qed.

(** X4, witness: the bucket of the minute holds 59 requests of 60; of three
    further checks in that minute at most one is accepted. *)
Lemma X4_witness_one_request_left_in_the_minute :
  RateLimit.accepted
    (RateLimit.enforce_all scenario_config
       (Some (Quota.mkRedis
                {[ Quota._minute_key 0 7 "openai" "gpt-4o-mini" := 59 ]} ∅))
       [(0, "20240501"); (30, "20240501"); (59, "20240501")]
       7 "openai" "gpt-4o-mini").1
  <= 1.
Proof.
  pose proof (X4_rate_limiter_never_accepts_more_than_the_ceiling scenario_config
                (Quota.mkRedis
                   {[ Quota._minute_key 0 7 "openai" "gpt-4o-mini" := 59 ]} ∅)
                [(0, "20240501"); (30, "20240501"); (59, "20240501")]
                7 "openai" "gpt-4o-mini" eq_refl) as (Hminute & _ & _).
  specialize (Hminute 0 ltac:(repeat constructor)).
  vm_compute in Hminute |- *. exact Hminute.
Defined.

(* ===================================================================== *)
(** * More on the provider directory and the chain of candidates          *)
(* ===================================================================== *)

Module ProvidersMore.
Import PyStr Providers.

Lemma drop_while_eq_head x l :
  match drop_while_eq x l with
  | [] => True
  | c :: _ => c <> x
  end.
Proof.
  induction l as [|c l IH]; simpl; [done|].
  destruct (Ascii.eqb_spec c x); [exact IH | done].
Qed.

(** What [rstrip("/")] leaves does not end in a slash. *)
Lemma rstrip_slash_no_trailing s t : rstrip_slash s <> t +:+ "/".
Proof.
  unfold rstrip_slash. intros H.
  apply (f_equal bytes) in H. rewrite bytes_str, bytes_app in H.
  apply (f_equal (@rev ascii)) in H. rewrite rev_involutive, rev_app_distr in H.
  simpl in H.
  pose proof (drop_while_eq_head "/"%char (rev (bytes s))) as Hd.
  rewrite H in Hd. done.
Qed.

Lemma lower_ne s : s <> "" -> lower s <> "".
Proof.
  intros Hs. unfold lower. intros H.
  apply (f_equal bytes) in H. rewrite bytes_str in H.
  destruct s as [|a s]; [done|]. simpl in H. done.
Qed.

Lemma provider_attrs_supported cfg name attrs :
  provider_attrs cfg name = Some attrs ->
  name ∈ ["deepseek"; "openai"; "gemini"].
Proof.
  unfold provider_attrs.
  repeat (case_bool_decide; [subst; intros _; set_solver|]). done.
Qed.

Lemma provider_attrs_unsupported cfg name :
  provider_attrs cfg name = None ->
  name ∉ ["deepseek"; "openai"; "gemini"].
Proof.
  unfold provider_attrs.
  repeat (case_bool_decide; [done|]). intros _. set_solver.
Qed.

(** Everything already collected stays, in place. *)
Lemma collect_candidates_keeps names acc c :
  c ∈ acc -> c ∈ collect_candidates names acc.
Proof.
  revert acc. induction names as [|name names IH]; intros acc Hc; simpl; [done|].
  destruct (negb (truthy name) || bool_decide (name ∈ acc)); apply IH; [done|].
  apply elem_of_app. by left.
Qed.

(** Every name that is not empty is collected. *)
Lemma collect_candidates_complete names acc name :
  name ∈ names -> name <> "" -> name ∈ collect_candidates names acc.
Proof.
  revert acc. induction names as [|n names IH]; intros acc Hin Hne.
  { by apply elem_of_nil in Hin. }
  simpl. apply elem_of_cons in Hin as [<-|Hin].
  - apply truthy_ne in Hne. rewrite Hne. simpl.
    case_bool_decide as Hacc.
    + by apply collect_candidates_keeps.
    + apply collect_candidates_keeps, elem_of_app. right. apply list_elem_of_here.
  - destruct (negb (truthy n) || bool_decide (n ∈ acc)); by apply IH.
Qed.

(** Only names offered are collected. *)
Lemma collect_candidates_sound names acc c :
  c ∈ collect_candidates names acc -> c ∈ acc \/ c ∈ names.
Proof.
  revert acc. induction names as [|n names IH]; intros acc; simpl; [by left|].
  destruct (negb (truthy n) || bool_decide (n ∈ acc)); intros Hc;
    apply IH in Hc as [Hc|Hc].
  - by left.
  - right. by apply list_elem_of_further.
  - apply elem_of_app in Hc as [Hc|Hc%list_elem_of_singleton]; [by left|].
    right. subst. apply list_elem_of_here.
  - right. by apply list_elem_of_further.
Qed.

Lemma elem_of_fallback_list cfg c :
  c ∈ fallback_list cfg <->
  exists x, x ∈ split_comma (LLM_FALLBACK_PROVIDERS cfg) /\ strip x <> "" /\
            c = lower (strip x).
Proof.
  unfold fallback_list. rewrite list_elem_of_In, in_map_iff. split.
  - intros (x & <- & Hx). apply list_elem_of_In, list_elem_of_filter in Hx as [Ht Hx].
    exists x. split_and!; [done | by apply truthy_ne | done].
  - intros (x & Hx & Hne & ->). exists x. split; [done|].
    apply list_elem_of_In, list_elem_of_filter. split; [by apply truthy_ne | done].
Qed.

End ProvidersMore.



(* ===================================================================== *)
(** * Skills ([skill_service.py])                                         *)
(* ===================================================================== *)

Module Skill.
Import PyStr.

(** [SkillProfile] *)
Record SkillProfile := mkSkillProfile {
  name : string;
  description : string;
  system_prompt : string;
  tool_names : list string;
  rag_enabled : bool;
  mcp_servers : list string;
}.

(** A row of [LLMSkill], as far as the service reads it. *)
Record LLMSkill := mkLLMSkill {
  row_owner_id : option Z;
  row_skill_name : string;
  row_description : option string;
  row_system_prompt : string;
  row_tool_names : option (list string);
  row_rag_enabled : Z;
  row_mcp_server_ids : option (list string);
}.

(** The loop of [SkillService._normalize_str_list]: [seen] and [result] are
    the two locals. *)
Fixpoint normalize_loop (items : list string) (seen : gset string)
    (result : list string) : list string :=
  match items with
  | [] => result
  | item :: rest =>
      let value := strip item in
      if negb (truthy value) || bool_decide (value ∈ seen)
      then normalize_loop rest seen result
      else normalize_loop rest ({[value]} ∪ seen) (result ++ [value])
  end.

(** [SkillService._normalize_str_list] *)
Definition _normalize_str_list (items : list string) : list string :=
  normalize_loop items ∅ [].

(** [SkillService._pick_skill_by_owner] *)
Definition _pick_skill_by_owner (rows : list LLMSkill) (owner_id : option Z)
    : option LLMSkill :=
  match rows with
  | [] => None
  | first :: _ =>
      let own :=
        match owner_id with
        | Some o =>
            List.find (fun row => bool_decide (row_owner_id row = Some o)) rows
        | None => None
        end in
      match own with
      | Some row => Some row
      | None =>
          match List.find (fun row => bool_decide (row_owner_id row = None)) rows with
          | Some row => Some row
          | None => Some first
          end
      end
  end.

(** [SkillService._row_to_profile] *)
Definition _row_to_profile (row : LLMSkill) : SkillProfile :=
  mkSkillProfile (row_skill_name row) (or_else (row_description row) "")
    (row_system_prompt row) (default [] (row_tool_names row))
    (negb (row_rag_enabled row =? 0)) (default [] (row_mcp_server_ids row)).

(** [SkillService._register_builtin_skills] *)
Definition builtin_skills : gmap string SkillProfile :=
  <["coder" :=
      mkSkillProfile "coder" "代码工程师助手"
        "你是资深后端工程师，输出以可运行、可维护代码为第一优先级。"
        ["calculate"; "echo"] false []]>
  (<["default_assistant" :=
      mkSkillProfile "default_assistant" "通用助理"
        "你是一个专业、严谨、简洁的 AI 助理，优先给出可执行建议。"
        ["get_current_time"; "calculate"; "echo"] false []]> ∅).

(** [SkillService.get_skill].  [db] is [None] without a database session;
    with one it is the query: the rows of a given name that are live and are
    owned by the given owner or by nobody. *)
Definition get_skill (_skills : gmap string SkillProfile)
    (db : option (string -> option Z -> list LLMSkill))
    (name : option string) (owner_id : option Z) : option SkillProfile :=
  if negb (otruthy name) then None
  else
    let skill_name := strip (or_else name "") in
    if negb (truthy skill_name) then None
    else
      let selected :=
        match db with
        | Some query => _pick_skill_by_owner (query skill_name owner_id) owner_id
        | None => None
        end in
      match selected with
      | Some row => Some (_row_to_profile row)
      | None => _skills !! skill_name
      end.

(** ** The loop keeps [seen] equal to the set of the names in [result] *)

Definition clean (value : string) : Prop := strip value = value /\ value <> "".

Lemma normalize_loop_spec items seen result :
  seen = list_to_set result -> NoDup result -> Forall clean result ->
  exists more,
    normalize_loop items seen result = result ++ more /\
    NoDup (result ++ more) /\ Forall clean more /\
    (forall v, v ∈ more <->
       (v ∉ result) /\ (exists item, item ∈ items /\ strip item = v /\ v <> "")).
Proof.
  revert seen result. induction items as [|item rest IH]; intros seen result Hs Hnd Hc.
  { exists []. rewrite app_nil_r. split_and!; [done | done | constructor |].
    intros v. split; [by intros ?%elem_of_nil|].
    by intros (_ & i & ?%elem_of_nil & _). }
  cbn [normalize_loop]. cbv zeta.
  destruct (truthy (strip item)) eqn:Ht; cbn [negb orb].
  - case_bool_decide as Hseen.
    + destruct (IH seen result Hs Hnd Hc) as (more & Heq & Hnd' & Hc' & Hin).
      exists more. split_and!; [done..|].
      intros v. rewrite Hin. split.
      * intros (Hv & i & Hi & Hst & Hne). split; [done|].
        exists i. split_and!; [by apply list_elem_of_further | done | done].
      * intros (Hv & i & Hi & Hst & Hne). split; [done|].
        apply elem_of_cons in Hi as [->|Hi]; [|eauto].
        subst seen. apply elem_of_list_to_set in Hseen. congruence.
    + assert (Hnot : strip item ∉ result).
      { subst seen. by rewrite elem_of_list_to_set in Hseen. }
      destruct (IH ({[strip item]} ∪ seen) (result ++ [strip item])) as
        (more & Heq & Hnd' & Hc' & Hin).
      * subst seen. rewrite list_to_set_app_L. simpl. set_solver.
      * apply NoDup_app. split_and!; [done | | apply NoDup_singleton].
        intros x Hx ->%list_elem_of_singleton. done.
      * apply Forall_app. split; [done|]. constructor; [|constructor].
        split; [apply strip_idem | by apply truthy_ne].
      * exists (strip item :: more). rewrite <- app_assoc in Heq, Hnd'.
        split_and!; [done | done | |].
        { constructor; [|done]. split; [apply strip_idem | by apply truthy_ne]. }
        intros v. rewrite elem_of_cons, Hin. split.
        -- intros [->|(Hv & i & Hi & Hst & Hne)].
           ++ split; [done|]. exists item.
              split_and!; [apply list_elem_of_here | done | by apply truthy_ne].
           ++ split; [by intros ?; apply Hv, elem_of_app; left|].
              exists i. split_and!; [by apply list_elem_of_further | done | done].
        -- intros (Hv & i & Hi & Hst & Hne).
           destruct (decide (v = strip item)) as [->|Hneq]; [by left|]. right.
           split.
           ++ intros [?|?%list_elem_of_singleton]%elem_of_app; done.
           ++ apply elem_of_cons in Hi as [->|Hi]; [done|]. eauto.
  - destruct (IH seen result Hs Hnd Hc) as (more & Heq & Hnd' & Hc' & Hin).
    exists more. split_and!; [done..|].
    intros v. rewrite Hin. split.
    + intros (Hv & i & Hi & Hst & Hne). split; [done|].
      exists i. split_and!; [by apply list_elem_of_further | done | done].
    + intros (Hv & i & Hi & Hst & Hne). split; [done|].
      apply elem_of_cons in Hi as [->|Hi]; [|eauto].
      exfalso. apply Hne. rewrite <- Hst.
      by destruct (strip item).
Qed.

(** A list of clean names without repetition goes through unchanged. *)
Lemma normalize_loop_fixed items seen result :
  seen = list_to_set result -> NoDup (result ++ items) -> Forall clean items ->
  normalize_loop items seen result = result ++ items.
Proof.
  revert seen result. induction items as [|item rest IH]; intros seen result Hs Hnd Hc.
  { by rewrite app_nil_r. }
  apply Forall_cons in Hc as [[Hfix Hne] Hc].
  cbn [normalize_loop]. cbv zeta. rewrite Hfix.
  apply truthy_ne in Hne. rewrite Hne. cbn [negb orb].
  assert (Hnot : item ∉ result).
  { apply NoDup_app in Hnd as (_ & Hdisj & _). intros Hin.
    apply (Hdisj item Hin), list_elem_of_here. }
  case_bool_decide as Hseen.
  { subst seen. by apply elem_of_list_to_set in Hseen. }
  rewrite (IH ({[item]} ∪ seen) (result ++ [item])).
  - by rewrite <- app_assoc.
  - subst seen. rewrite list_to_set_app_L. simpl. set_solver.
  - by rewrite <- app_assoc.
  - done.
Qed.

(** The loop over a list in two parts. *)
Lemma normalize_loop_app items1 items2 seen result :
  seen = list_to_set result ->
  normalize_loop (items1 ++ items2) seen result
  = normalize_loop items2 (list_to_set (normalize_loop items1 seen result))
      (normalize_loop items1 seen result).
Proof.
  revert seen result. induction items1 as [|item rest IH]; intros seen result Hs.
  { simpl. by subst seen. }
  cbn [app normalize_loop]. cbv zeta.
  destruct (negb (truthy (strip item)) || bool_decide (strip item ∈ seen));
    apply IH; [done|].
  subst seen. rewrite list_to_set_app_L. simpl. set_solver.
Qed.

Lemma find_bool_decide_spec {A} (P : A -> Prop) `{!forall x, Decision (P x)}
    (l : list A) :
  match List.find (fun x => bool_decide (P x)) l with
  | Some x => exists pre post, l = pre ++ x :: post /\ P x /\ Forall (fun y => ~ P y) pre
  | None => Forall (fun y => ~ P y) l
  end.
Proof.
  induction l as [|a l IH]; simpl; [constructor|].
  case_bool_decide as Ha.
  - exists [], l. split_and!; [done | done | constructor].
  - destruct (List.find _ l) as [x|].
    + destruct IH as (pre & post & -> & Hx & Hpre).
      exists (a :: pre), post. split_and!; [done | done | by constructor].
    + by constructor.
Qed.

Lemma _pick_skill_by_owner_None rows owner_id :
  _pick_skill_by_owner rows owner_id = None -> rows = [].
Proof.
  destruct rows as [|first rest]; [done|]. unfold _pick_skill_by_owner.
  destruct (match owner_id with Some o => _ | None => None end); [done|].
  by destruct (List.find _ _).
Qed.

End Skill.

(** X7. Cleaning a list of names: the result holds each name stripped of
    surrounding blanks, without the empty ones and without repetition, in the
    order of first occurrence; a name is in the result exactly when it is the
    stripped form, not empty, of an item given; and cleaning a cleaned list
    changes nothing. *)
Theorem X7_normalize_str_list_clean_and_idempotent :
  forall (items : list string),
    let result := Skill._normalize_str_list items in
    NoDup result /\
    Forall (fun v => PyStr.strip v = v /\ v <> "") result /\
    (forall v, v ∈ result <->
       exists item, item ∈ items /\ PyStr.strip item = v /\ v <> "") /\
    Skill._normalize_str_list result = result /\
    (forall pre item post,
       items = pre ++ item :: post ->
       PyStr.strip item <> "" ->
       (forall x, x ∈ pre -> PyStr.strip x <> PyStr.strip item) ->
       exists before after,
         result = before ++ PyStr.strip item :: after /\
         before = Skill._normalize_str_list pre).
Proof.
  intros items result. subst result. unfold Skill._normalize_str_list.
  destruct (Skill.normalize_loop_spec items ∅ [] eq_refl (NoDup_nil_2) (Forall_nil_2 _))
    as (more & Heq & Hnd & Hc & Hin).
  simpl in Heq, Hnd. rewrite Heq.
  split_and!.
  - done.
  - done.
  - intros v. rewrite Hin. split; [by intros (_ & H) | intros H; split; [|done]].
    by intros ?%elem_of_nil.
  - by apply (Skill.normalize_loop_fixed more ∅ []).
  - intros pre item post -> Hne Hfresh.
    rewrite <- Heq. clear Heq Hnd Hc Hin more.
    destruct (Skill.normalize_loop_spec pre ∅ [] eq_refl (NoDup_nil_2)
                (Forall_nil_2 _)) as (before & Hpre & Hndb & Hcb & Hinb).
    simpl in Hpre, Hndb.
    exists before. rewrite Hpre.
    rewrite (Skill.normalize_loop_app pre (item :: post) ∅ [] eq_refl), Hpre.
    cbn [Skill.normalize_loop]. cbv zeta.
    apply PyStr.truthy_ne in Hne as Ht. rewrite Ht. cbn [negb orb].
    case_bool_decide as Hseen.
    { exfalso. apply elem_of_list_to_set in Hseen.
      apply Hinb in Hseen as (_ & x & Hx & Hst & _). by apply (Hfresh x). }
    destruct (Skill.normalize_loop_spec post
                ({[PyStr.strip item]} ∪ list_to_set before)
                (before ++ [PyStr.strip item])) as (after & Heq & _).
    + rewrite list_to_set_app_L. simpl. set_solver.
    + apply NoDup_app. split_and!; [done | | apply NoDup_singleton].
      intros x Hx ->%list_elem_of_singleton.
      apply Hinb in Hx as (_ & y & Hy & Hst & _). by apply (Hfresh y).
    + apply Forall_app. split; [done|]. constructor; [|constructor].
      split; [apply PyStr.strip_idem | done].
    + exists after. rewrite Heq, <- app_assoc. done.
Qed.

(** X8. Which row is picked for an owner: none only when there are no rows;
    otherwise a row of the list, namely the first row the owner owns if there
    is one, else the first row nobody owns if there is one, else the first
    row. *)
Theorem X8_pick_skill_by_owner_preference :
  forall (rows : list Skill.LLMSkill) (owner_id : option Z),
    let picked := Skill._pick_skill_by_owner rows owner_id in
    let owned row := exists o, owner_id = Some o /\ Skill.row_owner_id row = Some o in
    let shared row := Skill.row_owner_id row = None in
    (picked = None <-> rows = []) /\
    (forall row, picked = Some row ->
       exists pre post,
         rows = pre ++ row :: post /\
         (owned row /\ Forall (fun r => ~ owned r) pre \/
          Forall (fun r => ~ owned r) rows /\ shared row /\
            Forall (fun r => ~ shared r) pre \/
          Forall (fun r => ~ owned r) rows /\ Forall (fun r => ~ shared r) rows /\
            pre = [])).
Proof.
  intros rows owner_id picked owned shared. subst picked.
  unfold Skill._pick_skill_by_owner.
  destruct rows as [|first rest]; [by split|].
  set (rows := first :: rest).
  assert (Hown :
    match (match owner_id with
           | Some o =>
               List.find (fun row => bool_decide (Skill.row_owner_id row = Some o)) rows
           | None => None
           end) with
    | Some x => exists pre post, rows = pre ++ x :: post /\ owned x /\
                                 Forall (fun y => ~ owned y) pre
    | None => Forall (fun y => ~ owned y) rows
    end).
  { destruct owner_id as [o|].
    - pose proof (Skill.find_bool_decide_spec
                    (fun row => Skill.row_owner_id row = Some o) rows) as Hf.
      destruct (List.find _ rows) as [x|].
      + destruct Hf as (pre & post & Hr & Hx & Hpre).
        exists pre, post. split_and!; [done | by exists o |].
        eapply Forall_impl; [exact Hpre|]. intros y Hy (o' & [= <-] & Ho). done.
      + eapply Forall_impl; [exact Hf|]. intros y Hy (o' & [= <-] & Ho). done.
    - apply Forall_forall. intros y _ (o' & Ho & _). done. }
  destruct (match owner_id with Some o => _ | None => None end) as [own|].
  { split; [done|]. intros row [= <-].
    destruct Hown as (pre & post & Hr & Hx & Hpre). exists pre, post. eauto. }
  pose proof (Skill.find_bool_decide_spec
                (fun row => Skill.row_owner_id row = None) rows) as Hf.
  destruct (List.find _ rows) as [x|].
  - split; [done|]. intros row [= <-].
    destruct Hf as (pre & post & Hr & Hx & Hpre). exists pre, post.
    split; [done|]. right. left. done.
  - split; [done|]. intros row [= <-]. exists [], rest.
    split; [done|]. right. right. done.
Qed.

(** X9. Looking a skill up: a missing or blank name gives nothing; a row
    of the database, picked as above, is used in preference to a built-in
    skill of the same name; and without a row the built-in skill of that
    name, stripped of surrounding blanks, is the answer, if there is one. *)
Theorem X9_get_skill_database_row_overrides_builtin :
  forall (_skills : gmap string Skill.SkillProfile)
         (db : option (string -> option Z -> list Skill.LLMSkill))
         (name : option string) (owner_id : option Z),
    let skill_name := PyStr.strip (PyStr.or_else name "") in
    let rows := match db with Some query => query skill_name owner_id | None => [] end in
    let found := Skill.get_skill _skills db name owner_id in
    (skill_name = "" -> found = None) /\
    (skill_name <> "" ->
       match Skill._pick_skill_by_owner rows owner_id with
       | Some row =>
           found = Some (Skill._row_to_profile row) /\
           Skill.name (Skill._row_to_profile row) = Skill.row_skill_name row
       | None => rows = [] /\ found = _skills !! skill_name
       end).
Proof.
  intros _skills db name owner_id skill_name rows found.
  subst found. unfold Skill.get_skill. fold skill_name.
  split.
  - intros Hblank. destruct (negb (PyStr.otruthy name)); [done|].
    by rewrite Hblank.
  - intros Hne.
    assert (Hname : PyStr.otruthy name = true).
    { destruct name as [n|]; [|done]. simpl.
      destruct (PyStr.truthy n) eqn:E; [done|]. exfalso. apply Hne.
      subst skill_name. simpl. by rewrite E. }
    rewrite Hname. cbn [negb].
    apply PyStr.truthy_ne in Hne. rewrite Hne. cbn [negb].
    subst rows. destruct db as [query|].
    + destruct (Skill._pick_skill_by_owner (query skill_name owner_id) owner_id)
        as [row|] eqn:Ep; [done|].
      split; [|done]. by eapply Skill._pick_skill_by_owner_None.
    + done.
Qed.

(* ===================================================================== *)
(** * More on tools: the registry, the remote adapter, the merged list    *)
(* ===================================================================== *)

Module ToolsMore.
Import PyStr.

Definition tool_name (item : OpenAITool) : string := or_else (ot_name item) "".

(** What the loop of [_merge_tool_definitions] keeps, given the names seen
    so far. *)
Lemma merge_tools_spec items seen :
  let merged := Engine.merge_tools items seen in
  sublist merged items /\
  NoDup (map tool_name merged) /\
  Forall (fun item => tool_name item <> "" /\ tool_name item ∉ seen) merged /\
  (forall item, item ∈ items -> tool_name item <> "" -> tool_name item ∉ seen ->
     tool_name item ∈ map tool_name merged).
Proof.
  cbv zeta. revert seen. induction items as [|item rest IH]; intros seen.
  { simpl. split_and!; [done | constructor | constructor |].
    by intros item ?%elem_of_nil. }
  cbn [Engine.merge_tools]. cbv zeta. fold (tool_name item).
  destruct (truthy (tool_name item)) eqn:Ht; cbn [negb orb].
  - case_bool_decide as Hseen.
    + destruct (IH seen) as (Hsub & Hnd & Hall & Hin).
      split_and!; [by apply sublist_cons | done | done |].
      intros x Hx Hne Hns. apply elem_of_cons in Hx as [->|Hx]; [done|]. by apply Hin.
    + destruct (IH (tool_name item :: seen)) as (Hsub & Hnd & Hall & Hin).
      split_and!.
      * by apply sublist_skip.
      * simpl. apply NoDup_cons. split; [|done].
        intros Hdup. apply list_elem_of_In, in_map_iff in Hdup as (y & Hy & Hyin).
        apply list_elem_of_In in Hyin.
        rewrite Forall_forall in Hall. destruct (Hall y Hyin) as [_ Hnot].
        apply Hnot. rewrite Hy. apply list_elem_of_here.
      * constructor; [split; [by apply truthy_ne | done]|].
        eapply Forall_impl; [exact Hall|]. intros y [Hne Hnot]. split; [done|].
        intros Hy. apply Hnot. by apply list_elem_of_further.
      * intros x Hx Hne Hns. simpl.
        destruct (decide (tool_name x = tool_name item)) as [->|Hneq];
          [apply list_elem_of_here|].
        apply list_elem_of_further.
        apply elem_of_cons in Hx as [->|Hx]; [done|].
        apply Hin; [done | done |].
        intros [?|?]%elem_of_cons; done.
  - destruct (IH seen) as (Hsub & Hnd & Hall & Hin).
    split_and!; [by apply sublist_cons | done | done |].
    intros x Hx Hne Hns. apply elem_of_cons in Hx as [->|Hx]; [|by apply Hin].
    apply truthy_ne in Hne. congruence.
Qed.

(** The loop over two lists, one after the other. *)
Lemma merge_tools_app items1 items2 seen :
  Engine.merge_tools (items1 ++ items2) seen
  = Engine.merge_tools items1 seen
    ++ Engine.merge_tools items2
         (rev (map tool_name (Engine.merge_tools items1 seen)) ++ seen).
Proof.
  revert seen. induction items1 as [|item rest IH]; intros seen; [done|].
  cbn [app Engine.merge_tools]. cbv zeta. fold (tool_name item).
  destruct (negb (truthy (tool_name item)) || bool_decide (tool_name item ∈ seen)).
  - apply IH.
  - rewrite IH. cbn [app map rev]. by rewrite <- !app_assoc.
Qed.

End ToolsMore.

(** X10. The list of tools offered to a model: the local definitions come
    first and the remote ones after them, both in their order; no definition
    without a name is kept and no name is kept twice, the first definition of
    a name winning, so that a local tool is never displaced by a remote tool
    of its name; and every name given, if not empty, is offered. *)
Theorem X10_merge_tool_definitions_local_first :
  forall (local_tools mcp_tools : list OpenAITool),
    let merged := Engine._merge_tool_definitions local_tools mcp_tools in
    let name item := PyStr.or_else (ot_name item) "" in
    sublist merged (local_tools ++ mcp_tools) /\
    NoDup (map name merged) /\
    Forall (fun item => name item <> "") merged /\
    (forall item, item ∈ local_tools ++ mcp_tools -> name item <> "" ->
       name item ∈ map name merged) /\
    (exists remote,
       merged = Engine._merge_tool_definitions local_tools [] ++ remote /\
       sublist remote mcp_tools /\
       Forall (fun item => name item ∉ map name local_tools) remote).
Proof.
  intros local_tools mcp_tools merged name. subst merged.
  unfold Engine._merge_tool_definitions.
  destruct (ToolsMore.merge_tools_spec (local_tools ++ mcp_tools) [])
    as (Hsub & Hnd & Hall & Hin).
  split_and!; [done | done | | |].
  - eapply Forall_impl; [exact Hall|]. by intros item [? _].
  - intros item Hitem Hne. apply Hin; [done | done |]. by intros ?%elem_of_nil.
  - rewrite app_nil_r, ToolsMore.merge_tools_app.
    eexists. split; [reflexivity|].
    set (seen := rev _ ++ []).
    destruct (ToolsMore.merge_tools_spec mcp_tools seen) as (Hsub2 & _ & Hall2 & _).
    split; [done|].
    apply Forall_forall. intros item Hitem Hlocal.
    rewrite Forall_forall in Hall2. destruct (Hall2 item Hitem) as [Hne Hnot].
    apply Hnot. subst seen. rewrite app_nil_r.
    apply list_elem_of_In. apply -> in_rev. apply list_elem_of_In.
    apply list_elem_of_In, in_map_iff in Hlocal as (l & Hl & Hlin).
    apply list_elem_of_In in Hlin.
    destruct (ToolsMore.merge_tools_spec local_tools []) as (_ & _ & _ & Hin1).
    change (ToolsMore.tool_name l = ToolsMore.tool_name item) in Hl.
    change (ToolsMore.tool_name item
              ∈ map ToolsMore.tool_name (Engine.merge_tools local_tools [])).
    rewrite <- Hl.
    apply Hin1; [done | by rewrite Hl | by intros ?%elem_of_nil].
Qed.

(** X11. The context built from a history: it opens with the system prompt,
    if one is given, and the memory summary, if one is given, in that order;
    then comes one message for each row whose role is one of user, assistant,
    tool and system, in the order of the rows, rows of any other role being
    left out.  No message carries another role; only assistant messages carry
    tool calls, and only tool messages carry a tool-call id. *)
Theorem X11_build_llm_messages_shape :
  forall (history_rows : list LLMMessage) (system_prompt summary_text : option string),
    let messages := Engine._build_llm_messages history_rows system_prompt summary_text in
    let kept := List.filter (fun row => known_role (m_role row)) history_rows in
    (exists header,
       messages = header ++ flat_map Engine.history_message history_rows /\
       map cm_role header
         = (if PyStr.otruthy system_prompt then ["system"] else [])
           ++ (if PyStr.otruthy summary_text then ["system"] else []) /\
       (PyStr.otruthy system_prompt = true ->
          exists rest, header = mkChatMsg "system" (PyStr.or_else system_prompt "")
                                  None None :: rest)) /\
    map (fun m => (cm_role m, cm_content m))
        (flat_map Engine.history_message history_rows)
      = map (fun row => (m_role row, PyStr.or_else (m_content row) "")) kept /\
    Forall (fun m =>
              known_role (cm_role m) = true /\
              (cm_tool_calls m <> None -> cm_role m = "assistant") /\
              (cm_tool_call_id m <> None -> cm_role m = "tool"))
      messages.
Proof.
  intros history_rows system_prompt summary_text messages kept.
  subst messages kept. unfold Engine._build_llm_messages.
  assert (Hbody : Forall (fun m =>
              known_role (cm_role m) = true /\
              (cm_tool_calls m <> None -> cm_role m = "assistant") /\
              (cm_tool_call_id m <> None -> cm_role m = "tool"))
            (flat_map Engine.history_message history_rows)).
  { induction history_rows as [|row rows IH]; [constructor|].
    simpl. apply Forall_app. split; [|done].
    unfold Engine.history_message.
    destruct (known_role (m_role row)) eqn:Hk; simpl; [|constructor].
    constructor; [|constructor]. simpl. split_and!; [done | |].
    - by case_bool_decide.
    - case_bool_decide; [done|]. by simpl. }
  split_and!.
  - eexists. split; [reflexivity|]. unfold Memory.apply_memory.
    destruct (PyStr.otruthy system_prompt), (PyStr.otruthy summary_text);
      split; try done; intros _; by eexists.
  - clear Hbody. induction history_rows as [|row rows IH]; [done|].
    simpl. rewrite map_app, IH. unfold Engine.history_message.
    by destruct (known_role (m_role row)).
  - apply Forall_app. split; [|done]. unfold Memory.apply_memory.
    destruct (PyStr.otruthy system_prompt), (PyStr.otruthy summary_text);
      repeat constructor; done.
Qed.

(** X12. A name is registered once: registering a tool under a name that
    is free adds it after the tools registered before and leaves every other
    entry as it was; registering under a name that is taken is refused with
    code 10005 and changes nothing, so that a tool once registered is never
    replaced. *)
Theorem X12_register_never_replaces :
  forall (S : Type) (tool : Tools.ToolDefinition (S := S))
         (_tools : PyDict.t (Tools.ToolDefinition (S := S))),
    match Tools.register tool _tools with
    | Ok _tools' =>
        PyDict.get _tools (Tools.td_name tool) = None /\
        PyDict.get _tools' (Tools.td_name tool) = Some tool /\
        (forall name, name <> Tools.td_name tool ->
           PyDict.get _tools' name = PyDict.get _tools name) /\
        PyDict.keys _tools' = PyDict.keys _tools ++ [Tools.td_name tool] /\
        (forall other, Tools.td_name other = Tools.td_name tool ->
           Tools.register other _tools'
           = Raise (CustomException None
                      ("工具 " +:+ Tools.td_name tool +:+ " 已存在") 10005))
    | Raise e =>
        is_Some (PyDict.get _tools (Tools.td_name tool)) /\
        e = CustomException None ("工具 " +:+ Tools.td_name tool +:+ " 已存在") 10005
    end.
Proof.
  intros S tool _tools. unfold Tools.register.
  destruct (PyDict.get _tools (Tools.td_name tool)) eqn:E; [by split; [eexists|]|].
  split_and!; [done | by apply PyDict.get_add_eq | | |].
  - intros name Hne. by apply PyDict.get_add_ne.
  - unfold PyDict.keys, PyDict.add. by rewrite fmap_app.
  - intros other ->. by rewrite PyDict.get_add_eq.
Qed.

Section ListTools.
Context {S : Type}.
Implicit Types _tools : PyDict.t (Tools.ToolDefinition (S := S)).

Definition definition_of (tool : Tools.ToolDefinition (S := S)) : OpenAITool :=
  mkOpenAITool (Some (Tools.td_name tool)) (Tools.td_description tool)
    (Tools.td_parameters tool).

Lemma openai_tools_of_all _tools names defs :
  Forall2 (fun name tool => PyDict.get _tools name = Some tool) names defs ->
  Tools.openai_tools_of _tools names = Ok (map definition_of defs).
Proof.
  induction 1 as [|name tool names defs Hlook _ IH]; [done|].
  simpl. by rewrite Hlook, IH.
Qed.

Lemma openai_tools_of_missing _tools pre name post :
  Forall (fun x => is_Some (PyDict.get _tools x)) pre ->
  PyDict.get _tools name = None ->
  Tools.openai_tools_of _tools (pre ++ name :: post)
  = Raise (Tools.unregistered_tool_error name).
Proof.
  intros Hpre Hname. induction Hpre as [|x pre [tool Hx] _ IH]; simpl.
  - by rewrite Hname.
  - by rewrite Hx, IH.
Qed.

(** Every key of the registry has a tool. *)
Lemma keys_registered _tools :
  exists defs,
    Forall2 (fun name tool => PyDict.get _tools name = Some tool)
      (PyDict.keys _tools) defs.
Proof.
  assert (H : Forall (fun name => is_Some (PyDict.get _tools name))
                (PyDict.keys _tools)).
  { apply Forall_forall. intros name Hin. by apply PyDict.get_is_Some. }
  induction H as [|name names [tool Htool] _ [defs IH]]; [by exists []|].
  exists (tool :: defs). by constructor.
Qed.

End ListTools.

(** X13. Listing tools by name.  For a list of names that is not empty the
    answer holds one definition per name, in the order of the names, when all
    of them are registered, and the call fails with code 10002, naming the
    first name that is not registered, otherwise.  Listing without names never
    fails and gives one definition per registered tool, in the order of
    registration. *)
Theorem X13_list_openai_tools_by_name :
  forall (S : Type) (_tools : PyDict.t (Tools.ToolDefinition (S := S)))
         (names : list string),
    (names <> [] -> forall defs,
       Forall2 (fun name tool => PyDict.get _tools name = Some tool) names defs ->
       Tools.list_openai_tools _tools (Some names) = Ok (map definition_of defs)) /\
    (forall pre name post,
       names = pre ++ name :: post ->
       Forall (fun x => is_Some (PyDict.get _tools x)) pre ->
       PyDict.get _tools name = None ->
       Tools.list_openai_tools _tools (Some names)
       = Raise (CustomException None ("工具 " +:+ name +:+ " 未注册") 10002)) /\
    (exists defs,
       Tools.list_openai_tools _tools None = Ok (map definition_of defs) /\
       Tools.list_openai_tools _tools (Some []) = Ok (map definition_of defs) /\
       Forall2 (fun name tool => PyDict.get _tools name = Some tool)
         (PyDict.keys _tools) defs /\
       length (map definition_of defs) = length _tools).
Proof.
  intros S _tools names. split_and!.
  - intros Hne defs Hall. unfold Tools.list_openai_tools.
    destruct names as [|n ns]; [done|]. by apply openai_tools_of_all.
  - intros pre name post -> Hpre Hname. unfold Tools.list_openai_tools.
    destruct (pre ++ name :: post) as [|n ns] eqn:E; [by destruct pre|].
    rewrite <- E. by apply openai_tools_of_missing.
  - unfold Tools.list_openai_tools.
    destruct (keys_registered _tools) as [defs Hall].
    rewrite (openai_tools_of_all _ _ _ Hall).
    exists defs. split_and!; [reflexivity | reflexivity | exact Hall |].
    apply Forall2_length in Hall.
    rewrite length_map, <- Hall. unfold PyDict.keys. by rewrite length_fmap.
Qed.

(** X14. A remote tool reached over HTTP does not make the call raise.
    The arguments of a call with a name are parsed first: an exception of
    [json.loads] other than [JSONDecodeError] leaves the adapter before any
    server is looked up.  Once the arguments are parsed, for a call routed
    to a server that is enabled, uses the [http] transport and has an
    endpoint, the adapter returns a result in every case: a transport error,
    a response with a status of 400 or more, and a body that is not JSON
    each give a result with [ok = false]; only a response below 400 with a
    JSON body gives [ok = true].  The result names the tool, and it bears
    the id of the call when the call has one. *)
Theorem X14_mcp_http_failures_become_results :
  forall (S : Type) (json_loads : string -> Loads) (json_dumps : Json -> string)
         (exc_str : Exc -> string) (uuid4_hex : S -> string * S)
         (_find_server_by_tool_name : Z -> string -> S ->
                                      Result (option Tools.MCPServer) * S)
         (http_post : string -> Z -> Json -> S -> Result Tools.HttpResponse * S)
         (owner_id : Z) (tool_call : ToolCall) (s : S)
         (server_row : Tools.MCPServer) (s1 : S),
    let tool_name := PyStr.strip (PyStr.or_else (tc_name tool_call) "") in
    let endpoint := PyStr.strip (PyStr.or_else (Tools.ms_endpoint server_row) "") in
    let timeout :=
      Z.max 1 (if Tools.ms_timeout_seconds server_row =? 0 then 30
               else Tools.ms_timeout_seconds server_row) in
    let id_step := Tools.call_id_of uuid4_hex "mcp_toolcall_" tool_call s in
    let outcome :=
      Tools.mcp_execute_tool_call json_loads json_dumps exc_str uuid4_hex
        _find_server_by_tool_name http_post owner_id tool_call s in
    tool_name <> "" ->
    match Tools.parse_arguments json_loads (Tools.arguments_text_of tool_call) with
    | Raise exc => outcome = (Raise exc, id_step.2)
    | Ok arguments =>
        let payload :=
          JDict [("tool_name", JStr tool_name); ("arguments", arguments);
                 ("server_id", JStr (Tools.server_id server_row))] in
        _find_server_by_tool_name owner_id tool_name id_step.2
          = (Ok (Some server_row), s1) ->
        Tools.ms_enabled server_row = true ->
        PyStr.lower (if PyStr.truthy (Tools.ms_transport server_row)
                     then Tools.ms_transport server_row else "http") = "http" ->
        endpoint <> "" ->
        exists result,
          outcome = (Ok result, (http_post endpoint timeout payload s1).2) /\
          tr_tool_name result = tool_name /\
          tr_arguments result = arguments /\
          (PyStr.otruthy (tc_id tool_call) = true ->
             tc_id tool_call = Some (tr_tool_call_id result)) /\
          tr_ok result
            = match (http_post endpoint timeout payload s1).1 with
              | Ok resp =>
                  (Tools.status_code resp <? 400) && is_ok (Tools.resp_json resp)
              | Raise _ => false
              end
    end.
Proof.
  intros S json_loads json_dumps exc_str uuid4_hex _find_server_by_tool_name http_post
    owner_id tool_call s server_row s1 tool_name endpoint timeout id_step outcome
    Hname.
  subst outcome. unfold Tools.mcp_execute_tool_call.
  pose proof (Tools.call_id_of_given uuid4_hex "mcp_toolcall_" tool_call s) as Hid.
  fold id_step in Hid |- *. destruct id_step as [call_id s0].
  cbn [snd]. fold tool_name.
  apply PyStr.truthy_ne in Hname. rewrite Hname. cbn [negb].
  destruct (Tools.parse_arguments json_loads (Tools.arguments_text_of tool_call))
    as [arguments|exc]; [|done].
  cbv beta iota.
  set (payload := JDict [("tool_name", JStr tool_name); ("arguments", arguments);
                         ("server_id", JStr (Tools.server_id server_row))]).
  intros Hfind Henabled Htransport Hendpoint.
  rewrite Hfind, Henabled. cbn [negb].
  rewrite Htransport.
  change (bool_decide ("http" = "mock")) with false.
  change (bool_decide ("http" = "http")) with true. cbv iota.
  fold endpoint. apply PyStr.truthy_ne in Hendpoint. rewrite Hendpoint. cbn [negb].
  fold timeout payload.
  assert (Hgiven : PyStr.otruthy (tc_id tool_call) = true ->
                   tc_id tool_call = Some call_id).
  { intros Hg. by destruct (Hid Hg) as [[= <- _] Hs]. }
  destruct (http_post endpoint timeout payload s1) as [[resp|exc] s2]; cbn [fst snd].
  - destruct (Z.leb_spec 400 (Tools.status_code resp)) as [Hs|Hs].
    + eexists. split; [reflexivity|]. cbn.
      split_and!; [done | done | exact Hgiven |].
      destruct (Z.ltb_spec (Tools.status_code resp) 400); [lia | done].
    + destruct (Tools.resp_json resp) as [value|exc]; eexists;
        (split; [reflexivity|]); cbn;
        (split_and!; [done | done | exact Hgiven |]);
        destruct (Z.ltb_spec (Tools.status_code resp) 400); done || lia.
  - eexists. split; [reflexivity|]. cbn.
    split_and!; [done | done | exact Hgiven | done].
Qed.

(** X14, witness: a server that refuses the connection.  The call returns
    a result that is not ok and bears the id of the call. *)
Lemma X14_witness_refused_connection_is_a_result :
  exists result,
    Tools.mcp_execute_tool_call scenario_loads scenario_dumps
      scenario_exc_str (fun w : nat => ("0f", w))
      (fun _ _ w =>
         (Ok (Some (Tools.mkMCPServer "srv_1" "http"
                      (Some "https://mcp.example/call") 0 true)), w))
      (fun _ _ _ w => (Raise (OtherException "ConnectError" "refused"), w))
      7 (mkToolCall (Some "call_a") (Some "get_weather") (Some (ArgText "{}"))) 0%nat
    = (Ok result, 0%nat) /\
    tr_ok result = false /\ tr_tool_call_id result = "call_a".
Proof.
  pose proof (X14_mcp_http_failures_become_results nat scenario_loads
              scenario_dumps scenario_exc_str (fun w : nat => ("0f", w))
              (fun _ _ w =>
                 (Ok (Some (Tools.mkMCPServer "srv_1" "http"
                              (Some "https://mcp.example/call") 0 true)), w))
              (fun _ _ _ w => (Raise (OtherException "ConnectError" "refused"), w))
              7 (mkToolCall (Some "call_a") (Some "get_weather") (Some (ArgText "{}"))) 0%nat
              (Tools.mkMCPServer "srv_1" "http" (Some "https://mcp.example/call")
                 0 true) 0%nat ltac:(vm_compute; discriminate)) as H.
  change (Tools.parse_arguments scenario_loads
            (Tools.arguments_text_of
               (mkToolCall (Some "call_a") (Some "get_weather") (Some (ArgText "{}")))))
    with (Ok (A := Json) (JDict [])) in H.
  cbv beta iota zeta in H.
  destruct (H eq_refl eq_refl eq_refl ltac:(vm_compute; discriminate))
    as (result & Hrun & _ & _ & Hid & Hok).
  exists result. split; [exact Hrun|]. split; [exact Hok|].
  specialize (Hid eq_refl). by injection Hid as <-.
Defined.

(** X15. Where a tool call goes.  A call without a name is refused with
    code 10005.  A call that names a tool of the local registry is run there,
    and the remote adapter is not consulted, even if a remote tool bears the
    same name; such a call returns a result unless parsing its arguments
    raises, in which case that exception is the outcome and the tool is not
    run.  A call that names a tool the local registry does not know is
    handed to the remote adapter, whose result or error is the outcome. *)
Theorem X15_dispatch_prefers_local_tool :
  forall (W Temperature : Type) (svc : Engine.Services W Temperature)
         (owner_id : Z) (tool_call : ToolCall) (st : Engine.State),
    let name := PyStr.or_else (tc_name tool_call) "" in
    let marked := Engine.log (Engine.EvToolCall tool_call) st in
    let after_id :=
      (Tools.call_id_of (Engine.call_total (Engine.uuid4_hex svc)) "toolcall_"
         tool_call marked).2 in
    (PyStr.otruthy (tc_name tool_call) = false ->
       Engine.dispatch_tool_call svc owner_id tool_call st
       = (Raise Tools.missing_name_error, after_id)) /\
    (PyStr.otruthy (tc_name tool_call) = true ->
       is_Some (PyDict.get (Engine.tool_registry svc) name) ->
       Engine.dispatch_tool_call svc owner_id tool_call st
         = Engine.registry_execute_tool_call svc tool_call marked /\
       match Tools.parse_arguments (Engine.json_loads svc)
               (Tools.arguments_text_of tool_call) with
       | Ok _ => is_ok (Engine.dispatch_tool_call svc owner_id tool_call st).1 = true
       | Raise exc =>
           Engine.dispatch_tool_call svc owner_id tool_call st = (Raise exc, after_id)
       end) /\
    (PyStr.otruthy (tc_name tool_call) = true ->
       PyDict.get (Engine.tool_registry svc) name = None ->
       Engine.dispatch_tool_call svc owner_id tool_call st
       = Engine.mcp_execute_tool_call svc owner_id tool_call after_id).
Proof.
  intros W Temperature svc owner_id tool_call st name marked after_id.
  unfold Engine.dispatch_tool_call. fold marked.
  unfold Engine.registry_execute_tool_call, Tools.execute_tool_call.
  subst after_id.
  destruct (Tools.call_id_of (Engine.call_total (Engine.uuid4_hex svc)) "toolcall_"
              tool_call marked) as [call_id s1].
  cbn [snd]. fold name. rewrite PyDict.get_map_values.
  split_and!.
  - by intros ->.
  - intros -> [tool Htool]. rewrite Htool. cbn [negb fmap option_fmap option_map].
    pose proof (Tools.parse_arguments_raises (Engine.json_loads svc)
                  (Tools.arguments_text_of tool_call)) as Hexc.
    destruct (Tools.parse_arguments (Engine.json_loads svc)
                (Tools.arguments_text_of tool_call)) as [arguments|exc].
    + destruct (Tools.td_executor (Engine.lift_tool tool) arguments s1)
        as [[[v|ty]|e] s2]; by cbn.
    + destruct (Hexc exc eq_refl) as (cls & message & ->). done.
  - intros -> Hnone. rewrite Hnone. by cbn.
Qed.

(** X16. The fallback loop stops at the first error that is not classified
    as transient.  If the candidates before [ck] fail in turn with transient
    errors, [ck] is resolved, and the tool loop run on it raises an error [e]
    that [_is_fallback_candidate_error] rejects, then the whole run raises
    [e] in the state that attempt left: no later candidate is tried. *)
Theorem X16_fallback_stops_at_first_other_error :
  forall (W Temperature : Type) (project_config : Config)
         (svc : Engine.Services W Temperature)
         (llm_messages : list ChatMsg) (primary_provider primary_model : string)
         (temperature : option Temperature) (tools : list OpenAITool)
         (max_tool_steps owner_id : Z)
         (pre : list string) (ck : string) (post : list string)
         (st st_k st' : Engine.State) (last : option Exc)
         (candidate_config : Providers.ProviderConfig) (candidate_model : string)
         (e : Exc),
    Providers._provider_candidates project_config primary_provider
      = pre ++ ck :: post ->
    Engine.fail_in_turn project_config svc llm_messages primary_provider
      primary_model temperature tools max_tool_steps owner_id pre st None st_k last ->
    Providers.resolve_provider project_config (Some ck)
      (Engine.model_for_candidate primary_provider primary_model ck) true
      = Ok (candidate_config, candidate_model) ->
    Engine._run_completion_with_tools svc llm_messages
      (Providers.pc_provider candidate_config) candidate_model temperature
      tools max_tool_steps owner_id st_k = (Raise e, st') ->
    Providers._is_fallback_candidate_error e = false ->
    Engine._run_completion_with_fallback project_config svc llm_messages
      primary_provider primary_model temperature tools max_tool_steps owner_id st
    = (Raise e, st').
Proof.
  intros W Temperature project_config svc llm_messages primary_provider primary_model
         temperature tools max_tool_steps owner_id pre ck post st st_k st' last
         candidate_config candidate_model e Hchain Hfail Hres Hrun Hcls.
  destruct (Providers.provider_candidates_spec project_config primary_provider)
    as (Hne & Hnd & Hnorm & Hhead & Hnames).
  assert (Hgood : Forall Engine.good_name pre).
  { rewrite Hchain in Hnorm, Hnames.
    apply Forall_app in Hnorm as [Hnorm _].
    destruct Hnames as [Hnames|Heq].
    - apply Forall_app in Hnames as [Hnames _].
      apply Forall_forall. intros c Hc. split.
      + rewrite Forall_forall in Hnames. by apply Hnames.
      + rewrite Forall_forall in Hnorm. by apply Hnorm.
    - destruct pre as [|p pre]; [constructor|].
      destruct pre; simplify_eq. }
  unfold Engine._run_completion_with_fallback. rewrite Hchain.
  rewrite (Engine.fallback_loop_skip _ _ _ _ _ _ _ _ _ _ _ _ _ _ _ _ _ Hgood Hfail).
  cbn [Engine.fallback_loop]. unfold Engine.model_for_candidate in Hres.
  rewrite Hres, Hrun, Hcls. done.
Qed.

(** X16, witness: the primary provider [openai] answers with two tool calls,
    one of them for a tool registered nowhere; the error ends the run and
    the alternates are not tried. *)
Lemma X16_witness_unregistered_tool_is_not_retried :
  exists e st',
    Engine._run_completion_with_fallback scenario_config
      (Scenario.svc_two_calls "get_weather") Scenario.hello "openai" "gpt-4o-mini"
      None [] 4 7 Scenario.start
    = (Raise e, st') /\
    Engine.ext st' = 1%nat.
Proof.
  eexists _, _. split.
  - eapply (X16_fallback_stops_at_first_other_error nat unit scenario_config
              (Scenario.svc_two_calls "get_weather") Scenario.hello
              "openai" "gpt-4o-mini" None [] 4 7 [] "openai");
      [ vm_compute; reflexivity
      | apply Engine.fail_in_turn_nil
      | vm_compute; reflexivity
      | vm_compute; reflexivity
      | vm_compute; reflexivity ].
  - reflexivity.
Defined.

(* ===================================================================== *)
(** * More on the memory of a conversation ([memory_service.py])          *)
(* ===================================================================== *)

Module MemoryMore.
Import PyStr Memory.

(** [l[-n:]] holds at most [n] items. *)
Lemma slice_from_negative_length {A} (l : list A) (n : Z) :
  0 < n -> Z.of_nat (length (slice_from l (- n))) <= n.
Proof.
  intros Hn. unfold slice_from, slice_index. rewrite length_drop.
  destruct (Z.ltb_spec (- n) 0); lia.
Qed.

(** [l[a:b]] for [0 <= a <= b <= len l] holds [b - a] items, and [l[a:]]
    holds the rest. *)
Lemma slice_from_length {A} (l : list A) (a : Z) :
  0 <= a <= Z.of_nat (length l) ->
  Z.of_nat (length (slice_from l a)) = Z.of_nat (length l) - a.
Proof.
  intros Ha. unfold slice_from, slice_index. rewrite length_drop.
  destruct (Z.ltb_spec a 0); lia.
Qed.

Definition role_length_bound : Z := 9.

Lemma append_assoc (a b c : string) : (a +:+ b) +:+ c = a +:+ b +:+ c.
Proof.
  induction a as [|x a IH]; [done|].
  change (String x ((a +:+ b) +:+ c) = String x (a +:+ b +:+ c)).
  by rewrite IH.
Qed.

Lemma known_role_length role : known_role role = true -> len role <= role_length_bound.
Proof.
  unfold known_role. intros H.
  repeat (apply orb_true_iff in H as [H|H]);
    apply bool_decide_eq_true in H; subst; vm_compute; discriminate.
Qed.

(** Each line of the transcript is a known role, a colon and at most 1000
    characters of content; there is at most one line per row. *)
Lemma transcript_lines_spec rows :
  (length (transcript_lines rows) <= length rows)%nat /\
  Forall (fun line =>
            exists role content,
              line = role +:+ ": " +:+ content /\
              known_role role = true /\ len content <= 1000)
    (transcript_lines rows).
Proof.
  induction rows as [|row rows [IHl IHf]]; [split; [done | constructor]|].
  cbn [transcript_lines]. cbv zeta.
  destruct (known_role (lower (strip (m_role row)))) eqn:Hk; cbn [negb].
  2:{ split; [simpl; lia | done]. }
  destruct (negb (truthy (strip (or_else (m_content row) "")))
            && negb (bool_decide (lower (strip (m_role row)) = "assistant"))).
  { split; [simpl; lia | done]. }
  split; [simpl; lia|]. constructor; [|done].
  eexists _, _. split_and!; [reflexivity | done |].
  destruct (Z.ltb_spec 1000 (len (strip (or_else (m_content row) ""))));
    [|lia].
  pose proof (slice_length (strip (or_else (m_content row) "")) 0 1000
                ltac:(lia) ltac:(lia)). unfold prefix. lia.
Qed.

End MemoryMore.

(** X17. The prompt sent to the summariser is bounded whatever the size of
    the history: it is a system message followed by one user message, whose
    text ends with a transcript of at most 80 lines, one for each of the last
    80 rows at most, each line being a known role, a colon and at most 1000
    characters of content. *)
Theorem X17_summary_prompt_is_bounded :
  forall (existing_summary : option string) (rows : list LLMMessage),
    exists instructions lines,
      Memory._build_summary_prompt existing_summary rows
      = [ mkChatMsg "system"
            "你是会话记忆压缩器，只输出可复用的结构化摘要，不输出多余解释。" None None;
          mkChatMsg "user" (instructions +:+ PyStr.join nl lines) None None ] /\
      (length lines <= 80)%nat /\
      (length lines <= length rows)%nat /\
      Forall (fun line =>
                exists role content,
                  line = role +:+ ": " +:+ content /\
                  known_role role = true /\ PyStr.len role <= 9 /\
                  PyStr.len content <= 1000)
        lines /\
      (forall existing, existing_summary = Some existing ->
         PyStr.contains existing instructions = true).
Proof.
  intros existing_summary rows. unfold Memory._build_summary_prompt.
  set (recent := PyStr.slice_from rows (-80)).
  destruct (MemoryMore.transcript_lines_spec recent) as [Hlen Hall].
  assert (Hrecent : Z.of_nat (length recent) <= 80)
    by exact (MemoryMore.slice_from_negative_length rows 80 ltac:(lia)).
  assert (Hsub : (length recent <= length rows)%nat).
  { subst recent. unfold PyStr.slice_from. rewrite length_drop. lia. }
  assert (Hlines : Forall (fun line =>
                exists role content,
                  line = role +:+ ": " +:+ content /\
                  known_role role = true /\ PyStr.len role <= 9 /\
                  PyStr.len content <= 1000)
            (Memory.transcript_lines recent)).
  { eapply Forall_impl; [exact Hall|]. intros line (role & content & -> & Hk & Hc).
    exists role, content. split_and!; [done | done | | done].
    by apply MemoryMore.known_role_length. }
  destruct existing_summary as [existing|].
  - exists ("请将【已有摘要】与【新增对话】融合为新的长期记忆，输出中文，要求：" +:+ nl +:+
            Memory.summary_requirements +:+
            "【已有摘要】" +:+ nl +:+ existing +:+ nl +:+ nl +:+
            "【新增对话】" +:+ nl), (Memory.transcript_lines recent).
    split_and!.
    + by rewrite !MemoryMore.append_assoc.
    + lia.
    + lia.
    + done.
    + intros ? [= <-]. do 5 apply PyStr.contains_weaken_l.
      apply PyStr.contains_prefix.
  - exists ("请将下面对话整理成长期记忆摘要，输出中文，要求：" +:+ nl +:+
            Memory.summary_requirements +:+
            "【对话内容】" +:+ nl), (Memory.transcript_lines recent).
    split_and!.
    + by rewrite !MemoryMore.append_assoc.
    + lia.
    + lia.
    + done.
    + done.
Qed.

(** X18. What a refresh leaves behind.  Either nothing is written (the
    conversation is as before and the stored summary comes back with the
    stored count, as it is or clipped to the history), or a summary was produced, and
    then: the stored summary is not empty and at most
    [max(500, LLM_MEMORY_SUMMARY_MAX_CHARS)] characters long, the stored
    count is the number of rows of the history less the
    [keep_recent] most recent ones, with [keep_recent] between 4 and 100,
    the history trimmed by that count holds exactly [keep_recent] rows, and
    the call returns the summary and the count unless the flush raised. *)
Theorem X18_refresh_writes_bounded_summary :
  forall (W Temperature : Type) (project_config : Config)
         (chat_completion : list ChatMsg -> string -> string ->
                            option Temperature -> W -> Result Completion * W)
         (summary_temperature : Temperature)
         (now_timestamp : W -> Z) (db_flush : W -> Result unit * W)
         (conversation : LLMConversation) (history_rows : list LLMMessage)
         (provider model : string) (w : W),
    let out :=
      Memory.maybe_refresh_summary project_config chat_completion
        summary_temperature now_timestamp db_flush
        conversation history_rows provider model w in
    let conversation' := out.1.2 in
    let keep_recent :=
      Z.max 4 (Z.min (LLM_MEMORY_KEEP_RECENT_MESSAGES project_config) 100) in
    let cutoff := Z.of_nat (length history_rows) - keep_recent in
    (conversation' = conversation /\
     exists n,
       out.1.1 = Ok ((Memory.get_memory_state conversation).1, n) /\
       (n = Memory.stored_count conversation \/
        n = Z.min (Memory.stored_count conversation)
              (Z.of_nat (length history_rows))))
    \/
    (exists content,
       memory_summary (extra_config conversation') = Some content /\
       memory_message_count (extra_config conversation') = Some cutoff /\
       PyStr.truthy content = true /\
       PyStr.len content
         <= Z.max 500 (LLM_MEMORY_SUMMARY_MAX_CHARS project_config) /\
       4 <= keep_recent <= 100 /\
       6 <= cutoff /\
       Z.of_nat (length (Memory.trim_history_rows history_rows cutoff))
         = keep_recent /\
       (out.1.1 = Ok (Some content, cutoff) \/ exists e, out.1.1 = Raise e)).
Proof.
  intros. subst out conversation' cutoff keep_recent.
  unfold Memory.maybe_refresh_summary, Memory.stored_count.
  destruct (Memory.get_memory_state conversation) as [summary_text count] eqn:Hst.
  assert (Hc : 0 <= count).
  { unfold Memory.get_memory_state in Hst. injection Hst as _ <-. lia. }
  cbn [fst snd].
  set (hs := Z.of_nat (length history_rows)).
  assert (Hhs : 0 <= hs) by (subst hs; lia).
  set (keep := Z.max 4 (Z.min (LLM_MEMORY_KEEP_RECENT_MESSAGES project_config) 100)).
  assert (Hclip : conversation = conversation /\
            exists n, Ok (summary_text, Z.max 0 (Z.min count hs))
                      = Ok (summary_text, n) /\
                      (n = count \/ n = Z.min count hs)).
  { split; [done|]. eexists. split; [done|]. right. lia. }
  destruct (negb (LLM_MEMORY_ENABLE project_config)); cbn [fst snd].
  { left. split; [done|]. eauto. }
  destruct (bool_decide (history_rows = [])); cbn [fst snd].
  { left. split; [done|]. eauto. }
  destruct (Z.ltb_spec (Z.max 0 (Z.max 0 (hs - keep) - Z.max 0 (Z.min count hs)))
              (Z.max 6 (LLM_MEMORY_SUMMARY_TRIGGER_MESSAGES project_config)))
    as [Hlt|Hge]; cbn [fst snd].
  { by left. }
  destruct (bool_decide (_ = [])); cbn [fst snd].
  { by left. }
  destruct (chat_completion _ _ _ _ w) as [[completion|e] w1]; cbn [fst snd];
    [|by left].
  destruct (PyStr.truthy (PyStr.strip (_to_text (c_content completion))))
    eqn:Htruthy; cbn [negb fst snd].
  2:{ by left. }
  right.
  set (text := PyStr.strip (_to_text (c_content completion))) in *.
  set (max_chars := Z.max 500 (LLM_MEMORY_SUMMARY_MAX_CHARS project_config)).
  set (content := if max_chars <? PyStr.len text
                  then PyStr.prefix text max_chars else text).
  assert (Hcut : 6 <= hs - keep) by lia.
  assert (Hmax : Z.max 0 (hs - keep) = hs - keep) by lia.
  rewrite Hmax.
  exists content.
  assert (Htrim : Z.of_nat (length (Memory.trim_history_rows history_rows (hs - keep)))
                  = keep).
  { unfold Memory.trim_history_rows.
    destruct (Z.leb_spec (hs - keep) 0); [lia|].
    fold hs. rewrite MemoryMore.slice_from_length; fold hs; lia. }
  assert (Hcontent : PyStr.truthy content = true /\ PyStr.len content <= max_chars).
  { subst content. destruct (Z.ltb_spec max_chars (PyStr.len text)).
    - split; [apply PyStr.prefix_truthy; [lia | done]|].
      pose proof (PyStr.slice_length text 0 max_chars ltac:(lia) ltac:(lia)).
      unfold PyStr.prefix. lia.
    - done. }
  destruct Hcontent as [Ht Hl].
  destruct (db_flush w1) as [[[]|e] w2]; cbn [fst snd];
    (split_and!; [done | done | done | done | lia | lia | done | done | ]);
    eauto.
Qed.

(** X19. When a refresh does nothing, and what it swallows.  With memory
    disabled or an empty history the stored state comes back as it is and
    nothing is called.  With memory enabled, when fewer than
    [max(6, LLM_MEMORY_SUMMARY_TRIGGER_MESSAGES)] rows lie between the
    clipped stored count and the [keep_recent] most recent rows, the stored
    summary comes back with the clipped count and nothing is called;
    otherwise the summariser is asked, and if that call raises, the error is
    dropped: the stored state comes back and the conversation is untouched.
    The only error the refresh lets through is one of the database flush. *)
Theorem X19_refresh_skips_and_swallows_provider_errors :
  forall (W Temperature : Type) (project_config : Config)
         (chat_completion : list ChatMsg -> string -> string ->
                            option Temperature -> W -> Result Completion * W)
         (summary_temperature : Temperature)
         (now_timestamp : W -> Z) (db_flush : W -> Result unit * W)
         (conversation : LLMConversation) (history_rows : list LLMMessage)
         (provider model : string) (w : W),
    let out :=
      Memory.maybe_refresh_summary project_config chat_completion
        summary_temperature now_timestamp db_flush
        conversation history_rows provider model w in
    let stored := Memory.get_memory_state conversation in
    let history_size := Z.of_nat (length history_rows) in
    let clipped := Z.min stored.2 history_size in
    let keep_recent :=
      Z.max 4 (Z.min (LLM_MEMORY_KEEP_RECENT_MESSAGES project_config) 100) in
    let cutoff := history_size - keep_recent in
    let trigger :=
      Z.max 6 (LLM_MEMORY_SUMMARY_TRIGGER_MESSAGES project_config) in
    let prompt :=
      Memory._build_summary_prompt stored.1
        (PyStr.slice_list history_rows clipped cutoff) in
    (LLM_MEMORY_ENABLE project_config = false \/ history_rows = [] ->
       out = ((Ok stored, conversation), w)) /\
    (LLM_MEMORY_ENABLE project_config = true -> history_rows <> [] ->
       cutoff - clipped < trigger ->
       out = ((Ok (stored.1, clipped), conversation), w)) /\
    (LLM_MEMORY_ENABLE project_config = true -> history_rows <> [] ->
       trigger <= cutoff - clipped ->
       forall e w1,
         chat_completion prompt provider model (Some summary_temperature) w
         = (Raise e, w1) ->
         out = ((Ok (stored.1, clipped), conversation), w1)) /\
    (forall e, out.1.1 = Raise e -> exists w1, (db_flush w1).1 = Raise e).
Proof.
  intros. subst out prompt trigger cutoff keep_recent clipped history_size stored.
  unfold Memory.maybe_refresh_summary.
  destruct (Memory.get_memory_state conversation) as [summary_text count] eqn:Hst.
  assert (Hc : 0 <= count).
  { unfold Memory.get_memory_state in Hst. injection Hst as _ <-. lia. }
  cbn [fst snd].
  set (hs := Z.of_nat (length history_rows)).
  assert (Hhs : 0 <= hs) by (subst hs; lia).
  set (keep := Z.max 4 (Z.min (LLM_MEMORY_KEEP_RECENT_MESSAGES project_config) 100)).
  set (trigger := Z.max 6 (LLM_MEMORY_SUMMARY_TRIGGER_MESSAGES project_config)).
  assert (Hsc : Z.max 0 (Z.min count hs) = Z.min count hs) by lia.
  rewrite !Hsc.
  split_and!.
  - intros [Hoff | ->].
    + by rewrite Hoff.
    + by destruct (negb (LLM_MEMORY_ENABLE project_config)).
  - intros Hon Hrows Hlt. rewrite Hon. cbn [negb].
    rewrite bool_decide_eq_false_2 by done.
    destruct (Z.ltb_spec (Z.max 0 (Z.max 0 (hs - keep) - Z.min count hs)) trigger);
      [done | lia].
  - intros Hon Hrows Hge e w1 Hcall. rewrite Hon. cbn [negb].
    rewrite bool_decide_eq_false_2 by done.
    assert (Hmax : Z.max 0 (hs - keep) = hs - keep) by lia.
    rewrite Hmax.
    destruct (Z.ltb_spec (Z.max 0 (hs - keep - Z.min count hs)) trigger); [lia|].
    assert (Hne : PyStr.slice_list history_rows (Z.min count hs) (hs - keep) <> []).
    { intros Hnil. apply (f_equal length) in Hnil.
      unfold PyStr.slice_list, PyStr.slice_index in Hnil.
      rewrite length_take, length_drop in Hnil. fold hs in Hnil.
      destruct (Z.ltb_spec (Z.min count hs) 0); [lia|].
      destruct (Z.ltb_spec (hs - keep) 0); [lia|].
      simpl in Hnil. lia. }
    rewrite bool_decide_eq_false_2 by done.
    by rewrite Hcall.
  - intros e.
    destruct (negb (LLM_MEMORY_ENABLE project_config)); [done|].
    destruct (bool_decide (history_rows = [])); [done|].
    destruct (_ <? _); [done|].
    destruct (bool_decide (_ = [])); [done|].
    destruct (chat_completion _ _ _ _ w) as [[completion|e'] w1]; [|done].
    destruct (negb _); [done|].
    destruct (db_flush w1) as [[[]|e'] w2] eqn:Hflush; [done|].
    cbn [fst snd]. intros [= ->]. exists w1. by rewrite Hflush.
Qed.

(* ===================================================================== *)
(** * What a run of the tool loop accounts for                            *)
(* ===================================================================== *)

Module Accounting.
Import Engine.

(** The usages carried by the records of a run, in order. *)
Definition record_usages (records : list LLMMessage) : list Usage :=
  omap m_token_usage records.

Definition is_tool_record (record : LLMMessage) : bool :=
  bool_decide (m_role record = "tool").

(** The number a usage holds under a key, if it holds one. *)
Definition usage_number (key : string) (usage : Usage) : option Z :=
  match usage !! key with
  | Some (UNum n) => Some n
  | _ => None
  end.

Definition sum_Z (l : list Z) : Z := fold_right Z.add 0 l.

Lemma record_usages_app a b : record_usages (a ++ b) = record_usages a ++ record_usages b.
Proof. apply omap_app. Qed.

(** The invariant of the step loop on its locals. *)
Definition accounted (ls : LoopState) : Prop :=
  usage_total ls = fold_left _merge_usage (record_usages (generated_records ls)) ∅ /\
  tool_record <$> tool_runs ls = filter is_tool_record (generated_records ls).

Lemma accounted_initial llm_messages provider model :
  accounted (initial_loop_state llm_messages provider model).
Proof. done. Qed.

Lemma accounted_set_pending b ls : accounted ls -> accounted (set_pending b ls).
Proof. done. Qed.

Lemma accounted_record_completion completion ls :
  accounted ls -> accounted (record_completion completion ls).
Proof.
  intros [Hu Ht]. split; cbn [record_completion usage_total generated_records tool_runs].
  - rewrite record_usages_app, fold_left_app, <- Hu. done.
  - rewrite filter_app, <- Ht. cbn. by rewrite app_nil_r.
Qed.

Lemma accounted_record_tool_result tool_result ls :
  accounted ls -> accounted (record_tool_result tool_result ls).
Proof.
  intros [Hu Ht]. split; cbn [record_tool_result usage_total generated_records tool_runs].
  - rewrite record_usages_app, fold_left_app, <- Hu. done.
  - rewrite filter_app, fmap_app, <- Ht. done.
Qed.

Section Runs.
Context {W Temperature : Type}.
Variable svc : Services W Temperature.

Lemma accounted_run_tool_calls owner_id tool_calls ls st :
  accounted ls ->
  accounted (run_tool_calls svc owner_id tool_calls ls st).1.2.
Proof.
  revert ls st. induction tool_calls as [|tool_call rest IH]; intros ls st Hls;
    cbn [run_tool_calls]; [done|].
  destruct (dispatch_tool_call svc owner_id tool_call st) as [[tool_result|e] st'];
    [|done].
  apply IH. by apply accounted_record_tool_result.
Qed.

Lemma accounted_completion_loop n temperature tools owner_id ls st :
  accounted ls ->
  accounted (completion_loop svc n temperature tools owner_id ls st).1.2.
Proof.
  revert ls st. induction n as [|n IH]; intros ls st Hls; cbn [completion_loop]; [done|].
  destruct (chat_completion svc _ _ _ temperature tools st) as [[completion|e] st1];
    [|done].
  pose proof (accounted_record_completion completion ls Hls) as Hrec.
  destruct (c_tool_calls completion) as [|tool_call rest] eqn:Hcalls.
  { by apply accounted_set_pending. }
  pose proof (accounted_run_tool_calls owner_id (tool_call :: rest)
                (set_pending true (record_completion completion ls)) st1
                (accounted_set_pending _ _ Hrec)) as Hrun.
  destruct (run_tool_calls svc owner_id (tool_call :: rest) _ st1)
    as [[[e|] ls2] st2]; [done|].
  by apply IH.
Qed.

(** The records that carry a usage only grow in number, and a step that
    gets its completion adds one. *)
Definition usage_count (ls : LoopState) : nat :=
  length (record_usages (generated_records ls)).

Lemma usage_count_run_tool_calls owner_id tool_calls ls st :
  (usage_count ls <= usage_count (run_tool_calls svc owner_id tool_calls ls st).1.2)%nat.
Proof.
  revert ls st. induction tool_calls as [|tool_call rest IH]; intros ls st;
    cbn [run_tool_calls]; [done|].
  destruct (dispatch_tool_call svc owner_id tool_call st) as [[tool_result|e] st'];
    [|done].
  etrans; [|apply IH]. unfold usage_count. cbn [record_tool_result generated_records].
  rewrite record_usages_app, length_app. lia.
Qed.

Lemma usage_count_completion_loop n temperature tools owner_id ls st :
  let out := completion_loop svc n temperature tools owner_id ls st in
  (usage_count ls <= usage_count out.1.2)%nat /\
  (n <> 0%nat -> out.1.1 = None -> usage_count ls < usage_count out.1.2)%nat.
Proof.
  revert ls st. induction n as [|n IH]; intros ls st; cbn [completion_loop].
  { split; [done|]. by intros []. }
  destruct (chat_completion svc _ _ _ temperature tools st) as [[completion|e] st1];
    [|split; [done|]; by intros _ [=]].
  assert (Hrec : (usage_count ls < usage_count (record_completion completion ls))%nat).
  { unfold usage_count. cbn [record_completion generated_records].
    rewrite record_usages_app, length_app. simpl. lia. }
  destruct (c_tool_calls completion) as [|tool_call rest] eqn:Hcalls.
  { cbn [fst snd]. unfold usage_count in *. cbn [set_pending generated_records].
    split; [lia|]. intros _ _. lia. }
  pose proof (usage_count_run_tool_calls owner_id (tool_call :: rest)
                (set_pending true (record_completion completion ls)) st1) as Hrun.
  destruct (run_tool_calls svc owner_id (tool_call :: rest) _ st1)
    as [[[e|] ls2] st2].
  { cbn [fst snd] in *. unfold usage_count in *.
    cbn [set_pending generated_records] in Hrun. split; [lia|]. by intros _ [=]. }
  cbn [fst snd] in Hrun.
  destruct (IH ls2 st2) as [Hle _].
  unfold usage_count in *. cbn [set_pending generated_records] in Hrun.
  split; [lia|]. intros _ _. lia.
Qed.

End Runs.

(** Under a key for which every usage holds a number, the merge of the
    usages holds the sum of the numbers. *)
Lemma merge_usage_lookup current new_usage key :
  _merge_usage current new_usage !! key
  = merge_usage_entry (current !! key) (new_usage !! key).
Proof.
  unfold _merge_usage. rewrite lookup_merge. unfold diag_None.
  by destruct (current !! key), (new_usage !! key).
Qed.

Lemma fold_merge_usage_numbers key usages numbers start n0 :
  Forall2 (fun usage n => usage_number key usage = Some n) usages numbers ->
  start !! key = Some (UNum n0) ->
  fold_left _merge_usage usages start !! key = Some (UNum (n0 + sum_Z numbers)).
Proof.
  intros H. revert start n0.
  induction H as [|usage n usages numbers Hn _ IH]; intros start n0 Hstart; simpl.
  - rewrite Hstart. do 2 f_equal. lia.
  - rewrite (IH _ (n0 + n)).
    + do 2 f_equal. lia.
    + rewrite merge_usage_lookup, Hstart. unfold usage_number in Hn.
      destruct (usage !! key) as [[m|]|]; simplify_eq. done.
Qed.

Lemma fold_merge_usage_sum key usages numbers :
  usages <> [] ->
  Forall2 (fun usage n => usage_number key usage = Some n) usages numbers ->
  fold_left _merge_usage usages ∅ !! key = Some (UNum (sum_Z numbers)).
Proof.
  intros Hne H. destruct H as [|usage n usages numbers Hn H]; [done|].
  simpl. rewrite (fold_merge_usage_numbers key usages numbers _ n H).
  - done.
  - rewrite merge_usage_lookup, lookup_empty. unfold usage_number in Hn.
    destruct (usage !! key) as [[m|]|]; simplify_eq. done.
Qed.

End Accounting.

(** X20. A run of the tool loop that returns accounts for what it did in the
    records it hands over for persistence: the usage total returned is the
    merge, in order, of the token usages of the records; the tool results
    returned are, one for one and in order, the tool-role records; and under
    every key for which each completion of the run reported a number, the
    total holds the sum of those numbers. *)
Theorem X20_tool_loop_usage_and_tool_runs_match_records :
  forall (W Temperature : Type) (svc : Engine.Services W Temperature)
         (llm_messages : list ChatMsg) (provider model : string)
         (temperature : option Temperature) (tools : list OpenAITool)
         (max_tool_steps owner_id : Z) (st st' : Engine.State)
         (run : Engine.ToolsRun),
    Engine._run_completion_with_tools svc llm_messages provider model temperature
      tools max_tool_steps owner_id st = (Ok run, st') ->
    let usages := Accounting.record_usages (Engine.run_generated_records run) in
    Engine.run_usage_total run = fold_left Engine._merge_usage usages ∅ /\
    Engine.tool_record <$> Engine.run_tool_runs run
      = filter Accounting.is_tool_record (Engine.run_generated_records run) /\
    usages <> [] /\
    (forall key numbers,
       Forall2 (fun usage n => Accounting.usage_number key usage = Some n)
         usages numbers ->
       Engine.run_usage_total run !! key = Some (UNum (Accounting.sum_Z numbers))).
Proof.
  intros W Temperature svc llm_messages provider model temperature tools
         max_tool_steps owner_id st st' run Hrun usages.
  unfold Engine._run_completion_with_tools in Hrun.
  pose proof (Accounting.accounted_completion_loop svc
                (Engine.step_budget max_tool_steps) temperature tools owner_id
                (Engine.initial_loop_state llm_messages provider model) st
                (Accounting.accounted_initial _ _ _)) as Hacc.
  destruct (Engine.completion_loop svc _ temperature tools owner_id _ st)
    as [[[e|] ls] st1] eqn:Hloop; [done|].
  injection Hrun as <- <-. cbn [fst snd] in Hacc. destruct Hacc as [Hu Ht].
  assert (Hshape :
            Engine.run_usage_total (Engine.finish_run ls)
            = fold_left Engine._merge_usage
                (Accounting.record_usages
                   (Engine.run_generated_records (Engine.finish_run ls))) ∅ /\
            Engine.tool_record <$> Engine.run_tool_runs (Engine.finish_run ls)
            = filter Accounting.is_tool_record
                (Engine.run_generated_records (Engine.finish_run ls))).
  { unfold Engine.finish_run. destruct (Engine.tool_call_pending ls); cbn.
    - rewrite Accounting.record_usages_app, filter_app. cbn.
      by rewrite !app_nil_r.
    - done. }
  destruct Hshape as [Hu' Ht'].
  assert (Hne : usages <> []).
  { destruct (Accounting.usage_count_completion_loop svc
                (Engine.step_budget max_tool_steps) temperature tools owner_id
                (Engine.initial_loop_state llm_messages provider model) st)
      as [_ Hlt].
    rewrite Hloop in Hlt. cbn [fst snd] in Hlt.
    specialize (Hlt ltac:(unfold Engine.step_budget; lia) eq_refl).
    unfold Accounting.usage_count in Hlt.
    subst usages. intros Hnil.
    assert (Hlen : (0 < length (Accounting.record_usages
                                  (Engine.run_generated_records
                                     (Engine.finish_run ls))))%nat).
    { unfold Engine.finish_run.
      destruct (Engine.tool_call_pending ls); cbn [Engine.run_generated_records].
      - rewrite Accounting.record_usages_app, length_app. lia.
      - lia. }
    rewrite Hnil in Hlen. simpl in Hlen. lia. }
  split_and!; [done | done | done |].
  intros key numbers Hall. rewrite Hu'.
  by apply Accounting.fold_merge_usage_sum.
Qed.

(** X20, witness: the model asks for the [echo] tool twice and then
    answers; the run returns two tool results, the records of which are the
    two tool-role records. *)
Lemma X20_witness_two_echo_calls_are_accounted_for :
  exists run st',
    Engine._run_completion_with_tools (Scenario.svc_two_calls "echo")
      Scenario.hello "openai" "gpt-4o-mini" None [] 4 7 Scenario.start
    = (Ok run, st') /\
    length (Engine.run_tool_runs run) = 2%nat /\
    Engine.tool_record <$> Engine.run_tool_runs run
      = filter Accounting.is_tool_record (Engine.run_generated_records run).
Proof.
  eexists _, _. split; [vm_compute; reflexivity|]. split; [reflexivity|].
  refine (proj1 (proj2
    (X20_tool_loop_usage_and_tool_runs_match_records nat unit
       (Scenario.svc_two_calls "echo") Scenario.hello "openai" "gpt-4o-mini"
       None [] 4 7 Scenario.start _ _ _))).
  vm_compute. reflexivity.
Defined.

(* ===================================================================== *)
(** * A request the quota service refuses                                 *)
(* ===================================================================== *)

Module QuotaGate.
Import PyStr Providers Engine.

Section Refused.
Context {W Temperature : Type}.
Variable project_config : Config.
Variable svc : Services W Temperature.
Variable backend : Backend W Temperature.
Variable owner_id : Z.

(** The quota service refuses whatever it is asked. *)
Definition always_refuses : Prop :=
  forall provider model w,
    is_ok (enforce_before_request backend owner_id provider model w).1 = false.

(** The only thing a run may have written when the gate is reached is the
    row of a conversation it has just created. *)
Definition only_new_conversation (events : list Event) : Prop :=
  events = [] \/ exists conversation, events = [EvDbAddConversation conversation].

Lemma prepare_context_refused {L} on_conversation on_primary rq conversation skill
    (l : L) st :
  always_refuses ->
  let out :=
    prepare_context project_config svc backend on_conversation on_primary
      owner_id rq conversation skill l st in
  is_ok out.1.1 = false /\ trace out.2 = trace st.
Proof.
  intros Hq. unfold prepare_context.
  destruct (resolve_provider project_config _ _ true)
    as [[provider_config resolved_model]|e]; [|done].
  unfold lbind, lmodify, lift, call.
  specialize (Hq (pc_provider provider_config) resolved_model (ext st)).
  destruct (enforce_before_request backend owner_id _ _ (ext st)) as [[[]|e] w'];
    [done|]. done.
Qed.

Lemma create_conversation_trace title provider model system_prompt skill_name st :
  let out :=
    create_conversation project_config svc backend owner_id title provider model
      system_prompt skill_name st in
  only_new_conversation (drop (length (trace st)) (trace out.2)) /\
  take (length (trace st)) (trace out.2) = trace st.
Proof.
  unfold create_conversation.
  destruct (resolve_provider project_config provider model false)
    as [[provider_config resolved_model]|e]; cbn [raise snd].
  2:{ rewrite drop_all, firstn_all. split; [by left | done]. }
  unfold call_total, bind, emit, call, log, ret.
  destruct (uuid4_hex svc (ext st)) as [hex w0]. cbn [ext trace].
  destruct (db_commit backend w0) as [[[]|e] w1]; cbn [ext trace snd].
  2:{ rewrite drop_app_length, take_app_length. split; [right; eauto | done]. }
  destruct (db_refresh backend w1) as [[[]|e] w2]; cbn [ext trace snd];
    rewrite drop_app_length, take_app_length; (split; [right; eauto | done]).
Qed.

Lemma lbind_lift_run {L A B} (m : M (W := W) A) (k : A -> LM (W := W) L B)
    (l : L) (st : State (W := W)) :
  lbind (lift m) k l st
  = match m st with
    | (Ok a, st') => k a l st'
    | (Raise e, st') => ((Raise e, l), st')
    end.
Proof. unfold lbind, lift. by destruct (m st) as [[a|e] st']. Qed.

Lemma get_conversation_or_raise_trace cid st :
  trace (get_conversation_or_raise backend owner_id cid st).2 = trace st.
Proof.
  unfold get_conversation_or_raise, bind, call.
  by destruct (db_get_conversation backend owner_id cid (ext st)) as [[[c|]|e] w'].
Qed.

Lemma create_conversation_events title provider model system_prompt skill_name st :
  exists events,
    trace (create_conversation project_config svc backend owner_id title provider
             model system_prompt skill_name st).2 = trace st ++ events /\
    only_new_conversation events.
Proof.
  destruct (create_conversation_trace title provider model system_prompt
              skill_name st) as [Hd Ht].
  eexists. split; [|exact Hd]. rewrite <- Ht at 1. by rewrite take_drop.
Qed.

(** From the conversation on: the skill is looked up and the gate is
    reached, or the run has ended before. *)
Lemma after_conversation_refused {L} on_conversation on_primary rq conversation
    (l : L) st :
  always_refuses ->
  let skill_name :=
    strip_or_none
      (if otruthy (rq_skill_name rq) then or_else (rq_skill_name rq) ""
       else or_else (cv_skill_name conversation) "") in
  let out :=
    lbind (lift (call (get_skill backend skill_name owner_id)))
      (fun skill =>
         match skill_name, skill with
         | Some name, None =>
             lraise (CustomException None ("Skill " +:+ name +:+ " 不存在") 10002)
         | _, _ =>
             prepare_context project_config svc backend on_conversation on_primary
               owner_id rq conversation skill
         end) l st in
  is_ok out.1.1 = false /\ trace out.2 = trace st.
Proof.
  intros Hq skill_name. cbv zeta. rewrite lbind_lift_run.
  pose proof (call_trace (get_skill backend skill_name owner_id) st) as Hskill.
  destruct (call _ st) as [[skill|e] st2]; cbn [fst snd] in *; [|done].
  destruct (prepare_context_refused on_conversation on_primary rq conversation
              skill l st2 Hq) as [Hr Ht].
  rewrite Hskill in Ht.
  destruct skill_name as [name|]; [|done]. by destruct skill.
Qed.

Lemma prepare_turn_refused {L} on_conversation on_primary rq (l : L) st :
  always_refuses ->
  let out :=
    prepare_turn project_config svc backend on_conversation on_primary
      owner_id rq l st in
  is_ok out.1.1 = false /\
  exists events, trace out.2 = trace st ++ events /\ only_new_conversation events.
Proof.
  intros Hq. cbv zeta. unfold prepare_turn. rewrite lbind_lift_run.
  set (title := if truthy (rq_message rq) then Some (prefix (rq_message rq) 30)
                else None).
  assert (Hrest : forall (st1 : State (W := W)) events,
             trace st1 = trace st ++ events -> only_new_conversation events ->
             forall out : (Result Turn * L) * State (W := W),
               is_ok out.1.1 = false /\ trace out.2 = trace st1 ->
               is_ok out.1.1 = false /\
               exists events, trace out.2 = trace st ++ events /\
                              only_new_conversation events).
  { intros st1 events Ht Honly out [Hr Ho]. split; [done|].
    exists events. by rewrite Ho. }
  assert (Hcreate :
            let out :=
              match create_conversation project_config svc backend owner_id title
                      (rq_provider rq) (rq_model rq) (rq_system_prompt rq)
                      (rq_skill_name rq) st with
              | (Ok conversation, st') =>
                  lbind (lmodify (on_conversation conversation))
                    (fun _ =>
                       lbind
                         (lift (call (get_skill backend
                            (strip_or_none
                               (if otruthy (rq_skill_name rq)
                                then or_else (rq_skill_name rq) ""
                                else or_else (cv_skill_name conversation) ""))
                            owner_id)))
                         (fun skill =>
                            match strip_or_none
                                    (if otruthy (rq_skill_name rq)
                                     then or_else (rq_skill_name rq) ""
                                     else or_else (cv_skill_name conversation) ""),
                                  skill with
                            | Some name, None =>
                                lraise (CustomException None
                                          ("Skill " +:+ name +:+ " 不存在") 10002)
                            | _, _ =>
                                prepare_context project_config svc backend
                                  on_conversation on_primary owner_id rq
                                  conversation skill
                            end)) l st'
              | (Raise e, st') => ((Raise e, l), st')
              end in
            is_ok out.1.1 = false /\
            exists events, trace out.2 = trace st ++ events /\
                           only_new_conversation events).
  { destruct (create_conversation_events title (rq_provider rq) (rq_model rq)
                (rq_system_prompt rq) (rq_skill_name rq) st)
      as (events & Ht & Honly).
    destruct (create_conversation _ _ _ _ _ _ _ _ _ st) as [[conversation|e] st1];
      cbn [fst snd] in *.
    - eapply Hrest; [exact Ht | exact Honly |].
      apply (after_conversation_refused on_conversation on_primary rq conversation
               (on_conversation conversation l) st1 Hq).
    - split; [done|]. by exists events. }
  destruct (rq_conversation_id rq) as [cid|]; [|exact Hcreate].
  destruct (truthy cid); [|exact Hcreate].
  pose proof (get_conversation_or_raise_trace cid st) as Ht.
  destruct (get_conversation_or_raise backend owner_id cid st)
    as [[conversation|e] st1]; cbn [fst snd] in *.
  - eapply (Hrest st1 []); [by rewrite app_nil_r | by left |].
    apply (after_conversation_refused on_conversation on_primary rq conversation
             (on_conversation conversation l) st1 Hq).
  - split; [done|]. exists []. rewrite app_nil_r. split; [done | by left].
Qed.

End Refused.
End QuotaGate.

(** X21. A request the quota service refuses never reaches a provider.  If
    [enforce_before_request] refuses whatever it is asked, [chat] raises,
    calls no completion endpoint, dispatches no tool and stores no message:
    all it leaves in the trace is the row of the conversation, if the request
    opened a new one, followed by one metric record with [success] false and
    the code and text of the error raised. *)
Theorem X21_refused_request_reaches_no_provider :
  forall (W Temperature : Type) (project_config : Config)
         (svc : Engine.Services W Temperature)
         (backend : Engine.Backend W Temperature)
         (owner_id : Z) (rq : Engine.LLMChatReq Temperature) (st : Engine.State),
    QuotaGate.always_refuses backend owner_id ->
    let out := Engine.chat project_config svc backend owner_id rq st in
    exists e events metric,
      out.1 = Raise e /\
      Engine.trace out.2 = Engine.trace st ++ events ++ [Engine.EvMetric metric] /\
      QuotaGate.only_new_conversation events /\
      Engine.completion_calls (Engine.trace out.2)
        = Engine.completion_calls (Engine.trace st) /\
      Engine.dispatched_calls (Engine.trace out.2)
        = Engine.dispatched_calls (Engine.trace st) /\
      Engine.mt_success metric = false /\
      Engine.mt_error_code metric = Some (Engine._extract_error_code e) /\
      Engine.mt_error_message metric = Some (Engine.exc_str svc e).
Proof.
  intros W Temperature project_config svc backend owner_id rq st Hq out.
  assert (Hout : exists e events metric w2,
             out = (Raise e,
                    Engine.mkState w2
                      (Engine.trace st ++ events ++ [Engine.EvMetric metric])) /\
             QuotaGate.only_new_conversation events /\
             Engine.mt_success metric = false /\
             Engine.mt_error_code metric = Some (Engine._extract_error_code e) /\
             Engine.mt_error_message metric = Some (Engine.exc_str svc e)).
  { subst out. unfold Engine.chat.
    pose proof (Engine.call_total_trace (Engine.uuid4_hex svc) st) as Hu.
    destruct (Engine.call_total (Engine.uuid4_hex svc) st) as [hex st0].
    cbn [snd] in Hu.
    unfold Engine.chat_body, Engine.lbind at 1.
    destruct (QuotaGate.prepare_turn_refused project_config svc backend owner_id
                Engine.cl_set_conversation Engine.cl_set_primary rq
                Engine.chat_locals_init st0 Hq) as [Hr (events & Ht & Honly)].
    pose proof (Engine.lkeeps_prepare_turn project_config svc backend
                  (fun l => Engine.cl_metric_success l = false)
                  Engine.cl_set_conversation Engine.cl_set_primary owner_id rq
                  ltac:(done) ltac:(done) Engine.chat_locals_init st0 eq_refl)
      as Hkeep.
    destruct (Engine.prepare_turn _ _ _ _ _ _ _ _ st0) as [[[turn|e] l] st1];
      [done|]. cbn [fst snd] in *.
    destruct Hkeep as [_ Hl].
    unfold Engine.safe_record, Engine.call, Engine.log. cbn [Engine.ext Engine.trace].
    match goal with
    | |- context [Engine.metric_record backend ?m ?w] =>
        set (metric := m);
        destruct (Engine.metric_record backend metric w) as [r w2]
    end.
    exists e, events, metric, w2. rewrite Ht, Hu, <- app_assoc.
    split_and!; done. }
  destruct Hout as (e & events & metric & w2 & -> & Honly & Hs & Hc & Hm).
  exists e, events, metric. cbn [fst snd Engine.trace].
  split_and!; [done | done | done | | | done | done | done].
  - unfold Engine.completion_calls. rewrite !flat_map_app. simpl.
    rewrite !app_nil_r. destruct Honly as [->|[c ->]]; simpl; by rewrite ?app_nil_r.
  - unfold Engine.dispatched_calls. rewrite !flat_map_app. simpl.
    rewrite !app_nil_r. destruct Honly as [->|[c ->]]; simpl; by rewrite ?app_nil_r.
Qed.

(** X21, witness: a quota service that refuses every request. *)
Definition backend_refusing : Engine.Backend nat unit :=
  {| Engine.db_get_conversation := fun _ _ w => (Ok None, w);
     Engine.db_list_messages := fun _ _ _ w => (Ok [], w);
     Engine.db_commit := fun w => (Ok tt, w);
     Engine.db_refresh := fun w => (Ok tt, w);
     Engine.db_flush := fun w => (Ok tt, w);
     Engine.get_skill := fun _ _ w => (Ok None, w);
     Engine.enforce_before_request := fun _ provider model w =>
       (Raise (Quota.token_quota_error provider model 100), w);
     Engine.commit_token_usage := fun _ _ _ _ w => (Ok tt, w);
     Engine.retrieve_context := fun _ _ _ w => (Ok [], w);
     Engine.mcp_list_openai_tools := fun _ _ w => (Ok [], w);
     Engine.metric_record := fun _ w => (Ok tt, w);
     Engine.perf_counter_ms := fun _ => 0;
     Engine.now_timestamp := fun _ => 0;
     Engine.summary_temperature := tt |}.

Lemma X21_witness_refused_chat_calls_no_provider :
  let out :=
    Engine.chat scenario_config (Scenario.svc_two_calls "echo") backend_refusing
      7 Scenario.stream_request Scenario.start in
  is_ok out.1 = false /\
  Engine.completion_calls (Engine.trace out.2) = [].
Proof.
  destruct (X21_refused_request_reaches_no_provider nat unit scenario_config
              (Scenario.svc_two_calls "echo") backend_refusing 7
              Scenario.stream_request Scenario.start)
    as (e & events & metric & He & _ & _ & Hc & _).
  - intros provider model w. reflexivity.
  - cbv zeta. rewrite He, Hc. split; reflexivity.
Defined.

(* ===================================================================== *)
(** * What [chat] stores, and when                                        *)
(* ===================================================================== *)

Module Persistence.
Import PyStr Providers Engine.

(** The events a run of [chat] may leave before it starts storing
    messages: completion calls, tool dispatches, and the row of a
    conversation it has just created. *)
Definition before_persist (e : Event) : Prop :=
  match e with
  | EvCompletion _ _ _ | EvToolCall _ | EvDbAddConversation _ => True
  | _ => False
  end.

Section Chat.
Context {W Temperature : Type}.
Variable project_config : Config.
Variable svc : Services W Temperature.
Variable backend : Backend W Temperature.

Definition adds (st st' : State (W := W)) : Prop :=
  exists events, trace st' = trace st ++ events /\ Forall before_persist events.

Lemma adds_refl st : adds st st.
Proof. exists []. by rewrite app_nil_r. Qed.

Lemma adds_trans st1 st2 st3 : adds st1 st2 -> adds st2 st3 -> adds st1 st3.
Proof.
  intros (e1 & H1 & Q1) (e2 & H2 & Q2). exists (e1 ++ e2).
  rewrite H2, H1, app_assoc. split; [done | by apply Forall_app].
Qed.

Lemma adds_same_trace st st' : trace st' = trace st -> adds st st'.
Proof. intros H. exists []. by rewrite app_nil_r. Qed.

Lemma adds_call {A} (f : W -> Result A * W) st : adds st (call f st).2.
Proof. apply adds_same_trace, call_trace. Qed.

Lemma adds_chat_completion messages provider model temperature tools st :
  adds st (chat_completion svc messages provider model temperature tools st).2.
Proof.
  exists [EvCompletion messages provider model]. split; [|by constructor].
  destruct (chat_completion svc messages provider model temperature tools st)
    as [r st'] eqn:E.
  exact (chat_completion_trace _ _ _ _ _ _ _ _ _ E).
Qed.

Lemma adds_dispatch owner_id tool_call st :
  adds st (dispatch_tool_call svc owner_id tool_call st).2.
Proof.
  exists [EvToolCall tool_call]. split; [|by constructor].
  destruct (dispatch_tool_call svc owner_id tool_call st) as [r st'] eqn:E.
  by destruct (dispatch_tool_call_spec _ _ _ _ _ _ E).
Qed.

Lemma adds_run_tool_calls owner_id tool_calls ls st :
  adds st (run_tool_calls svc owner_id tool_calls ls st).2.
Proof.
  revert ls st. induction tool_calls as [|tc rest IH]; intros ls st; simpl.
  - apply adds_refl.
  - pose proof (adds_dispatch owner_id tc st) as Hd.
    destruct (dispatch_tool_call svc owner_id tc st) as [[tool_result|e] st1];
      simpl in *; [|done].
    eapply adds_trans; [exact Hd | apply IH].
Qed.

Lemma adds_completion_loop n temperature tools owner_id ls st :
  adds st (completion_loop svc n temperature tools owner_id ls st).2.
Proof.
  revert ls st. induction n as [|n IH]; intros ls st; cbn [completion_loop].
  - apply adds_refl.
  - pose proof (adds_chat_completion (working_messages ls) (actual_provider ls)
                  (actual_model ls) temperature tools st) as Hc.
    destruct (chat_completion svc _ _ _ temperature tools st)
      as [[completion|e] st1]; simpl in Hc; [|done].
    destruct (c_tool_calls completion) as [|tc tcs]; [done|].
    pose proof (adds_run_tool_calls owner_id (tc :: tcs)
                  (set_pending true (record_completion completion ls)) st1) as Hr.
    destruct (run_tool_calls svc owner_id (tc :: tcs) _ st1) as [[[e|] ls2] st2];
      simpl in Hr.
    + eapply adds_trans; [exact Hc | exact Hr].
    + eapply adds_trans; [exact Hc|]. eapply adds_trans; [exact Hr | apply IH].
Qed.

Lemma adds_run_completion_with_tools llm_messages provider model temperature tools
    max_tool_steps owner_id st :
  adds st (_run_completion_with_tools svc llm_messages provider model temperature
             tools max_tool_steps owner_id st).2.
Proof.
  unfold _run_completion_with_tools.
  pose proof (adds_completion_loop (step_budget max_tool_steps) temperature tools
                owner_id (initial_loop_state llm_messages provider model) st) as H.
  by destruct (completion_loop svc _ _ _ _ _ st) as [[[e|] ls] st'].
Qed.

Lemma adds_fallback_loop llm_messages primary_provider primary_model temperature
    tools max_tool_steps owner_id idx candidates chain last st :
  adds st (fallback_loop project_config svc llm_messages primary_provider
             primary_model temperature tools max_tool_steps owner_id idx candidates
             chain last st).2.
Proof.
  revert idx chain last st.
  induction candidates as [|c rest IH]; intros idx chain last st; simpl.
  - destruct last; apply adds_refl.
  - destruct (resolve_provider _ _ _ _) as [[candidate_config candidate_model]|exc].
    + pose proof (adds_run_completion_with_tools llm_messages
                    (pc_provider candidate_config) candidate_model temperature tools
                    max_tool_steps owner_id st) as Hr.
      destruct (_run_completion_with_tools svc _ _ _ _ _ _ _ st) as [[run|e] st1];
        simpl in *; [done|].
      destruct (negb _); [done|].
      eapply adds_trans; [exact Hr | apply IH].
    + destruct (negb _); [apply adds_refl | apply IH].
Qed.

Lemma adds_bind {A B} (m : M (W := W) A) (k : A -> M (W := W) B) st :
  (forall st, adds st (m st).2) -> (forall a st, adds st (k a st).2) ->
  adds st (bind m k st).2.
Proof.
  intros Hm Hk. unfold bind. specialize (Hm st).
  destruct (m st) as [[a|e] st1]; simpl in *; [|done].
  eapply adds_trans; [exact Hm | apply Hk].
Qed.

Lemma adds_select_tools owner_id rq skill st :
  adds st (select_tools svc backend owner_id rq skill st).2.
Proof.
  unfold select_tools. destruct (negb (rq_use_tools rq)); [apply adds_refl|].
  destruct (Tools.list_openai_tools _ _) as [local_tools|e]; [|apply adds_refl].
  apply adds_bind; [intros; apply adds_call | intros; apply adds_refl].
Qed.

Lemma adds_maybe_refresh_summary conversation history_rows provider model st :
  adds st (maybe_refresh_summary project_config svc backend conversation
             history_rows provider model st).2.
Proof.
  unfold maybe_refresh_summary, Memory.maybe_refresh_summary.
  destruct (Memory.get_memory_state conversation) as [summary_text count].
  repeat match goal with
         | |- adds _ (if ?b then _ else _).2 => destruct b; [apply adds_refl|]
         end.
  match goal with
  | |- context [chat_completion svc ?msgs ?p ?m ?t [] st] =>
      pose proof (adds_chat_completion msgs p m t [] st) as Hc;
      destruct (chat_completion svc msgs p m t [] st) as [[completion|e] st1]
  end; simpl in *; [|done].
  destruct (negb _); [done|].
  pose proof (adds_call (db_flush backend) st1) as Hf.
  destruct (call (db_flush backend) st1) as [[[]|e] st2]; simpl in *;
    eapply adds_trans; eauto.
Qed.

(** A computation with locals that leaves only such events. *)
Definition ladds {L A} (m : LM (W := W) L A) : Prop :=
  forall l st, adds st (m l st).2.

Lemma ladds_bind {L A B} (m : LM L A) (k : A -> LM L B) :
  ladds m -> (forall a, ladds (k a)) -> ladds (lbind m k).
Proof.
  intros Hm Hk l st. unfold lbind. specialize (Hm l st).
  destruct (m l st) as [[[a|e] l1] st1]; simpl in *; [|done].
  eapply adds_trans; [exact Hm | apply Hk].
Qed.

Lemma ladds_lift {L A} (m : M A) :
  (forall st, adds st (m st).2) -> ladds (L := L) (lift m).
Proof.
  intros Hm l st. unfold lift. specialize (Hm st). by destruct (m st).
Qed.

Lemma ladds_ret {L A} (a : A) : ladds (L := L) (lret a).
Proof. intros l st. apply adds_refl. Qed.

Lemma ladds_raise {L A} (e : Exc) : ladds (L := L) (lraise (A := A) e).
Proof. intros l st. apply adds_refl. Qed.

Lemma ladds_modify {L} (f : L -> L) : ladds (lmodify f).
Proof. intros l st. apply adds_refl. Qed.

Lemma ladds_prepare_context {L} (on_conversation : LLMConversation -> L -> L)
    (on_primary : string -> string -> L -> L) owner_id rq conversation skill :
  ladds (prepare_context project_config svc backend on_conversation on_primary
           owner_id rq conversation skill).
Proof.
  unfold prepare_context.
  destruct (resolve_provider _ _ _ _) as [[pc rm]|e]; [|apply ladds_raise].
  apply ladds_bind; [apply ladds_modify|]. intros _.
  apply ladds_bind; [apply ladds_lift; intros st; apply adds_call|]. intros _.
  apply ladds_bind.
  { apply ladds_lift. intros st. unfold list_messages. apply adds_call. }
  intros history_rows. apply ladds_bind.
  { intros l st.
    pose proof (adds_maybe_refresh_summary conversation history_rows
                  (pc_provider pc) rm st) as H.
    by destruct (maybe_refresh_summary _ _ _ _ _ _ _ st) as [[r c'] st']. }
  intros [[summary_text summarized_count] conversation'].
  apply ladds_bind.
  { destruct (_ || _); [apply ladds_lift; intros st; apply adds_call
                       | apply ladds_ret]. }
  intros rag_contexts. apply ladds_ret.
Qed.

Lemma adds_create_conversation owner_id title provider model system_prompt
    skill_name st :
  adds st (create_conversation project_config svc backend owner_id title provider
             model system_prompt skill_name st).2.
Proof.
  destruct (QuotaGate.create_conversation_events project_config svc backend owner_id
              title provider model system_prompt skill_name st)
    as (events & Ht & Honly).
  exists events. split; [done|].
  destruct Honly as [->|[c ->]]; [constructor | by repeat constructor].
Qed.

Lemma ladds_prepare_turn {L} (on_conversation : LLMConversation -> L -> L)
    (on_primary : string -> string -> L -> L) owner_id rq :
  ladds (prepare_turn project_config svc backend on_conversation on_primary
           owner_id rq).
Proof.
  unfold prepare_turn. apply ladds_bind.
  { apply ladds_lift. intros st.
    destruct (rq_conversation_id rq) as [cid|];
      [destruct (truthy cid)|]; try apply adds_create_conversation.
    apply adds_same_trace, QuotaGate.get_conversation_or_raise_trace. }
  intros conversation. apply ladds_bind; [apply ladds_modify|]. intros _.
  apply ladds_bind; [apply ladds_lift; intros st; apply adds_call|].
  intros skill.
  destruct (strip_or_none _) as [name|]; [destruct skill|];
    try apply ladds_raise; apply ladds_prepare_context.
Qed.

Lemma lbind_lmodify {L B} (f : L -> L) (k : unit -> LM (W := W) L B) l st :
  lbind (lmodify f) k l st = k tt (f l) st.
Proof. reflexivity. Qed.

Lemma lbind_ok_inv {L A B} (m : LM (W := W) L A) (k : A -> LM (W := W) L B)
    l st b l' st' :
  lbind m k l st = ((Ok b, l'), st') ->
  exists a l1 st1, m l st = ((Ok a, l1), st1) /\ k a l1 st1 = ((Ok b, l'), st').
Proof.
  unfold lbind. destruct (m l st) as [[[a|e] l1] st1]; [|done]. eauto.
Qed.

(** The text of the user a turn carries is the message of the request,
    stripped. *)
Lemma prepare_context_user_text {L} (on_conversation : LLMConversation -> L -> L)
    (on_primary : string -> string -> L -> L) owner_id rq conversation skill
    l st turn l' st' :
  prepare_context project_config svc backend on_conversation on_primary owner_id
    rq conversation skill l st = ((Ok turn, l'), st') ->
  tn_user_text turn = strip (rq_message rq).
Proof.
  unfold prepare_context.
  destruct (resolve_provider _ _ _ _) as [[pc rm]|e]; [|done].
  intros H.
  apply lbind_ok_inv in H as (? & ? & ? & _ & H).
  apply lbind_ok_inv in H as (? & ? & ? & _ & H).
  apply lbind_ok_inv in H as (history_rows & ? & ? & _ & H).
  apply lbind_ok_inv in H as ([[summary_text summarized_count] conversation']
                              & ? & ? & _ & H).
  apply lbind_ok_inv in H as (rag_contexts & ? & ? & _ & H).
  unfold lret in H. by injection H as <- _ _.
Qed.

Lemma prepare_turn_user_text {L} (on_conversation : LLMConversation -> L -> L)
    (on_primary : string -> string -> L -> L) owner_id rq l st turn l' st' :
  prepare_turn project_config svc backend on_conversation on_primary owner_id
    rq l st = ((Ok turn, l'), st') ->
  tn_user_text turn = strip (rq_message rq).
Proof.
  unfold prepare_turn. intros H.
  apply lbind_ok_inv in H as (conversation & ? & ? & _ & H).
  apply lbind_ok_inv in H as (? & ? & ? & _ & H).
  apply lbind_ok_inv in H as (skill & ? & ? & _ & H).
  destruct (strip_or_none _) as [name|]; [destruct skill; [|done]|];
    by eapply prepare_context_user_text.
Qed.

(** [add_rows] adds the rows, in order, and nothing else. *)
Lemma add_rows_run cid owner_id rows (st : State (W := W)) :
  add_rows cid owner_id rows st
  = (Ok tt, mkState (ext st) (trace st ++ (EvDbAdd cid owner_id <$> rows))).
Proof.
  revert st. induction rows as [|row rows IH]; intros st; cbn [add_rows].
  - unfold ret. rewrite app_nil_r. by destruct st.
  - unfold bind, emit. rewrite IH. unfold log. cbn [ext trace fmap list_fmap].
    by rewrite <- app_assoc.
Qed.

End Chat.
End Persistence.

(** X22. What [chat] stores, and when.  Until the run of the model has
    succeeded, a call of [chat] writes no message: all it leaves in the trace
    are completion calls, tool dispatches and the row of a conversation it
    has just created, and a call that fails in that stretch ends there.  A
    run that succeeded is followed by the message of the user (stripped, under
    the provider and model that answered) and the records of the run, in
    order, in the conversation of the request, and by one commit; the result
    returned is read off that run.  After that the call can still raise, but
    only with an error of the commit or of the token accounting.  In every
    case one metric record closes the trace. *)
Theorem X22_chat_stores_messages_only_after_the_run :
  forall (W Temperature : Type) (project_config : Config)
         (svc : Engine.Services W Temperature)
         (backend : Engine.Backend W Temperature)
         (owner_id : Z) (rq : Engine.LLMChatReq Temperature) (st : Engine.State),
    let out := Engine.chat project_config svc backend owner_id rq st in
    exists events metric,
      Engine.trace out.2 = Engine.trace st ++ events ++ [Engine.EvMetric metric] /\
      ((is_ok out.1 = false /\ Forall Persistence.before_persist events) \/
       exists before cid run,
         Forall Persistence.before_persist before /\
         events
         = before
           ++ (Engine.EvDbAdd cid owner_id
                 <$> (Engine.user_row cid (PyStr.strip (Engine.rq_message rq))
                        (Engine.run_actual_provider run)
                        (Engine.run_actual_model run) []
                      :: Engine.run_generated_records run))
           ++ [Engine.EvDbCommit] /\
         match out.1 with
         | Ok result =>
             Engine.res_conversation_id result = cid /\
             Engine.res_provider result = Engine.run_actual_provider run /\
             Engine.res_model result = Engine.run_actual_model run /\
             Engine.res_assistant_message result = Engine.run_assistant_message run /\
             Engine.res_tool_runs result = Engine.run_tool_runs run /\
             Engine.res_usage result = Engine.run_usage_total run
         | Raise e =>
             (exists w, (Engine.db_commit backend w).1 = Raise e) \/
             (exists w,
                (Engine.commit_token_usage backend owner_id
                   (Engine.run_actual_provider run) (Engine.run_actual_model run)
                   (Engine.run_usage_total run) w).1 = Raise e)
         end).
Proof.
  intros W Temperature project_config svc backend owner_id rq st out.
  set (shape := fun (r : Result Engine.ChatResult) (events : list Engine.Event) =>
    (is_ok r = false /\ Forall Persistence.before_persist events) \/
    exists before cid run,
      Forall Persistence.before_persist before /\
      events
      = before
        ++ (Engine.EvDbAdd cid owner_id
              <$> (Engine.user_row cid (PyStr.strip (Engine.rq_message rq))
                     (Engine.run_actual_provider run)
                     (Engine.run_actual_model run) []
                   :: Engine.run_generated_records run))
        ++ [Engine.EvDbCommit] /\
      match r with
      | Ok result =>
          Engine.res_conversation_id result = cid /\
          Engine.res_provider result = Engine.run_actual_provider run /\
          Engine.res_model result = Engine.run_actual_model run /\
          Engine.res_assistant_message result = Engine.run_assistant_message run /\
          Engine.res_tool_runs result = Engine.run_tool_runs run /\
          Engine.res_usage result = Engine.run_usage_total run
      | Raise e =>
          (exists w, (Engine.db_commit backend w).1 = Raise e) \/
          (exists w,
             (Engine.commit_token_usage backend owner_id
                (Engine.run_actual_provider run) (Engine.run_actual_model run)
                (Engine.run_usage_total run) w).1 = Raise e)
      end).
  assert (Hbody : forall st0,
            exists r l st1 events,
              Engine.chat_body project_config svc backend owner_id rq
                Engine.chat_locals_init st0 = ((r, l), st1) /\
              Engine.trace st1 = Engine.trace st0 ++ events /\
              shape r events).
  { intros st0. unfold Engine.chat_body.
    unfold Engine.lbind at 1.
    destruct (Persistence.ladds_prepare_turn project_config svc backend
                Engine.cl_set_conversation Engine.cl_set_primary owner_id rq
                Engine.chat_locals_init st0) as (ev1 & Ht1 & Hp1).
    pose proof (Persistence.prepare_turn_user_text project_config svc backend
                  Engine.cl_set_conversation Engine.cl_set_primary owner_id rq
                  Engine.chat_locals_init st0) as Htext.
    destruct (Engine.prepare_turn _ _ _ _ _ _ _ _ st0) as [[[turn|e] l1] st1];
      cbn [fst snd] in *.
    2:{ eexists _, _, _, ev1. split; [reflexivity|]. split; [done|].
        unfold shape. left. by split. }
    rewrite QuotaGate.lbind_lift_run.
    destruct (Persistence.adds_select_tools svc backend owner_id rq
                (Engine.tn_skill turn) st1) as (ev2 & Ht2 & Hp2).
    destruct (Engine.select_tools _ _ _ _ _ st1) as [[tools|e] st2];
      cbn [fst snd] in *.
    2:{ cbv beta iota. eexists _, _, _, (ev1 ++ ev2). split; [reflexivity|].
        rewrite Ht2, Ht1, <- app_assoc. split; [done|].
        unfold shape. left. split; [done|]. by apply Forall_app. }
    rewrite QuotaGate.lbind_lift_run.
    unfold Engine._run_completion_with_fallback.
    match goal with
    | |- context [Engine.fallback_loop ?c ?s ?m ?pp ?pm ?t ?tl ?mx ?o ?i ?cs ?ch ?la st2] =>
        destruct (Persistence.adds_fallback_loop c s m pp pm t tl mx o i cs ch la st2)
          as (ev3 & Ht3 & Hp3);
        destruct (Engine.fallback_loop c s m pp pm t tl mx o i cs ch la st2)
          as [[run|e] st3]
    end; cbn [fst snd] in *.
    2:{ cbv beta iota. eexists _, _, _, (ev1 ++ ev2 ++ ev3). split; [reflexivity|].
        rewrite Ht3, Ht2, Ht1, <- !app_assoc.
        split; [done|]. unfold shape. left. split; [done|].
        by rewrite !Forall_app. }
    assert (Hbefore : Forall Persistence.before_persist (ev1 ++ ev2 ++ ev3))
      by (by rewrite !Forall_app).
    assert (Htrace : Engine.trace st3 = Engine.trace st0 ++ ev1 ++ ev2 ++ ev3)
      by (by rewrite Ht3, Ht2, Ht1, <- !app_assoc).
    clear Ht1 Ht2 Ht3 Hp1 Hp2 Hp3.
    rewrite Persistence.lbind_lmodify.
    rewrite QuotaGate.lbind_lift_run. unfold Engine.emit at 1. cbv beta iota.
    rewrite QuotaGate.lbind_lift_run, Persistence.add_rows_run. cbv beta iota.
    unfold Engine.lbind at 1. cbv beta iota.
    rewrite QuotaGate.lbind_lift_run.
    unfold Engine.bind at 1. unfold Engine.emit at 1. cbv beta iota.
    specialize (Htext turn l1 st1 eq_refl). rewrite Htext.
    set (cid := conversation_id (Engine.tn_conversation turn)).
    set (rows := Engine.user_row cid (PyStr.strip (Engine.rq_message rq))
                   (Engine.run_actual_provider (Engine.fr_run run))
                   (Engine.run_actual_model (Engine.fr_run run)) []
                 :: Engine.run_generated_records (Engine.fr_run run)).
    assert (Hshape_events :
              Engine.trace st0
                ++ (ev1 ++ ev2 ++ ev3)
                   ++ (Engine.EvDbAdd cid owner_id <$> rows) ++ [Engine.EvDbCommit]
              = ((Engine.trace st3
                    ++ [Engine.EvDbAdd cid owner_id
                          (Engine.user_row cid (PyStr.strip (Engine.rq_message rq))
                             (Engine.run_actual_provider (Engine.fr_run run))
                             (Engine.run_actual_model (Engine.fr_run run)) [])])
                   ++ (Engine.EvDbAdd cid owner_id
                         <$> Engine.run_generated_records (Engine.fr_run run)))
                ++ [Engine.EvDbCommit]).
    { rewrite Htrace. subst rows. cbn [fmap list_fmap].
      rewrite <- !app_assoc. done. }
    unfold Engine.call at 1. unfold Engine.log.
    cbn [Engine.ext Engine.trace].
    destruct (Engine.db_commit backend (Engine.ext st3)) as [[[]|e] w4] eqn:Hcommit.
    2:{ eexists _, _, _, _. split; [reflexivity|]. cbn [Engine.trace].
        split; [symmetry; exact Hshape_events|].
        unfold shape. right. exists (ev1 ++ ev2 ++ ev3), cid, (Engine.fr_run run).
        split_and!; [done | done |]. left. exists (Engine.ext st3).
        by rewrite Hcommit. }
    rewrite QuotaGate.lbind_lift_run. unfold Engine.call at 1.
    cbn [Engine.ext Engine.trace].
    destruct (Engine.commit_token_usage backend owner_id _ _ _ w4)
      as [[[]|e] w5] eqn:Htokens.
    2:{ eexists _, _, _, _. split; [reflexivity|]. cbn [Engine.trace].
        split; [symmetry; exact Hshape_events|].
        unfold shape. right. exists (ev1 ++ ev2 ++ ev3), cid, (Engine.fr_run run).
        split_and!; [done | done |]. right. exists w4. by rewrite Htokens. }
    rewrite Persistence.lbind_lmodify. unfold Engine.lret.
    eexists _, _, _, _. split; [reflexivity|]. cbn [Engine.trace].
    split; [symmetry; exact Hshape_events|].
    unfold shape. right. exists (ev1 ++ ev2 ++ ev3), cid, (Engine.fr_run run).
    split_and!; done. }
  subst out. unfold Engine.chat.
  pose proof (Engine.call_total_trace (Engine.uuid4_hex svc) st) as Hu.
  destruct (Engine.call_total (Engine.uuid4_hex svc) st) as [hex st0].
  cbn [snd] in Hu.
  destruct (Hbody st0) as (r & l & st1 & events & -> & Ht & Hshape).
  unfold Engine.safe_record, Engine.call, Engine.log. cbn [Engine.ext Engine.trace].
  match goal with
  | |- context [Engine.metric_record backend ?m ?w] =>
      set (metric := m);
      destruct (Engine.metric_record backend metric w) as [r2 w2]
  end.
  cbn [fst snd Engine.trace].
  exists events, metric. rewrite Ht, Hu, <- app_assoc. split; [done|].
  exact Hshape.
Qed.

(* ===================================================================== *)
(** * The windows of [_split_text] ([rag_service.py])                     *)
(* ===================================================================== *)

Module RagWindows.
Import PyStr RagSplit.

(** [text[start:min(start + chunk_size, len(text))].strip()] *)
Definition window (text : string) (chunk_size start : Z) : string :=
  strip (slice text start (Z.min (start + chunk_size) (len text))).

(** The starts [start, start + step, ...] of [n] windows. *)
Definition window_starts (start step : Z) (n : nat) : list Z :=
  map (fun k => start + Z.of_nat k * step) (seq 0 n).

(** The windows at the given starts that are not blank. *)
Definition chunks_of_windows (text : string) (chunk_size : Z) (starts : list Z)
    : list string :=
  List.filter truthy (map (window text chunk_size) starts).

Lemma window_starts_S start step n :
  window_starts start step (S n) = start :: window_starts (start + step) step n.
Proof.
  unfold window_starts. cbn [seq map]. f_equal; [lia|].
  rewrite <- seq_shift, map_map. apply map_ext. intros k. lia.
Qed.

(** The loop entered at [start] returns the chunks it was given followed by
    those of [n] windows, [step = chunk_size - chunk_overlap] apart; the last
    of them is the first to reach the end of the text. *)
Lemma loop_windows fuel text size ov start chunks :
  0 <= ov <= size - 1 -> 0 <= start ->
  (Z.to_nat (len text - start) < fuel)%nat ->
  exists n,
    _split_text_loop fuel text size ov start chunks
    = Some (chunks ++ chunks_of_windows text size
                        (window_starts start (size - ov) n)) /\
    (len text <= start -> n = 0%nat) /\
    (start < len text ->
       (0 < n)%nat /\
       len text <= start + Z.of_nat (n - 1) * (size - ov) + size /\
       forall k, (k < n - 1)%nat ->
         start + Z.of_nat k * (size - ov) + size < len text).
Proof.
  intros Hov. revert start chunks.
  induction fuel as [|fuel IH]; intros start chunks Hs Hf; [lia|].
  cbn [_split_text_loop].
  destruct (Z.ltb_spec start (len text)) as [Hlt|Hge].
  2:{ exists 0%nat. rewrite app_nil_r. split_and!; [done | done | lia]. }
  unfold _split_text_step.
  fold (window text size start).
  destruct (Z.leb_spec (len text) (Z.min (start + size) (len text))) as [Hend|Hend].
  - exists 1%nat. split_and!.
    + unfold chunks_of_windows, window_starts. cbn [seq map List.filter].
      replace (start + Z.of_nat 0 * (size - ov)) with start by lia.
      destruct (truthy (window text size start)); [done | by rewrite app_nil_r].
    + lia.
    + intros _. split_and!; [lia | simpl; lia | intros k Hk; simpl in Hk; lia].
  - assert (Hmin : Z.min (start + size) (len text) = start + size) by lia.
    rewrite Hmin.
    destruct (IH (start + size - ov)
                (if truthy (window text size start)
                 then chunks ++ [window text size start] else chunks)
                ltac:(lia) ltac:(lia)) as (n & Heq & Hzero & Hpos).
    exists (S n). split_and!.
    + rewrite Heq, window_starts_S. f_equal.
      unfold chunks_of_windows. cbn [map List.filter].
      replace (start + (size - ov)) with (start + size - ov) by lia.
      destruct (truthy (window text size start)); [by rewrite <- app_assoc | done].
    + lia.
    + intros _. split; [lia|].
      destruct (Z.ltb_spec (start + size - ov) (len text)) as [Hin|Hout].
      * destruct (Hpos Hin) as (Hn & Hlast & Hbefore).
        replace (S n - 1)%nat with (S (n - 1)) by lia.
        split; [lia|].
        intros [|k] Hk; [lia|]. specialize (Hbefore k ltac:(lia)). lia.
      * lia.
Qed.

End RagWindows.

(** X23. What [_split_text] returns, with the parameters clamped as
    [ingest_document] clamps them: the chunks are the windows of
    [chunk_size] characters that start every [chunk_size - chunk_overlap]
    characters from the start of the text, each stripped of surrounding
    blanks and left out if nothing remains.  The last window is the first
    that reaches the end of the text, so every position of the text lies in
    a window; an empty text gives no chunk, and a text of at most
    [chunk_size] characters gives its stripped form as the only chunk. *)
Theorem X23_split_text_chunks_are_the_stripped_windows :
  forall (text : string) (chunk_size chunk_overlap : Z),
    let size := RagSplit.clamp_chunk_size chunk_size in
    let ov := RagSplit.clamp_chunk_overlap size chunk_overlap in
    let step := size - ov in
    let result := RagSplit._split_text (S (Z.to_nat (PyStr.len text))) text size ov in
    exists n,
      result = Some (RagWindows.chunks_of_windows text size
                       (RagWindows.window_starts 0 step n)) /\
      (text = "" -> n = 0%nat) /\
      (text <> "" ->
         (0 < n)%nat /\
         PyStr.len text <= Z.of_nat (n - 1) * step + size /\
         forall k, (k < n - 1)%nat -> Z.of_nat k * step + size < PyStr.len text) /\
      (forall i, 0 <= i < PyStr.len text ->
         exists k, (k < n)%nat /\
                   Z.of_nat k * step <= i < Z.of_nat k * step + size) /\
      (text <> "" -> PyStr.len text <= size ->
         result = Some (if PyStr.truthy (PyStr.strip text)
                        then [PyStr.strip text] else [])).
Proof.
  intros text chunk_size chunk_overlap size ov step result.
  assert (Hsz : 200 <= size <= 4000)
    by (subst size; unfold RagSplit.clamp_chunk_size; lia).
  assert (Hov : 0 <= ov <= size - 1)
    by (subst ov; unfold RagSplit.clamp_chunk_overlap; lia).
  assert (Hlen : text <> "" -> 0 < PyStr.len text) by apply PyStr.len_pos.
  destruct (RagWindows.loop_windows (S (Z.to_nat (PyStr.len text))) text size ov 0 []
              Hov ltac:(lia) ltac:(pose proof (PyStr.len_nonneg text); lia))
    as (n & Heq & Hzero & Hpos).
  fold step in Heq, Hpos. cbn [app] in Heq.
  change (RagSplit._split_text_loop (S (Z.to_nat (PyStr.len text))) text size ov 0 [])
    with result in Heq.
  exists n. split_and!.
  - done.
  - intros ->. by apply Hzero.
  - intros Hne. destruct (Hpos (Hlen Hne)) as (Hn & Hlast & Hbefore).
    split_and!; [done | lia |]. intros k Hk. specialize (Hbefore k Hk). lia.
  - intros i Hi. destruct (Hpos ltac:(lia)) as (Hn & Hlast & Hbefore).
    assert (Hstep : 1 <= step <= size) by (subst step; lia).
    destruct (Z.ltb_spec (i / step) (Z.of_nat (n - 1))) as [Hq|Hq].
    + exists (Z.to_nat (i / step)).
      pose proof (Z.div_pos i step ltac:(lia) ltac:(lia)) as Hq0.
      rewrite Z2Nat.id by done.
      pose proof (Z.mul_div_le i step ltac:(lia)) as Hle.
      pose proof (Z.mul_succ_div_gt i step ltac:(lia)) as Hgt.
      split; [lia|]. nia.
    + exists (n - 1)%nat. split; [lia|].
      assert (Z.of_nat (n - 1) * step <= i); [|lia].
      pose proof (Z.mul_div_le i step ltac:(lia)) as Hle. nia.
  - intros Hne Hshort. destruct (Hpos (Hlen Hne)) as (Hn & Hlast & Hbefore).
    assert (n = 1%nat) as ->.
    { destruct n as [|[|n]]; [lia | done |].
      specialize (Hbefore 0%nat ltac:(lia)). lia. }
    rewrite Heq. unfold RagWindows.chunks_of_windows, RagWindows.window_starts.
    cbn [seq map List.filter]. unfold RagWindows.window.
    replace (0 + Z.of_nat 0 * step) with 0 by lia.
    replace (Z.min (0 + size) (PyStr.len text)) with (PyStr.len text) by lia.
    by rewrite PyStr.slice_whole.
Qed.

(* ===================================================================== *)
(** * Ingesting a document ([rag_service.py])                             *)
(* ===================================================================== *)

Module RagIngest.
Import PyStr RagSplit.

(** What [ingest_document] does to the database session, in order. *)
Inductive DbOp {F : Type} :=
| AddDocument (doc_id : string) (owner_id : Z) (title content : string)
    (meta_info : gmap string Json) (chunk_count : Z)
| Flush
| AddChunk (doc_id : string) (owner_id : Z) (chunk_index : Z) (content : string)
    (embedding : list F) (meta_info : list (string * Json))
| Commit.
Arguments DbOp : clear implicits.

(** The dictionary [ingest_document] returns; the key [title] is missing
    from the one returned for a blank document. *)
Record IngestResult := mkIngestResult {
  ir_doc_id : string;
  ir_title : option string;
  ir_chunk_count : Z;
}.

(** [self._split_text(text, ...)].  The loop of [_split_text] ends within
    [len(text) + 1] iterations ([split_chunks_eq] below). *)
Definition split_chunks (text : string) (chunk_size chunk_overlap : Z) : list string :=
  default [] (_split_text (S (Z.to_nat (PyStr.len text))) text chunk_size chunk_overlap).

Section Ingest.
Context {W F : Type}.

(** [self.llm_client.embedding(text=..., provider=..., model=...)],
    [uuid.uuid4().hex], [db.flush()] and [db.commit()]. *)
Variable embedding : string -> string -> string -> W -> Result (list F) * W.
Variable uuid4_hex : W -> string * W.
Variable db_flush : W -> Result unit * W.
Variable db_commit : W -> Result unit * W.

(** [project_config.EMBEDDING_PROVIDER], [project_config.EMBEDDING_MODEL] *)
Variables EMBEDDING_PROVIDER EMBEDDING_MODEL : string.

Definition chunk_meta (title : string) (metadata : gmap string Json)
    (chunk_size chunk_overlap : Z) : list (string * Json) :=
  [("title", JStr title); ("source", default JNull (metadata !! "source"));
   ("chunk_size", JNum chunk_size); ("chunk_overlap", JNum chunk_overlap)].

(** [for idx, chunk in enumerate(chunks): ...] *)
Fixpoint add_chunks (doc_id : string) (owner_id : Z) (provider model : string)
    (meta : list (string * Json)) (idx : Z) (chunks : list string)
    (w : W) (ops : list (DbOp F)) : (Result unit * W) * list (DbOp F) :=
  match chunks with
  | [] => ((Ok tt, w), ops)
  | chunk :: rest =>
      match embedding chunk provider model w with
      | (Raise e, w') => ((Raise e, w'), ops)
      | (Ok vector, w') =>
          add_chunks doc_id owner_id provider model meta (idx + 1) rest w'
            (ops ++ [AddChunk doc_id owner_id idx chunk vector meta])
      end
  end.

(** [RAGService.ingest_document]: the result, the world after the call, and
    what was done to the session. *)
Definition ingest_document (owner_id : Z) (title : string) (content : option string)
    (metadata : option (gmap string Json)) (chunk_size chunk_overlap : Z)
    (embedding_provider embedding_model : option string) (w : W)
    : (Result IngestResult * W) * list (DbOp F) :=
  let text := strip (or_else content "") in
  if negb (truthy text) then ((Ok (mkIngestResult "" None 0), w), [])
  else
    let metadata := default ∅ metadata in
    let chunk_size := clamp_chunk_size chunk_size in
    let chunk_overlap := clamp_chunk_overlap chunk_size chunk_overlap in
    let chunks := split_chunks text chunk_size chunk_overlap in
    let '(hex, w) := uuid4_hex w in
    let doc_id := "doc_" +:+ hex in
    let ops :=
      [AddDocument doc_id owner_id title text metadata (Z.of_nat (length chunks))] in
    match db_flush w with
    | (Raise e, w) => ((Raise e, w), ops)
    | (Ok _, w) =>
        match add_chunks doc_id owner_id
                (or_else embedding_provider EMBEDDING_PROVIDER)
                (or_else embedding_model EMBEDDING_MODEL)
                (chunk_meta title metadata chunk_size chunk_overlap)
                0 chunks w (ops ++ [Flush]) with
        | ((Raise e, w), ops) => ((Raise e, w), ops)
        | ((Ok _, w), ops) =>
            match db_commit w with
            | (Raise e, w) => ((Raise e, w), ops)
            | (Ok _, w) =>
                ((Ok (mkIngestResult doc_id (Some title) (Z.of_nat (length chunks))),
                  w), ops ++ [Commit])
            end
        end
    end.

(** The rows of the chunks [chunks], numbered from [idx], with the vectors
    [vectors]. *)
Fixpoint chunk_rows (doc_id : string) (owner_id : Z) (meta : list (string * Json))
    (idx : Z) (chunks : list string) (vectors : list (list F)) : list (DbOp F) :=
  match chunks, vectors with
  | chunk :: chunks', vector :: vectors' =>
      AddChunk doc_id owner_id idx chunk vector meta
        :: chunk_rows doc_id owner_id meta (idx + 1) chunks' vectors'
  | _, _ => []
  end.

(** The loop adds one row per chunk it got a vector for, and stops at the
    first chunk it gets none for. *)
Lemma add_chunks_spec doc_id owner_id provider model meta idx chunks w ops :
  let out := add_chunks doc_id owner_id provider model meta idx chunks w ops in
  exists vectors,
    out.2 = ops ++ chunk_rows doc_id owner_id meta idx chunks vectors /\
    (length vectors <= length chunks)%nat /\
    (is_ok out.1.1 = true -> length vectors = length chunks) /\
    (is_ok out.1.1 = false -> (length vectors < length chunks)%nat).
Proof.
  revert idx w ops. induction chunks as [|chunk rest IH]; intros idx w ops;
    cbn [add_chunks].
  { exists []. rewrite app_nil_r. split_and!; done. }
  destruct (embedding chunk provider model w) as [[vector|e] w'].
  - destruct (IH (idx + 1) w'
                (ops ++ [AddChunk doc_id owner_id idx chunk vector meta]))
      as (vectors & Hops & Hle & Hok & Hfail).
    exists (vector :: vectors). cbn [chunk_rows length].
    rewrite Hops, <- app_assoc. split_and!; [done | lia | |].
    + intros H. rewrite (Hok H). done.
    + intros H. specialize (Hfail H). lia.
  - exists []. cbn. rewrite app_nil_r. split_and!; [done | lia | done | lia].
Qed.

Lemma chunk_rows_no_commit doc_id owner_id meta idx chunks vectors :
  Commit ∉ chunk_rows doc_id owner_id meta idx chunks vectors.
Proof.
  revert idx vectors. induction chunks as [|chunk rest IH]; intros idx [|v vs];
    cbn [chunk_rows]; try apply not_elem_of_nil.
  intros [?|?]%elem_of_cons; [done|]. by eapply IH.
Qed.

Lemma chunk_rows_length doc_id owner_id meta idx chunks vectors :
  length (chunk_rows doc_id owner_id meta idx chunks vectors)
  = Nat.min (length chunks) (length vectors).
Proof.
  revert idx vectors. induction chunks as [|chunk rest IH]; intros idx [|v vs];
    cbn [chunk_rows length]; try done.
  by rewrite IH.
Qed.

End Ingest.

(** With the parameters clamped, the loop of [_split_text] has ended within
    the iterations [split_chunks] allows it. *)
Lemma split_chunks_eq text chunk_size chunk_overlap :
  let size := clamp_chunk_size chunk_size in
  let ov := clamp_chunk_overlap size chunk_overlap in
  _split_text (S (Z.to_nat (PyStr.len text))) text size ov
  = Some (split_chunks text size ov) /\
  Forall (chunk_ok size) (split_chunks text size ov).
Proof.
  intros size ov. unfold split_chunks, _split_text.
  destruct (loop_terminates (S (Z.to_nat (PyStr.len text))) text size ov 0 [])
    as (out & -> & Hall).
  - subst size ov. unfold clamp_chunk_size, clamp_chunk_overlap. lia.
  - lia.
  - constructor.
  - unfold len. lia.
  - done.
Qed.

End RagIngest.

(** X24. Ingesting a document.  A document whose content is missing or
    blank is answered with an empty id and a count of 0, and nothing is
    called or written.  Otherwise the session sees, in order: the document
    row (with the stripped content and the number of chunks), a flush, one
    chunk row per chunk of [_split_text] for which a vector was obtained,
    numbered from 0 and carrying the id of the document, and, only if every
    chunk got its vector and nothing raised, a commit, after which the id
    and the number of chunks are returned.  A call that raises has committed
    nothing. *)
Theorem X24_ingest_document_rows_and_commit :
  forall (W F : Type)
         (embedding : string -> string -> string -> W -> Result (list F) * W)
         (uuid4_hex : W -> string * W)
         (db_flush db_commit : W -> Result unit * W)
         (EMBEDDING_PROVIDER EMBEDDING_MODEL : string)
         (owner_id : Z) (title : string) (content : option string)
         (metadata : option (gmap string Json)) (chunk_size chunk_overlap : Z)
         (embedding_provider embedding_model : option string) (w : W),
    let out :=
      RagIngest.ingest_document embedding uuid4_hex db_flush db_commit
        EMBEDDING_PROVIDER EMBEDDING_MODEL owner_id title content metadata
        chunk_size chunk_overlap embedding_provider embedding_model w in
    let text := PyStr.strip (PyStr.or_else content "") in
    let size := RagSplit.clamp_chunk_size chunk_size in
    let ov := RagSplit.clamp_chunk_overlap size chunk_overlap in
    let doc_id := "doc_" +:+ (uuid4_hex w).1 in
    let meta := RagIngest.chunk_meta title (default ∅ metadata) size ov in
    (text = "" ->
       out = ((Ok (RagIngest.mkIngestResult "" None 0), w), [])) /\
    (text <> "" ->
       exists chunks vectors,
         RagSplit._split_text (S (Z.to_nat (PyStr.len text))) text size ov = Some chunks /\
         Forall (fun c => c <> "" /\ PyStr.len c <= size) chunks /\
         (length vectors <= length chunks)%nat /\
         let document :=
           RagIngest.AddDocument doc_id owner_id title text (default ∅ metadata)
             (Z.of_nat (length chunks)) in
         let rows := RagIngest.chunk_rows doc_id owner_id meta 0 chunks vectors in
         match out.1.1 with
         | Ok result =>
             result = RagIngest.mkIngestResult doc_id (Some title)
                        (Z.of_nat (length chunks)) /\
             length vectors = length chunks /\
             out.2 = [document; RagIngest.Flush] ++ rows ++ [RagIngest.Commit]
         | Raise _ =>
             (RagIngest.Commit ∉ out.2) /\
             (out.2 = [document] \/ out.2 = [document; RagIngest.Flush] ++ rows)
         end).
Proof.
  intros W F embedding uuid4_hex db_flush db_commit EMBEDDING_PROVIDER
    EMBEDDING_MODEL owner_id title content metadata chunk_size chunk_overlap
    embedding_provider embedding_model w out text size ov doc_id meta.
  subst out. unfold RagIngest.ingest_document. fold text size ov.
  split.
  - intros ->. done.
  - intros Hne. apply PyStr.truthy_ne in Hne. rewrite Hne. cbn [negb].
    destruct (RagIngest.split_chunks_eq text chunk_size chunk_overlap)
      as [Hsplit Hall]. fold size ov in Hsplit, Hall.
    set (chunks := RagIngest.split_chunks text size ov) in *.
    subst doc_id. destruct (uuid4_hex w) as [hex w0]. cbn [fst].
    fold meta.
    set (document := RagIngest.AddDocument ("doc_" +:+ hex) owner_id title text
                       (default ∅ metadata) (Z.of_nat (length chunks))).
    destruct (db_flush w0) as [[[]|e] w1].
    2:{ exists chunks, []. do 3 (split; [done || (simpl; lia)|]).
        cbn [fst snd]. split; [|by left].
        intros [?|?%elem_of_nil]%elem_of_cons; done. }
    destruct (RagIngest.add_chunks_spec embedding ("doc_" +:+ hex) owner_id
                (PyStr.or_else embedding_provider EMBEDDING_PROVIDER)
                (PyStr.or_else embedding_model EMBEDDING_MODEL) meta 0 chunks w1
                ([document] ++ [RagIngest.Flush]))
      as (vectors & Hops & Hle & Hok & Hfail).
    assert (Hno : RagIngest.Commit
                  ∉ [document; RagIngest.Flush]
                    ++ RagIngest.chunk_rows ("doc_" +:+ hex) owner_id meta 0
                         chunks vectors).
    { intros [Hin|Hin]%elem_of_app.
      - apply elem_of_cons in Hin as [?|Hin]; [done|].
        apply elem_of_cons in Hin as [?|Hin]; [done|]. by apply elem_of_nil in Hin.
      - by eapply RagIngest.chunk_rows_no_commit. }
    destruct (RagIngest.add_chunks _ _ _ _ _ _ _ _ w1 _) as [[[[]|e] w2] ops];
      cbn [fst snd] in *; subst ops.
    + specialize (Hok eq_refl).
      destruct (db_commit w2) as [[[]|e] w3]; exists chunks, vectors;
        do 3 (split; [done|]); cbn [fst snd].
      * split; [done|]. split; [done|]. by rewrite <- app_assoc.
      * split; [exact Hno | by right].
    + exists chunks, vectors. do 3 (split; [done|]). cbn [fst snd].
      split; [exact Hno | by right].
Qed.

(* ===================================================================== *)
(** * Retrieval, whatever the arithmetic ([rag_service.py])               *)
(* ===================================================================== *)

Module RagBounds.
Import PyStr Rag.

Section AnyArith.
Context {F : Type} (A : Arith F).

Lemma insert_by_key_permutation {B} (x : F * B) (sorted : list (F * B)) :
  insert_by_key A x sorted ≡ₚ x :: sorted.
Proof.
  induction sorted as [|y rest IH]; cbn [insert_by_key]; [done|].
  destruct (f_lt A y.1 x.1); [|done].
  rewrite IH. apply Permutation_swap.
Qed.

Lemma sort_by_key_permutation {B} (items : list (F * B)) :
  sort_by_key A items ≡ₚ items.
Proof.
  unfold sort_by_key. induction items as [|x items IH]; cbn [foldr]; [done|].
  by rewrite insert_by_key_permutation, IH.
Qed.

Lemma sort_by_key_reverse_permutation {B} (items : list (F * B)) :
  sort_by_key_reverse A items ≡ₚ items.
Proof.
  unfold sort_by_key_reverse.
  by rewrite <- Permutation_rev, sort_by_key_permutation, <- Permutation_rev.
Qed.

(** What the loop keeps: the chunks whose score is not [<= 0], each with
    its score. *)
Definition scored_from (query_embedding : list F) (chunks : list (RAGChunk F))
    (item : F * RAGChunk F) : Prop :=
  item.2 ∈ chunks /\
  item.1 = _cosine_similarity A query_embedding (default [] (ck_embedding item.2)) /\
  f_non_positive A item.1 = false.

Lemma score_chunks_from query_embedding chunks :
  Forall (scored_from query_embedding chunks) (score_chunks A query_embedding chunks) /\
  (length (score_chunks A query_embedding chunks) <= length chunks)%nat.
Proof.
  induction chunks as [|chunk rest [IH IHlen]]; cbn [score_chunks]; [done|].
  assert (Hrest : Forall (scored_from query_embedding (chunk :: rest))
                    (score_chunks A query_embedding rest)).
  { eapply Forall_impl; [exact IH|]. intros item (Hin & Hs & Hp).
    split_and!; [by apply list_elem_of_further | done | done]. }
  destruct (f_non_positive A _) eqn:Hpos.
  - split; [done | cbn [length]; lia].
  - split; [|cbn [length]; lia]. constructor; [|done].
    split_and!; [apply list_elem_of_here | done | done].
Qed.

Lemma select_chunks_from query_embedding chunks top_k :
  let selected := select_chunks A query_embedding chunks top_k in
  Forall (scored_from query_embedding chunks) selected /\
  (length selected <= length chunks)%nat /\
  Z.of_nat (length selected) <= clamp_top_k top_k.
Proof.
  intros selected. subst selected. unfold select_chunks.
  destruct (score_chunks_from query_embedding chunks) as [Hall Hlen].
  pose proof (sort_by_key_reverse_permutation
                (score_chunks A query_embedding chunks)) as Hperm.
  split_and!.
  - apply Forall_take. by rewrite Hperm.
  - rewrite length_take, (Permutation_length Hperm). lia.
  - rewrite length_take. unfold clamp_top_k. lia.
Qed.

End AnyArith.
End RagBounds.

(** X25. Retrieval at its edges and within its bounds, whatever the
    arithmetic of the scores.  A blank query, a missing session or a missing
    owner gives the empty list without an embedding being asked for; an error
    of the embedding call is raised as it is.  Otherwise the list returned
    holds at most [max(1, min(top_k, 20))] passages and no more than the
    owner has chunks, and every passage is one of those chunks (id of the
    document, index, content and metadata as stored) whose score against the
    query is not [<= 0], with that score rounded. *)
Theorem X25_retrieve_context_edges_and_bounds :
  forall (F : Type) (A : Rag.Arith F) (round6 : F -> F)
         (embedding : string -> string -> string -> Result (list F))
         (EMBEDDING_PROVIDER EMBEDDING_MODEL : string)
         (query : string) (db : option (Rag.Store F)) (owner_id : option Z)
         (top_k : Z) (embedding_provider embedding_model : option string),
    let out :=
      Rag.retrieve_context A round6 embedding EMBEDDING_PROVIDER EMBEDDING_MODEL
        query db owner_id top_k embedding_provider embedding_model in
    let asked :=
      embedding (PyStr.strip query)
        (PyStr.or_else embedding_provider EMBEDDING_PROVIDER)
        (PyStr.or_else embedding_model EMBEDDING_MODEL) in
    (PyStr.strip query = "" \/ db = None \/ owner_id = None -> out = Ok []) /\
    (forall store owner,
       PyStr.strip query <> "" -> db = Some store -> owner_id = Some owner ->
       (forall e, asked = Raise e -> out = Raise e) /\
       (forall query_embedding, asked = Ok query_embedding ->
          exists passages,
            out = Ok passages /\
            Z.of_nat (length passages) <= Rag.clamp_top_k top_k <= 20 /\
            (length passages <= length (Rag.rag_chunks store owner))%nat /\
            Forall (fun passage =>
                      exists chunk,
                        chunk ∈ Rag.rag_chunks store owner /\
                        Rag.ps_doc_id passage = Rag.ck_doc_id chunk /\
                        Rag.ps_chunk_index passage = Rag.ck_chunk_index chunk /\
                        Rag.ps_content passage = Rag.ck_content chunk /\
                        Rag.ps_metadata passage
                          = default [] (Rag.ck_meta_info chunk) /\
                        let score :=
                          Rag._cosine_similarity A query_embedding
                            (default [] (Rag.ck_embedding chunk)) in
                        Rag.ps_score passage = round6 score /\
                        Rag.f_non_positive A score = false)
              passages)).
Proof.
  intros F A round6 embedding EMBEDDING_PROVIDER EMBEDDING_MODEL query db owner_id
    top_k embedding_provider embedding_model out asked.
  subst out. unfold Rag.retrieve_context. fold asked. split.
  - intros [Hblank | [-> | ->]].
    + by rewrite Hblank.
    + by destruct (negb _).
    + destruct (negb _); [done|]. by destruct db.
  - intros store owner Hquery -> ->.
    apply PyStr.truthy_ne in Hquery. rewrite Hquery. cbn [negb]. split.
    + by intros e ->.
    + intros query_embedding ->.
      assert (Hclamp : Rag.clamp_top_k top_k <= 20)
        by (unfold Rag.clamp_top_k; lia).
      destruct (Rag.rag_chunks store owner) as [|chunk rest] eqn:Hchunks.
      { exists []. split_and!; [done | simpl; unfold Rag.clamp_top_k; lia | done
                                | done | constructor]. }
      rewrite <- Hchunks.
      destruct (RagBounds.select_chunks_from A query_embedding
                  (Rag.rag_chunks store owner) top_k) as (Hall & Hlen & Hk).
      eexists. split; [reflexivity|]. rewrite length_map.
      split_and!; [done | done | done |].
      apply Forall_map. eapply Forall_impl; [exact Hall|].
      intros [score item] (Hin & Hs & Hp). cbn [fst snd] in *.
      exists item. cbn. rewrite <- Hs. split_and!; done.
Qed.

(* ===================================================================== *)
(** * The ranking of retrieval, on binary64 numbers                       *)
(* ===================================================================== *)

Module RagRanking.
Import PyStr Rag.

(** ** A stable sort by keys that [<] orders *)

Section Sorting.
Context {F : Type} (A : Arith F).

(** [good] tells the keys that [<] orders (on binary64 numbers, those that
    are not [nan]) and [le] is the order. *)
Variable good : F -> Prop.
Variable le : F -> F -> Prop.
Hypothesis le_trans : forall x y z, le x y -> le y z -> le x z.
Hypothesis lt_le : forall x y, f_lt A x y = true -> le x y.
Hypothesis not_lt_le : forall x y, good x -> good y -> f_lt A y x = false -> le x y.

Definition key_le {B} (x y : F * B) : Prop := le x.1 y.1.
Definition good_key {B} (x : F * B) : Prop := good x.1.

Lemma insert_by_key_sorted {B} (x : F * B) (sorted : list (F * B)) :
  good_key x -> Forall good_key sorted ->
  StronglySorted key_le sorted ->
  StronglySorted key_le (insert_by_key A x sorted).
Proof.
  intros Hx Hgood Hsorted. induction Hsorted as [|y rest Hsorted IH Hall];
    cbn [insert_by_key].
  - repeat constructor.
  - apply Forall_cons in Hgood as [Hy Hgood].
    destruct (f_lt A y.1 x.1) eqn:Hlt.
    + constructor; [by apply IH|].
      rewrite RagBounds.insert_by_key_permutation.
      constructor; [by apply lt_le | done].
    + assert (Hxy : key_le x y) by (by apply not_lt_le).
      constructor; [by constructor|].
      constructor; [done|].
      eapply Forall_impl; [exact Hall|]. intros z Hz. by eapply le_trans.
Qed.

Lemma sort_by_key_sorted {B} (items : list (F * B)) :
  Forall good_key items -> StronglySorted key_le (sort_by_key A items).
Proof.
  unfold sort_by_key. induction 1 as [|x items Hx Hitems IH]; cbn [foldr];
    [constructor|].
  apply insert_by_key_sorted; [done | | done].
  change (foldr (insert_by_key A) [] items) with (sort_by_key A items).
  by rewrite RagBounds.sort_by_key_permutation.
Qed.

Lemma StronglySorted_rev {B} (R0 : relation B) (l : list B) :
  StronglySorted R0 l -> StronglySorted (flip R0) (rev l).
Proof.
  induction 1 as [|x l Hl IH Hall]; cbn [rev]; [constructor|].
  apply StronglySorted_app_2; [| done | repeat constructor].
  intros y z Hy ->%list_elem_of_singleton.
  rewrite Forall_forall in Hall. apply Hall.
  by apply list_elem_of_In, in_rev, list_elem_of_In.
Qed.

Lemma sort_by_key_reverse_sorted {B} (items : list (F * B)) :
  Forall good_key items ->
  StronglySorted (flip key_le) (sort_by_key_reverse A items).
Proof.
  intros Hgood. unfold sort_by_key_reverse.
  apply StronglySorted_rev, sort_by_key_sorted. by rewrite <- Permutation_rev.
Qed.

End Sorting.

(** ** What the scoring loop keeps *)

Section Scoring.
Context {F : Type} (A : Arith F).

Lemma score_chunks_chunks (query_embedding : list F) (chunks : list (RAGChunk F)) :
  map snd (score_chunks A query_embedding chunks)
  = List.filter
      (fun chunk =>
         negb (f_non_positive A
                 (_cosine_similarity A query_embedding
                    (default [] (ck_embedding chunk)))))
      chunks.
Proof.
  induction chunks as [|chunk rest IH]; cbn [score_chunks List.filter]; [done|].
  destruct (f_non_positive A _); cbn [negb map snd]; by rewrite IH.
Qed.

Lemma score_chunks_kept (query_embedding : list F) (chunks : list (RAGChunk F)) chunk :
  let score := _cosine_similarity A query_embedding (default [] (ck_embedding chunk)) in
  chunk ∈ chunks -> f_non_positive A score = false ->
  (score, chunk) ∈ score_chunks A query_embedding chunks.
Proof.
  intros score Hin Hpos. subst score.
  induction chunks as [|c rest IH]; [by apply elem_of_nil in Hin|].
  cbn [score_chunks]. apply elem_of_cons in Hin as [<-|Hin].
  - rewrite Hpos. apply list_elem_of_here.
  - destruct (f_non_positive A
                (_cosine_similarity A query_embedding (default [] (ck_embedding c))));
      [by apply IH|].
    apply list_elem_of_further. by apply IH.
Qed.

(** The similarity looks at the first [min (len vec1) (len vec2)] components
    of each vector only. *)
Lemma cosine_truncates_any (vec1 vec2 : list F) :
  let size := Nat.min (length vec1) (length vec2) in
  _cosine_similarity A vec1 vec2
  = _cosine_similarity A (take size vec1) (take size vec2).
Proof.
  destruct vec1 as [|x xs], vec2 as [|y ys]; try done.
  cbv zeta. change (Nat.min (length (x :: xs)) (length (y :: ys)))
      with (Datatypes.S (Nat.min (length xs) (length ys))).
  set (m := Nat.min (length xs) (length ys)).
  change (take (Datatypes.S m) (x :: xs)) with (x :: take m xs).
  change (take (Datatypes.S m) (y :: ys)) with (y :: take m ys).
  unfold _cosine_similarity.
  change (length (x :: xs)) with (Datatypes.S (length xs)).
  change (length (y :: ys)) with (Datatypes.S (length ys)).
  change (length (x :: take m xs)) with (Datatypes.S (length (take m xs))).
  change (length (y :: take m ys)) with (Datatypes.S (length (take m ys))).
  rewrite !length_take.
  replace (Nat.min (Datatypes.S (Nat.min m (length xs)))
             (Datatypes.S (Nat.min m (length ys))))
    with (Datatypes.S m) by (subst m; lia).
  replace (Nat.min (Datatypes.S (length xs)) (Datatypes.S (length ys)))
    with (Datatypes.S m) by (subst m; lia).
  change (take (Datatypes.S m) (x :: take m xs)) with (x :: take m (take m xs)).
  change (take (Datatypes.S m) (y :: take m ys)) with (y :: take m (take m ys)).
  by rewrite !take_take, Nat.min_id.
Qed.

End Scoring.

(** ** The order of binary64 numbers *)

Import Stdlib.Floats.Floats.


(** The comparison of two binary64 numbers neither of which is [nan] orders
    them by sign, exponent and mantissa. *)
Definition rank (f : spec_float) : Z * (Z * Z) :=
  match f with
  | S754_nan => (0, (0, 0))
  | S754_zero _ => (0, (0, 0))
  | S754_infinity true => (-2, (0, 0))
  | S754_infinity false => (2, (0, 0))
  | S754_finite true m e => (-1, (- e, - Z.pos m))
  | S754_finite false m e => (1, (e, Z.pos m))
  end%Z.

Definition compare3 (a b : Z * (Z * Z)) : comparison :=
  match (a.1 ?= b.1)%Z with
  | Eq => match (a.2.1 ?= b.2.1)%Z with
          | Eq => (a.2.2 ?= b.2.2)%Z
          | c => c
          end
  | c => c
  end.

Lemma SFcompare_rank a b :
  a <> S754_nan -> b <> S754_nan ->
  SFcompare a b = Some (compare3 (rank a) (rank b)).
Proof.
  intros Ha Hb. unfold compare3.
  destruct a as [sa|sa| |sa ma ea], b as [sb|sb| |sb mb eb]; try done;
    try destruct sa; try destruct sb; try reflexivity; cbn [SFcompare rank fst snd].
  rewrite Z.compare_opp, (Z.compare_antisym ea eb).
  change (- Z.pos ma ?= - Z.pos mb)%Z with (CompOpp (Pos.compare_cont Eq ma mb)).
  by destruct (ea ?= eb)%Z.
Qed.

Lemma compare3_le_trans a b c :
  compare3 a b <> Gt -> compare3 b c <> Gt -> compare3 a c <> Gt.
Proof.
  unfold compare3. destruct a as [a1 [a2 a3]], b as [b1 [b2 b3]], c as [c1 [c2 c3]].
  cbn [fst snd].
  destruct (Z.compare_spec a1 b1), (Z.compare_spec b1 c1), (Z.compare_spec a1 c1);
    try lia; try done;
    destruct (Z.compare_spec a2 b2), (Z.compare_spec b2 c2), (Z.compare_spec a2 c2);
    try lia; try done;
    destruct (Z.compare_spec a3 b3), (Z.compare_spec b3 c3), (Z.compare_spec a3 c3);
    try lia; done.
Qed.

Lemma compare3_opp a b : compare3 b a = CompOpp (compare3 a b).
Proof.
  unfold compare3.
  rewrite (Z.compare_antisym a.1 b.1), (Z.compare_antisym a.2.1 b.2.1),
    (Z.compare_antisym a.2.2 b.2.2).
  destruct (a.1 ?= b.1)%Z; cbn; try done.
  destruct (a.2.1 ?= b.2.1)%Z; cbn; done.
Qed.

Definition not_nan (x : float) : Prop := PrimFloat.is_nan x = false.

Lemma not_nan_spec x : not_nan x -> Prim2SF x <> S754_nan.
Proof.
  unfold not_nan, PrimFloat.is_nan. rewrite eqb_spec. intros H E.
  rewrite E in H. done.
Qed.

Lemma leb_not_nan x y : (x <=? y)%float = true -> not_nan x /\ not_nan y.
Proof.
  rewrite leb_spec. unfold not_nan, PrimFloat.is_nan. rewrite !eqb_spec.
  unfold SFleb, SFeqb.
  destruct (Prim2SF x) as [sa|sa| |sa ma ea] eqn:Ex, (Prim2SF y) as [sb|sb| |sb mb eb] eqn:Ey;
    try done; intros _; split;
    try destruct sa; try destruct sb; cbn; rewrite ?Z.compare_refl, ?Pos.compare_cont_refl; done.
Qed.

Lemma leb_compare x y :
  not_nan x -> not_nan y ->
  (x <=? y)%float = negb (bool_decide (compare3 (rank (Prim2SF x)) (rank (Prim2SF y)) = Gt)).
Proof.
  intros Hx%not_nan_spec Hy%not_nan_spec.
  rewrite leb_spec. unfold SFleb. rewrite (SFcompare_rank _ _ Hx Hy).
  by destruct (compare3 _ _).
Qed.

Lemma ltb_compare x y :
  not_nan x -> not_nan y ->
  (x <? y)%float = bool_decide (compare3 (rank (Prim2SF x)) (rank (Prim2SF y)) = Lt).
Proof.
  intros Hx%not_nan_spec Hy%not_nan_spec.
  rewrite ltb_spec. unfold SFltb. rewrite (SFcompare_rank _ _ Hx Hy).
  by destruct (compare3 _ _).
Qed.

Lemma leb_trans x y z :
  (x <=? y)%float = true -> (y <=? z)%float = true -> (x <=? z)%float = true.
Proof.
  intros Hxy Hyz.
  destruct (leb_not_nan _ _ Hxy) as [Hx Hy], (leb_not_nan _ _ Hyz) as [_ Hz].
  rewrite leb_compare in Hxy, Hyz |- * by done.
  apply negb_true_iff, bool_decide_eq_false in Hxy, Hyz.
  apply negb_true_iff, bool_decide_eq_false. by eapply compare3_le_trans.
Qed.

Lemma not_ltb_leb x y :
  not_nan x -> not_nan y -> (y <? x)%float = false -> (x <=? y)%float = true.
Proof.
  intros Hx Hy. rewrite ltb_compare, leb_compare by done.
  rewrite (compare3_opp (rank (Prim2SF x)) (rank (Prim2SF y))).
  intros H%bool_decide_eq_false. apply negb_true_iff, bool_decide_eq_false.
  by destruct (compare3 _ _).
Qed.

Lemma ltb_leb x y : (x <? y)%float = true -> (x <=? y)%float = true.
Proof.
  rewrite ltb_spec, leb_spec. unfold SFltb, SFleb.
  by destruct (SFcompare _ _) as [[]|].
Qed.

Lemma not_leb_ltb x y :
  not_nan x -> not_nan y -> (x <=? y)%float = false -> (y <? x)%float = true.
Proof.
  intros Hx Hy. rewrite ltb_compare, leb_compare by done.
  rewrite (compare3_opp (rank (Prim2SF x)) (rank (Prim2SF y))).
  intros H%negb_false_iff%bool_decide_eq_true. rewrite H. done.
Qed.


End RagRanking.

(* ===================================================================== *)
(** * C8: ranking by cosine similarity                                    *)
(* ===================================================================== *)

Import Stdlib.Reals.Reals Stdlib.micromega.Lra.
Import Stdlib.Floats.Floats.

(** C8 as the design document words its last sentence, on the binary64
    numbers the code computes with: a store of one chunk whose embedding
    equals that of the query scores 1 and is selected for every
    [top_k >= 1]. *)
Definition C8_as_stated : Prop :=
  forall (query_embedding : list float) (chunk : Rag.RAGChunk float) (top_k : Z),
    (1 <= top_k)%Z ->
    Rag.ck_embedding chunk = Some query_embedding ->
    Rag._cosine_similarity Rag.float_arith query_embedding query_embedding = 1%float /\
    Rag.select_chunks Rag.float_arith query_embedding [chunk] top_k
    = [(1%float, chunk)].


Section ZeroVector.

Lemma sum_zero_squares (v : list float) :
  Forall (fun x => x = 0%float) v ->
  Rag.sum Rag.float_arith (map (fun x => Rag.f_mul Rag.float_arith x x) v) = 0%float.
Proof.
  unfold Rag.sum. induction 1 as [|x v -> _ IH]; [done|]. exact IH.
Qed.

(** A vector all of whose components are [0.0] is at similarity [0.0] from
    every vector. *)
Lemma cosine_zero_vector_binary64 (v w : list float) :
  Forall (fun x => x = 0%float) v ->
  Rag._cosine_similarity Rag.float_arith v w = 0%float.
Proof.
  intros Hv. destruct v as [|x xs], w as [|y ys]; try done.
  unfold Rag._cosine_similarity.
  change (Nat.min (length (x :: xs)) (length (y :: ys)) <=? 0)%nat with false.
  cbv iota zeta.
  rewrite (sum_zero_squares (take _ (x :: xs))) by (by apply Forall_take).
  reflexivity.
Qed.

End ZeroVector.


(** C8, witness.  Four chunks against the query [[3; 4]]: [[4; 3]] scores
    0.96, [[3; 4]] scores 1, [[-3; -4]] scores -1 and [[0; 0]] scores 0.  No
    score is [nan]; with [top_k = 2] the chunks selected are the second and
    the first, in descending order of similarity. *)
Definition scenario_chunks : list (Rag.RAGChunk float) :=
  [Rag.mkRAGChunk "doc_a" 0 "a" (Some [4; 3]%float) None;
   Rag.mkRAGChunk "doc_b" 0 "b" (Some [3; 4]%float) None;
   Rag.mkRAGChunk "doc_c" 0 "c" (Some [-3; -4]%float) None;
   Rag.mkRAGChunk "doc_d" 0 "d" (Some [0; 0]%float) None].


(** The similarity of a vector to itself on binary64 numbers.  The vector
    [[3; 4]] is at similarity 1 from itself and from [[3; 4; 7]], of which the
    first two components are read; [[0.5; 0.25]] is at a similarity just
    below 1 from itself; the zero vector is at similarity 0 from itself and is
    not selected; and so is a vector whose squares underflow. *)
Example C8_scenario_binary64 :
  let cosine := Rag._cosine_similarity Rag.float_arith in
  let chunk v := Rag.mkRAGChunk "doc_1" 0 "text" (Some v) None in
  cosine [3; 4]%float [3; 4]%float = 1%float /\
  cosine [3; 4]%float [3; 4; 7]%float = 1%float /\
  (let s := cosine [0.5; 0.25]%float [0.5; 0.25]%float in
   PrimFloat.ltb s 1 = true /\ PrimFloat.ltb 0x1.ffffffffffffp-1 s = true) /\
  Rag.select_chunks Rag.float_arith [3; 4]%float [chunk [3; 4]%float] 1
    = [(1%float, chunk [3; 4]%float)] /\
  cosine [0]%float [0]%float = 0%float /\
  Rag.select_chunks Rag.float_arith [0]%float [chunk [0]%float] 1 = [] /\
  cosine [0x1p-600]%float [0x1p-600]%float = 0%float /\
  Rag.select_chunks Rag.float_arith [0x1p-600]%float [chunk [0x1p-600]%float] 1 = [].
Proof. cbv zeta. split_and!; vm_compute; reflexivity. Qed.

(** A vector whose squares overflow is at similarity [nan] from itself
    (the quotient of two infinities); as [nan <= 0] does not hold, the chunk
    is selected, with [nan] for score. *)
Example C8_scenario_nan_score :
  let cosine := Rag._cosine_similarity Rag.float_arith in
  let chunk := Rag.mkRAGChunk "doc_1" 0 "text" (Some [0x1p+700]%float) None in
  PrimFloat.is_nan (cosine [0x1p+700]%float [0x1p+700]%float) = true /\
  map snd (Rag.select_chunks Rag.float_arith [0x1p+700]%float [chunk] 1) = [chunk] /\
  map (fun item => PrimFloat.is_nan item.1)
    (Rag.select_chunks Rag.float_arith [0x1p+700]%float [chunk] 1) = [true].
Proof. cbv zeta. split_and!; vm_compute; reflexivity. Qed.
